(** * Token balancing and request routing in the BST agent tree

    A shallow embedding of [shared/utils/token_balancer.py],
    [shared/types/node.py] and the [process] methods of the tree nodes
    ([tree/M000] ... [tree/M222]), together with the properties the
    specification states about them.

    Python's [float] is IEEE 754 binary64.  It is modelled by [spec_float]
    of the Standard Library at precision 53 and maximal exponent 1024, whose
    operations are plain functions; Python's [int] is [Z].  A raised Python
    exception is a value of [exn] returned in an [outcome]. *)

From Stdlib Require Import ZArith List String Ascii Bool Lia.
From Stdlib Require Import Floats.SpecFloat.
From stdpp Require Import gmap strings pretty.

Local Open Scope string_scope.
Local Open Scope Z_scope.

(** ** Exceptions and outcomes *)

Inductive exn : Type :=
| OverflowError
| ValueError
| ZeroDivisionError
| AttributeError
| IndexError
| KeyError
| TypeError.

Inductive outcome (A : Type) : Type :=
| Ok (a : A)
| Raise (e : exn).

Arguments Ok {A} a.
Arguments Raise {A} e.

Definition obind {A B : Type} (x : outcome A) (f : A -> outcome B) : outcome B :=
  match x with
  | Ok a => f a
  | Raise e => Raise e
  end.

Notation "'let!' x ':=' c1 'in' c2" := (obind c1 (fun x => c2))
  (at level 10, x name, c1 at level 100, c2 at level 200).

Definition is_ok {A : Type} (x : outcome A) : bool :=
  match x with Ok _ => true | Raise _ => false end.

(** ** Python floats *)

Module PyFloat.

Abbreviation float := spec_float.

Definition prec : Z := 53.
Definition emax : Z := 1024.

Definition fadd : float -> float -> float := SFadd prec emax.
Definition fmul : float -> float -> float := SFmul prec emax.
Definition fdiv : float -> float -> float := SFdiv prec emax.
Definition feqb : float -> float -> bool := SFeqb.
Definition fltb : float -> float -> bool := SFltb.

(** Literals of the source, as mantissa and exponent. *)
Definition f0 : float := S754_zero false.                        (* 0.0 *)
Definition f1 : float := S754_finite false 4503599627370496 (-52). (* 1.0 *)
Definition f5 : float := S754_finite false 5629499534213120 (-50). (* 5.0 *)
Definition f0_1 : float := S754_finite false 7205759403792794 (-56). (* 0.1 *)
Definition f0_2 : float := S754_finite false 7205759403792794 (-55). (* 0.2 *)
Definition f0_8 : float := S754_finite false 7205759403792794 (-53). (* 0.8 *)
Definition f0_9 : float := S754_finite false 8106479329266893 (-53). (* 0.9 *)
Definition f1_1 : float := S754_finite false 4953959590107546 (-52). (* 1.1 *)

Definition is_zero (x : float) : bool :=
  match x with S754_zero _ => true | _ => false end.

Definition is_finite (x : float) : bool :=
  match x with S754_zero _ | S754_finite _ _ _ => true | _ => false end.

(** [float(n)] for an [int] [n]: the nearest double, ties to even;
    [OverflowError] when [n] is too large for a double. *)
Definition float_of_int (n : Z) : outcome float :=
  match binary_normalize prec emax n 0 false with
  | S754_infinity _ => Raise OverflowError
  | x => Ok x
  end.

(** [int(x)] for a float [x]: truncation towards zero; [ValueError] on
    NaN and [OverflowError] on an infinity. *)
Definition int_of_float (x : float) : outcome Z :=
  match x with
  | S754_zero _ => Ok 0
  | S754_finite s m e =>
      let a := match e with
               | Zneg p => Z.shiftr (Zpos m) (Zpos p)
               | _ => Z.shiftl (Zpos m) e
               end in
      Ok (if s then - a else a)
  | S754_infinity _ => Raise OverflowError
  | S754_nan => Raise ValueError
  end.

(** [x / y] on floats: [ZeroDivisionError] when [y] is a zero. *)
Definition truediv (x y : float) : outcome float :=
  if is_zero y then Raise ZeroDivisionError else Ok (fdiv x y).

(** [a / b] on two [int]s: the correctly rounded quotient. *)
Definition exact (n : Z) : float :=
  match n with
  | Z0 => S754_zero false
  | Zpos p => S754_finite false p 0
  | Zneg p => S754_finite true p 0
  end.

Definition int_truediv (a b : Z) : outcome float :=
  if Z.eqb b 0 then Raise ZeroDivisionError
  else match fdiv (exact a) (exact b) with
       | S754_infinity _ => Raise OverflowError
       | x => Ok x
       end.

(** [x] is not a NaN and carries the sign bit [s]. *)
Definition signed_as (s : bool) (x : float) : Prop :=
  match x with
  | S754_zero s' | S754_infinity s' | S754_finite s' _ _ => s' = s
  | S754_nan => False
  end.

(** The smallest exponent the rounding to a double allows for a number of
    [k] binary digits and exponent 0 ([fexp] at the precision of a double). *)
Definition fexp64 (k : Z) : Z := Z.max (k - 53) (-1074).

(** A weight the distribution can work with: a zero, or a positive finite
    number whose exponent a double can have. *)
Definition tame (x : float) : bool :=
  match x with
  | S754_zero _ => true
  | S754_finite false _ e => Z.leb (-1074) e
  | _ => false
  end.

(** Below [2^M] in magnitude. *)
Definition below (M : Z) (x : float) : Prop :=
  match x with
  | S754_zero _ => True
  | S754_finite _ m e => Zpos (digits2_pos m) + e <= M
  | _ => False
  end.

(** [t] can divide [x] without a blow-up: [x] is a zero or no larger in
    magnitude than [t], and [t] is no zero and no NaN. *)
Definition dominates (t x : float) : Prop :=
  match x, t with
  | S754_zero _, (S754_finite _ _ _ | S754_infinity _) => True
  | S754_finite _ m e, S754_finite _ m' e' =>
      Zpos (digits2_pos m) + e <= Zpos (digits2_pos m') + e'
  | S754_finite _ _ _, S754_infinity _ => True
  | _, _ => False
  end.

End PyFloat.
Import PyFloat.

(** ** The tree of nodes ([shared/types/node.py]) *)

Inductive NodeLevel : Type := ROOT | LEVEL_1 | LEVEL_2 | LEAF.

Definition NodeLevel_eqb (a b : NodeLevel) : bool :=
  match a, b with
  | ROOT, ROOT | LEVEL_1, LEVEL_1 | LEVEL_2, LEVEL_2 | LEAF, LEAF => true
  | _, _ => false
  end.

(** [NodeConfig]: the fields the modelled methods read. *)
Record NodeConfig : Type := mkNodeConfig {
  cfg_node_id : string;
  level : NodeLevel;
  token_budget : Z
}.

(** [BSTNode]: the configuration, the two child pointers ([None] is the
    Python [None]) and the token account. *)
#[local] Unset Elimination Schemes.
Inductive BSTNode : Type :=
  mkBSTNode (config : NodeConfig) (left right : option BSTNode)
            (_token_allocation _tokens_consumed : Z).
#[local] Set Elimination Schemes.

Definition config (n : BSTNode) : NodeConfig :=
  match n with mkBSTNode c _ _ _ _ => c end.
Definition left (n : BSTNode) : option BSTNode :=
  match n with mkBSTNode _ l _ _ _ => l end.
Definition right (n : BSTNode) : option BSTNode :=
  match n with mkBSTNode _ _ r _ _ => r end.
Definition _token_allocation (n : BSTNode) : Z :=
  match n with mkBSTNode _ _ _ a _ => a end.
Definition _tokens_consumed (n : BSTNode) : Z :=
  match n with mkBSTNode _ _ _ _ c => c end.

(** [BSTNode.__init__] *)
Definition new_node (c : NodeConfig) (l r : option BSTNode) : BSTNode :=
  mkBSTNode c l r (token_budget c) 0.

Definition node_id (n : BSTNode) : string := cfg_node_id (config n).
Definition tokens_remaining (n : BSTNode) : Z := _token_allocation n - _tokens_consumed n.

(** [consume_tokens]: the node afterwards and the returned flag. *)
Definition consume_tokens (n : BSTNode) (amount : Z) : BSTNode * bool :=
  if Z.ltb (tokens_remaining n) amount then (n, false)
  else (mkBSTNode (config n) (left n) (right n)
                  (_token_allocation n) (_tokens_consumed n + amount), true).

Definition reset_tokens (n : BSTNode) : BSTNode :=
  mkBSTNode (config n) (left n) (right n) (_token_allocation n) 0.

Definition set_allocation (n : BSTNode) (tokens : Z) : BSTNode :=
  mkBSTNode (config n) (left n) (right n) tokens (_tokens_consumed n).

(** Induction on the tree, through the optional children. *)
Definition on_child (P : BSTNode -> Prop) (o : option BSTNode) : Prop :=
  match o with Some c => P c | None => True end.

Fixpoint BSTNode_tree_ind (P : BSTNode -> Prop)
    (H : forall c l r a t, on_child P l -> on_child P r -> P (mkBSTNode c l r a t))
    (n : BSTNode) : P n :=
  match n with
  | mkBSTNode c l r a t =>
      H c l r a t
        (match l return on_child P l with
         | Some x => BSTNode_tree_ind P H x | None => I end)
        (match r return on_child P r with
         | Some x => BSTNode_tree_ind P H x | None => I end)
  end.

(** [_collect_all_leaves] of the root node: the leaf-level nodes reached
    without passing through a leaf-level node. *)
Fixpoint _collect_all_leaves (n : BSTNode) : list BSTNode :=
  match n with
  | mkBSTNode c l r _ _ =>
      if NodeLevel_eqb (level c) LEAF then [n]
      else match l with Some x => _collect_all_leaves x | None => [] end
        ++ match r with Some x => _collect_all_leaves x | None => [] end
  end.

Definition leaves_of (o : option BSTNode) : list BSTNode :=
  match o with Some x => _collect_all_leaves x | None => [] end.

Definition leaf_ids (n : BSTNode) : list string := map node_id (_collect_all_leaves n).

(** The shape the data model prescribes: an internal node owns exactly two
    children. *)
Fixpoint two_children (n : BSTNode) : Prop :=
  match n with
  | mkBSTNode c l r _ _ =>
      if NodeLevel_eqb (level c) LEAF then True
      else match l, r with
           | Some x, Some y => two_children x /\ two_children y
           | _, _ => False
           end
  end.

(** ** The token balancer ([shared/utils/token_balancer.py]) *)

Record NodeWeight : Type := mkNodeWeight {
  historical_usage : float;
  queue_depth : Z;
  complexity : float;
  priority : Z
}.

(** [NodeWeight()] *)
Definition default_NodeWeight : NodeWeight := mkNodeWeight f1 0 f1 5.

(** The property [NodeWeight.total_weight]. *)
Definition total_weight (w : NodeWeight) : outcome float :=
  let base := fmul (historical_usage w) (complexity w) in
  let! qd := float_of_int (queue_depth w) in
  let queue_factor := fadd f1 (fmul qd f0_1) in
  let! p := float_of_int (priority w) in
  let! priority_factor := truediv p f5 in
  Ok (fmul (fmul base queue_factor) priority_factor).

Record AllocationRecord : Type := mkAllocationRecord {
  rec_node_id : string;
  allocated : Z;
  consumed : Z;
  timestamp : float
}.

(** The property [AllocationRecord.utilization]. *)
Definition utilization (r : AllocationRecord) : outcome float :=
  if Z.eqb (allocated r) 0 then Ok f0
  else int_truediv (consumed r) (allocated r).

Record TokenBalancer : Type := mkTokenBalancer {
  total_budget : Z;
  leaf_allocations : gmap string AllocationRecord;
  node_weights : gmap string NodeWeight;
  _weight_cache : gmap string float;
  _cache_valid : bool
}.

(** [TokenBalancer(total_budget)] *)
Definition new_balancer (budget : Z) : TokenBalancer :=
  mkTokenBalancer budget ∅ ∅ ∅ false.

Definition set_leaf_allocations (self : TokenBalancer)
    (m : gmap string AllocationRecord) : TokenBalancer :=
  mkTokenBalancer (total_budget self) m (node_weights self)
                  (_weight_cache self) (_cache_valid self).

Definition set_node_weights (self : TokenBalancer)
    (m : gmap string NodeWeight) : TokenBalancer :=
  mkTokenBalancer (total_budget self) (leaf_allocations self) m
                  (_weight_cache self) (_cache_valid self).

Definition set_weight_cache (self : TokenBalancer)
    (m : gmap string float) : TokenBalancer :=
  mkTokenBalancer (total_budget self) (leaf_allocations self) (node_weights self)
                  m (_cache_valid self).

Definition get_allocation (self : TokenBalancer) (id : string) : Z :=
  match leaf_allocations self !! id with
  | Some r => allocated r
  | None => 0
  end.

Definition _invalidate_cache (self : TokenBalancer) : TokenBalancer :=
  mkTokenBalancer (total_budget self) (leaf_allocations self) (node_weights self)
                  ∅ false.

(** [_get_node_weight]: a missing entry is created with the defaults. *)
Definition _get_node_weight (self : TokenBalancer) (id : string)
  : TokenBalancer * NodeWeight :=
  match node_weights self !! id with
  | Some w => (self, w)
  | None => (set_node_weights self (<[id := default_NodeWeight]> (node_weights self)),
             default_NodeWeight)
  end.

(** [_calculate_weight] on a node that is not [None]. *)
Fixpoint _calculate_weight_node (self : TokenBalancer) (node : BSTNode)
  : TokenBalancer * outcome float :=
  match node with
  | mkBSTNode c l r _ _ =>
      let id := cfg_node_id c in
      match (if _cache_valid self then _weight_cache self !! id else None) with
      | Some w => (self, Ok w)
      | None =>
          let '(self, res) :=
            if NodeLevel_eqb (level c) LEAF then
              let '(self, w) := _get_node_weight self id in
              (self, total_weight w)
            else
              let '(self, left_r) :=
                match l with
                | Some x => _calculate_weight_node self x
                | None => (self, Ok f0)
                end in
              match left_r with
              | Raise e => (self, Raise e)
              | Ok left_w =>
                  let '(self, right_r) :=
                    match r with
                    | Some x => _calculate_weight_node self x
                    | None => (self, Ok f0)
                    end in
                  match right_r with
                  | Raise e => (self, Raise e)
                  | Ok right_w => (self, Ok (fadd left_w right_w))
                  end
              end in
          match res with
          | Raise e => (self, Raise e)
          | Ok weight =>
              (set_weight_cache self (<[id := weight]> (_weight_cache self)), Ok weight)
          end
      end
  end.

Definition _calculate_weight (self : TokenBalancer) (node : option BSTNode)
  : TokenBalancer * outcome float :=
  match node with
  | None => (self, Ok f0)
  | Some x => _calculate_weight_node self x
  end.

(** The split at an internal node (the arithmetic of [_distribute]):
    the budgets handed to the left and to the right child. *)
Definition split_budget (available_budget : Z) (left_weight right_weight : float)
  : outcome (Z * Z) :=
  let total_weight := fadd left_weight right_weight in
  let total_weight := if feqb total_weight f0 then f1 else total_weight in
  let! ratio := truediv left_weight total_weight in
  let! budget := float_of_int available_budget in
  let! left_budget := int_of_float (fmul budget ratio) in
  let right_budget := available_budget - left_budget in
  Ok (left_budget, right_budget).

(** [_distribute] on a node that is not [None]: the balancer and the node
    afterwards, and the returned value or the exception. *)
Fixpoint _distribute_node (self : TokenBalancer) (node : BSTNode)
    (available_budget : Z) : TokenBalancer * BSTNode * outcome Z :=
  match node with
  | mkBSTNode c l r a t =>
      if NodeLevel_eqb (level c) LEAF then
        (set_leaf_allocations self
           (<[cfg_node_id c := mkAllocationRecord (cfg_node_id c) available_budget 0 f0]>
              (leaf_allocations self)),
         mkBSTNode c l r available_budget t,
         Ok available_budget)
      else
        let '(self, left_r) := _calculate_weight self l in
        match left_r with
        | Raise e => (self, node, Raise e)
        | Ok left_weight =>
        let '(self, right_r) := _calculate_weight self r in
        match right_r with
        | Raise e => (self, node, Raise e)
        | Ok right_weight =>
        match split_budget available_budget left_weight right_weight with
        | Raise e => (self, node, Raise e)
        | Ok (left_budget, right_budget) =>
        let '(self, l', o) :=
          match l with
          | Some x => let '(s, x', o) := _distribute_node self x left_budget in
                      (s, Some x', o)
          | None => (self, None, Ok 0)
          end in
        match o with
        | Raise e => (self, mkBSTNode c l' r a t, Raise e)
        | Ok _ =>
        let '(self, r', o) :=
          match r with
          | Some x => let '(s, x', o) := _distribute_node self x right_budget in
                      (s, Some x', o)
          | None => (self, None, Ok 0)
          end in
        match o with
        | Raise e => (self, mkBSTNode c l' r' a t, Raise e)
        | Ok _ => (self, mkBSTNode c l' r' a t, Ok available_budget)
        end end end end end
  end.

Definition _distribute (self : TokenBalancer) (node : option BSTNode)
    (available_budget : Z) : TokenBalancer * option BSTNode * outcome Z :=
  match node with
  | None => (self, None, Ok 0)
  | Some x => let '(s, x', o) := _distribute_node self x available_budget in
              (s, Some x', o)
  end.

(** The dictionary the public methods return. *)
Definition allocation_map (self : TokenBalancer) : gmap string Z :=
  allocated <$> leaf_allocations self.

Definition balance_tokens (self : TokenBalancer) (tree_root : option BSTNode)
  : TokenBalancer * option BSTNode * outcome (gmap string Z) :=
  let self := _invalidate_cache self in
  let '(self, tree, o) := _distribute self tree_root (total_budget self) in
  (self, tree, let! _ := o in Ok (allocation_map self)).

(** [update_weight]: the keyword arguments that name a weight factor. *)
Inductive weight_kwarg : Type :=
| kw_historical_usage (v : float)
| kw_queue_depth (v : Z)
| kw_complexity (v : float)
| kw_priority (v : Z).

Definition setattr_weight (w : NodeWeight) (kw : weight_kwarg) : NodeWeight :=
  match kw with
  | kw_historical_usage v => mkNodeWeight v (queue_depth w) (complexity w) (priority w)
  | kw_queue_depth v => mkNodeWeight (historical_usage w) v (complexity w) (priority w)
  | kw_complexity v => mkNodeWeight (historical_usage w) (queue_depth w) v (priority w)
  | kw_priority v => mkNodeWeight (historical_usage w) (queue_depth w) (complexity w) v
  end.

Definition update_weight (self : TokenBalancer) (id : string)
    (kwargs : list weight_kwarg) : TokenBalancer :=
  let '(self, weight) := _get_node_weight self id in
  let weight := fold_left setattr_weight kwargs weight in
  _invalidate_cache (set_node_weights self (<[id := weight]> (node_weights self))).

Definition record_consumption (self : TokenBalancer) (id : string)
    (tokens_used : Z) : TokenBalancer :=
  match leaf_allocations self !! id with
  | Some r =>
      set_leaf_allocations self
        (<[id := mkAllocationRecord (rec_node_id r) (allocated r)
                   (consumed r + tokens_used) (timestamp r)]> (leaf_allocations self))
  | None => self
  end.

(** [_get_subtree_budget] *)
Fixpoint _get_subtree_budget_node (self : TokenBalancer) (node : BSTNode) : Z :=
  match node with
  | mkBSTNode c l r _ _ =>
      if NodeLevel_eqb (level c) LEAF then get_allocation self (cfg_node_id c)
      else match l with Some x => _get_subtree_budget_node self x | None => 0 end
         + match r with Some x => _get_subtree_budget_node self x | None => 0 end
  end.

Definition _get_subtree_budget (self : TokenBalancer) (node : option BSTNode) : Z :=
  match node with
  | None => 0
  | Some x => _get_subtree_budget_node self x
  end.

(** [_clear_subtree_allocations]: the allocation map afterwards. *)
Fixpoint _clear_subtree_allocations_node (m : gmap string AllocationRecord)
    (node : BSTNode) : gmap string AllocationRecord :=
  match node with
  | mkBSTNode c l r _ _ =>
      let m := if NodeLevel_eqb (level c) LEAF then delete (cfg_node_id c) m else m in
      let m := match l with Some x => _clear_subtree_allocations_node m x | None => m end in
      match r with Some x => _clear_subtree_allocations_node m x | None => m end
  end.

Definition _clear_subtree_allocations (self : TokenBalancer) (node : option BSTNode)
  : TokenBalancer :=
  match node with
  | None => self
  | Some x => set_leaf_allocations self
                (_clear_subtree_allocations_node (leaf_allocations self) x)
  end.

Definition rebalance_partial (self : TokenBalancer) (subtree_root : option BSTNode)
  : TokenBalancer * option BSTNode * outcome (gmap string Z) :=
  match subtree_root with
  | None => (self, None, Ok ∅)
  | Some _ =>
      let subtree_budget := _get_subtree_budget self subtree_root in
      let self := _clear_subtree_allocations self subtree_root in
      let '(self, tree, o) := _distribute self subtree_root subtree_budget in
      (self, tree, let! _ := o in Ok (allocation_map self))
  end.

(** [_recalculate_all_weights] on a node that is not [None]. *)
Fixpoint _recalculate_all_weights_node (self : TokenBalancer) (node : BSTNode)
  : TokenBalancer * outcome unit :=
  match node with
  | mkBSTNode c l r _ _ =>
      let id := cfg_node_id c in
      let '(self, o) :=
        match leaf_allocations self !! id with
        | Some record =>
            let '(self, weight) := _get_node_weight self id in
            match utilization record with
            | Raise e => (self, Raise e)
            | Ok u =>
                let scale k :=
                  set_node_weights self
                    (<[id := mkNodeWeight (fmul (historical_usage weight) k)
                               (queue_depth weight) (complexity weight)
                               (priority weight)]> (node_weights self)) in
                if fltb f0_8 u then (scale f1_1, Ok tt)
                else if fltb u f0_2 then (scale f0_9, Ok tt)
                else (self, Ok tt)
            end
        | None => (self, Ok tt)
        end in
      match o with
      | Raise e => (self, Raise e)
      | Ok _ =>
          let '(self, o) :=
            match l with
            | Some x => _recalculate_all_weights_node self x
            | None => (self, Ok tt)
            end in
          match o with
          | Raise e => (self, Raise e)
          | Ok _ =>
              match r with
              | Some x => _recalculate_all_weights_node self x
              | None => (self, Ok tt)
              end
          end
      end
  end.

Definition _recalculate_all_weights (self : TokenBalancer) (node : option BSTNode)
  : TokenBalancer * outcome unit :=
  match node with
  | None => (self, Ok tt)
  | Some x => _recalculate_all_weights_node self x
  end.

Definition rebalance_full (self : TokenBalancer) (tree_root : option BSTNode)
  : TokenBalancer * option BSTNode * outcome (gmap string Z) :=
  let self := _invalidate_cache self in
  let self := set_leaf_allocations self ∅ in
  let '(self, o) := _recalculate_all_weights self tree_root in
  match o with
  | Raise e => (self, tree_root, Raise e)
  | Ok _ =>
      let '(self, tree, o) := _distribute self tree_root (total_budget self) in
      (self, tree, let! _ := o in Ok (allocation_map self))
  end.

(** ** Sums of allocations *)

Definition sum_list (l : list Z) : Z := fold_right Z.add 0 l.

(** What the balancer has on record for the given leaf ids. *)
Definition allocated_to (self : TokenBalancer) (ids : list string) : Z :=
  sum_list (map (get_allocation self) ids).


(** ** Frame of [_distribute]: only the tree's own leaves are written *)

Definition frame_of_distribute (node : BSTNode) : Prop :=
  forall self B id,
    ~ In id (leaf_ids node) ->
    leaf_allocations (_distribute_node self node B).1.1 !! id
    = leaf_allocations self !! id.

(** The entry a returned allocation dictionary has for a leaf id. *)
Definition entry (allocs : gmap string Z) (id : string) : Z :=
  default 0 (allocs !! id).

(** The documented tree: M000 over M100 and M200, four handlers and the
    eight leaves M111 ... M222, with the budgets of their constructors. *)
Definition leaf (id : string) (budget : Z) : BSTNode :=
  new_node (mkNodeConfig id LEAF budget) None None.

Definition inner (id : string) (lv : NodeLevel) (budget : Z) (l r : BSTNode) : BSTNode :=
  new_node (mkNodeConfig id lv budget) (Some l) (Some r).

Definition documented_tree : BSTNode :=
  inner "M000" ROOT 100000
    (inner "M100" LEVEL_1 35000
       (inner "M110" LEVEL_2 10000 (leaf "M111" 5000) (leaf "M112" 3000))
       (inner "M120" LEVEL_2 20000 (leaf "M121" 8000) (leaf "M122" 10000)))
    (inner "M200" LEVEL_1 55000
       (inner "M210" LEVEL_2 25000 (leaf "M211" 15000) (leaf "M212" 8000))
       (inner "M220" LEVEL_2 25000 (leaf "M221" 12000) (leaf "M222" 10000))).

(** ** The zero-weight split, as the specification words it *)

(** An even split of [B]: the two shares differ by at most one token. *)
Definition even_split (B lb rb : Z) : Prop :=
  lb + rb = B /\ Z.abs (lb - rb) <= 1.

(** "Where the combined weight of both children is 0 the split does not
    fail and the budget is split evenly between the two children." *)
Definition zero_weight_splits_evenly : Prop :=
  forall B lw rw,
    0 <= B ->
    feqb (fadd lw rw) f0 = true ->
    exists lb rb, split_budget B lw rw = Ok (lb, rb) /\ even_split B lb rb.

(** Two leaves under one handler, both with [historical_usage = 0.0]. *)
Definition weightless_pair : BSTNode :=
  inner "M110" LEVEL_2 10000 (leaf "M111" 5000) (leaf "M112" 3000).

Definition weightless_balancer (budget : Z) : TokenBalancer :=
  update_weight
    (update_weight (new_balancer budget) "M111" [kw_historical_usage f0])
    "M112" [kw_historical_usage f0].

(** ** Reading the balancer's state *)

(** The weight factors of a node: the stored ones, or the defaults that
    [_get_node_weight] would create. *)
Definition weight_of (self : TokenBalancer) (id : string) : NodeWeight :=
  default default_NodeWeight (node_weights self !! id).

(** ** The weights a distribution reads *)

(** The weight [_calculate_weight] computes for a subtree while the cache
    is invalid, read off the weight factors. *)
Fixpoint subtree_weight (self : TokenBalancer) (node : BSTNode) : outcome float :=
  match node with
  | mkBSTNode c l r _ _ =>
      if NodeLevel_eqb (level c) LEAF then
        total_weight (weight_of self (cfg_node_id c))
      else
        let! left_w := match l with Some x => subtree_weight self x | None => Ok f0 end in
        let! right_w := match r with Some x => subtree_weight self x | None => Ok f0 end in
        Ok (fadd left_w right_w)
  end.

Definition weight_under (self : TokenBalancer) (o : option BSTNode) : outcome float :=
  match o with Some x => subtree_weight self x | None => Ok f0 end.

Definition tame_under (self : TokenBalancer) (o : option BSTNode) : bool :=
  match weight_under self o with Ok w => tame w | Raise _ => false end.

(** Every weight the distribution over [node] computes (the weights of the
    children of the internal nodes) is tame. *)
Fixpoint weights_tame (self : TokenBalancer) (node : BSTNode) : bool :=
  match node with
  | mkBSTNode c l r _ _ =>
      if NodeLevel_eqb (level c) LEAF then true
      else tame_under self l && tame_under self r
           && match l with Some x => weights_tame self x | None => true end
           && match r with Some x => weights_tame self x | None => true end
  end.

(** The number of splits on the longest path to a leaf. *)
Fixpoint height (node : BSTNode) : Z :=
  match node with
  | mkBSTNode c l r _ _ =>
      if NodeLevel_eqb (level c) LEAF then 0
      else 1 + Z.max (match l with Some x => height x | None => 0 end)
                     (match r with Some x => height x | None => 0 end)
  end.

(** The ids of the leaf-level nodes anywhere in a subtree: those whose
    records [_clear_subtree_allocations] deletes. *)
Fixpoint leaf_level_ids (n : BSTNode) : list string :=
  match n with
  | mkBSTNode c l r _ _ =>
      ((if NodeLevel_eqb (level c) LEAF then [cfg_node_id c] else [])
       ++ match l with Some x => leaf_level_ids x | None => [] end
       ++ match r with Some x => leaf_level_ids x | None => [] end)%list
  end.

(** A busy and an idle leaf under one handler: M111 has used 450 of its
    500 tokens, M112 none of its 500. *)
Definition handler_pair : BSTNode :=
  inner "M110" LEVEL_2 10000 (leaf "M111" 5000) (leaf "M112" 3000).

Definition busy_and_idle : TokenBalancer :=
  record_consumption
    (balance_tokens (new_balancer 1000) (Some handler_pair)).1.1 "M111" 450.

(** The documented tree after the root's initial distribution, and the
    balancer that made it. *)
Definition initial_balancer : TokenBalancer :=
  (balance_tokens (new_balancer 100000) (Some documented_tree)).1.1.

Definition initial_tree : BSTNode :=
  default documented_tree (balance_tokens (new_balancer 100000) (Some documented_tree)).1.2.

(** Its left subtree, the one under M100. *)
Definition left_subtree : BSTNode :=
  default documented_tree (left initial_tree).

(** M222 has used 700 tokens and M111 got the top priority since the
    initial distribution. *)
Definition skewed_balancer : TokenBalancer :=
  update_weight (record_consumption initial_balancer "M222" 700)
    "M111" [kw_priority 10].

(** ** Conservation, as the specification words it *)


(** ** Weight monotonicity, as the specification words it *)

(** The keyword argument raises one of the three factors of [w]. *)
Definition raises_factor (w : NodeWeight) (kw : weight_kwarg) : Prop :=
  match kw with
  | kw_historical_usage v => fltb (historical_usage w) v = true
  | kw_complexity v => fltb (complexity w) v = true
  | kw_priority v => priority w < v
  | kw_queue_depth _ => False
  end.

(** The factors of a weight lie where the data model puts them: the two
    multipliers finite and not negative, the queue depth not negative, the
    priority from 1 to 10. *)
Definition factors_in_range (w : NodeWeight) : Prop :=
  (is_finite (historical_usage w) = true /\ signed_as false (historical_usage w))
  /\ (is_finite (complexity w) = true /\ signed_as false (complexity w))
  /\ 0 <= queue_depth w
  /\ 1 <= priority w <= 10.

(** "Raising a leaf's priority, historical usage or complexity and
    distributing again never lowers that leaf's allocation." *)
Definition weight_monotonicity : Prop :=
  forall (self : TokenBalancer) (root : BSTNode) (id : string)
         (kw : weight_kwarg) (before after : gmap string Z),
    two_children root ->
    NoDup (leaf_ids root) ->
    In id (leaf_ids root) ->
    0 <= total_budget self ->
    (forall i, factors_in_range (weight_of self i)) ->
    factors_in_range (setattr_weight (weight_of self id) kw) ->
    raises_factor (weight_of self id) kw ->
    (balance_tokens self (Some root)).2 = Ok before ->
    (balance_tokens (update_weight self id [kw]) (Some root)).2 = Ok after ->
    entry before id <= entry after id.

(** 1.75, the next float above it, and 0.25000000000000017. *)
Definition f1_75 : float := S754_finite false 7881299347898368 (-52).
Definition f1_75_next : float := S754_finite false 7881299347898369 (-52).
Definition f0_25_bit : float := S754_finite false 4503599627370499 (-54).

(** A budget of 8 over two leaves whose historical usage is 1.75 and
    0.25000000000000017. *)
Definition close_call : TokenBalancer :=
  update_weight
    (update_weight (new_balancer 8) "M111" [kw_historical_usage f1_75])
    "M112" [kw_historical_usage f0_25_bit].

(** * Requests and results *)

(** ** Python values in requests and payloads

    A [dict] with string keys is an association list in insertion order,
    read at the first entry of a key. *)

#[local] Unset Elimination Schemes.
Inductive pyval : Type :=
| VNone
| VBool (b : bool)
| VInt (z : Z)
| VStr (s : string)
| VList (l : list pyval)
| VDict (d : list (string * pyval)).
#[local] Set Elimination Schemes.

Abbreviation dict := (list (string * pyval)).

Fixpoint dict_lookup (d : dict) (k : string) : option pyval :=
  match d with
  | [] => None
  | (k', v) :: d' => if String.eqb k k' then Some v else dict_lookup d' k
  end.

(** [d.get(k, v)] and [d.get(k)] *)
Definition dict_get (d : dict) (k : string) (v : pyval) : pyval :=
  default v (dict_lookup d k).

Definition dict_get_none (d : dict) (k : string) : pyval := dict_get d k VNone.

(** [d[k] = v] *)
Fixpoint dict_set (d : dict) (k : string) (v : pyval) : dict :=
  match d with
  | [] => [(k, v)]
  | (k', v') :: d' =>
      if String.eqb k k' then (k', v) :: d' else (k', v') :: dict_set d' k v
  end.

(** [{**a, **b}] *)
Definition dict_merge (a b : dict) : dict :=
  fold_left (fun acc kv => dict_set acc kv.1 kv.2) b a.

(** The truth value of an object. *)
Definition truthy (v : pyval) : bool :=
  match v with
  | VNone => false
  | VBool b => b
  | VInt z => negb (Z.eqb z 0)
  | VStr s => negb (String.eqb s "")
  | VList l => match l with [] => false | _ => true end
  | VDict d => match d with [] => false | _ => true end
  end.

(** [len(v)] *)
Definition py_len (v : pyval) : outcome Z :=
  match v with
  | VStr s => Ok (Z.of_nat (String.length s))
  | VList l => Ok (Z.of_nat (List.length l))
  | VDict d => Ok (Z.of_nat (List.length d))
  | _ => Raise TypeError
  end.

(** [v.get(k, d)] on an object that may not be a dictionary. *)
Definition py_get (v : pyval) (k : string) (d : pyval) : outcome pyval :=
  match v with
  | VDict m => Ok (dict_get m k d)
  | _ => Raise AttributeError
  end.

(** [v[0]] *)
Definition py_first (v : pyval) : outcome pyval :=
  match v with
  | VList (x :: _) => Ok x
  | VList [] => Raise IndexError
  | VStr (String c _) => Ok (VStr (String c ""))
  | VStr "" => Raise IndexError
  | VDict _ => Raise KeyError
  | _ => Raise TypeError
  end.

(** [{**a, **b}] on objects that may not be mappings. *)
Definition py_merge (a b : pyval) : outcome pyval :=
  match a, b with
  | VDict x, VDict y => Ok (VDict (dict_merge x y))
  | _, _ => Raise TypeError
  end.

(** [v[k] = x] *)
Definition py_setitem (v : pyval) (k : string) (x : pyval) : outcome pyval :=
  match v with
  | VDict m => Ok (VDict (dict_set m k x))
  | _ => Raise TypeError
  end.

(** ** Results ([NodeResult], [InterfaceResult]) *)

Record NodeResult : Type := mkNodeResult {
  success : bool;
  data : pyval;
  error : option string;
  tokens_used : Z;
  result_node_id : string
}.

Record InterfaceResult : Type := mkInterfaceResult {
  ir_success : bool;
  ir_data : pyval;
  ir_error : option string;
  bytes_transferred : Z
}.

(** [s in t] on strings. *)
Fixpoint occurs_in (s t : string) : bool :=
  String.prefix s t
  || match t with
     | EmptyString => false
     | String _ t' => occurs_in s t'
     end.

(** ** What lies outside the nodes

    The external interfaces of the leaves, the clock and the text Python
    gives to objects and exceptions are collaborators: the nodes call them,
    and the properties hold whatever they answer. *)

Record Collaborators : Type := mkCollaborators {
  (** the state of everything behind the interfaces *)
  World : Type;
  (** [connect] of a leaf: a fresh interface object; the flag is the
      [success] of the interface's own [connect], read by M122 only *)
  connect : string -> World -> World * bool;
  (** a method of a leaf's interface that returns an [InterfaceResult] *)
  call : string -> string -> list pyval -> World -> World * outcome InterfaceResult;
  (** a method of a leaf's interface that returns a plain value *)
  call_value : string -> string -> list pyval -> World -> World * outcome pyval;
  (** [datetime.now()] in the given format *)
  now : World -> string -> string;
  (** [str(v)] of an object that is not a string *)
  py_str : pyval -> string;
  (** [str(e)] of a caught exception *)
  exn_str : exn -> string;
  (** the document M222 writes for a report type and its data *)
  report_document : pyval -> pyval -> outcome pyval;
  (** [s.upper()] of a string with a character outside ASCII: the case
      mapping of Unicode *)
  str_upper : string -> string
}.

(** * The leaves ([tree/M111] ... [tree/M222]) *)

Section Leaves.

Context (C : Collaborators).

(** [f"{v}"] *)
Definition format (v : pyval) : string :=
  match v with
  | VStr s => s
  | _ => py_str C v
  end.

(** [len(str(v))] *)
Definition str_len (v : pyval) : Z := Z.of_nat (String.length (format v)).

(** A leaf: its node and the connection flag. *)
Record LeafNode : Type := mkLeafNode {
  node : BSTNode;
  _connected : bool
}.

(** What a branch of [process] leaves behind: the world, and the interface
    result with the increment of [tokens_used], or the exception. *)
Definition branch : Type :=
  dict -> World C -> World C * outcome (InterfaceResult * Z).

(** A branch that calls one interface method and charges by its result. *)
Definition charged (id method : string) (args : list pyval)
    (extra : InterfaceResult -> outcome Z) (w : World C)
  : World C * outcome (InterfaceResult * Z) :=
  let '(w, r) := call C id method args w in
  (w, let! result := r in let! n := extra result in Ok (result, n)).

(** [result.bytes_transferred // k] *)
Definition per_bytes (k : Z) (result : InterfaceResult) : outcome Z :=
  Ok (bytes_transferred result / k).

Definition flat (n : Z) (_ : InterfaceResult) : outcome Z := Ok n.

(** [len(result.data) * k if result.success else 10] *)
Definition per_row (k : Z) (result : InterfaceResult) : outcome Z :=
  if ir_success result then let! n := py_len (ir_data result) in Ok (n * k)
  else Ok 10.

(** The static part of a leaf: its id, the base cost, the action taken when
    the request names none, and the branches of the recognized actions. *)
Record LeafSpec : Type := mkLeafSpec {
  leaf_id : string;
  base_cost : Z;
  default_action : string;
  branches : string -> option branch
}.

(** M111, the YAML configuration handler. *)
Definition M111 : LeafSpec :=
  mkLeafSpec "M111" 10 "read" (fun action =>
    if String.eqb action "read" then Some (fun input_data =>
      let path := dict_get input_data "path" (VStr "config/settings.yaml") in
      charged "M111" "read" [path] (per_bytes 100))
    else if String.eqb action "write" then Some (fun input_data =>
      let path := dict_get input_data "path" (VStr "config/settings.yaml") in
      let data := dict_get input_data "data" (VDict []) in
      charged "M111" "write" [path; data] (per_bytes 50))
    else None).

(** M112, the log writer. *)
Definition LogLevel : list string := ["DEBUG"; "INFO"; "WARNING"; "ERROR"; "CRITICAL"].

Definition M112 : LeafSpec :=
  mkLeafSpec "M112" 5 "log" (fun action =>
    if String.eqb action "log" then Some (fun input_data w =>
      let path := dict_get input_data "path" (VStr "logs/app.log") in
      match dict_get input_data "level" (VStr "INFO") with
      | VStr level =>
          if existsb (String.eqb level) LogLevel then
            let message := dict_get input_data "message" (VStr "") in
            let node_id := dict_get input_data "node_id" (VStr "M112") in
            let entry := now C w "isoformat" ++ " - " ++ level ++ " - "
                         ++ format node_id ++ " - " ++ format message in
            charged "M112" "write" [path; VStr entry]
              (fun _ => let! n := py_len message in Ok (n / 100)) w
          else (w, Raise KeyError)
      | VList _ | VDict _ => (w, Raise TypeError)
      | _ => (w, Raise KeyError)
      end)
    else if String.eqb action "read" then Some (fun input_data =>
      let path := dict_get input_data "path" (VStr "logs/app.log") in
      charged "M112" "read" [path] (per_bytes 200))
    else if String.eqb action "clear" then Some (fun input_data w =>
      let path := dict_get input_data "path" (VStr "logs/app.log") in
      let '(w, r) := call_value C "M112" "clear" [path] w in
      (w, let! _ := r in
          Ok (mkInterfaceResult true (VDict [("cleared", path)]) None 0, 0)))
    else None).

(** M121, the Excel handler. *)
Definition M121 : LeafSpec :=
  mkLeafSpec "M121" 15 "read" (fun action =>
    if String.eqb action "read" then Some (fun input_data =>
      let path := dict_get input_data "path" (VStr "tenants.xlsx") in
      charged "M121" "read" [path] (per_bytes 50))
    else if String.eqb action "write" then Some (fun input_data =>
      let path := dict_get input_data "path" (VStr "tenants.xlsx") in
      let data := dict_get input_data "data" (VDict []) in
      charged "M121" "write" [path; data] (per_bytes 25))
    else if String.eqb action "get_sheet" then Some (fun input_data w =>
      let path := dict_get input_data "path" (VStr "tenants.xlsx") in
      let sheet := dict_get input_data "sheet" (VStr "Sheet1") in
      let '(w, r) := call_value C "M121" "get_sheet" [path; sheet] w in
      (w, let! sheet_data := r in
          let result := mkInterfaceResult true sheet_data None (str_len sheet_data) in
          let! n := py_len sheet_data in
          Ok (result, n * 5)))
    else if String.eqb action "add_row" then Some (fun input_data w =>
      let path := dict_get input_data "path" (VStr "tenants.xlsx") in
      let sheet := dict_get input_data "sheet" (VStr "Sheet1") in
      let row_data := dict_get input_data "data" (VDict []) in
      let '(w, r) := call_value C "M121" "add_row" [path; sheet; row_data] w in
      (w, let! added := r in
          Ok (mkInterfaceResult (truthy added)
                (VDict [("added", row_data)]) None 0, 20)))
    else None).

(** M122, the SQL database handler. *)
Definition M122 : LeafSpec :=
  mkLeafSpec "M122" 20 "query" (fun action =>
    if String.eqb action "query" then Some (fun input_data =>
      let sql := dict_get input_data "sql" (VStr "") in
      let params := dict_get input_data "params" (VDict []) in
      charged "M122" "query" [sql; params] (per_bytes 20))
    else if String.eqb action "execute" then Some (fun input_data =>
      let sql := dict_get input_data "sql" (VStr "") in
      let params := dict_get input_data "params" (VDict []) in
      charged "M122" "execute" [sql; params] (flat 30))
    else if String.eqb action "get_tenant" then Some (fun input_data =>
      let tenant_id := dict_get_none input_data "id" in
      charged "M122" "query"
        [VStr "SELECT * FROM tenants WHERE id = :id"; VDict [("id", tenant_id)]]
        (flat 25))
    else if String.eqb action "get_tenants" then Some (fun input_data =>
      charged "M122" "query" [VStr "SELECT * FROM tenants"] (per_row 5))
    else if String.eqb action "add_tenant" then Some (fun input_data =>
      let data := dict_get input_data "data" (VDict []) in
      charged "M122" "execute" [VStr "INSERT INTO tenants"; data] (flat 40))
    else if String.eqb action "get_payments" then Some (fun input_data =>
      let tenant_id := dict_get_none input_data "tenant_id" in
      charged "M122" "query"
        [VStr "SELECT * FROM payments WHERE tenant_id = :tenant_id";
         VDict [("tenant_id", tenant_id)]]
        (per_row 3))
    else None).

(** M211, the MCP tools handler.  The interface lists its tools as the
    descriptions the branch returns. *)
Definition M211 : LeafSpec :=
  mkLeafSpec "M211" 50 "call" (fun action =>
    if String.eqb action "call" then Some (fun input_data =>
      let tool_name := dict_get input_data "tool" (VStr "") in
      let params := dict_get input_data "params" (VDict []) in
      charged "M211" "call" [VStr ("/tools/" ++ format tool_name); params]
        (per_bytes 10))
    else if String.eqb action "list" then Some (fun input_data w =>
      let '(w, r) := call_value C "M211" "list_tools" [] w in
      (w, let! tools := r in
          let! n := py_len tools in
          Ok (mkInterfaceResult true tools None 0, n * 10)))
    else if String.eqb action "status" then Some (fun input_data w =>
      let '(w, r) := call_value C "M211" "get_status" [] w in
      (w, let! status := r in
          Ok (mkInterfaceResult true status None 0, 5)))
    else None).

(** M212, the MCP resources handler. *)
Definition M212 : LeafSpec :=
  mkLeafSpec "M212" 30 "fetch" (fun action =>
    if String.eqb action "fetch" then Some (fun input_data =>
      let uri := dict_get input_data "uri" (VStr "") in
      charged "M212" "call" [uri; VDict [("uri", uri)]] (per_bytes 20))
    else if String.eqb action "render" then Some (fun input_data =>
      let uri := dict_get input_data "uri" (VStr "") in
      let variables := dict_get input_data "variables" (VDict []) in
      charged "M212" "call" [uri; VDict [("uri", uri); ("variables", variables)]]
        (per_bytes 15))
    else if String.eqb action "list" then Some (fun input_data w =>
      let '(w, r) := call_value C "M212" "list_resources" [] w in
      (w, let! resources := r in
          let! n := py_len resources in
          Ok (mkInterfaceResult true resources None 0, n * 5)))
    else if String.eqb action "status" then Some (fun input_data w =>
      let '(w, r) := call_value C "M212" "get_status" [] w in
      (w, let! status := r in
          Ok (mkInterfaceResult true status None 0, 5)))
    else None).

(** M222, the PDF generator. *)
Definition M222 : LeafSpec :=
  mkLeafSpec "M222" 40 "generate" (fun action =>
    if String.eqb action "generate" then Some (fun input_data w =>
      let report_type := dict_get input_data "report_type" (VStr "general") in
      let data := dict_get input_data "data" (VDict []) in
      let output_path :=
        dict_get input_data "output_path"
          (VStr ("reports/" ++ format report_type ++ "_" ++ now C w "%Y%m%d" ++ ".pdf")) in
      match report_document C report_type data with
      | Raise e => (w, Raise e)
      | Ok document => charged "M222" "write" [output_path; document] (per_bytes 10) w
      end)
    else if String.eqb action "read" then Some (fun input_data =>
      let path := dict_get input_data "path" (VStr "") in
      charged "M222" "read" [path]
        (fun result => Ok (if ir_success result then bytes_transferred result / 50
                           else 10)))
    else if String.eqb action "list" then Some (fun input_data w =>
      let '(w, r) := call_value C "M222" "list_documents" [] w in
      (w, let! documents := r in
          let! n := py_len documents in
          Ok (mkInterfaceResult true
                (VDict [("documents", documents); ("count", VInt n)]) None 0,
              n * 2)))
    else None).

(** [connect()] of a leaf: M122 is connected when its interface says so,
    the other leaves always. *)
Definition connect_leaf (id : string) (self : LeafNode) (w : World C)
  : LeafNode * World C :=
  let '(w, ok) := connect C id w in
  (mkLeafNode (node self) (if String.eqb id "M122" then ok else true), w).

Definition unknown_action (id : string) (tokens_used : Z) (action : pyval) : NodeResult :=
  mkNodeResult false VNone (Some ("Unknown action: " ++ format action)) tokens_used id.

Definition caught (id : string) (tokens_used : Z) (e : exn) : NodeResult :=
  mkNodeResult false VNone (Some (exn_str C e)) tokens_used id.

(** [process] of a leaf that reads the ["action"] of its request. *)
Definition leaf_process (L : LeafSpec) (self : LeafNode) (w : World C)
    (input_data : dict) : LeafNode * World C * NodeResult :=
  let '(self, w) :=
    if _connected self then (self, w) else connect_leaf (leaf_id L) self w in
  let tokens_used := base_cost L in
  let action := dict_get input_data "action" (VStr (default_action L)) in
  match (match action with VStr a => branches L a | _ => None end) with
  | None => (self, w, unknown_action (leaf_id L) tokens_used action)
  | Some run =>
      let '(w, r) := run input_data w in
      match r with
      | Raise e => (self, w, caught (leaf_id L) tokens_used e)
      | Ok (result, extra) =>
          let tokens_used := tokens_used + extra in
          let '(n, _) := consume_tokens (node self) tokens_used in
          (mkLeafNode n (_connected self), w,
           mkNodeResult (ir_success result) (ir_data result) (ir_error result)
                        tokens_used (leaf_id L))
      end
  end.

(** M221, the web interface: its [process] reads the ["method"], not the
    ["action"]; [upper] is [str.upper], applied before the [try].

    On a string of ASCII characters [str.upper] changes the letters a-z
    and nothing else; on a string with any other character it is the case
    mapping of Unicode (an accented small letter to its capital, the long
    s to [S], the sharp s to [SS]), which [str_upper] stands for. *)
Definition upper_ascii (c : ascii) : ascii :=
  let n := nat_of_ascii c in
  if andb (Nat.leb 97 n) (Nat.leb n 122) then ascii_of_nat (n - 32) else c.

Fixpoint is_ascii (s : string) : bool :=
  match s with
  | EmptyString => true
  | String c s' => Nat.ltb (nat_of_ascii c) 128 && is_ascii s'
  end.

Fixpoint upper_letters (s : string) : string :=
  match s with
  | EmptyString => EmptyString
  | String c s' => String (upper_ascii c) (upper_letters s')
  end.

Definition upper (s : string) : string :=
  if is_ascii s then upper_letters s else str_upper C s.

(** The interface method that M221 calls for a method in upper case, and
    its arguments. *)
Definition M221_request (method : string) (input_data : dict)
  : option (string * list pyval) :=
  let url := dict_get input_data "url" (VStr "") in
  let data := dict_get input_data "data" (VDict []) in
  let headers := dict_get input_data "headers" (VDict []) in
  if String.eqb method "GET" then Some ("get", [url; headers])
  else if String.eqb method "POST" then Some ("post", [url; data; headers])
  else if String.eqb method "PUT" then Some ("put", [url; data; headers])
  else if String.eqb method "DELETE" then Some ("delete", [url; headers])
  else None.

Definition M221_process (self : LeafNode) (w : World C) (input_data : dict)
  : LeafNode * World C * outcome NodeResult :=
  let '(self, w) :=
    if _connected self then (self, w) else connect_leaf "M221" self w in
  let tokens_used := 25 in
  match dict_get input_data "method" (VStr "GET") with
  | VStr m =>
      let method := upper m in
      match M221_request method input_data with
      | None =>
          (self, w,
           Ok (mkNodeResult false VNone (Some ("Unknown method: " ++ method))
                            tokens_used "M221"))
      | Some (name, args) =>
          let '(w, r) := call C "M221" name args w in
          match r with
          | Raise e => (self, w, Ok (caught "M221" tokens_used e))
          | Ok result =>
              let tokens_used := tokens_used + bytes_transferred result / 15 in
              let '(n, _) := consume_tokens (node self) tokens_used in
              (mkLeafNode n (_connected self), w,
               Ok (mkNodeResult (ir_success result) (ir_data result)
                                (ir_error result) tokens_used "M221"))
          end
      end
  | _ => (self, w, Raise AttributeError)
  end.

(** What the handler of a request adds to the base cost: the increment of
    the branch the request reaches, where the branch returns; [None] where
    the node does not know the action (M221: the method) or the interface
    raises, the two paths on which [consume_tokens] is not called. *)
Definition leaf_increment (L : LeafSpec) (self : LeafNode) (w : World C)
    (input_data : dict) : option Z :=
  let w0 := (if _connected self then (self, w)
             else connect_leaf (leaf_id L) self w).2 in
  match dict_get input_data "action" (VStr (default_action L)) with
  | VStr a =>
      match branches L a with
      | Some run =>
          match (run input_data w0).2 with
          | Ok (_, extra) => Some extra
          | Raise _ => None
          end
      | None => None
      end
  | _ => None
  end.

Definition M221_increment (self : LeafNode) (w : World C) (input_data : dict)
  : option Z :=
  let w0 := (if _connected self then (self, w)
             else connect_leaf "M221" self w).2 in
  match dict_get input_data "method" (VStr "GET") with
  | VStr m =>
      match M221_request (upper m) input_data with
      | Some (name, args) =>
          match (call C "M221" name args w0).2 with
          | Ok result => Some (bytes_transferred result / 15)
          | Raise _ => None
          end
      | None => None
      end
  | _ => None
  end.

End Leaves.

(** The leaves that dispatch on the action of the request. *)
Definition action_leaves (C : Collaborators) : list (LeafSpec C) :=
  [M111 C; M112 C; M121 C; M122 C; M211 C; M212 C; M222 C].

(** * The internal nodes and the root ([tree/M000] ... [tree/M220]) *)

(** What the internal nodes do for the actions they recognize is left to
    a handler over the state of the subtrees; the root's [initialize],
    [rebalance], [status] and [get_capabilities] are left to [root_action],
    which is given the workflow history to read. *)
Record WorkflowRecord : Type := mkWorkflowRecord {
  wf_id : string;
  wf_type : string;
  wf_timestamp : string;
  wf_success : bool;
  wf_tokens_used : Z
}.

Record Handlers : Type := mkHandlers {
  (** the state of the nodes below the root and of their interfaces *)
  Subtrees : Type;
  (** a recognized action of an internal node: id, action, request *)
  handle : string -> string -> dict -> Subtrees -> Subtrees * NodeResult;
  (** a root action that is not a workflow or a routing *)
  root_action : string -> dict -> list WorkflowRecord -> Subtrees
                -> Subtrees * NodeResult;
  (** [datetime.now().isoformat()] *)
  clock : Subtrees -> string
}.

Section Internal.

Context (C : Collaborators) (H : Handlers).

Record InternalSpec : Type := mkInternalSpec {
  internal_id : string;
  internal_base_cost : Z;
  internal_default_action : string;
  recognized : list string
}.

Definition M100 : InternalSpec :=
  mkInternalSpec "M100" 20 "system_status"
    ["initialize"; "get_tenant_data"; "save_tenant"; "config_update";
     "system_status"; "sync_data"].

Definition M110 : InternalSpec :=
  mkInternalSpec "M110" 5 "load_config"
    ["load_config"; "save_config"; "log"; "init_system"].

Definition M120 : InternalSpec :=
  mkInternalSpec "M120" 10 "get_tenants"
    ["get_tenants"; "add_tenant"; "import_excel"; "export_excel"; "sync"; "query"].

Definition M200 : InternalSpec :=
  mkInternalSpec "M200" 25 "status"
    ["process_request"; "generate_report"; "execute_tool"; "full_pipeline";
     "capabilities"; "status"].

Definition M210 : InternalSpec :=
  mkInternalSpec "M210" 15 "list_capabilities"
    ["call_tool"; "get_resource"; "execute_with_prompt"; "list_capabilities";
     "status"].

Definition M220 : InternalSpec :=
  mkInternalSpec "M220" 10 "api_request"
    ["api_request"; "generate_pdf"; "fetch_and_report"; "multi_output";
     "list_outputs"].

Definition internal_nodes : list InternalSpec := [M100; M110; M120; M200; M210; M220].

(** [process] of an internal node below the root. *)
Definition internal_process (I : InternalSpec) (s : Subtrees H) (input_data : dict)
  : Subtrees H * NodeResult :=
  let action := dict_get input_data "action" (VStr (internal_default_action I)) in
  let tokens_used := internal_base_cost I in
  match action with
  | VStr a =>
      if existsb (String.eqb a) (recognized I)
      then handle H (internal_id I) a input_data s
      else (s, unknown_action C (internal_id I) tokens_used action)
  | _ => (s, unknown_action C (internal_id I) tokens_used action)
  end.

(** [child.process(request)] on an object taken from a request: an object
    that is not a dictionary has no [get]. *)
Definition child_process (I : InternalSpec) (s : Subtrees H) (request : pyval)
  : Subtrees H * outcome NodeResult :=
  match request with
  | VDict d => let '(s, r) := internal_process I s d in (s, Ok r)
  | _ => (s, Raise AttributeError)
  end.

(** The root: the subtrees and the workflow history. *)
Record Root : Type := mkRoot {
  subtrees : Subtrees H;
  _workflow_history : list WorkflowRecord
}.

(** [f"{n:04d}"] *)
Definition digit (n : N) : string := String (ascii_of_N (48 + n)) "".

Definition format_04d (n : N) : string :=
  if N.ltb n 10000
  then digit (n / 1000) ++ digit (n / 100 mod 10) ++ digit (n / 10 mod 10)
       ++ digit (n mod 10)
  else pretty n.

Definition payload_if (r : NodeResult) : pyval :=
  if success r then data r else VNone.

(** [_execute_tenant_report_workflow] *)
Definition _execute_tenant_report_workflow (self : Root) (workflow_data : pyval)
  : Root * outcome NodeResult :=
  let tokens := 50 in
  let workflow_id :=
    "WF-" ++ format_04d (N.of_nat (length (_workflow_history self)) + 1) in
  let '(s, config_result) :=
    internal_process M100 (subtrees self)
      [("action", VStr "get_tenant_data"); ("include_config", VBool true)] in
  let tokens := tokens + tokens_used config_result in
  let tenant_data := if truthy workflow_data then workflow_data else VDict [] in
  let merged :=
    if success config_result then
      match tenant_data with
      | VDict _ =>
          let! tenants := py_get (data config_result) "tenants" (VList [VDict []]) in
          let! first := py_first tenants in
          py_merge tenant_data first
      | _ => Raise TypeError
      end
    else Ok tenant_data in
  match merged with
  | Raise e => (mkRoot s (_workflow_history self), Raise e)
  | Ok tenant_data =>
  match py_get tenant_data "id" (VInt 1) with
  | Raise e => (mkRoot s (_workflow_history self), Raise e)
  | Ok tenant_id =>
  let '(s, tool_result) :=
    internal_process M200 s
      [("action", VStr "execute_tool"); ("tool", VStr "get_tenant_info");
       ("params", VDict [("tenant_id", tenant_id)])] in
  let tokens := tokens + tokens_used tool_result in
  let stored :=
    if success tool_result then py_setitem tenant_data "processed" (data tool_result)
    else Ok tenant_data in
  match stored with
  | Raise e => (mkRoot s (_workflow_history self), Raise e)
  | Ok tenant_data =>
  let '(s, report_result) :=
    internal_process M200 s
      [("action", VStr "generate_report"); ("report_type", VStr "tenant_statement");
       ("data", tenant_data)] in
  let tokens := tokens + tokens_used report_result in
  let history :=
    (_workflow_history self
     ++ [mkWorkflowRecord workflow_id "tenant_report" (clock H s)
           (success report_result) tokens])%list in
  (mkRoot s history,
   Ok (mkNodeResult (success report_result)
         (VDict [("workflow_id", VStr workflow_id);
                 ("steps_completed", VInt 4);
                 ("config", payload_if config_result);
                 ("processing", payload_if tool_result);
                 ("report", payload_if report_result)])
         None tokens "M000"))
  end end end.

(** [_execute_data_sync_workflow] *)
Definition _execute_data_sync_workflow (self : Root) : Root * outcome NodeResult :=
  let tokens := 30 in
  let '(s, sync_result) :=
    internal_process M100 (subtrees self) [("action", VStr "sync_data")] in
  let tokens := tokens + tokens_used sync_result in
  (mkRoot s (_workflow_history self),
   Ok (mkNodeResult (success sync_result) (data sync_result) None tokens "M000")).

(** [_execute_full_pipeline] *)
Definition _execute_full_pipeline (self : Root) (workflow_data : pyval)
  : Root * outcome NodeResult :=
  let tokens := 100 in
  let '(s, config_result) :=
    internal_process M100 (subtrees self)
      [("action", VStr "get_tenant_data"); ("include_config", VBool true)] in
  let tokens := tokens + tokens_used config_result in
  match py_get workflow_data "tenant_id" (VInt 1) with
  | Raise e => (mkRoot s (_workflow_history self), Raise e)
  | Ok tenant_id =>
  let '(s, process_result) :=
    internal_process M200 s
      [("action", VStr "execute_tool"); ("tool", VStr "analyze_payments");
       ("params", VDict [("tenant_id", tenant_id); ("period", VStr "monthly")])] in
  let tokens := tokens + tokens_used process_result in
  let '(s, pdf_result) :=
    internal_process M200 s
      [("action", VStr "generate_report"); ("report_type", VStr "payment_history");
       ("data", VDict [("payments",
          VList [VDict [("amount", VInt 1500); ("date", VStr "2024-01-01");
                        ("method", VStr "check")]])])] in
  let tokens := tokens + tokens_used pdf_result in
  let all_success :=
    success config_result && success process_result && success pdf_result in
  (mkRoot s (_workflow_history self),
   Ok (mkNodeResult all_success
         (VDict [("pipeline_steps",
                  VList [VList [VStr "config_load"; VBool (success config_result)];
                         VList [VStr "mcp_process"; VBool (success process_result)];
                         VList [VStr "pdf_generate"; VBool (success pdf_result)]]);
                 ("config", payload_if config_result);
                 ("analysis", payload_if process_result);
                 ("report", payload_if pdf_result)])
         None tokens "M000"))
  end.

(** The [route_request] branch of the root's [process]. *)
Definition route_request (self : Root) (input_data : dict) : Root * outcome NodeResult :=
  let tokens := 30 in
  let target := dict_get input_data "target" (VStr "M100") in
  let request := dict_get input_data "request" (VDict []) in
  match target with
  | VStr t =>
      let forwarded :=
        if String.prefix "M1" t then Some (child_process M100 (subtrees self) request)
        else if String.prefix "M2" t then Some (child_process M200 (subtrees self) request)
        else None in
      match forwarded with
      | None =>
          (self, Ok (mkNodeResult false VNone
                       (Some ("Unknown target: " ++ t)) tokens "M000"))
      | Some (s, Raise e) => (mkRoot s (_workflow_history self), Raise e)
      | Some (s, Ok result) =>
          let tokens := tokens + tokens_used result in
          (mkRoot s (_workflow_history self),
           Ok (mkNodeResult (success result) (data result) (error result)
                            tokens "M000"))
      end
  | _ => (self, Raise AttributeError)
  end.

(** The [full_workflow] branch of the root's [process]. *)
Definition full_workflow (self : Root) (input_data : dict) : Root * outcome NodeResult :=
  let tokens := 30 in
  let workflow_type := dict_get input_data "workflow_type" (VStr "tenant_report") in
  let workflow_data := dict_get input_data "data" (VDict []) in
  let known (name : string) :=
    match workflow_type with VStr w => String.eqb w name | _ => false end in
  if known "tenant_report" then _execute_tenant_report_workflow self workflow_data
  else if known "data_sync" then _execute_data_sync_workflow self
  else if known "full_pipeline" then _execute_full_pipeline self workflow_data
  else (self, Ok (mkNodeResult false VNone
                    (Some ("Unknown workflow type: " ++ format C workflow_type))
                    tokens "M000")).

(** The actions of the root that [root_action] stands for. *)
Definition other_root_actions : list string :=
  ["initialize"; "rebalance"; "status"; "get_capabilities"].

(** [process] of the root. *)
Definition root_process (self : Root) (input_data : dict) : Root * NodeResult :=
  let action := dict_get input_data "action" (VStr "status") in
  let tokens := 30 in
  let attempt (r : Root * outcome NodeResult) : Root * NodeResult :=
    match r with
    | (self, Ok result) => (self, result)
    | (self, Raise e) => (self, caught C "M000" tokens e)
    end in
  match action with
  | VStr a =>
      if String.eqb a "full_workflow" then attempt (full_workflow self input_data)
      else if String.eqb a "route_request" then attempt (route_request self input_data)
      else if existsb (String.eqb a) other_root_actions then
        let '(s, result) :=
          root_action H a input_data (_workflow_history self) (subtrees self) in
        (mkRoot s (_workflow_history self), result)
      else (self, unknown_action C "M000" tokens action)
  | _ => (self, unknown_action C "M000" tokens action)
  end.

End Internal.

(** * Particular collaborators and requests *)

(** Interfaces that answer every call with a bare successful result, as
    [InterfaceResult(success=True)], and every plain call with [None]; the
    requests they are given are ASCII, and [str_upper] is not consulted. *)
Definition silent : Collaborators :=
  mkCollaborators unit
    (fun _ w => (w, true))
    (fun _ _ _ w => (w, Ok (mkInterfaceResult true VNone None 0)))
    (fun _ _ _ w => (w, Ok VNone))
    (fun _ _ => "")
    (fun _ => "")
    (fun _ => "")
    (fun _ _ => Ok VNone)
    (fun s => s).

(** An HTTP interface that finds no endpoint: what [MockHTTPInterface.get]
    answers for a URL that names none of its endpoints, the empty URL of a
    request without ["url"] among them. *)
Definition endpoint_not_found : Collaborators :=
  mkCollaborators unit
    (fun _ w => (w, true))
    (fun _ _ _ w => (w, Ok (mkInterfaceResult false VNone (Some "Endpoint not found") 0)))
    (fun _ _ _ w => (w, Ok VNone))
    (fun _ _ => "")
    (fun _ => "")
    (fun _ => "")
    (fun _ _ => Ok VNone)
    (fun s => s).

(** Subtrees that answer every recognized action with a success, an empty
    dictionary as payload and no cost, and keep count of the calls. *)
Definition counting : Handlers :=
  mkHandlers nat
    (fun id _ _ n => (S n, mkNodeResult true (VDict []) None 0 id))
    (fun _ _ _ n => (S n, mkNodeResult true (VDict []) None 30 "M000"))
    (fun _ => "").

(** The interfaces report byte counts that are not negative. *)
Definition counts_bytes (C : Collaborators) : Prop :=
  forall id method args w r,
    (call C id method args w).2 = Ok r -> 0 <= bytes_transferred r.

(** A leaf as its constructor leaves it, and with a given allocation. *)
Definition fresh_leaf (id : string) (budget : Z) : LeafNode :=
  mkLeafNode (leaf id budget) false.

Definition leaf_with (id : string) (budget allocation : Z) : LeafNode :=
  mkLeafNode (set_allocation (leaf id budget) allocation) false.

Definition bogus : dict := [("action", VStr "bogus")].

(** ** The claims on [process], as the specification words them *)

(** "The Result a leaf returns has [tokens_used >= 0] and no more than the
    tokens available to the leaf at the call." *)
Definition leaf_result_within_available : Prop :=
  forall (C : Collaborators) (L : LeafSpec C) (self : LeafNode) (w : World C)
         (input_data : dict),
    In L (action_leaves C) ->
    let r := (leaf_process C L self w input_data).2 in
    0 <= tokens_used r <= tokens_remaining (node self).

(** "On any node, a request with an action the node does not recognize
    gets [success = false] and an error that contains the action": at
    M221, whose [process] recognizes no action at all. *)
Definition unknown_action_fails_at_M221 : Prop :=
  forall (C : Collaborators) (self : LeafNode) (w : World C) (input_data : dict)
         (a : string),
    dict_lookup input_data "action" = Some (VStr a) ->
    exists r msg,
      (M221_process C self w input_data).2 = Ok r
      /\ success r = false
      /\ error r = Some msg
      /\ occurs_in a msg = true.

(** "A target that begins with the left prefix goes to the left subtree,
    every other target to the right subtree." *)
Definition routing_is_two_way : Prop :=
  forall (C : Collaborators) (H : Handlers) (self : Root H) (input_data : dict)
         (t : string),
    dict_lookup input_data "target" = Some (VStr t) ->
    route_request C H self input_data
    = let request := dict_get input_data "request" (VDict []) in
      let '(s, r) :=
        if String.prefix "M1" t then child_process C H M100 (subtrees H self) request
        else child_process C H M200 (subtrees H self) request in
      (mkRoot H s (_workflow_history H self),
       let! result := r in
       Ok (mkNodeResult (success result) (data result) (error result)
                        (30 + tokens_used result) "M000")).

(** The token account holds no more consumed than allocated. *)
Definition within_allocation (n : BSTNode) : Prop :=
  _tokens_consumed n <= _token_allocation n.

(** "[set_allocation] preserves [consumed <= allocated]." *)
Definition set_allocation_keeps_account : Prop :=
  forall (n : BSTNode) (tokens : Z),
    within_allocation n -> within_allocation (set_allocation n tokens).

(** "Every completed run of a named workflow appends exactly one entry to
    the workflow history." *)
Definition every_workflow_is_recorded : Prop :=
  forall (C : Collaborators) (H : Handlers) (self : Root H) (input_data : dict)
         (w : string) (after : Root H) (result : NodeResult),
    In w ["tenant_report"; "data_sync"; "full_pipeline"] ->
    dict_lookup input_data "workflow_type" = Some (VStr w) ->
    full_workflow C H self input_data = (after, Ok result) ->
    length (_workflow_history H after) = S (length (_workflow_history H self)).

(** The actions the root recognizes. *)
Definition root_actions : list string :=
  "full_workflow" :: "route_request" :: other_root_actions.

(** Two requests that differ at most in their ["action"]. *)
Definition same_but_action (d1 d2 : dict) : Prop :=
  forall k, k <> "action" -> dict_lookup d1 k = dict_lookup d2 k.

(** How a result and the account of the leaf that returned it relate: the
    result reports at least the base cost; the allocation is untouched; the
    account is charged what the result reports when that fits in what
    remained, and is left alone otherwise; so a leaf with less than the
    base cost remaining reports more than it had and is charged nothing. *)
Definition charged_if_affordable (base : Z) (before after : BSTNode)
    (r : NodeResult) : Prop :=
  (0 < base /\ base <= tokens_used r)
  /\ _token_allocation after = _token_allocation before
  /\ ((tokens_used r <= tokens_remaining before
       /\ _tokens_consumed after = _tokens_consumed before + tokens_used r)
      \/ _tokens_consumed after = _tokens_consumed before)
  /\ (tokens_remaining before < base ->
      tokens_remaining before < tokens_used r
      /\ _tokens_consumed after = _tokens_consumed before).

(** The account of a leaf after a request, by what the handler did.  Where
    the handler completed with the increment [extra], the Result reports
    the base cost and the increment, and the account was charged that
    amount if it fitted in what remained and nothing if it did not.  Where
    it did not complete, the Result is a failure at the base cost and the
    account was charged nothing. *)
Definition charged_exactly (base : Z) (completed : option Z)
    (before after : BSTNode) (r : NodeResult) : Prop :=
  0 < base
  /\ _token_allocation after = _token_allocation before
  /\ match completed with
     | Some extra =>
         0 <= extra
         /\ tokens_used r = base + extra
         /\ _tokens_consumed after
            = if tokens_used r <=? tokens_remaining before
              then _tokens_consumed before + tokens_used r
              else _tokens_consumed before
     | None =>
         tokens_used r = base
         /\ success r = false
         /\ _tokens_consumed after = _tokens_consumed before
     end.

(** M111 after it consumed 4000 of the 5000 tokens of its constructor. *)
Definition worn_leaf : BSTNode := (consume_tokens (leaf "M111" 5000) 4000).1.

(** Two leaves that hold 500 tokens each, M111 having consumed 450; then
    M112 is given nine times the historical usage and the 1000 tokens are
    distributed again. *)
Definition pair_in_use : BSTNode :=
  match (_distribute_node (new_balancer 1000) handler_pair 1000).1.2 with
  | mkBSTNode c (Some l) r a t => mkBSTNode c (Some (consume_tokens l 450).1) r a t
  | n => n
  end.

Definition pair_redistributed : BSTNode :=
  (_distribute_node
     (update_weight (new_balancer 1000) "M112"
        [kw_historical_usage (S754_finite false 5066549580791808 (-49))])
     pair_in_use 1000).1.2.

(** What forwarding a routed request to a child returns at the root. *)
Definition forwarded_to (C : Collaborators) (H : Handlers) (I : InternalSpec)
    (self : Root H) (request : pyval) : Root H * outcome NodeResult :=
  let '(s, r) := child_process C H I (subtrees H self) request in
  (mkRoot H s (_workflow_history H self),
   let! result := r in
   Ok (mkNodeResult (success result) (data result) (error result)
                    (30 + tokens_used result) "M000")).

(** The root as its constructor leaves it, over the counting subtrees. *)
Definition fresh_root : Root counting := mkRoot counting 0%nat [].

Definition run_workflow (self : Root counting) (workflow_type : string)
  : Root counting :=
  (root_process silent counting self
     [("action", VStr "full_workflow"); ("workflow_type", VStr workflow_type);
      ("data", VDict [])]).1.

(** * The distribution as a function of the weights *)

(** The shares a distribution of [B] over [node] hands to the leaves, left
    to right, computed from the weight factors alone. *)
Fixpoint shares (self : TokenBalancer) (node : BSTNode) (B : Z)
  : outcome (list (string * Z)) :=
  match node with
  | mkBSTNode c l r _ _ =>
      if NodeLevel_eqb (level c) LEAF then Ok [(cfg_node_id c, B)]
      else
        let! left_weight := weight_under self l in
        let! right_weight := weight_under self r in
        let! budgets := split_budget B left_weight right_weight in
        let! left_shares :=
          match l with Some x => shares self x budgets.1 | None => Ok [] end in
        let! right_shares :=
          match r with Some x => shares self x budgets.2 | None => Ok [] end in
        Ok (left_shares ++ right_shares)%list
  end.

(** The records [_distribute] writes for a list of shares, in order. *)
Definition write_shares (ss : list (string * Z)) (m : gmap string AllocationRecord)
  : gmap string AllocationRecord :=
  fold_left (fun m s => <[s.1 := mkAllocationRecord s.1 s.2 0 f0]> m) ss m.

(** The returned dictionary after the shares are written over [d]. *)
Definition assign_shares (ss : list (string * Z)) (d : gmap string Z) : gmap string Z :=
  fold_left (fun d s => <[s.1 := s.2]> d) ss d.

(** Two trees that differ at most in the token accounts of their nodes. *)
Fixpoint same_nodes (a b : BSTNode) : Prop :=
  match a, b with
  | mkBSTNode c l r _ _, mkBSTNode c' l' r' _ _ =>
      c = c'
      /\ match l, l' with
         | Some x, Some x' => same_nodes x x'
         | None, None => True
         | _, _ => False
         end
      /\ match r, r' with
         | Some y, Some y' => same_nodes y y'
         | None, None => True
         | _, _ => False
         end
  end.

(** A leaf after a distribution, against the leaf before and the balancer
    after: same id, same consumption counter, and the balancer's record
    for it carries the leaf's new allocation and no consumption. *)
Definition account_matches_record (s : TokenBalancer) (before after : BSTNode) : Prop :=
  node_id after = node_id before
  /\ _tokens_consumed after = _tokens_consumed before
  /\ leaf_allocations s !! node_id before
     = Some (mkAllocationRecord (node_id before) (_token_allocation after) 0 f0).

(** ** Floats that are not negative, and their order *)

(** A float of the format that is a zero, or positive and finite. *)
Definition sound (x : float) : bool :=
  match x with
  | S754_zero _ => true
  | S754_finite false m e => bounded prec emax m e
  | _ => false
  end.

(** The mantissa and the exponent; a zero has the mantissa 0. *)
Definition mantissa (x : float) : Z :=
  match x with S754_finite _ m _ => Zpos m | _ => 0 end.

Definition exponent (x : float) : Z :=
  match x with S754_finite _ _ e => e | _ => 0 end.

(** [x <= y] on the values of floats that are zeros or positive and
    finite: the mantissas compared at the smaller exponent. *)
Definition fle (x y : float) : Prop :=
  let k := Z.min (exponent x) (exponent y) in
  mantissa x * 2 ^ (exponent x - k) <= mantissa y * 2 ^ (exponent y - k).

(** Every weight the distribution over [node] reads is a float of the
    format that is a zero or positive and finite. *)
Definition sound_under (self : TokenBalancer) (o : option BSTNode) : bool :=
  match weight_under self o with Ok w => sound w | Raise _ => false end.

Fixpoint weights_sound (self : TokenBalancer) (node : BSTNode) : bool :=
  match node with
  | mkBSTNode c l r _ _ =>
      if NodeLevel_eqb (level c) LEAF then true
      else sound_under self l && sound_under self r
           && match l with Some x => weights_sound self x | None => true end
           && match r with Some x => weights_sound self x | None => true end
  end.

(** 0.5 *)
Definition f0_5 : float := S754_finite false 4503599627370496 (-53).

(** * M111's interface: [MockYAMLInterface] ([tree/M111/src/main.py]) *)

(** The objects a dictionary takes as keys. *)
Definition hashable (v : pyval) : bool :=
  match v with VList _ | VDict _ => false | _ => true end.

(** [a == b] on two keys: [True] and [False] are the numbers 1 and 0. *)
Definition as_int (v : pyval) : Z :=
  match v with
  | VBool true => 1
  | VInt z => z
  | _ => 0
  end.

Definition key_eqb (a b : pyval) : bool :=
  match a, b with
  | VNone, VNone => true
  | VStr x, VStr y => String.eqb x y
  | (VBool _ | VInt _), (VBool _ | VInt _) => Z.eqb (as_int a) (as_int b)
  | _, _ => false
  end.

(** [self._storage]: a dictionary from paths to what was written. *)
Definition yaml_storage : Type := list (pyval * pyval).

Fixpoint storage_get (st : yaml_storage) (path : pyval) : option pyval :=
  match st with
  | [] => None
  | (k, v) :: st' => if key_eqb path k then Some v else storage_get st' path
  end.

(** [self._storage[path] = data] *)
Fixpoint storage_set (st : yaml_storage) (path data : pyval) : yaml_storage :=
  match st with
  | [] => [(path, data)]
  | (k, v) :: st' =>
      if key_eqb path k then (k, data) :: st' else (k, v) :: storage_set st' path data
  end.

(** [self._default_config] *)
Definition default_config : pyval :=
  VDict [("database", VDict [("host", VStr "localhost"); ("port", VInt 5432);
                             ("name", VStr "tenant_db")]);
         ("logging", VDict [("level", VStr "INFO");
                            ("format",
                             VStr "%(asctime)s - %(name)s - %(levelname)s - %(message)s")]);
         ("api", VDict [("host", VStr "0.0.0.0"); ("port", VInt 8000);
                        ("debug", VBool false)])].

Section MockYAML.

Context (C : Collaborators).

(** [MockYAMLInterface.read] *)
Definition yaml_read (st : yaml_storage) (path : pyval) : outcome InterfaceResult :=
  if hashable path then
    match storage_get st path with
    | Some d => Ok (mkInterfaceResult true d None (str_len C d))
    | None => Ok (mkInterfaceResult true default_config None (str_len C default_config))
    end
  else Raise TypeError.

(** [MockYAMLInterface.write] *)
Definition yaml_write (st : yaml_storage) (path data : pyval)
  : yaml_storage * outcome InterfaceResult :=
  if hashable path then
    (storage_set st path data,
     Ok (mkInterfaceResult true (VDict [("path", path); ("written", VBool true)]) None
                           (str_len C data)))
  else (st, Raise TypeError).

(** [MockYAMLInterface.exists] *)
Definition yaml_exists (st : yaml_storage) (path : pyval) : outcome bool :=
  if hashable path then Ok (match storage_get st path with Some _ => true | None => false end)
  else Raise TypeError.

(** The collaborators of [C] with M111's interface made the mock: the
    world carries the storage of the interface object M111 holds, and
    [connect] of M111 makes a new one. *)
Definition mock_yaml : Collaborators :=
  mkCollaborators (World C * yaml_storage)
    (fun id w =>
       if String.eqb id "M111" then ((w.1, []), true)
       else let '(w', ok) := connect C id w.1 in ((w', w.2), ok))
    (fun id method args w =>
       if String.eqb id "M111" then
         if String.eqb method "read" then
           match args with
           | [path] => (w, yaml_read w.2 path)
           | _ => (w, Raise TypeError)
           end
         else if String.eqb method "write" then
           match args with
           | [path; data] =>
               let '(st, r) := yaml_write w.2 path data in ((w.1, st), r)
           | _ => (w, Raise TypeError)
           end
         else (w, Raise AttributeError)
       else let '(w', r) := call C id method args w.1 in ((w', w.2), r))
    (fun id method args w =>
       if String.eqb id "M111" then
         if String.eqb method "exists" then
           match args with
           | [path] => (w, let! b := yaml_exists w.2 path in Ok (VBool b))
           | _ => (w, Raise TypeError)
           end
         else (w, Raise AttributeError)
       else let '(w', r) := call_value C id method args w.1 in ((w', w.2), r))
    (fun w => now C w.1)
    (py_str C)
    (exn_str C)
    (report_document C)
    (str_upper C).

(** [YAMLConfigNode.disconnect] *)
Definition disconnect_leaf (self : LeafNode) : LeafNode :=
  mkLeafNode (node self) false.

(** [YAMLConfigNode.load_config] *)
Definition load_config (self : LeafNode) (w : World mock_yaml) (path : pyval)
  : LeafNode * World mock_yaml * pyval :=
  let '(self, w, result) :=
    leaf_process mock_yaml (M111 mock_yaml) self w
      [("action", VStr "read"); ("path", path)] in
  (self, w, if success result then data result else VDict []).

(** [YAMLConfigNode.save_config] *)
Definition save_config (self : LeafNode) (w : World mock_yaml) (config path : pyval)
  : LeafNode * World mock_yaml * bool :=
  let '(self, w, result) :=
    leaf_process mock_yaml (M111 mock_yaml) self w
      [("action", VStr "write"); ("path", path); ("data", config)] in
  (self, w, success result).

End MockYAML.

(** * Nodes by path ([RootOrchestratorNode._get_node_by_path]) *)

(** [path.split(".")] *)
Fixpoint split_dot (path : string) : list string :=
  match path with
  | EmptyString => [EmptyString]
  | String c rest =>
      if Ascii.eqb c "." then EmptyString :: split_dot rest
      else match split_dot rest with
           | part :: parts => String c part :: parts
           | [] => [String c EmptyString]
           end
  end.

(** The loop of [_get_node_by_path] over the parts; [self_id] is the id of
    the root, whose occurrences are skipped, and the left child is tried
    before the right one. *)
Fixpoint _get_node_by_parts (self_id : string) (current : BSTNode)
    (parts : list string) : option BSTNode :=
  match parts with
  | [] => Some current
  | part :: parts =>
      if String.eqb part self_id then _get_node_by_parts self_id current parts
      else
        let at_right :=
          match right current with
          | Some r =>
              if String.eqb (node_id r) part then _get_node_by_parts self_id r parts
              else None
          | None => None
          end in
        match left current with
        | Some l =>
            if String.eqb (node_id l) part then _get_node_by_parts self_id l parts
            else at_right
        | None => at_right
        end
  end.

Definition _get_node_by_path (self : BSTNode) (path : string) : option BSTNode :=
  _get_node_by_parts (node_id self) self (split_dot path).

(** A string without a dot. *)
Fixpoint dot_free (s : string) : bool :=
  match s with
  | EmptyString => true
  | String c rest => negb (Ascii.eqb c ".") && dot_free rest
  end.

(** [m] is a child of [n] that the lookup by id finds: the left child, or
    the right child where the left one does not have the same id. *)
Definition child_by_id (n m : BSTNode) : Prop :=
  left n = Some m
  \/ (right n = Some m
      /\ forall l, left n = Some l -> node_id l <> node_id m).

(** A descending chain of nodes below [n]. *)
Fixpoint is_chain (n : BSTNode) (ns : list BSTNode) : Prop :=
  match ns with
  | [] => True
  | m :: ms => child_by_id n m /\ is_chain m ms
  end.

(** The ids joined by dots: ["M100.M110.M111"]. *)
Definition dotted (ids : list string) : string := String.concat "." ids.

(** * Simulated load ([TokenBalancer.simulate_load]) *)

Section SimulatedLoad.

(** The generator behind [random]: [pick a b g] is the number drawn from
    a range [a..b] that is not empty, and the generator after the draw. *)
Context {Rng : Type} (pick : Z -> Z -> Rng -> Rng * Z).

(** [random.randint(a, b)]: [ValueError] on an empty range. *)
Definition randint (a b : Z) (g : Rng) : Rng * outcome Z :=
  if b <? a then (g, Raise ValueError)
  else let '(g, n) := pick a b g in (g, Ok n).

(** [simulate_load] *)
Definition simulate_load (self : TokenBalancer) (node_id : string) (g : Rng)
  : TokenBalancer * Rng * outcome Z :=
  let allocation := get_allocation self node_id in
  if allocation =? 0 then (self, g, Ok 0)
  else
    match (let! x := float_of_int allocation in
           let! low := int_of_float (fmul x f0_1) in
           let! y := float_of_int allocation in
           let! high := int_of_float (fmul y f0_9) in
           Ok (low, high)) with
    | Raise e => (self, g, Raise e)
    | Ok (low, high) =>
        match randint low high g with
        | (g, Raise e) => (self, g, Raise e)
        | (g, Ok consumption) =>
            (record_consumption self node_id consumption, g, Ok consumption)
        end
    end.

End SimulatedLoad.

(** * The ids of the workflow history *)

(** The id that the record at position [i] of the history was given. *)
Definition id_at (i : nat) : string := "WF-" ++ format_04d (N.of_nat i + 1).

(** Every record of the history has the id of its position. *)
Definition numbered (history : list WorkflowRecord) : Prop :=
  map wf_id history = map id_at (seq 0 (length history)).

(** A sequence of requests at the root, one [process] after the other. *)
Definition process_all (C : Collaborators) (H : Handlers) (self : Root H)
    (requests : list dict) : Root H :=
  fold_left (fun self input_data => (root_process C H self input_data).1)
            requests self.

(** * Properties *)

(** ** Facts on the float operations *)

Lemma shr_1_nonneg (mrs : shr_record) : 0 <= shr_m mrs -> 0 <= shr_m (shr_1 mrs).
Proof.
  destruct mrs as [m r s]. simpl. intros H.
  destruct m as [|p|p]; [simpl; lia | | lia].
  destruct p; simpl; lia.
Qed.

Lemma iter_pos_shr_1_nonneg (p : positive) :
  forall mrs, 0 <= shr_m mrs -> 0 <= shr_m (SpecFloat.iter_pos shr_1 p mrs).
Proof.
  induction p as [p IH|p IH|]; intros mrs H; simpl.
  - apply IH, IH, shr_1_nonneg, H.
  - apply IH, IH, H.
  - apply shr_1_nonneg, H.
Qed.

Lemma shr_fexp_nonneg (m e : Z) (l : location) :
  0 <= m -> 0 <= shr_m (shr_fexp prec emax m e l).1.
Proof.
  intros H. unfold shr_fexp, shr.
  assert (H0 : 0 <= shr_m (shr_record_of_loc m l)).
  { destruct l as [|[| |]]; exact H. }
  destruct (fexp prec emax (Zdigits2 m + e) - e); simpl; try exact H0.
  apply iter_pos_shr_1_nonneg, H0.
Qed.

Lemma round_nearest_even_nonneg (m : Z) (l : location) :
  0 <= m -> 0 <= round_nearest_even m l.
Proof.
  intros H. destruct l as [|[| |]]; simpl; try lia.
  destruct (Z.even m); lia.
Qed.

(** Rounding a non-negative mantissa gives a zero, a finite number or an
    infinity of the given sign, never a NaN. *)
Lemma binary_round_aux_signed (s : bool) (m e : Z) (l : location) :
  0 <= m -> signed_as s (binary_round_aux prec emax s m e l).
Proof.
  intros H. unfold binary_round_aux.
  pose proof (shr_fexp_nonneg m e l H) as H1.
  destruct (shr_fexp prec emax m e l) as [mrs' e']. simpl in H1.
  pose proof (shr_fexp_nonneg _ e' loc_Exact
                (round_nearest_even_nonneg _ (loc_of_shr_record mrs') H1)) as H2.
  destruct (shr_fexp prec emax (round_nearest_even _ _) e' loc_Exact)
    as [mrs'' e'']. simpl in H2.
  destruct (shr_m mrs'') as [|p|p]; [reflexivity | | lia].
  destruct (e'' <=? emax - prec); reflexivity.
Qed.

Lemma binary_round_signed (s : bool) (m : positive) (e : Z) :
  signed_as s (binary_round prec emax s m e).
Proof.
  unfold binary_round.
  destruct (shl_align m e _) as [mz ez].
  apply binary_round_aux_signed. lia.
Qed.

(** [float(n)] is a zero or a finite number. *)
Lemma float_of_int_finite (n : Z) (x : float) :
  float_of_int n = Ok x -> is_finite x = true.
Proof.
  unfold float_of_int, binary_normalize.
  destruct n as [|p|p].
  - intros [= <-]. reflexivity.
  - pose proof (binary_round_signed false p 0) as H.
    destruct (binary_round prec emax false p 0); try discriminate;
      try contradiction; intros [= <-]; reflexivity.
  - pose proof (binary_round_signed true p 0) as H.
    destruct (binary_round prec emax true p 0); try discriminate;
      try contradiction; intros [= <-]; reflexivity.
Qed.

Lemma float_of_int_sign (n : Z) (x : float) :
  0 <= n -> float_of_int n = Ok x -> signed_as false x.
Proof.
  unfold float_of_int, binary_normalize. intros Hn.
  destruct n as [|p|p]; [| |lia].
  - intros [= <-]. reflexivity.
  - pose proof (binary_round_signed false p 0) as H.
    destruct (binary_round prec emax false p 0); try discriminate;
      intros [= <-]; exact H.
Qed.

(** A product with a zero is a zero when the other factor is finite. *)
Lemma fmul_zero_r (x : float) (s : bool) :
  is_finite x = true -> is_zero (fmul x (S754_zero s)) = true.
Proof. destruct x; try discriminate; reflexivity. Qed.

Example float_of_int_1 : float_of_int 1 = Ok f1.
Proof. reflexivity. Qed.

Example float_of_int_5 : float_of_int 5 = Ok f5.
Proof. reflexivity. Qed.

Example one_tenth : truediv f1 (S754_finite false 5629499534213120 (-49)) = Ok f0_1.
Proof. reflexivity. Qed.

Example literals_by_division :
  int_truediv 1 5 = Ok f0_2 /\ int_truediv 4 5 = Ok f0_8 /\
  int_truediv 9 10 = Ok f0_9 /\ int_truediv 11 10 = Ok f1_1.
Proof. repeat split; reflexivity. Qed.

(** ** The magnitude of a rounded result *)

Lemma digits2_pos_size (p : positive) : digits2_pos p = Pos.size p.
Proof. induction p; simpl; congruence. Qed.

Lemma digits2_pos_bounds (p : positive) :
  2 ^ (Zpos (digits2_pos p) - 1) <= Zpos p < 2 ^ Zpos (digits2_pos p).
Proof.
  rewrite digits2_pos_size. split.
  - pose proof (Pos.size_le p) as H.
    apply Pos2Z.pos_le_pos in H. rewrite Pos2Z.inj_pow in H.
    change (Zpos p~0) with (2 * Zpos p) in H.
    replace (Zpos (Pos.size p)) with (Zpos (Pos.size p) - 1 + 1) in H by lia.
    rewrite Z.pow_add_r, Z.pow_1_r in H by lia. lia.
  - pose proof (Pos.size_gt p) as H.
    apply Pos2Z.pos_lt_pos in H. rewrite Pos2Z.inj_pow in H. exact H.
Qed.

Lemma Zdigits2_nonneg (m : Z) : 0 <= Zdigits2 m.
Proof. destruct m; simpl; lia. Qed.

Lemma Zdigits2_upper (m : Z) : 0 <= m -> m < 2 ^ Zdigits2 m.
Proof.
  destruct m as [|p|p]; simpl; try lia. intros _. apply digits2_pos_bounds.
Qed.

Lemma Zdigits2_lower (m : Z) : 0 < m -> 2 ^ (Zdigits2 m - 1) <= m.
Proof.
  destruct m as [|p|p]; simpl; try lia. intros _. apply digits2_pos_bounds.
Qed.

(** [m < 2^k] bounds the number of digits by [k]. *)
Lemma Zdigits2_le (m k : Z) : 0 <= m -> 0 <= k -> m < 2 ^ k -> Zdigits2 m <= k.
Proof.
  intros Hm Hk Hlt.
  destruct (Z.eq_dec m 0) as [->|Hne]; [simpl; lia|].
  pose proof (Zdigits2_lower m ltac:(lia)) as Hlow.
  destruct (Z_le_gt_dec (Zdigits2 m) k) as [|Hgt]; [assumption|exfalso].
  assert (2 ^ k <= 2 ^ (Zdigits2 m - 1)) by (apply Z.pow_le_mono_r; lia).
  lia.
Qed.

(** [2^(k-1) <= m] gives at least [k] digits. *)
Lemma Zdigits2_ge (m k : Z) : 0 < m -> 2 ^ (k - 1) <= m -> k <= Zdigits2 m.
Proof.
  intros Hm Hge.
  pose proof (Zdigits2_upper m ltac:(lia)) as Hup.
  pose proof (Zdigits2_nonneg m).
  destruct (Z_le_gt_dec k (Zdigits2 m)) as [|Hgt]; [assumption|exfalso].
  assert (2 ^ Zdigits2 m <= 2 ^ (k - 1)) by (apply Z.pow_le_mono_r; lia).
  lia.
Qed.

Lemma shr_1_m (mrs : shr_record) : 0 <= shr_m mrs -> shr_m (shr_1 mrs) = shr_m mrs / 2.
Proof.
  destruct mrs as [m r s]. simpl. intros H.
  destruct m as [|p|p]; [reflexivity | | lia].
  destruct p as [p|p|]; simpl.
  - rewrite Pos2Z.inj_xI. apply (Z.div_unique _ 2 _ 1); lia.
  - rewrite Pos2Z.inj_xO. apply (Z.div_unique _ 2 _ 0); lia.
  - reflexivity.
Qed.

Lemma div_nonneg (a b : Z) : 0 <= a -> 0 < b -> 0 <= a / b.
Proof. intros. apply Z.div_pos; assumption. Qed.

Lemma iter_pos_shr_1_m (p : positive) :
  forall mrs, 0 <= shr_m mrs ->
    shr_m (SpecFloat.iter_pos shr_1 p mrs) = shr_m mrs / 2 ^ Zpos p.
Proof.
  induction p as [p IH|p IH|]; intros mrs H; simpl SpecFloat.iter_pos.
  - assert (H1 : 0 <= shr_m (shr_1 mrs)) by (rewrite shr_1_m by assumption; apply div_nonneg; lia).
    assert (H2 : 0 <= shr_m (SpecFloat.iter_pos shr_1 p (shr_1 mrs))).
    { rewrite IH by assumption. apply div_nonneg; [assumption|]. apply Z.pow_pos_nonneg; lia. }
    rewrite IH, IH, shr_1_m by assumption.
    rewrite !Z.div_div by (try apply Z.pow_pos_nonneg; lia).
    f_equal. change 2 with (2 ^ 1) at 1.
    rewrite <- !Z.pow_add_r by lia. f_equal. lia.
  - assert (H2 : 0 <= shr_m (SpecFloat.iter_pos shr_1 p mrs)).
    { rewrite IH by assumption. apply div_nonneg; [assumption|]. apply Z.pow_pos_nonneg; lia. }
    rewrite IH, IH by assumption.
    rewrite !Z.div_div by (try apply Z.pow_pos_nonneg; lia).
    f_equal. rewrite <- !Z.pow_add_r by lia. f_equal. lia.
  - rewrite shr_1_m by assumption. reflexivity.
Qed.


Lemma fexp_eq (k : Z) : fexp prec emax k = fexp64 k.
Proof. reflexivity. Qed.

Lemma shr_record_of_loc_m (m : Z) (l : location) : shr_m (shr_record_of_loc m l) = m.
Proof. destruct l as [|[| |]]; reflexivity. Qed.

(** The first step of rounding: the exponent is raised to
    [E = max e (fexp (digits m + e))] and the mantissa divided accordingly. *)
Lemma shr_fexp_spec (m e : Z) (l : location) :
  0 <= m ->
  let E := Z.max e (fexp64 (Zdigits2 m + e)) in
  (snd (shr_fexp prec emax m e l)) = E
  /\ shr_m (fst (shr_fexp prec emax m e l)) = m / 2 ^ (E - e).
Proof.
  intros Hm E. unfold shr_fexp, shr. rewrite fexp_eq. fold (fexp64 (Zdigits2 m + e)).
  destruct (fexp64 (Zdigits2 m + e) - e) as [|n|n] eqn:Hn; simpl.
  - assert (E = e) by (unfold E; lia). rewrite H, Z.sub_diag, shr_record_of_loc_m.
    split; [reflexivity|]. rewrite Z.div_1_r. reflexivity.
  - assert (E = e + Zpos n) by (unfold E; lia). rewrite H.
    split; [reflexivity|].
    rewrite iter_pos_shr_1_m by (rewrite shr_record_of_loc_m; exact Hm).
    rewrite shr_record_of_loc_m. f_equal. f_equal. lia.
  - assert (E = e) by (unfold E; lia). rewrite H, Z.sub_diag, shr_record_of_loc_m.
    split; [reflexivity|]. rewrite Z.div_1_r. reflexivity.
Qed.

Lemma round_nearest_even_range (m : Z) (l : location) :
  m <= round_nearest_even m l <= m + 1.
Proof.
  destruct l as [|[| |]]; simpl; try lia. destruct (Z.even m); lia.
Qed.

Lemma pow2_pos (k : Z) : 0 <= k -> 0 < 2 ^ k.
Proof. intros. apply Z.pow_pos_nonneg; lia. Qed.

Lemma pow2_le (a b : Z) : a <= b -> 2 ^ a <= 2 ^ b.
Proof. intros. apply Z.pow_le_mono_r; lia. Qed.

Lemma pow2_split (a k : Z) : 0 <= k -> k <= a -> 2 ^ a = 2 ^ (a - k) * 2 ^ k.
Proof. intros. rewrite <- Z.pow_add_r by lia. f_equal. lia. Qed.

Lemma div_pow2_lt (m a k : Z) :
  0 <= k -> k <= a -> m < 2 ^ a -> m / 2 ^ k < 2 ^ (a - k).
Proof.
  intros Hk Ha Hm. apply Z.div_lt_upper_bound; [apply pow2_pos; lia|].
  rewrite Z.mul_comm, <- pow2_split by lia. exact Hm.
Qed.

Lemma div_pow2_ge (m a k : Z) :
  0 <= k -> k <= a -> 2 ^ a <= m -> 2 ^ (a - k) <= m / 2 ^ k.
Proof.
  intros Hk Ha Hm. apply Z.div_le_lower_bound; [apply pow2_pos; lia|].
  rewrite Z.mul_comm, <- pow2_split by lia. exact Hm.
Qed.

Lemma binary_round_aux_bounds (s : bool) (m e : Z) (l : location) :
  0 <= m ->
  let d := Zdigits2 m in
  let E := Z.max e (fexp64 (d + e)) in
  match binary_round_aux prec emax s m e l with
  | S754_zero s' => s' = s /\ (0 < m -> d + e <= -1074)
  | S754_finite s' p e' =>
      s' = s /\ E <= e' <= E + 1 /\ e' <= 971
      /\ Zpos p < 2 ^ (Z.max (d + e) E + 1 - e')
      /\ (0 < m -> -1074 < d + e -> 2 ^ (d + e - 1 - e') <= Zpos p)
  | S754_infinity s' => s' = s /\ 971 <= E
  | S754_nan => False
  end.
Proof.
  intros Hm d E. unfold binary_round_aux.
  pose proof (shr_fexp_spec m e l Hm) as [He1 Hm1].
  destruct (shr_fexp prec emax m e l) as [mrs1 e1]. simpl in He1, Hm1.
  fold d in He1, Hm1. fold E in He1, Hm1. subst e1.
  set (m1 := shr_m mrs1) in *.
  pose proof (Zdigits2_nonneg m) as Hd0. fold d in Hd0.
  pose proof (Zdigits2_upper m Hm) as Hup. fold d in Hup.
  assert (HE : e <= E /\ d + e - 53 <= E /\ -1074 <= E) by (unfold E, fexp64; lia).
  assert (Hm1nn : 0 <= m1).
  { rewrite Hm1. apply div_nonneg; [exact Hm | apply pow2_pos; lia]. }
  set (K := Z.max (d + e) E).
  assert (Hm1K : m1 < 2 ^ (K - E)).
  { rewrite Hm1. replace (K - E) with (K - e - (E - e)) by lia.
    apply div_pow2_lt; [lia | unfold K; lia |].
    eapply Z.lt_le_trans; [exact Hup | apply pow2_le; unfold K; lia]. }
  assert (Hm153 : m1 < 2 ^ 53).
  { rewrite Hm1. replace 53 with (53 + (E - e) - (E - e)) by lia.
    apply div_pow2_lt; [lia | lia |].
    eapply Z.lt_le_trans; [exact Hup | apply pow2_le; lia]. }
  pose proof (round_nearest_even_range m1 (loc_of_shr_record mrs1)) as Hm2.
  set (m2 := round_nearest_even m1 (loc_of_shr_record mrs1)) in *.
  assert (Hm2nn : 0 <= m2) by lia.
  pose proof (shr_fexp_spec m2 E loc_Exact Hm2nn) as [He2 Hm3].
  destruct (shr_fexp prec emax m2 E loc_Exact) as [mrs2 e2]. simpl in He2, Hm3.
  subst e2. set (d2 := Zdigits2 m2) in *.
  set (E2 := Z.max E (fexp64 (d2 + E))) in *.
  assert (Hd2 : 0 <= d2 <= 54).
  { split; [apply Zdigits2_nonneg|].
    apply Zdigits2_le; [lia | lia |].
    assert (2 ^ 53 < 2 ^ 54) by (vm_compute; reflexivity). lia. }
  assert (HE2 : E <= E2 <= E + 1) by (unfold E2, fexp64; lia).
  assert (Hm3cases : (E2 = E /\ shr_m mrs2 = m2)
                     \/ (E2 = E + 1 /\ m2 = 2 ^ 53 /\ shr_m mrs2 = 2 ^ 52)).
  { destruct (Z.eq_dec E2 E) as [Heq|Hne].
    - left. split; [exact Heq|]. rewrite Hm3, Heq, Z.sub_diag. apply Z.div_1_r.
    - right. assert (Heq : E2 = E + 1) by lia.
      assert (Hd254 : d2 = 54) by (unfold E2, fexp64 in Heq; lia).
      assert (Hlow : 2 ^ 53 <= m2).
      { assert (0 < m2).
        { destruct (Z.eq_dec m2 0) as [Hz|]; [|lia].
          unfold d2 in Hd254. rewrite Hz in Hd254. simpl in Hd254. lia. }
        pose proof (Zdigits2_lower m2 H) as Hl. fold d2 in Hl.
        rewrite Hd254 in Hl. exact Hl. }
      assert (m2 = 2 ^ 53) by lia.
      split; [exact Heq|]. split; [assumption|].
      rewrite Hm3, Heq, H. replace (E + 1 - E) with 1 by lia. reflexivity. }
  assert (Hupper : shr_m mrs2 < 2 ^ (K + 1 - E2)).
  { destruct Hm3cases as [(HeqE & Hs)|(HeqE & H53 & Hs)]; rewrite HeqE, Hs.
    - assert (2 ^ (K - E) < 2 ^ (K + 1 - E)).
      { apply Z.pow_lt_mono_r; unfold K; lia. }
      lia.
    - replace (K + 1 - (E + 1)) with (K - E) by lia.
      assert (2 ^ 52 < 2 ^ 53) by (vm_compute; reflexivity). lia. }
  assert (Hm1low : 0 < m -> -1074 < d + e ->
                   0 <= d + e - 1 - E /\ 2 ^ (d + e - 1 - E) <= m1).
  { intros Hpos Hmag.
    pose proof (Zdigits2_lower m Hpos) as Hlow. fold d in Hlow.
    assert (Hd1 : 1 <= d).
    { unfold d. destruct m; simpl; lia. }
    assert (HEd : E - e <= d - 1) by (unfold E, fexp64; lia).
    split; [lia|].
    rewrite Hm1. replace (d + e - 1 - E) with (d - 1 - (E - e)) by lia.
    apply div_pow2_ge; [lia | lia | exact Hlow]. }
  assert (Hlower : 0 < m -> -1074 < d + e -> 2 ^ (d + e - 1 - E2) <= shr_m mrs2).
  { intros Hpos Hmag. destruct (Hm1low Hpos Hmag) as [_ Hl].
    destruct Hm3cases as [(HeqE & Hs)|(HeqE & H53 & Hs)]; rewrite HeqE, Hs;
      [lia|].
    apply pow2_le. lia. }
  destruct (shr_m mrs2) as [|p|p] eqn:Hm3v.
  - split; [reflexivity|]. intros Hpos.
    destruct (Z_le_gt_dec (d + e) (-1074)) as [|Hgt]; [assumption|exfalso].
    destruct (Hm1low Hpos ltac:(lia)) as [Hexp Hl].
    pose proof (pow2_pos _ Hexp).
    destruct Hm3cases as [(_ & Hs)|(_ & _ & Hs)]; [lia|].
    assert (0 < 2 ^ 52) by (vm_compute; reflexivity). lia.
  - fold prec emax. change (emax - prec) with 971.
    destruct (Z.leb_spec E2 971).
    + repeat split; try lia; try assumption.
    + split; [reflexivity | lia].
  - destruct Hm3cases as [(_ & H)|(_ & _ & H)]; [lia|].
    assert (0 < 2 ^ 52) by (vm_compute; reflexivity). lia.
Qed.

Lemma iter_xO_spec (d m : positive) :
  Zpos (Pos.iter xO m d) = Zpos m * 2 ^ Zpos d.
Proof.
  induction d as [|d IH] using Pos.peano_ind.
  - simpl. lia.
  - rewrite Pos.iter_succ, Pos2Z.inj_xO, IH, Pos2Z.inj_succ, Z.pow_succ_r by lia. lia.
Qed.

(** Aligning to a lower exponent keeps the value and the magnitude. *)
Lemma shl_align_spec (m : positive) (e e' : Z) :
  let '(m', e'') := shl_align m e e' in
  e'' = Z.min e e'
  /\ Zpos m' = Zpos m * 2 ^ (e - e'')
  /\ Zpos (digits2_pos m') + e'' = Zpos (digits2_pos m) + e.
Proof.
  unfold shl_align. destruct (e' - e) as [|d|d] eqn:Hd.
  - replace (Z.min e e') with e by lia. rewrite Z.sub_diag. simpl. lia.
  - replace (Z.min e e') with e by lia. rewrite Z.sub_diag. simpl. lia.
  - assert (Hmin : Z.min e e' = e') by lia. rewrite Hmin.
    assert (He : e - e' = Zpos d) by lia. rewrite He.
    split; [reflexivity|]. split; [apply iter_xO_spec|].
    pose proof (digits2_pos_bounds m) as [Hlo Hhi].
    pose proof (iter_xO_spec d m) as Hv.
    assert (Hk : Zpos (digits2_pos (Pos.iter xO m d)) = Zpos (digits2_pos m) + Zpos d).
    { apply Z.le_antisymm.
      - change (Zpos (digits2_pos (Pos.iter xO m d)))
          with (Zdigits2 (Zpos (Pos.iter xO m d))).
        apply Zdigits2_le; [lia | lia |].
        rewrite Hv, Z.pow_add_r by lia.
        apply Z.mul_lt_mono_pos_r; [apply pow2_pos; lia | exact Hhi].
      - change (Zpos (digits2_pos (Pos.iter xO m d)))
          with (Zdigits2 (Zpos (Pos.iter xO m d))).
        apply Zdigits2_ge; [lia|].
        rewrite Hv.
        replace (Zpos (digits2_pos m) + Zpos d - 1)
          with (Zpos (digits2_pos m) - 1 + Zpos d) by lia.
        rewrite Z.pow_add_r by lia.
        apply Z.mul_le_mono_nonneg_r; [apply Z.lt_le_incl, pow2_pos; lia | exact Hlo]. }
    lia.
Qed.

(** What [binary_round] returns for a positive mantissa. *)
Lemma binary_round_bounds (s : bool) (m : positive) (e : Z) :
  let M := Zpos (digits2_pos m) + e in
  match binary_round prec emax s m e with
  | S754_zero _ => M <= -1074
  | S754_finite s' p e' =>
      s' = s /\ -1074 <= e' /\ e' <= 971
      /\ Zpos (digits2_pos p) + e' <= Z.max M (Z.max (Z.min e (fexp64 M)) (fexp64 M)) + 1
      /\ (-1074 < M -> M <= Zpos (digits2_pos p) + e')
  | S754_infinity _ => 971 <= Z.max (Z.min e (fexp64 M)) (fexp64 M)
  | S754_nan => False
  end.
Proof.
  intros M. unfold binary_round.
  pose proof (shl_align_spec m e (fexp prec emax (Zpos (digits2_pos m) + e))) as Ha.
  destruct (shl_align m e _) as [mz ez]. destruct Ha as (Hez & Hmz & Hdz).
  rewrite fexp_eq in Hez. fold M in Hez.
  pose proof (binary_round_aux_bounds s (Zpos mz) ez loc_Exact ltac:(lia)) as Hr.
  cbv zeta in Hr. change (Zdigits2 (Zpos mz)) with (Zpos (digits2_pos mz)) in Hr.
  rewrite Hdz in Hr. fold M in Hr.
  destruct (binary_round_aux prec emax s (Zpos mz) ez loc_Exact) as [s'|s'| |s' p e'].
  - destruct Hr as [_ Hr]. apply Hr. lia.
  - destruct Hr as [_ Hr]. rewrite Hez in Hr. exact Hr.
  - exact Hr.
  - destruct Hr as (Hs & He' & H971 & Hup & Hlow).
    split; [exact Hs|]. rewrite Hez in *.
    split; [unfold fexp64 in *; lia|]. split; [exact H971|].
    split.
    + change (Zpos (digits2_pos p)) with (Zdigits2 (Zpos p)).
      assert (Zdigits2 (Zpos p)
              <= Z.max M (Z.max (Z.min e (fexp64 M)) (fexp64 M)) + 1 - e').
      { apply Zdigits2_le; [lia | unfold fexp64 in *; lia | exact Hup]. }
      lia.
    + intros HM.
      change (Zpos (digits2_pos p)) with (Zdigits2 (Zpos p)).
      assert (M - e' <= Zdigits2 (Zpos p)).
      { apply Zdigits2_ge; [lia|].
        replace (M - e' - 1) with (M - 1 - e') by lia. apply Hlow; lia. }
      lia.
Qed.


Lemma below_mono (M M' : Z) (x : float) : M <= M' -> below M x -> below M' x.
Proof. destruct x; simpl; try tauto. lia. Qed.

Lemma digits2_pos_add (a b : positive) :
  Zpos (digits2_pos a) <= Zpos (digits2_pos (a + b)).
Proof.
  change (Zpos (digits2_pos (a + b))) with (Zdigits2 (Zpos (a + b))).
  apply Zdigits2_ge; [lia|].
  pose proof (digits2_pos_bounds a). lia.
Qed.

(** The divisor of the split dominates the left weight. *)
Lemma fadd_dominates (x y : float) :
  tame x = true -> tame y = true ->
  dominates (if feqb (fadd x y) f0 then f1 else fadd x y) x.
Proof.
  destruct x as [sx|sx| |sx mx ex]; try discriminate;
    destruct y as [sy|sy| |sy my ey]; try discriminate.
  - intros _ _. destruct sx, sy; exact I.
  - destruct sy; [discriminate|]. intros _ _. exact I.
  - destruct sx; [discriminate|]. intros _ _. simpl. lia.
  - destruct sx; [discriminate|]. destruct sy; [discriminate|].
    simpl tame. intros Hx Hy. apply Z.leb_le in Hx, Hy.
    unfold fadd, SFadd.
    pose proof (shl_align_spec mx ex (Z.min ex ey)) as Ax.
    pose proof (shl_align_spec my ey (Z.min ex ey)) as Ay.
    destruct (shl_align mx ex (Z.min ex ey)) as [mx' ex'].
    destruct (shl_align my ey (Z.min ex ey)) as [my' ey'].
    destruct Ax as (Ex & _ & Dx). cbv zeta. simpl fst. simpl cond_Zopp.
    change (Zpos mx' + Zpos my') with (Zpos (mx' + my')).
    change (binary_normalize prec emax (Zpos (mx' + my')) (Z.min ex ey) false)
      with (binary_round prec emax false (mx' + my') (Z.min ex ey)).
    pose proof (binary_round_bounds false (mx' + my') (Z.min ex ey)) as Hr.
    pose proof (digits2_pos_add mx' my') as Hd.
    cbv zeta in Hr.
    destruct (binary_round prec emax false (mx' + my') (Z.min ex ey))
      as [s'|s'| |s' p e'].
    + lia.
    + destruct s'; exact I.
    + contradiction.
    + destruct Hr as (_ & _ & _ & _ & Hlow).
      assert (Hf : feqb (S754_finite s' p e') f0 = false) by (destruct s'; reflexivity).
      rewrite Hf. simpl. lia.
Qed.

Lemma SFdiv_core_binary_spec (mx my : positive) (ex ey : Z) :
  let M := Zpos (digits2_pos mx) + ex - (Zpos (digits2_pos my) + ey) in
  let '(q, e', l) := SFdiv_core_binary prec emax (Zpos mx) ex (Zpos my) ey in
  0 <= q /\ e' <= fexp64 M /\ Zdigits2 q + e' <= Z.max (M + 1) e'.
Proof.
  intros M. unfold SFdiv_core_binary.
  change (Zdigits2 (Zpos mx)) with (Zpos (digits2_pos mx)).
  change (Zdigits2 (Zpos my)) with (Zpos (digits2_pos my)).
  rewrite fexp_eq. fold M.
  set (e' := Z.min (fexp64 M) (ex - ey)).
  set (s := ex - ey - e').
  assert (Hs : 0 <= s) by (unfold s, e'; lia).
  set (m' := match s with Zpos _ => Z.shiftl (Zpos mx) s | Z0 => Zpos mx | Zneg _ => 0 end).
  assert (Hm' : m' = Zpos mx * 2 ^ s).
  { unfold m'. destruct s as [|p|p] eqn:Es; [simpl; lia | | lia].
    rewrite Z.shiftl_mul_pow2 by lia. reflexivity. }
  pose proof (Z_div_mod m' (Zpos my) ltac:(lia)) as Hdiv.
  destruct (Z.div_eucl m' (Zpos my)) as [q r]. destruct Hdiv as [Hq Hr].
  pose proof (digits2_pos_bounds mx) as [_ Hxhi].
  pose proof (digits2_pos_bounds my) as [Hylo _].
  set (dx := Zpos (digits2_pos mx)) in *. set (dy := Zpos (digits2_pos my)) in *.
  assert (Hdx : 0 < dx) by (unfold dx; lia).
  assert (Hdy : 0 < dy) by (unfold dy; lia).
  pose proof (pow2_pos s Hs) as Hps.
  pose proof (pow2_pos (dy - 1) ltac:(lia)) as Hpy.
  assert (Hm'pos : 0 < m') by (rewrite Hm'; lia).
  assert (Hq0 : 0 <= q) by nia.
  split; [exact Hq0|]. split; [unfold e'; lia|].
  assert (Hup : q * 2 ^ (dy - 1) < 2 ^ (dx + s)).
  { rewrite Z.pow_add_r by lia.
    assert (q * 2 ^ (dy - 1) <= q * Zpos my) by (apply Z.mul_le_mono_nonneg_l; lia).
    assert (Zpos mx * 2 ^ s < 2 ^ dx * 2 ^ s) by (apply Z.mul_lt_mono_pos_r; lia).
    nia. }
  destruct (Z_le_gt_dec 0 (dx + s - dy + 1)) as [Hk|Hk].
  - assert (Hqk : q < 2 ^ (dx + s - dy + 1)).
    { replace (dx + s) with ((dx + s - dy + 1) + (dy - 1)) in Hup by lia.
      rewrite Z.pow_add_r in Hup by lia.
      apply Z.mul_lt_mono_pos_r in Hup; [exact Hup | exact Hpy]. }
    pose proof (Zdigits2_le q _ Hq0 Hk Hqk) as Hd.
    unfold M, s in *. fold dx dy. lia.
  - assert (Hq1 : q = 0).
    { assert (2 ^ (dx + s) <= 2 ^ (dy - 1)) by (apply pow2_le; lia). nia. }
    rewrite Hq1. simpl Zdigits2. lia.
Qed.

(** The ratio of the split is a zero or below 4 in magnitude. *)
Lemma fdiv_below (x t : float) : dominates t x -> below 2 (fdiv x t).
Proof.
  destruct x as [sx|sx| |sx mx ex]; destruct t as [st|st| |st mt et];
    simpl; try tauto.
  intros Hdom. unfold fdiv, SFdiv.
  pose proof (SFdiv_core_binary_spec mx mt ex et) as Hc. cbv zeta in Hc.
  destruct (SFdiv_core_binary prec emax (Zpos mx) ex (Zpos mt) et) as [[q e'] l].
  destruct Hc as (Hq & He' & Hd).
  pose proof (binary_round_aux_bounds (xorb sx st) q e' l Hq) as Hr. cbv zeta in Hr.
  unfold fexp64 in *.
  destruct (binary_round_aux prec emax (xorb sx st) q e' l) as [s'|s'| |s' p e2].
  - exact I.
  - lia.
  - exact Hr.
  - destruct Hr as (_ & HE & _ & Hup & _). unfold below.
    change (Zpos (digits2_pos p)) with (Zdigits2 (Zpos p)).
    assert (Zdigits2 (Zpos p)
            <= Z.max (Zdigits2 q + e') (Z.max e' (Z.max (Zdigits2 q + e' - 53) (-1074)))
               + 1 - e2).
    { apply Zdigits2_le; [lia | lia | exact Hup]. }
    lia.
Qed.

Lemma digits2_pos_mul (a b : positive) :
  Zpos (digits2_pos (a * b)) <= Zpos (digits2_pos a) + Zpos (digits2_pos b).
Proof.
  change (Zpos (digits2_pos (a * b))) with (Zdigits2 (Zpos (a * b))).
  apply Zdigits2_le; [lia | lia |].
  pose proof (digits2_pos_bounds a) as [_ Ha].
  pose proof (digits2_pos_bounds b) as [_ Hb].
  rewrite Z.pow_add_r, Pos2Z.inj_mul by lia. nia.
Qed.

(** A product of two bounded factors is bounded, and finite while the
    bounds stay within the range of a double. *)
Lemma fmul_below (a b : Z) (x y : float) :
  below a x -> below b y -> -1074 <= a + b -> a + b <= 970 ->
  below (a + b + 1) (fmul x y).
Proof.
  destruct x as [sx|sx| |sx mx ex]; destruct y as [sy|sy| |sy my ey];
    simpl; try tauto.
  intros Hx Hy Hlo Hhi. unfold fmul, SFmul.
  pose proof (binary_round_aux_bounds (xorb sx sy) (Zpos (mx * my)) (ex + ey)
                loc_Exact ltac:(lia)) as Hr.
  cbv zeta in Hr. change (Zdigits2 (Zpos (mx * my))) with (Zpos (digits2_pos (mx * my))) in Hr.
  pose proof (digits2_pos_mul mx my) as Hd.
  unfold fexp64 in *.
  destruct (binary_round_aux prec emax (xorb sx sy) (Zpos (mx * my)) (ex + ey) loc_Exact)
    as [s'|s'| |s' p e2].
  - exact I.
  - lia.
  - exact Hr.
  - destruct Hr as (_ & HE & _ & Hup & _). unfold below.
    change (Zpos (digits2_pos p)) with (Zdigits2 (Zpos p)).
    set (d := Zpos (digits2_pos (mx * my))) in *.
    assert (Zdigits2 (Zpos p)
            <= Z.max (d + (ex + ey)) (Z.max (ex + ey) (Z.max (d + (ex + ey) - 53) (-1074)))
               + 1 - e2).
    { apply Zdigits2_le; [lia | lia | exact Hup]. }
    lia.
Qed.

(** [float(n)] returns for every [int] below [2^1000] in magnitude. *)
Lemma float_of_int_below (B k : Z) :
  Z.abs B < 2 ^ k -> 0 <= k <= 1000 ->
  exists b, float_of_int B = Ok b /\ below (k + 1) b.
Proof.
  intros HB Hk. unfold float_of_int.
  destruct B as [|p|p]; simpl binary_normalize.
  - eexists. split; [reflexivity | exact I].
  - pose proof (binary_round_bounds false p 0) as Hr. cbv zeta in Hr.
    assert (Hd : Zdigits2 (Zpos p) <= k) by (apply Zdigits2_le; lia).
    change (Zdigits2 (Zpos p)) with (Zpos (digits2_pos p)) in Hd.
    unfold fexp64 in Hr.
    destruct (binary_round prec emax false p 0) as [s'|s'| |s' q e'].
    + eexists. split; [reflexivity | exact I].
    + lia.
    + contradiction.
    + eexists. split; [reflexivity|]. simpl. lia.
  - pose proof (binary_round_bounds true p 0) as Hr. cbv zeta in Hr.
    assert (Hd : Zdigits2 (Zpos p) <= k) by (apply Zdigits2_le; lia).
    change (Zdigits2 (Zpos p)) with (Zpos (digits2_pos p)) in Hd.
    unfold fexp64 in Hr.
    destruct (binary_round prec emax true p 0) as [s'|s'| |s' q e'].
    + eexists. split; [reflexivity | exact I].
    + lia.
    + contradiction.
    + eexists. split; [reflexivity|]. simpl. lia.
Qed.

(** [int(x)] returns for every finite [x], with the magnitude of [x]. *)
Lemma int_of_float_below (M : Z) (x : float) :
  below M x -> 0 <= M ->
  exists z, int_of_float x = Ok z /\ Z.abs z < 2 ^ M.
Proof.
  destruct x as [s|s| |s m e]; simpl below; try tauto.
  - intros _ HM. exists 0. split; [reflexivity|]. pose proof (pow2_pos M HM). simpl. lia.
  - intros Hb HM. unfold int_of_float.
    pose proof (digits2_pos_bounds m) as [_ Hhi].
    set (d := Zpos (digits2_pos m)) in *.
    assert (Ha : 0 <= (match e with
                       | Zneg p => Z.shiftr (Zpos m) (Zpos p)
                       | _ => Z.shiftl (Zpos m) e
                       end) < 2 ^ M).
    { destruct e as [|p|p].
      - rewrite Z.shiftl_mul_pow2 by lia. simpl. 
        assert (2 ^ d <= 2 ^ M) by (apply pow2_le; lia). lia.
      - rewrite Z.shiftl_mul_pow2 by lia.
        assert (2 ^ (d + Zpos p) <= 2 ^ M) by (apply pow2_le; lia).
        rewrite Z.pow_add_r in * by lia.
        pose proof (pow2_pos (Zpos p) ltac:(lia)). nia.
      - rewrite Z.shiftr_div_pow2 by lia.
        pose proof (pow2_pos (Zpos p) ltac:(lia)) as Hp.
        split; [apply div_nonneg; lia|].
        destruct (Z_le_gt_dec (Zpos p) d) as [Hle|Hgt].
        + pose proof (div_pow2_lt (Zpos m) d (Zpos p) ltac:(lia) Hle Hhi).
          assert (2 ^ (d - Zpos p) <= 2 ^ M) by (apply pow2_le; lia). lia.
        + assert (2 ^ d <= 2 ^ Zpos p) by (apply pow2_le; lia).
          rewrite Z.div_small by lia. apply pow2_pos. exact HM. }
    eexists. split; [reflexivity|]. destruct s; lia.
Qed.

(** The divisor of the split is no zero once the weights are tame. *)
Lemma dominates_not_zero (t x : float) : dominates t x -> is_zero t = false.
Proof. destruct x, t; simpl; tauto. Qed.

(** The split returns, and its shares stay within a few bits of the budget. *)
Lemma split_budget_returns (B k : Z) (lw rw : float) :
  tame lw = true -> tame rw = true ->
  Z.abs B < 2 ^ k -> 0 <= k <= 960 ->
  exists lb rb, split_budget B lw rw = Ok (lb, rb)
                /\ Z.abs lb < 2 ^ (k + 4) /\ Z.abs rb < 2 ^ (k + 5).
Proof.
  intros Hl Hr HB Hk. unfold split_budget.
  pose proof (fadd_dominates lw rw Hl Hr) as Hdom.
  set (t := if feqb (fadd lw rw) f0 then f1 else fadd lw rw) in *.
  unfold truediv. rewrite (dominates_not_zero _ _ Hdom). simpl obind.
  pose proof (fdiv_below lw t Hdom) as Hratio.
  destruct (float_of_int_below B k HB ltac:(lia)) as (b & Hb & Hbb).
  rewrite Hb. simpl obind.
  pose proof (fmul_below (k + 1) 2 b (fdiv lw t) Hbb Hratio ltac:(lia) ltac:(lia)) as Hm.
  destruct (int_of_float_below (k + 1 + 2 + 1) _ Hm ltac:(lia)) as (lb & Hlb & Hlbb).
  rewrite Hlb. simpl obind.
  exists lb, (B - lb). split; [reflexivity|].
  replace (k + 1 + 2 + 1) with (k + 4) in Hlbb by lia.
  split; [exact Hlbb|].
  replace (k + 5) with (k + 4 + 1) by lia. rewrite (Z.pow_add_r 2 (k + 4) 1) by lia.
  assert (2 ^ k <= 2 ^ (k + 4)) by (apply pow2_le; lia).
  change (2 ^ 1) with 2. lia.
Qed.

(** ** The distribution *)

Lemma sum_list_app (l1 l2 : list Z) :
  sum_list (l1 ++ l2) = sum_list l1 + sum_list l2.
Proof. induction l1 as [|x l1 IH]; simpl; [reflexivity | rewrite IH; lia]. Qed.

Lemma allocated_to_app (self : TokenBalancer) (l1 l2 : list string) :
  allocated_to self (l1 ++ l2) = allocated_to self l1 + allocated_to self l2.
Proof. unfold allocated_to. rewrite map_app. apply sum_list_app. Qed.

Lemma allocated_to_ext (s1 s2 : TokenBalancer) (ids : list string) :
  (forall id, In id ids -> leaf_allocations s1 !! id = leaf_allocations s2 !! id) ->
  allocated_to s1 ids = allocated_to s2 ids.
Proof.
  unfold allocated_to, get_allocation.
  induction ids as [|i ids IH]; intros H; simpl; [reflexivity|].
  rewrite (H i (or_introl eq_refl)), IH; [reflexivity|].
  intros id Hid. apply H. right. exact Hid.
Qed.

Lemma split_budget_sum (B : Z) (lw rw : float) (lb rb : Z) :
  split_budget B lw rw = Ok (lb, rb) -> lb + rb = B /\ rb = B - lb.
Proof.
  unfold split_budget, obind.
  destruct (truediv _ _); [|discriminate].
  destruct (float_of_int B); [|discriminate].
  destruct (int_of_float _); [|discriminate].
  intros [= <- <-]. lia.
Qed.

(** The divisor of the split is never a zero, so the division itself
    never raises. *)
Lemma split_budget_divisor (lw rw : float) :
  is_zero (if feqb (fadd lw rw) f0 then f1 else fadd lw rw) = false.
Proof.
  destruct (fadd lw rw) as [s|s| |s m e]; try destruct s; reflexivity.
Qed.

Lemma _get_node_weight_allocations (self : TokenBalancer) (id : string) :
  leaf_allocations (fst (_get_node_weight self id)) = leaf_allocations self
  /\ total_budget (fst (_get_node_weight self id)) = total_budget self.
Proof. unfold _get_node_weight. destruct (node_weights self !! id); auto. Qed.

Lemma _calculate_weight_node_allocations (node : BSTNode) :
  forall self,
    leaf_allocations (fst (_calculate_weight_node self node)) = leaf_allocations self
    /\ total_budget (fst (_calculate_weight_node self node)) = total_budget self.
Proof.
  induction node as [c l r a t IHl IHr] using BSTNode_tree_ind.
  intros self. simpl.
  destruct (if _cache_valid self then _ else None); [auto|].
  destruct (NodeLevel_eqb (level c) LEAF).
  - pose proof (_get_node_weight_allocations self (cfg_node_id c)) as [H1 H2].
    destruct (_get_node_weight self (cfg_node_id c)) as [s1 w]. simpl in *.
    destruct (total_weight w); simpl; auto.
  - assert (Hl : forall s, leaf_allocations (fst (match l with
                 | Some x => _calculate_weight_node s x | None => (s, Ok f0) end))
                 = leaf_allocations s
              /\ total_budget (fst (match l with
                 | Some x => _calculate_weight_node s x | None => (s, Ok f0) end))
                 = total_budget s).
    { intros s. destruct l; simpl in *; auto. }
    assert (Hr : forall s, leaf_allocations (fst (match r with
                 | Some x => _calculate_weight_node s x | None => (s, Ok f0) end))
                 = leaf_allocations s
              /\ total_budget (fst (match r with
                 | Some x => _calculate_weight_node s x | None => (s, Ok f0) end))
                 = total_budget s).
    { intros s. destruct r; simpl in *; auto. }
    specialize (Hl self).
    destruct (match l with Some x => _ | None => _ end) as [s1 [lw|e]];
      simpl in *; [|auto].
    specialize (Hr s1).
    destruct (match r with Some x => _ | None => _ end) as [s2 [rw|e]];
      simpl in *; destruct Hl, Hr; split; congruence.
Qed.

Lemma _calculate_weight_allocations (self : TokenBalancer) (node : option BSTNode) :
  leaf_allocations (fst (_calculate_weight self node)) = leaf_allocations self
  /\ total_budget (fst (_calculate_weight self node)) = total_budget self.
Proof.
  destruct node; simpl; [apply _calculate_weight_node_allocations | auto].
Qed.

Lemma _distribute_node_leaf c l r a t (self : TokenBalancer) (B : Z) :
  NodeLevel_eqb (level c) LEAF = true ->
  _distribute_node self (mkBSTNode c l r a t) B =
    (set_leaf_allocations self
       (<[cfg_node_id c := mkAllocationRecord (cfg_node_id c) B 0 f0]>
          (leaf_allocations self)),
     mkBSTNode c l r B t, Ok B).
Proof. intros H. simpl. rewrite H. reflexivity. Qed.

Lemma _distribute_node_internal c l r a t (self : TokenBalancer) (B : Z) :
  NodeLevel_eqb (level c) LEAF = false ->
  _distribute_node self (mkBSTNode c l r a t) B =
    let '(s1, left_r) := _calculate_weight self l in
    match left_r with
    | Raise e => (s1, mkBSTNode c l r a t, Raise e)
    | Ok left_weight =>
    let '(s2, right_r) := _calculate_weight s1 r in
    match right_r with
    | Raise e => (s2, mkBSTNode c l r a t, Raise e)
    | Ok right_weight =>
    match split_budget B left_weight right_weight with
    | Raise e => (s2, mkBSTNode c l r a t, Raise e)
    | Ok (left_budget, right_budget) =>
    let '(s3, l', o) := _distribute s2 l left_budget in
    match o with
    | Raise e => (s3, mkBSTNode c l' r a t, Raise e)
    | Ok _ =>
    let '(s4, r', o) := _distribute s3 r right_budget in
    match o with
    | Raise e => (s4, mkBSTNode c l' r' a t, Raise e)
    | Ok _ => (s4, mkBSTNode c l' r' a t, Ok B)
    end end end end end.
Proof.
  intros H. simpl. rewrite H.
  destruct (_calculate_weight self l) as [s1 [lw|e]]; [|reflexivity].
  destruct (_calculate_weight s1 r) as [s2 [rw|e]]; [|reflexivity].
  destruct (split_budget B lw rw) as [[lb rb]|e]; [|reflexivity].
  unfold _distribute.
  destruct l as [x|]; destruct r as [y|]; reflexivity.
Qed.

Lemma leaf_ids_leaf c l r a t :
  NodeLevel_eqb (level c) LEAF = true ->
  leaf_ids (mkBSTNode c l r a t) = [cfg_node_id c].
Proof. intros H. unfold leaf_ids. simpl. rewrite H. reflexivity. Qed.

Lemma leaf_ids_internal c l r a t :
  NodeLevel_eqb (level c) LEAF = false ->
  leaf_ids (mkBSTNode c l r a t)
  = (map node_id (leaves_of l) ++ map node_id (leaves_of r))%list.
Proof. intros H. unfold leaf_ids. simpl. rewrite H. apply map_app. Qed.

Lemma _distribute_frame_opt (o : option BSTNode) :
  on_child frame_of_distribute o ->
  forall self B id,
    ~ In id (map node_id (leaves_of o)) ->
    leaf_allocations (_distribute self o B).1.1 !! id = leaf_allocations self !! id.
Proof.
  intros H self B id Hid. destruct o as [x|]; simpl in *; [|reflexivity].
  specialize (H self B id Hid).
  destruct (_distribute_node self x B) as [[s x'] o]. exact H.
Qed.

Lemma _distribute_node_frame (node : BSTNode) : frame_of_distribute node.
Proof.
  induction node as [c l r a t IHl IHr] using BSTNode_tree_ind.
  intros self B id Hid.
  destruct (NodeLevel_eqb (level c) LEAF) eqn:Hlevel.
  - rewrite _distribute_node_leaf by exact Hlevel.
    rewrite leaf_ids_leaf in Hid by exact Hlevel. simpl in *.
    apply lookup_insert_ne. tauto.
  - rewrite _distribute_node_internal by exact Hlevel.
    rewrite leaf_ids_internal in Hid by exact Hlevel.
    rewrite in_app_iff in Hid.
    pose proof (_calculate_weight_allocations self l) as [Hl _].
    destruct (_calculate_weight self l) as [s1 [lw|e]]; simpl in *;
      [|congruence].
    pose proof (_calculate_weight_allocations s1 r) as [Hr _].
    destruct (_calculate_weight s1 r) as [s2 [rw|e]]; simpl in *;
      [|congruence].
    destruct (split_budget B lw rw) as [[lb rb]|e]; simpl; [|congruence].
    pose proof (_distribute_frame_opt l IHl s2 lb id) as Fl.
    destruct (_distribute s2 l lb) as [[s3 l'] [v|e]]; simpl in *;
      [|rewrite Fl by tauto; congruence].
    pose proof (_distribute_frame_opt r IHr s3 rb id) as Fr.
    destruct (_distribute s3 r rb) as [[s4 r'] [v'|e]]; simpl in *;
      rewrite Fr, Fl by tauto; congruence.
Qed.

Lemma _distribute_node_total_budget (node : BSTNode) :
  forall self B, total_budget (_distribute_node self node B).1.1 = total_budget self.
Proof.
  induction node as [c l r a t IHl IHr] using BSTNode_tree_ind.
  intros self B.
  destruct (NodeLevel_eqb (level c) LEAF) eqn:Hlevel.
  - rewrite _distribute_node_leaf by exact Hlevel. reflexivity.
  - rewrite _distribute_node_internal by exact Hlevel.
    pose proof (_calculate_weight_allocations self l) as [_ Hl].
    destruct (_calculate_weight self l) as [s1 [lw|e]]; simpl in *; [|congruence].
    pose proof (_calculate_weight_allocations s1 r) as [_ Hr].
    destruct (_calculate_weight s1 r) as [s2 [rw|e]]; simpl in *; [|congruence].
    destruct (split_budget B lw rw) as [[lb rb]|e]; simpl; [|congruence].
    assert (Fl : total_budget (_distribute s2 l lb).1.1 = total_budget s2).
    { destruct l as [x|]; simpl in *; [|reflexivity].
      specialize (IHl s2 lb). destruct (_distribute_node s2 x lb) as [[? ?] ?].
      exact IHl. }
    destruct (_distribute s2 l lb) as [[s3 l'] [v|e]]; simpl in *; [|congruence].
    assert (Fr : total_budget (_distribute s3 r rb).1.1 = total_budget s3).
    { destruct r as [x|]; simpl in *; [|reflexivity].
      specialize (IHr s3 rb). destruct (_distribute_node s3 x rb) as [[? ?] ?].
      exact IHr. }
    destruct (_distribute s3 r rb) as [[s4 r'] [v'|e]]; simpl in *; congruence.
Qed.



(** The balancer's records for the leaves add up to the budget. *)
Lemma _distribute_node_allocated (node : BSTNode) :
  forall self B self' node' v,
    two_children node -> NoDup (leaf_ids node) ->
    _distribute_node self node B = (self', node', Ok v) ->
    allocated_to self' (leaf_ids node) = B.
Proof.
  induction node as [c l r a t IHl IHr] using BSTNode_tree_ind.
  intros self B self' node' v Hshape Hnodup.
  destruct (NodeLevel_eqb (level c) LEAF) eqn:Hlevel.
  - rewrite _distribute_node_leaf by exact Hlevel.
    intros [= <- <- <-]. rewrite leaf_ids_leaf by exact Hlevel.
    unfold allocated_to, get_allocation. simpl.
    rewrite lookup_insert_eq. simpl. lia.
  - rewrite _distribute_node_internal by exact Hlevel.
    rewrite leaf_ids_internal in * by exact Hlevel.
    simpl in Hshape. rewrite Hlevel in Hshape.
    destruct l as [x|]; [|contradiction]. destruct r as [y|]; [|contradiction].
    destruct Hshape as [Hx Hy]. simpl in IHl, IHr, Hnodup.
    apply NoDup_app in Hnodup as (Nx & Hdisj & Ny).
    destruct (_calculate_weight self (Some x)) as [s1 [lw|e]]; [|discriminate].
    destruct (_calculate_weight s1 (Some y)) as [s2 [rw|e]]; [|discriminate].
    destruct (split_budget B lw rw) as [[lb rb]|e] eqn:Hsplit; [|discriminate].
    apply split_budget_sum in Hsplit. simpl.
    destruct (_distribute_node s2 x lb) as [[s3 x'] [v1|e]] eqn:Dx; [|discriminate].
    destruct (_distribute_node s3 y rb) as [[s4 y'] [v2|e]] eqn:Dy; [|discriminate].
    intros [= <- <- <-].
    rewrite allocated_to_app.
    pose proof (IHr _ _ _ _ _ Hy Ny Dy) as Ry.
    pose proof (IHl _ _ _ _ _ Hx Nx Dx) as Rx.
    fold (leaf_ids x) (leaf_ids y) in *.
    rewrite (allocated_to_ext s4 s3 (leaf_ids x)).
    + lia.
    + intros id Hid.
      pose proof (_distribute_node_frame y s3 rb id) as F.
      rewrite Dy in F. simpl in F. apply F.
      intros Hin. apply (Hdisj id); apply list_elem_of_In; assumption.
Qed.

Lemma entry_allocation_map (self : TokenBalancer) (id : string) :
  entry (allocation_map self) id = get_allocation self id.
Proof.
  unfold entry, allocation_map, get_allocation. rewrite lookup_fmap.
  destruct (leaf_allocations self !! id); reflexivity.
Qed.

Example documented_tree_leaves :
  leaf_ids documented_tree
  = ["M111"; "M112"; "M121"; "M122"; "M211"; "M212"; "M221"; "M222"].
Proof. reflexivity. Qed.

Example documented_tree_allocations :
  (balance_tokens (new_balancer 100000) (Some documented_tree)).2
  = Ok (list_to_map [("M111", 12500); ("M112", 12500); ("M121", 12500);
                     ("M122", 12500); ("M211", 12500); ("M212", 12500);
                     ("M221", 12500); ("M222", 12500)]).
Proof. vm_compute. reflexivity. Qed.


(** ** The balancer's state across a distribution *)

Lemma weight_of_get_node_weight (self : TokenBalancer) (id id' : string) :
  weight_of (_get_node_weight self id).1 id' = weight_of self id'.
Proof.
  unfold _get_node_weight, weight_of.
  destruct (node_weights self !! id) eqn:H; simpl; [reflexivity|].
  destruct (decide (id = id')) as [->|Hne].
  - rewrite lookup_insert_eq, H. reflexivity.
  - rewrite lookup_insert_ne by exact Hne. reflexivity.
Qed.

Lemma weight_of_calculate_weight_node (node : BSTNode) :
  forall self id, weight_of (_calculate_weight_node self node).1 id = weight_of self id.
Proof.
  induction node as [c l r a t IHl IHr] using BSTNode_tree_ind.
  intros self id. simpl.
  destruct (if _cache_valid self then _ else None); [reflexivity|].
  destruct (NodeLevel_eqb (level c) LEAF).
  - pose proof (weight_of_get_node_weight self (cfg_node_id c) id) as H.
    destruct (_get_node_weight self (cfg_node_id c)) as [s1 w]. simpl in H.
    destruct (total_weight w); simpl; exact H.
  - assert (Hl : forall s, weight_of (match l with
                 | Some x => _calculate_weight_node s x | None => (s, Ok f0) end).1 id
                 = weight_of s id).
    { intros s. destruct l; simpl in *; auto. }
    assert (Hr : forall s, weight_of (match r with
                 | Some x => _calculate_weight_node s x | None => (s, Ok f0) end).1 id
                 = weight_of s id).
    { intros s. destruct r; simpl in *; auto. }
    specialize (Hl self).
    destruct (match l with Some x => _ | None => _ end) as [s1 [lw|e]];
      simpl in *; [|exact Hl].
    specialize (Hr s1).
    destruct (match r with Some x => _ | None => _ end) as [s2 [rw|e]];
      unfold weight_of in *; simpl in *; congruence.
Qed.

Lemma weight_of_calculate_weight (self : TokenBalancer) (o : option BSTNode) (id : string) :
  weight_of (_calculate_weight self o).1 id = weight_of self id.
Proof. destruct o; simpl; [apply weight_of_calculate_weight_node | reflexivity]. Qed.

Lemma weight_of_distribute_node (node : BSTNode) :
  forall self B id, weight_of (_distribute_node self node B).1.1 id = weight_of self id.
Proof.
  induction node as [c l r a t IHl IHr] using BSTNode_tree_ind.
  intros self B id.
  destruct (NodeLevel_eqb (level c) LEAF) eqn:Hlevel.
  - rewrite _distribute_node_leaf by exact Hlevel. reflexivity.
  - rewrite _distribute_node_internal by exact Hlevel.
    pose proof (weight_of_calculate_weight self l id) as Hl.
    destruct (_calculate_weight self l) as [s1 [lw|e]]; simpl in *; [|exact Hl].
    pose proof (weight_of_calculate_weight s1 r id) as Hr.
    destruct (_calculate_weight s1 r) as [s2 [rw|e]]; simpl in *; [|congruence].
    destruct (split_budget B lw rw) as [[lb rb]|e]; simpl; [|congruence].
    assert (Fl : weight_of (_distribute s2 l lb).1.1 id = weight_of s2 id).
    { destruct l as [x|]; simpl in *; [|reflexivity].
      specialize (IHl s2 lb id). destruct (_distribute_node s2 x lb) as [[? ?] ?].
      exact IHl. }
    destruct (_distribute s2 l lb) as [[s3 l'] [v|e]]; simpl in *; [|congruence].
    assert (Fr : weight_of (_distribute s3 r rb).1.1 id = weight_of s3 id).
    { destruct r as [x|]; simpl in *; [|reflexivity].
      specialize (IHr s3 rb id). destruct (_distribute_node s3 x rb) as [[? ?] ?].
      exact IHr. }
    destruct (_distribute s3 r rb) as [[s4 r'] [v'|e]]; simpl in *; congruence.
Qed.

Lemma height_nonneg (node : BSTNode) : 0 <= height node.
Proof.
  induction node as [c l r a t IHl IHr] using BSTNode_tree_ind. simpl.
  destruct (NodeLevel_eqb (level c) LEAF); [lia|].
  destruct l, r; simpl in *; lia.
Qed.

Lemma _get_node_weight_reads (self : TokenBalancer) (id : string) :
  (_get_node_weight self id).2 = weight_of self id
  /\ _cache_valid (_get_node_weight self id).1 = _cache_valid self.
Proof.
  unfold _get_node_weight, weight_of.
  destruct (node_weights self !! id); simpl; split; reflexivity.
Qed.

Lemma subtree_weight_ext (s1 s2 : TokenBalancer) (node : BSTNode) :
  (forall id, weight_of s1 id = weight_of s2 id) ->
  subtree_weight s1 node = subtree_weight s2 node.
Proof.
  intros Hw. induction node as [c l r a t IHl IHr] using BSTNode_tree_ind.
  simpl. rewrite Hw.
  destruct (NodeLevel_eqb (level c) LEAF); [reflexivity|].
  destruct l as [x|], r as [y|]; simpl in *; rewrite ?IHl, ?IHr; reflexivity.
Qed.

Lemma weight_under_ext (s1 s2 : TokenBalancer) (o : option BSTNode) :
  (forall id, weight_of s1 id = weight_of s2 id) ->
  weight_under s1 o = weight_under s2 o.
Proof. intros Hw. destruct o; simpl; [apply subtree_weight_ext; exact Hw | reflexivity]. Qed.

Lemma weights_tame_ext (s1 s2 : TokenBalancer) (node : BSTNode) :
  (forall id, weight_of s1 id = weight_of s2 id) ->
  weights_tame s1 node = weights_tame s2 node.
Proof.
  intros Hw. induction node as [c l r a t IHl IHr] using BSTNode_tree_ind.
  simpl. destruct (NodeLevel_eqb (level c) LEAF); [reflexivity|].
  unfold tame_under. rewrite !(weight_under_ext s1 s2) by exact Hw.
  destruct l as [x|], r as [y|]; simpl in *; congruence.
Qed.

(** While the cache is invalid, [_calculate_weight] recomputes the weight
    from the factors, and leaves the cache invalid. *)
Lemma _calculate_weight_node_recomputes (node : BSTNode) :
  forall self, _cache_valid self = false ->
    (_calculate_weight_node self node).2 = subtree_weight self node
    /\ _cache_valid (_calculate_weight_node self node).1 = false.
Proof.
  induction node as [c l r a t IHl IHr] using BSTNode_tree_ind.
  intros self Hc. simpl. rewrite Hc.
  destruct (NodeLevel_eqb (level c) LEAF).
  - pose proof (_get_node_weight_reads self (cfg_node_id c)) as [Hw Hv].
    destruct (_get_node_weight self (cfg_node_id c)) as [s1 w]. simpl in *.
    subst w. destruct (total_weight (weight_of self (cfg_node_id c))); simpl;
      split; congruence.
  - assert (Hl : forall s, _cache_valid s = false ->
        (match l with Some x => _calculate_weight_node s x | None => (s, Ok f0) end).2
        = weight_under s l
        /\ _cache_valid (match l with
             | Some x => _calculate_weight_node s x | None => (s, Ok f0) end).1 = false).
    { intros s Hs. destruct l; simpl in *; auto. }
    assert (Hr : forall s, _cache_valid s = false ->
        (match r with Some x => _calculate_weight_node s x | None => (s, Ok f0) end).2
        = weight_under s r
        /\ _cache_valid (match r with
             | Some x => _calculate_weight_node s x | None => (s, Ok f0) end).1 = false).
    { intros s Hs. destruct r; simpl in *; auto. }
    pose proof (fun id => weight_of_calculate_weight self l id) as Wl.
    unfold _calculate_weight in Wl.
    destruct (Hl self Hc) as [Hl1 Hl2].
    change (match l with Some x => subtree_weight self x | None => Ok f0 end)
      with (weight_under self l).
    change (match r with Some x => subtree_weight self x | None => Ok f0 end)
      with (weight_under self r).
    destruct (match l with Some x => _calculate_weight_node self x | None => _ end)
      as [s1 [lw|e]]; simpl in *; rewrite <- Hl1; simpl; [|split; congruence].
    destruct (Hr s1 Hl2) as [Hr1 Hr2].
    rewrite <- (weight_under_ext s1 self r) by exact Wl.
    destruct (match r with Some x => _calculate_weight_node s1 x | None => _ end)
      as [s2 [rw|e]]; simpl in *; rewrite <- Hr1; simpl; split; congruence.
Qed.

Lemma _calculate_weight_recomputes (self : TokenBalancer) (o : option BSTNode) :
  _cache_valid self = false ->
  (_calculate_weight self o).2 = weight_under self o
  /\ _cache_valid (_calculate_weight self o).1 = false.
Proof.
  intros Hc. destruct o; simpl; [apply _calculate_weight_node_recomputes; exact Hc | auto].
Qed.

Lemma _distribute_node_cache (node : BSTNode) :
  forall self B, _cache_valid self = false ->
    _cache_valid (_distribute_node self node B).1.1 = false.
Proof.
  induction node as [c l r a t IHl IHr] using BSTNode_tree_ind.
  intros self B Hc.
  destruct (NodeLevel_eqb (level c) LEAF) eqn:Hlevel.
  - rewrite _distribute_node_leaf by exact Hlevel. exact Hc.
  - rewrite _distribute_node_internal by exact Hlevel.
    destruct (_calculate_weight_recomputes self l Hc) as [_ H1].
    destruct (_calculate_weight self l) as [s1 [lw|e]]; simpl in *; [|exact H1].
    destruct (_calculate_weight_recomputes s1 r H1) as [_ H2].
    destruct (_calculate_weight s1 r) as [s2 [rw|e]]; simpl in *; [|exact H2].
    destruct (split_budget B lw rw) as [[lb rb]|e]; simpl; [|exact H2].
    assert (H3 : _cache_valid (_distribute s2 l lb).1.1 = false).
    { destruct l as [x|]; simpl in *; [|exact H2].
      specialize (IHl s2 lb H2). destruct (_distribute_node s2 x lb) as [[? ?] ?].
      exact IHl. }
    destruct (_distribute s2 l lb) as [[s3 l'] [v|e]]; simpl in *; [|exact H3].
    assert (H4 : _cache_valid (_distribute s3 r rb).1.1 = false).
    { destruct r as [x|]; simpl in *; [|exact H3].
      specialize (IHr s3 rb H3). destruct (_distribute_node s3 x rb) as [[? ?] ?].
      exact IHr. }
    destruct (_distribute s3 r rb) as [[s4 r'] [v'|e]]; simpl in *; exact H4.
Qed.

(** The distribution returns: with an invalid cache (the only state the
    balancer's methods leave), tame weights, and a budget that leaves five
    bits of a double's range for each level of the tree. *)
Lemma _distribute_node_returns (node : BSTNode) :
  forall self B k,
    _cache_valid self = false ->
    weights_tame self node = true ->
    Z.abs B < 2 ^ k -> 0 <= k -> k + 5 * height node <= 960 ->
    is_ok (_distribute_node self node B).2 = true.
Proof.
  induction node as [c l r a t IHl IHr] using BSTNode_tree_ind.
  intros self B k Hc Ht HB Hk Hh.
  destruct (NodeLevel_eqb (level c) LEAF) eqn:Hlevel.
  - rewrite _distribute_node_leaf by exact Hlevel. reflexivity.
  - rewrite _distribute_node_internal by exact Hlevel.
    simpl in Ht, Hh. rewrite Hlevel in Ht, Hh.
    assert (Hl0 : 0 <= match l with Some x => height x | None => 0 end)
      by (destruct l; [apply height_nonneg | lia]).
    assert (Hr0 : 0 <= match r with Some x => height x | None => 0 end)
      by (destruct r; [apply height_nonneg | lia]).
    apply andb_prop in Ht as [Ht Htr]. apply andb_prop in Ht as [Ht Htl].
    apply andb_prop in Ht as [Hlw Hrw]. unfold tame_under in Hlw, Hrw.
    destruct (_calculate_weight_recomputes self l Hc) as [E1 H1].
    pose proof (fun id => weight_of_calculate_weight self l id) as W1.
    destruct (_calculate_weight self l) as [s1 left_r]. simpl in E1, H1, W1.
    subst left_r. destruct (weight_under self l) as [lw|e]; [|discriminate].
    destruct (_calculate_weight_recomputes s1 r H1) as [E2 H2].
    pose proof (fun id => weight_of_calculate_weight s1 r id) as W2.
    destruct (_calculate_weight s1 r) as [s2 right_r]. simpl in E2, H2, W2.
    subst right_r. rewrite (weight_under_ext s1 self r W1).
    destruct (weight_under self r) as [rw|e]; [|discriminate].
    assert (W12 : forall id, weight_of s2 id = weight_of self id)
      by (intros id; rewrite W2; apply W1).
    destruct (split_budget_returns B k lw rw Hlw Hrw HB ltac:(lia))
      as (lb & rb & Hsplit & Hlb & Hrb).
    rewrite Hsplit.
    assert (Hlb' : Z.abs lb < 2 ^ (k + 5)).
    { assert (2 ^ (k + 4) <= 2 ^ (k + 5)) by (apply pow2_le; lia). lia. }
    assert (Hhl : k + 5 + 5 * match l with Some x => height x | None => 0 end <= 960) by lia.
    assert (Hhr : k + 5 + 5 * match r with Some x => height x | None => 0 end <= 960) by lia.
    clear Hh Hlb.
    assert (R3 : is_ok (_distribute s2 l lb).2 = true
                 /\ _cache_valid (_distribute s2 l lb).1.1 = false
                 /\ forall id, weight_of (_distribute s2 l lb).1.1 id = weight_of self id).
    { destruct l as [x|]; simpl in IHl |- *; [|auto].
      pose proof (IHl s2 lb (k + 5) H2) as IH.
      rewrite (weights_tame_ext s2 self x W12) in IH.
      specialize (IH Htl Hlb' ltac:(lia) Hhl).
      pose proof (_distribute_node_cache x s2 lb H2) as Hcache.
      pose proof (fun id => weight_of_distribute_node x s2 lb id) as Hw.
      destruct (_distribute_node s2 x lb) as [[? ?] ?]. simpl in *.
      split; [exact IH|]. split; [exact Hcache|].
      intros id. rewrite Hw. apply W12. }
    destruct (_distribute s2 l lb) as [[s3 l'] o3]. simpl in R3.
    destruct R3 as (O3 & H3 & W3). destruct o3 as [v|e]; [|discriminate].
    assert (R4 : is_ok (_distribute s3 r rb).2 = true).
    { destruct r as [y|]; simpl in IHr |- *; [|reflexivity].
      pose proof (IHr s3 rb (k + 5) H3) as IH.
      rewrite (weights_tame_ext s3 self y W3) in IH.
      specialize (IH Htr Hrb ltac:(lia) Hhr).
      destruct (_distribute_node s3 y rb) as [[? ?] ?]. exact IH. }
    destruct (_distribute s3 r rb) as [[s4 r'] [v'|e]]; [reflexivity | discriminate].
Qed.

(** The same with the bound on the budget written against the height. *)
Lemma _distribute_node_within (node : BSTNode) (self : TokenBalancer) (B : Z) :
  _cache_valid self = false ->
  weights_tame self node = true ->
  Z.abs B < 2 ^ (960 - 5 * height node) ->
  is_ok (_distribute_node self node B).2 = true.
Proof.
  intros Hc Ht HB.
  destruct (Z_lt_le_dec (960 - 5 * height node) 0) as [Hneg|Hpos].
  - rewrite Z.pow_neg_r in HB by exact Hneg. lia.
  - apply (_distribute_node_returns node self B (960 - 5 * height node));
      [exact Hc | exact Ht | exact HB | exact Hpos | lia].
Qed.


Example huge_budget_raises :
  (balance_tokens (new_balancer (10 ^ 400)) (Some handler_pair)).2
  = Raise OverflowError.
Proof. vm_compute. reflexivity. Qed.



(** ** The split where the children weigh nothing *)

Example weightless_pair_allocations :
  (balance_tokens (weightless_balancer 100) (Some weightless_pair)).2
  = Ok (list_to_map [("M111", 0); ("M112", 100)]).
Proof. vm_compute. reflexivity. Qed.

(** C9, as stated, fails: with both weights 0.0 and a budget of 100 the
    left child receives 0 and the right child 100. *)
Lemma zero_weight_split_is_not_even : ~ zero_weight_splits_evenly.
Proof.
  intros H.
  destruct (H 100 f0 f0) as (lb & rb & Hsplit & _ & Habs);
    [lia | reflexivity |].
  vm_compute in Hsplit. injection Hsplit as <- <-.
  revert Habs. vm_compute. intros Habs. apply Habs. reflexivity.
Qed.

(** C9, amended.  Where the combined weight of the two children is 0, the
    total weight is taken to be 1, so the division does not fail; the left
    child receives [int(B * (left_weight / 1))] and the right child the
    remainder.  When the left weight is itself a zero (as it is for
    non-negative weights) and [B] fits a float, the left child receives 0
    and the right child the whole of [B]. *)
Theorem zero_weight_split (B : Z) (lw rw : float) :
  feqb (fadd lw rw) f0 = true ->
  is_ok (float_of_int B) = true ->
  split_budget B lw rw
  = (let! budget := float_of_int B in
     let! left_budget := int_of_float (fmul budget (fdiv lw f1)) in
     Ok (left_budget, B - left_budget))
  /\ (is_zero lw = true -> split_budget B lw rw = Ok (0, B)).
Proof.
  intros Hzero Hfits.
  assert (Heq : split_budget B lw rw
    = (let! budget := float_of_int B in
       let! left_budget := int_of_float (fmul budget (fdiv lw f1)) in
       Ok (left_budget, B - left_budget))).
  { unfold split_budget. rewrite Hzero. reflexivity. }
  split; [exact Heq|].
  intros Hlw. rewrite Heq.
  destruct (float_of_int B) as [budget|] eqn:Hb; [|discriminate].
  apply float_of_int_finite in Hb. simpl.
  destruct lw as [s| | |]; try discriminate.
  change (fdiv (S754_zero s) f1) with (S754_zero (xorb s false)).
  pose proof (fmul_zero_r budget (xorb s false) Hb) as Hz.
  destruct (fmul budget (S754_zero (xorb s false))); try discriminate.
  simpl. f_equal. f_equal. lia.
Qed.

Lemma zero_weight_split_witness : split_budget 100 f0 f0 = Ok (0, 100).
Proof.
  apply (zero_weight_split 100 f0 f0); reflexivity.
Defined.

(** ** Full rebalance *)

(** With no allocation on record, the weight recalculation changes nothing. *)
Lemma _recalculate_all_weights_node_no_records (node : BSTNode) :
  forall self,
    leaf_allocations self = ∅ ->
    _recalculate_all_weights_node self node = (self, Ok tt).
Proof.
  induction node as [c l r a t IHl IHr] using BSTNode_tree_ind.
  intros self Hempty. simpl. rewrite Hempty, lookup_empty.
  destruct l as [x|]; simpl in *.
  - rewrite (IHl self Hempty). destruct r as [y|]; simpl in *; auto.
  - destruct r as [y|]; simpl in *; auto.
Qed.

(** C2, on the code: [rebalance_full] empties the allocation records
    before it looks at them, so the utilization is never read and no
    weight factor of any node changes, whatever the consumption was. *)
Theorem rebalance_full_keeps_weights
    (self : TokenBalancer) (tree_root : option BSTNode) (id : string) :
  weight_of (rebalance_full self tree_root).1.1 id = weight_of self id.
Proof.
  unfold rebalance_full.
  assert (H : _recalculate_all_weights
                (set_leaf_allocations (_invalidate_cache self) ∅) tree_root
              = (set_leaf_allocations (_invalidate_cache self) ∅, Ok tt)).
  { destruct tree_root as [x|]; simpl; [|reflexivity].
    apply _recalculate_all_weights_node_no_records. reflexivity. }
  rewrite H.
  destruct tree_root as [x|]; simpl; [|reflexivity].
  pose proof (weight_of_distribute_node x
                (set_leaf_allocations (_invalidate_cache self) ∅)
                (total_budget self) id) as D.
  destruct (_distribute_node _ x _) as [[s x'] o]. exact D.
Qed.

(** At a leaf that used 90% of its allocation: the recalculation, run on
    the records, scales [historical_usage] to 1.1 and 0.9 ... *)
Example recalculation_on_records :
  let after := (_recalculate_all_weights busy_and_idle (Some handler_pair)).1 in
  utilization (mkAllocationRecord "M111" 500 450 f0) = Ok f0_9
  /\ historical_usage (weight_of after "M111") = f1_1
  /\ historical_usage (weight_of after "M112") = f0_9.
Proof. vm_compute. auto. Qed.

(** ... but [rebalance_full] leaves it at 1.0 and deals the same shares. *)
Example rebalance_full_ignores_consumption :
  let after := (rebalance_full busy_and_idle (Some handler_pair)).1.1 in
  get_allocation busy_and_idle "M111" = 500
  /\ historical_usage (weight_of busy_and_idle "M111") = f1
  /\ historical_usage (weight_of after "M111") = f1
  /\ historical_usage (weight_of after "M112") = f1
  /\ get_allocation after "M111" = 500
  /\ get_allocation after "M112" = 500.
Proof. vm_compute. repeat split; reflexivity. Qed.

(** ** Partial rebalance *)

Lemma _get_subtree_budget_node_sum (self : TokenBalancer) (node : BSTNode) :
  _get_subtree_budget_node self node = allocated_to self (leaf_ids node).
Proof.
  induction node as [c l r a t IHl IHr] using BSTNode_tree_ind.
  simpl. destruct (NodeLevel_eqb (level c) LEAF) eqn:Hlevel.
  - rewrite leaf_ids_leaf by exact Hlevel. unfold allocated_to. simpl. lia.
  - rewrite leaf_ids_internal by exact Hlevel. rewrite allocated_to_app.
    destruct l as [x|], r as [y|]; simpl in *;
      rewrite ?IHl, ?IHr; reflexivity.
Qed.

Lemma _clear_subtree_allocations_node_frame (node : BSTNode) :
  forall (m : gmap string AllocationRecord) (id : string),
    ~ In id (leaf_level_ids node) ->
    _clear_subtree_allocations_node m node !! id = m !! id.
Proof.
  induction node as [c l r a t IHl IHr] using BSTNode_tree_ind.
  intros m id Hid. simpl in *.
  rewrite !in_app_iff in Hid.
  assert (H0 : (if NodeLevel_eqb (level c) LEAF then delete (cfg_node_id c) m else m)
               !! id = m !! id).
  { destruct (NodeLevel_eqb (level c) LEAF); [|reflexivity].
    apply lookup_delete_ne. simpl in Hid. tauto. }
  destruct l as [x|], r as [y|]; simpl in *;
    rewrite ?IHr, ?IHl by tauto; exact H0.
Qed.

Lemma leaf_ids_leaf_level (node : BSTNode) (id : string) :
  In id (leaf_ids node) -> In id (leaf_level_ids node).
Proof.
  induction node as [c l r a t IHl IHr] using BSTNode_tree_ind.
  simpl. destruct (NodeLevel_eqb (level c) LEAF) eqn:Hlevel.
  - rewrite leaf_ids_leaf by exact Hlevel. simpl. tauto.
  - rewrite leaf_ids_internal by exact Hlevel. rewrite !in_app_iff.
    destruct l as [x|], r as [y|]; simpl in *; tauto.
Qed.

(** C3. Partial rebalance isolation.  [rebalance_partial] takes as its
    budget the sum of the current allocations of the subtree's leaves,
    clears the subtree's records and redistributes that budget inside the
    subtree; the record (allocated and consumed) of every id that is not a
    leaf of the subtree is the same before and after, whether or not the
    redistribution returns; when it returns on a subtree of two-child
    internal nodes with distinct leaf ids, the subtree's leaves hold
    together what they held before; and it returns once the cache is
    invalid, the weights read in the subtree are tame and the budget leaves
    five bits of a double's range for each level of the subtree. *)
Theorem partial_rebalance_isolation (self : TokenBalancer) (subtree_root : BSTNode) :
  let budget := allocated_to self (leaf_ids subtree_root) in
  let cleared := _clear_subtree_allocations self (Some subtree_root) in
  let after := (rebalance_partial self (Some subtree_root)).1.1 in
  _get_subtree_budget self (Some subtree_root) = budget
  /\ (rebalance_partial self (Some subtree_root)).1
     = (_distribute cleared (Some subtree_root) budget).1
  /\ (forall id, In id (leaf_level_ids subtree_root) ->
        leaf_allocations cleared !! id = None)
  /\ (forall id, ~ In id (leaf_level_ids subtree_root) ->
        leaf_allocations after !! id = leaf_allocations self !! id)
  /\ (two_children subtree_root -> NoDup (leaf_ids subtree_root) ->
      is_ok (rebalance_partial self (Some subtree_root)).2 = true ->
      allocated_to after (leaf_ids subtree_root) = budget)
  /\ (_cache_valid self = false -> weights_tame self subtree_root = true ->
      Z.abs budget < 2 ^ (960 - 5 * height subtree_root) ->
      is_ok (rebalance_partial self (Some subtree_root)).2 = true).
Proof.
  intros budget cleared after.
  assert (Hbudget : _get_subtree_budget self (Some subtree_root) = budget).
  { apply _get_subtree_budget_node_sum. }
  assert (Hrun : rebalance_partial self (Some subtree_root)
    = let '(s, t, o) := _distribute cleared (Some subtree_root) budget in
      (s, t, let! _ := o in Ok (allocation_map s))).
  { unfold rebalance_partial. rewrite Hbudget. reflexivity. }
  split; [exact Hbudget|]. split; [|split; [|split; [|split]]].
  - rewrite Hrun. destruct (_distribute cleared (Some subtree_root) budget)
      as [[s t] o]. reflexivity.
  - intros id Hid. unfold cleared. simpl.
    clear -Hid. revert Hid. generalize (leaf_allocations self).
    induction subtree_root as [c l r a t IHl IHr] using BSTNode_tree_ind.
    intros m Hid. simpl in *. rewrite !in_app_iff in Hid.
    set (m0 := if NodeLevel_eqb (level c) LEAF then delete (cfg_node_id c) m else m).
    set (m1 := match l with Some x => _clear_subtree_allocations_node m0 x | None => m0 end).
    assert (Hstay : forall (o : option BSTNode) (k : gmap string AllocationRecord),
              k !! id = None ->
              match o with Some x => _clear_subtree_allocations_node k x | None => k end
              !! id = None).
    { intros o k Hk. destruct o as [x|]; [|exact Hk].
      destruct (in_dec string_dec id (leaf_level_ids x)) as [Hin|Hout].
      - clear -Hin. revert k Hin.
        induction x as [c l r a t IHl IHr] using BSTNode_tree_ind.
        intros k Hin. simpl in *. rewrite !in_app_iff in Hin.
        set (k0 := if NodeLevel_eqb (level c) LEAF then delete (cfg_node_id c) k else k).
        set (k1 := match l with Some x => _clear_subtree_allocations_node k0 x | None => k0 end).
        destruct (in_dec string_dec id
                    (match r with Some x => leaf_level_ids x | None => [] end))
          as [Hr|Hr].
        { destruct r as [y|]; [|contradiction]. apply IHr. exact Hr. }
        assert (Hk1 : k1 !! id = None).
        { destruct (in_dec string_dec id
                    (match l with Some x => leaf_level_ids x | None => [] end))
            as [Hl|Hl].
          - unfold k1. destruct l as [y|]; [|contradiction]. apply IHl. exact Hl.
          - assert (Hk0 : k0 !! id = None).
            { unfold k0. destruct (NodeLevel_eqb (level c) LEAF).
              - destruct Hin as [[<-|[]]|[?|?]]; try contradiction.
                apply lookup_delete_eq.
              - destruct Hin as [[]|[?|?]]; contradiction. }
            unfold k1. destruct l as [y|]; [|exact Hk0].
            rewrite _clear_subtree_allocations_node_frame by exact Hl. exact Hk0. }
        destruct r as [y|]; [|exact Hk1].
        rewrite _clear_subtree_allocations_node_frame by exact Hr. exact Hk1.
      - rewrite _clear_subtree_allocations_node_frame by exact Hout. exact Hk. }
    destruct Hid as [H0|[Hl|Hr]].
    + apply Hstay. unfold m1. apply Hstay. unfold m0.
      destruct (NodeLevel_eqb (level c) LEAF); [|contradiction].
      destruct H0 as [<-|[]]. apply lookup_delete_eq.
    + apply Hstay. unfold m1. destruct l as [x|]; [|contradiction].
      apply IHl. exact Hl.
    + destruct r as [y|]; [|contradiction]. apply IHr. exact Hr.
  - intros id Hid. unfold after. rewrite Hrun. simpl.
    pose proof (_distribute_node_frame subtree_root cleared budget id) as F.
    destruct (_distribute_node cleared subtree_root budget) as [[s t] o].
    simpl in *. rewrite F.
    + unfold cleared. simpl.
      apply _clear_subtree_allocations_node_frame. exact Hid.
    + intros Hin. apply Hid, leaf_ids_leaf_level, Hin.
  - intros Hshape Hnodup Hok. unfold after. revert Hok. rewrite Hrun. simpl.
    destruct (_distribute_node cleared subtree_root budget) as [[s t] [v|e]] eqn:D;
      simpl; [|discriminate].
    intros _. eapply _distribute_node_allocated; eassumption.
  - intros Hcache Htame HB. rewrite Hrun. simpl.
    assert (Hok : is_ok (_distribute_node cleared subtree_root budget).2 = true).
    { apply _distribute_node_within; [exact Hcache | | exact HB].
      rewrite <- Htame. apply weights_tame_ext. reflexivity. }
    destruct (_distribute_node cleared subtree_root budget) as [[s t] [v|e]];
      [reflexivity | discriminate].
Qed.

Example left_subtree_ids :
  leaf_level_ids left_subtree = ["M111"; "M112"; "M121"; "M122"]
  /\ leaf_ids left_subtree = ["M111"; "M112"; "M121"; "M122"].
Proof. vm_compute. auto. Qed.

Example left_subtree_rebalanced :
  (rebalance_partial skewed_balancer (Some left_subtree)).2
  = Ok (list_to_map [("M111", 20000); ("M112", 10000); ("M121", 10000);
                     ("M122", 10000); ("M211", 12500); ("M212", 12500);
                     ("M221", 12500); ("M222", 12500)]).
Proof. vm_compute. reflexivity. Qed.

Lemma partial_rebalance_isolation_witness :
  leaf_allocations (rebalance_partial skewed_balancer (Some left_subtree)).1.1 !! "M222"
  = Some (mkAllocationRecord "M222" 12500 700 f0)
  /\ allocated_to (rebalance_partial skewed_balancer (Some left_subtree)).1.1
       (leaf_ids left_subtree) = 50000.
Proof.
  destruct (partial_rebalance_isolation skewed_balancer left_subtree)
    as (_ & _ & _ & Hframe & Hsum & _).
  split.
  - rewrite Hframe; [vm_compute; reflexivity|].
    vm_compute. intuition discriminate.
  - rewrite Hsum; [vm_compute; reflexivity | | |].
    + vm_compute. tauto.
    + apply (bool_decide_unpack _). vm_compute. exact I.
    + vm_compute. reflexivity.
Defined.

(** ** Raising a weight *)

Example f1_75_is_seven_quarters : int_truediv 7 4 = Ok f1_75.
Proof. reflexivity. Qed.

Example f1_75_next_is_next :
  fadd f1_75 (S754_finite false 1 (-52)) = f1_75_next
  /\ fltb f1_75 f1_75_next = true.
Proof. vm_compute. auto. Qed.

(** C5, on the code: with a budget of 8, raising the historical usage of
    M111 from 1.75 to the next float lowers its allocation from 7 to 6; the
    sum [1.75 + 0.25000000000000017] rounds down to 2.0 and the raised sum
    rounds up, so the computed ratio falls from 0.875 to the float below. *)
Theorem raised_weight_lowers_allocation :
  let raised := update_weight close_call "M111" [kw_historical_usage f1_75_next] in
  fltb (historical_usage (weight_of close_call "M111"))
       (historical_usage (weight_of raised "M111")) = true
  /\ (balance_tokens close_call (Some handler_pair)).2
     = Ok (list_to_map [("M111", 7); ("M112", 1)])
  /\ (balance_tokens raised (Some handler_pair)).2
     = Ok (list_to_map [("M111", 6); ("M112", 2)]).
Proof. vm_compute. auto. Qed.

Lemma weight_of_update_weight (self : TokenBalancer) (id : string)
    (kwargs : list weight_kwarg) (i : string) :
  weight_of (update_weight self id kwargs) i
  = if decide (id = i) then fold_left setattr_weight kwargs (weight_of self id)
    else weight_of self i.
Proof.
  unfold update_weight, _get_node_weight, weight_of.
  destruct (node_weights self !! id) eqn:H; simpl;
    destruct (decide (id = i)) as [<-|Hne];
    rewrite ?lookup_insert_eq, ?lookup_insert_ne by exact Hne;
    rewrite ?lookup_insert_ne by exact Hne; reflexivity.
Qed.

Lemma close_call_in_range (i : string) : factors_in_range (weight_of close_call i).
Proof.
  unfold close_call. rewrite !weight_of_update_weight.
  destruct (decide ("M112" = i)); [vm_compute; intuition discriminate|].
  destruct (decide ("M111" = i)); vm_compute; intuition discriminate.
Qed.

Lemma weight_monotonicity_fails : ~ weight_monotonicity.
Proof.
  intros H.
  specialize (H close_call handler_pair "M111" (kw_historical_usage f1_75_next)
                (list_to_map [("M111", 7); ("M112", 1)])
                (list_to_map [("M111", 6); ("M112", 2)])).
  assert (Hle : entry (list_to_map [("M111", 7); ("M112", 1)]) "M111"
                <= entry (list_to_map [("M111", 6); ("M112", 2)]) "M111").
  { apply H.
    - simpl. tauto.
    - apply (bool_decide_unpack _). vm_compute. exact I.
    - simpl. tauto.
    - vm_compute. discriminate.
    - apply close_call_in_range.
    - vm_compute. intuition discriminate.
    - vm_compute. reflexivity.
    - vm_compute. reflexivity.
    - vm_compute. reflexivity. }
  vm_compute in Hle. apply Hle. reflexivity.
Qed.

(** * The token account and the leaves *)

(** ** The token account *)

Lemma consume_tokens_rejects (n : BSTNode) (amount : Z) :
  tokens_remaining n < amount -> consume_tokens n amount = (n, false).
Proof.
  intros H. unfold consume_tokens.
  destruct (Z.ltb_spec (tokens_remaining n) amount); [reflexivity | lia].
Qed.

Lemma consume_tokens_accepts (n : BSTNode) (amount : Z) :
  amount <= tokens_remaining n ->
  consume_tokens n amount
  = (mkBSTNode (config n) (left n) (right n) (_token_allocation n)
               (_tokens_consumed n + amount), true).
Proof.
  intros H. unfold consume_tokens.
  destruct (Z.ltb_spec (tokens_remaining n) amount); [lia | reflexivity].
Qed.

Lemma consume_tokens_within (n : BSTNode) (amount : Z) :
  within_allocation n -> within_allocation (consume_tokens n amount).1.
Proof.
  unfold within_allocation, consume_tokens, tokens_remaining.
  destruct (Z.ltb_spec (_token_allocation n - _tokens_consumed n) amount);
    simpl; lia.
Qed.

Lemma consume_tokens_allocation (n : BSTNode) (amount : Z) :
  _token_allocation (consume_tokens n amount).1 = _token_allocation n.
Proof.
  unfold consume_tokens. destruct (Z.ltb _ _); reflexivity.
Qed.

(** ** The increments of the leaves *)

Section LeafFacts.

Context (C : Collaborators).

Lemma py_len_nonneg (v : pyval) (n : Z) : py_len v = Ok n -> 0 <= n.
Proof. destruct v; simpl; intros [= <-]; lia. Qed.

Lemma charged_extra (id method : string) (args : list pyval)
    (extra : InterfaceResult -> outcome Z) (w w' : World C)
    (result : InterfaceResult) (n : Z) :
  charged C id method args extra w = (w', Ok (result, n)) ->
  (call C id method args w).2 = Ok result /\ extra result = Ok n.
Proof.
  unfold charged. destruct (call C id method args w) as [w1 [r|e]]; simpl.
  - destruct (extra r) as [k|e] eqn:E; simpl; [|discriminate].
    intros [= <- <- <-]. auto.
  - discriminate.
Qed.

Lemma per_bytes_nonneg (k : Z) (r : InterfaceResult) (n : Z) :
  0 < k -> 0 <= bytes_transferred r -> per_bytes k r = Ok n -> 0 <= n.
Proof.
  intros Hk Hb [= <-]. apply Z.div_pos; assumption.
Qed.

Lemma per_row_nonneg (k : Z) (r : InterfaceResult) (n : Z) :
  0 <= k -> per_row k r = Ok n -> 0 <= n.
Proof.
  intros Hk. unfold per_row. destruct (ir_success r).
  - destruct (py_len (ir_data r)) as [m|] eqn:E; simpl; [|discriminate].
    intros [= <-]. apply py_len_nonneg in E. lia.
  - intros [= <-]. lia.
Qed.

Ltac charge :=
  match goal with
  | Hrun : _ = (_, Ok (_, _)) |- _ =>
      cbv beta zeta in Hrun;
      apply charged_extra in Hrun; destruct Hrun as [Hcall Hextra]
  end.

Ltac settle Hbytes :=
  first
    [ lia
    | match goal with
      | Hcall : (call _ _ _ _ _).2 = Ok ?r, Hextra : per_bytes _ ?r = Ok _ |- _ =>
          eapply per_bytes_nonneg; [| |exact Hextra];
          [lia | eapply Hbytes; exact Hcall]
      | Hextra : per_row _ _ = Ok _ |- _ =>
          eapply per_row_nonneg; [|exact Hextra]; lia
      | Hextra : flat _ _ = Ok _ |- _ => injection Hextra as <-; lia
      end ].

(** No branch of a leaf lowers [tokens_used]. *)
Lemma branch_extra_nonneg (L : LeafSpec C) (a : string) (run : branch C)
    (input_data : dict) (w w' : World C) (result : InterfaceResult) (extra : Z) :
  counts_bytes C ->
  In L (action_leaves C) ->
  branches C L a = Some run ->
  run input_data w = (w', Ok (result, extra)) ->
  0 <= extra.
Proof.
  intros Hbytes HL Hbranch Hrun.
  repeat (destruct HL as [<-|HL]); [..|contradiction]; simpl in Hbranch.
  - (* M111 *)
    repeat (destruct (String.eqb a _); [injection Hbranch as <-|]);
      try discriminate; charge; settle Hbytes.
  - (* M112 *)
    repeat (destruct (String.eqb a _); [injection Hbranch as <-|]);
      try discriminate.
    + destruct (dict_get input_data "level" (VStr "INFO")); try discriminate.
      match type of Hrun with
      | (if ?b then _ else _) = _ => destruct b; [|discriminate]
      end.
      charge. simpl in Hextra.
      destruct (py_len _) as [m|] eqn:E; [|discriminate].
      injection Hextra as <-. apply py_len_nonneg in E.
      apply Z.div_pos; lia.
    + charge; settle Hbytes.
    + destruct (call_value C _ _ _ w) as [w1 [v|e]]; simpl in Hrun;
        [|discriminate]. injection Hrun as <- <- <-. lia.
  - (* M121 *)
    repeat (destruct (String.eqb a _); [injection Hbranch as <-|]);
      try discriminate.
    + charge; settle Hbytes.
    + charge; settle Hbytes.
    + destruct (call_value C _ _ _ w) as [w1 [v|e]]; simpl in Hrun;
        [|discriminate].
      destruct (py_len v) as [m|] eqn:E; simpl in Hrun; [|discriminate].
      injection Hrun as <- <- <-. apply py_len_nonneg in E. lia.
    + destruct (call_value C _ _ _ w) as [w1 [v|e]]; simpl in Hrun;
        [|discriminate]. injection Hrun as <- <- <-. lia.
  - (* M122 *)
    repeat (destruct (String.eqb a _); [injection Hbranch as <-|]);
      try discriminate; charge; settle Hbytes.
  - (* M211 *)
    repeat (destruct (String.eqb a _); [injection Hbranch as <-|]);
      try discriminate.
    + charge; settle Hbytes.
    + destruct (call_value C _ _ _ w) as [w1 [v|e]]; simpl in Hrun;
        [|discriminate].
      destruct (py_len v) as [m|] eqn:E; simpl in Hrun; [|discriminate].
      injection Hrun as <- <- <-. apply py_len_nonneg in E. lia.
    + destruct (call_value C _ _ _ w) as [w1 [v|e]]; simpl in Hrun;
        [|discriminate]. injection Hrun as <- <- <-. lia.
  - (* M212 *)
    repeat (destruct (String.eqb a _); [injection Hbranch as <-|]);
      try discriminate.
    + charge; settle Hbytes.
    + charge; settle Hbytes.
    + destruct (call_value C _ _ _ w) as [w1 [v|e]]; simpl in Hrun;
        [|discriminate].
      destruct (py_len v) as [m|] eqn:E; simpl in Hrun; [|discriminate].
      injection Hrun as <- <- <-. apply py_len_nonneg in E. lia.
    + destruct (call_value C _ _ _ w) as [w1 [v|e]]; simpl in Hrun;
        [|discriminate]. injection Hrun as <- <- <-. lia.
  - (* M222 *)
    repeat (destruct (String.eqb a _); [injection Hbranch as <-|]);
      try discriminate.
    + destruct (report_document C _ _); [|discriminate].
      charge; settle Hbytes.
    + charge. destruct (ir_success result); injection Hextra as <-; [|lia].
      apply Z.div_pos; [apply (Hbytes _ _ _ _ _ Hcall) | lia].
    + destruct (call_value C _ _ _ w) as [w1 [v|e]]; simpl in Hrun;
        [|discriminate].
      destruct (py_len v) as [m|] eqn:E; simpl in Hrun; [|discriminate].
      injection Hrun as <- <- <-. apply py_len_nonneg in E. lia.
Qed.

End LeafFacts.

(** ** What [process] of a leaf does to the account and the result *)

Section LeafProcess.

Context (C : Collaborators).

Lemma connect_leaf_node (id : string) (self : LeafNode) (w : World C) :
  node (connect_leaf C id self w).1 = node self.
Proof. unfold connect_leaf. destruct (connect C id w). reflexivity. Qed.

Lemma entered_node (id : string) (self : LeafNode) (w : World C) :
  node (if _connected self then (self, w) else connect_leaf C id self w).1
  = node self.
Proof. destruct (_connected self); [reflexivity | apply connect_leaf_node]. Qed.

(** Either the request is turned down at the base cost and the account is
    left alone, or a branch ran and the account was asked for the base cost
    plus the increment of the branch. *)
Lemma leaf_process_cases (L : LeafSpec C) (self : LeafNode) (w : World C)
    (input_data : dict) :
  let out := leaf_process C L self w input_data in
  result_node_id out.2 = leaf_id C L
  /\ ((node out.1.1 = node self
       /\ tokens_used out.2 = base_cost C L
       /\ success out.2 = false)
      \/ (exists a run w0 w1 result extra,
            branches C L a = Some run
            /\ run input_data w0 = (w1, Ok (result, extra))
            /\ tokens_used out.2 = base_cost C L + extra
            /\ node out.1.1
               = (consume_tokens (node self) (base_cost C L + extra)).1)).
Proof.
  unfold leaf_process.
  pose proof (entered_node (leaf_id C L) self w) as Hnode.
  destruct (if _connected self then (self, w)
            else connect_leaf C (leaf_id C L) self w) as [self0 w0].
  simpl in Hnode.
  destruct (match dict_get input_data "action" (VStr (default_action C L)) with
            | VStr a => branches C L a
            | _ => None
            end) as [run|] eqn:Hrun.
  - destruct (run input_data w0) as [w1 [[result extra]|e]] eqn:Hbranch.
    + destruct (consume_tokens (node self0) (base_cost C L + extra)) as [n b] eqn:Hc.
      simpl. split; [reflexivity|]. right.
      destruct (dict_get input_data "action" (VStr (default_action C L)));
        try discriminate.
      exists s, run, w0, w1, result, extra.
      rewrite <- Hnode, Hc. auto.
    + simpl. split; [reflexivity|]. left. auto.
  - simpl. split; [reflexivity|]. left. auto.
Qed.

Lemma base_cost_positive (L : LeafSpec C) :
  In L (action_leaves C) -> 0 < base_cost C L.
Proof.
  intros HL. repeat (destruct HL as [<-|HL]); [..|contradiction]; simpl; lia.
Qed.

Lemma M221_process_cases (self : LeafNode) (w : World C) (input_data : dict)
    (r : NodeResult) :
  (M221_process C self w input_data).2 = Ok r ->
  let after := node (M221_process C self w input_data).1.1 in
  result_node_id r = "M221"
  /\ ((after = node self /\ tokens_used r = 25 /\ success r = false)
      \/ (exists method args w0 result,
            (call C "M221" method args w0).2 = Ok result
            /\ tokens_used r = 25 + bytes_transferred result / 15
            /\ after = (consume_tokens (node self)
                          (25 + bytes_transferred result / 15)).1)).
Proof.
  unfold M221_process.
  pose proof (entered_node "M221" self w) as Hnode.
  destruct (if _connected self then (self, w)
            else connect_leaf C "M221" self w) as [self0 w0].
  simpl in Hnode.
  destruct (dict_get input_data "method" (VStr "GET")); try discriminate.
  match goal with
  | |- context [match ?x with Some _ => _ | None => _ end] =>
      destruct x as [[name args]|]
  end.
  - destruct (call C "M221" name args w0) as [w1 [result|e]] eqn:Hcall.
    + destruct (consume_tokens (node self0) (25 + bytes_transferred result / 15))
        as [n b] eqn:Hc.
      simpl. intros [= <-]. simpl. split; [reflexivity|]. right.
      exists name, args, w0, result. rewrite Hcall, <- Hnode, Hc. auto.
    + simpl. intros [= <-]. simpl. split; [reflexivity|]. left. auto.
  - simpl. intros [= <-]. simpl. split; [reflexivity|]. left. auto.
Qed.

(** M221's [process] returns a Result whenever the ["method"] of the
    request is a string (or absent). *)
Lemma M221_process_returns (self : LeafNode) (w : World C) (input_data : dict)
    (m : string) :
  dict_get input_data "method" (VStr "GET") = VStr m ->
  is_ok (M221_process C self w input_data).2 = true.
Proof.
  intros Hm. unfold M221_process.
  destruct (if _connected self then (self, w)
            else connect_leaf C "M221" self w) as [self0 w0].
  rewrite Hm.
  match goal with
  | |- context [match ?x with Some _ => _ | None => _ end] =>
      destruct x as [[name args]|]
  end; [|reflexivity].
  destruct (call C "M221" name args w0) as [w1 [result|e]]; [|reflexivity].
  destruct (consume_tokens (node self0) (25 + bytes_transferred result / 15)).
  reflexivity.
Qed.

Lemma consume_tokens_charges (n : BSTNode) (amount : Z) :
  _tokens_consumed (consume_tokens n amount).1
  = if amount <=? tokens_remaining n then _tokens_consumed n + amount
    else _tokens_consumed n.
Proof.
  destruct (Z.leb_spec amount (tokens_remaining n)) as [Hfits|Hnot].
  - rewrite consume_tokens_accepts by exact Hfits. reflexivity.
  - rewrite consume_tokens_rejects by exact Hnot. reflexivity.
Qed.

(** The account after the [process] of a leaf that reads an action. *)
Lemma leaf_process_charged (L : LeafSpec C) (self : LeafNode) (w : World C)
    (input_data : dict) :
  counts_bytes C ->
  In L (action_leaves C) ->
  charged_exactly (base_cost C L) (leaf_increment C L self w input_data)
    (node self) (node (leaf_process C L self w input_data).1.1)
    (leaf_process C L self w input_data).2.
Proof.
  intros Hbytes HL. pose proof (base_cost_positive L HL) as Hbase.
  unfold charged_exactly, leaf_process, leaf_increment.
  pose proof (entered_node (leaf_id C L) self w) as Hnode.
  destruct (if _connected self then (self, w)
            else connect_leaf C (leaf_id C L) self w) as [self0 w0].
  cbn [fst snd] in Hnode |- *.
  split; [exact Hbase|].
  destruct (dict_get input_data "action" (VStr (default_action C L)))
    as [| | |a| |]; try (simpl; rewrite Hnode; auto; fail).
  destruct (branches C L a) as [run|] eqn:Hb; [|simpl; rewrite Hnode; auto].
  destruct (run input_data w0) as [w1 [[result extra]|e]] eqn:Hrun;
    [|simpl; rewrite Hnode; auto].
  pose proof (branch_extra_nonneg C L a run input_data w0 w1 result extra
                Hbytes HL Hb Hrun) as Hextra.
  destruct (consume_tokens (node self0) (base_cost C L + extra)) as [n b] eqn:Hc.
  cbn [fst snd node tokens_used].
  assert (Hn : n = (consume_tokens (node self) (base_cost C L + extra)).1)
    by (rewrite <- Hnode, Hc; reflexivity).
  rewrite Hn, consume_tokens_allocation, consume_tokens_charges. auto.
Qed.

(** The account after the [process] of M221. *)
Lemma M221_process_charged (self : LeafNode) (w : World C) (input_data : dict)
    (r : NodeResult) :
  counts_bytes C ->
  (M221_process C self w input_data).2 = Ok r ->
  charged_exactly 25 (M221_increment C self w input_data)
    (node self) (node (M221_process C self w input_data).1.1) r.
Proof.
  intros Hbytes. unfold charged_exactly, M221_process, M221_increment.
  pose proof (entered_node "M221" self w) as Hnode.
  destruct (if _connected self then (self, w)
            else connect_leaf C "M221" self w) as [self0 w0].
  cbn [fst snd] in Hnode |- *.
  destruct (dict_get input_data "method" (VStr "GET")) as [| | |m| |];
    try discriminate.
  destruct (M221_request (upper C m) input_data) as [[name args]|].
  - destruct (call C "M221" name args w0) as [w1 [result|e]] eqn:Hcall.
    + destruct (consume_tokens (node self0) (25 + bytes_transferred result / 15))
        as [n b] eqn:Hc.
      cbn [fst snd node]. intros [= <-]. cbn [tokens_used].
      assert (Hn : n = (consume_tokens (node self)
                          (25 + bytes_transferred result / 15)).1)
        by (rewrite <- Hnode, Hc; reflexivity).
      rewrite Hn, consume_tokens_allocation, consume_tokens_charges.
      pose proof (Hbytes "M221" name args w0 result) as Hb.
      rewrite Hcall in Hb. specialize (Hb eq_refl).
      assert (0 <= bytes_transferred result / 15) by (apply Z.div_pos; lia).
      repeat split; try reflexivity; lia.
    + cbn [fst snd]. intros [= <-]. simpl. rewrite Hnode. repeat split; lia.
  - cbn [fst snd]. intros [= <-]. simpl. rewrite Hnode. repeat split; lia.
Qed.

End LeafProcess.

(** ** The result of a leaf and the tokens it had *)

Lemma consume_tokens_story (base amount : Z) (n : BSTNode) (r : NodeResult) :
  0 < base -> base <= amount -> tokens_used r = amount ->
  charged_if_affordable base n (consume_tokens n amount).1 r.
Proof.
  intros Hbase Hle Hr. unfold charged_if_affordable.
  rewrite consume_tokens_allocation, Hr.
  split; [lia|]. split; [reflexivity|].
  destruct (Z.lt_ge_cases (tokens_remaining n) amount) as [Hlt|Hge].
  - rewrite consume_tokens_rejects by exact Hlt. simpl.
    split; [right; reflexivity | intros _; split; [exact Hlt | reflexivity]].
  - rewrite consume_tokens_accepts by exact Hge. simpl.
    split; [left; split; [exact Hge | reflexivity] | lia].
Qed.

Lemma turned_down_story (base : Z) (n : BSTNode) (r : NodeResult) :
  0 < base -> tokens_used r = base -> charged_if_affordable base n n r.
Proof.
  intros Hbase Hr. unfold charged_if_affordable. rewrite Hr.
  split; [lia|]. split; [reflexivity|]. split; [right; reflexivity|].
  intros Hlt. split; [exact Hlt | reflexivity].
Qed.

(** C7, as stated, fails: M111 with 5 tokens allocated answers a request
    it does not recognize with [tokens_used = 10]. *)
Lemma leaf_result_exceeds_available : ~ leaf_result_within_available.
Proof.
  intros H.
  specialize (H silent (M111 silent) (leaf_with "M111" 5000 5) tt bogus).
  simpl in H. specialize (H (or_introl eq_refl)).
  vm_compute in H. destruct H as [_ H]. apply H. reflexivity.
Qed.

Example read_beyond_allocation :
  let out := leaf_process silent (M111 silent) (leaf_with "M111" 5000 5) tt
               [("action", VStr "read")] in
  tokens_remaining (node (leaf_with "M111" 5000 5)) = 5
  /\ tokens_used out.2 = 10
  /\ success out.2 = true
  /\ _tokens_consumed (node out.1.1) = 0.
Proof. vm_compute. auto. Qed.

(** C7, amended.  The interfaces reporting byte counts that are not
    negative, the Result of every leaf has [tokens_used] at least the
    leaf's base cost, hence above 0.  It is not bounded by the tokens the
    leaf has, and a leaf with less than its base cost remaining reports
    more than it had.  The account is charged exactly as follows.  Where
    the handler completed (the node knows the action, M221 the method, and
    the interface did not raise), [tokens_used] is the base cost and the
    handler's increment, and the account is charged [tokens_used] if that
    fits in what remained and nothing if it does not.  Where the handler
    did not complete, the Result is a failure with the base cost as
    [tokens_used] and the account is charged nothing, whatever remained.
    The allocation never changes.  The seven leaves that read an action
    always return a Result; M221 returns one whenever the method of the
    request is a string. *)
Theorem leaf_result_tokens (C : Collaborators) :
  counts_bytes C ->
  (forall (L : LeafSpec C) (self : LeafNode) (w : World C) (input_data : dict),
      In L (action_leaves C) ->
      charged_if_affordable (base_cost C L) (node self)
        (node (leaf_process C L self w input_data).1.1)
        (leaf_process C L self w input_data).2)
  /\ (forall (self : LeafNode) (w : World C) (input_data : dict) (r : NodeResult),
        (M221_process C self w input_data).2 = Ok r ->
        charged_if_affordable 25 (node self)
          (node (M221_process C self w input_data).1.1) r)
  /\ (forall (self : LeafNode) (w : World C) (input_data : dict) (m : string),
        dict_get input_data "method" (VStr "GET") = VStr m ->
        is_ok (M221_process C self w input_data).2 = true)
  /\ (forall (L : LeafSpec C) (self : LeafNode) (w : World C) (input_data : dict),
        In L (action_leaves C) ->
        charged_exactly (base_cost C L) (leaf_increment C L self w input_data)
          (node self) (node (leaf_process C L self w input_data).1.1)
          (leaf_process C L self w input_data).2)
  /\ (forall (self : LeafNode) (w : World C) (input_data : dict) (r : NodeResult),
        (M221_process C self w input_data).2 = Ok r ->
        charged_exactly 25 (M221_increment C self w input_data)
          (node self) (node (M221_process C self w input_data).1.1) r).
Proof.
  intros Hbytes. split; [|split; [|split; [|split]]].
  - intros L self w input_data HL.
    pose proof (base_cost_positive C L HL) as Hbase.
    destruct (leaf_process_cases C L self w input_data)
      as [_ [(Hn & Ht & _)|(a & run & w0 & w1 & result & extra & Hb & Hrun & Ht & Hn)]].
    + rewrite Hn. apply turned_down_story; assumption.
    + rewrite Hn. apply consume_tokens_story; [exact Hbase | | exact Ht].
      pose proof (branch_extra_nonneg C L a run input_data w0 w1 result extra
                    Hbytes HL Hb Hrun). lia.
  - intros self w input_data r Hr.
    destruct (M221_process_cases C self w input_data r Hr)
      as [_ [(Hn & Ht & _)|(method & args & w0 & result & Hcall & Ht & Hn)]].
    + rewrite Hn. apply turned_down_story; [lia | exact Ht].
    + rewrite Hn. apply consume_tokens_story; [lia | | exact Ht].
      pose proof (Hbytes _ _ _ _ _ Hcall).
      assert (0 <= bytes_transferred result / 15) by (apply Z.div_pos; lia).
      lia.
  - intros self w input_data m Hm.
    apply (M221_process_returns C self w input_data m Hm).
  - intros L self w input_data HL.
    apply leaf_process_charged; assumption.
  - intros self w input_data r Hr.
    apply M221_process_charged; assumption.
Qed.

Lemma silent_counts_bytes : counts_bytes silent.
Proof. intros id method args w r [= <-]. simpl. lia. Qed.

Lemma leaf_result_tokens_witness :
  charged_if_affordable 10 (node (leaf_with "M111" 5000 5))
    (node (leaf_process silent (M111 silent) (leaf_with "M111" 5000 5) tt bogus).1.1)
    (leaf_process silent (M111 silent) (leaf_with "M111" 5000 5) tt bogus).2.
Proof.
  exact (proj1 (leaf_result_tokens silent silent_counts_bytes)
           (M111 silent) (leaf_with "M111" 5000 5) tt bogus (or_introl eq_refl)).
Defined.

(** ** The invariant of the token account *)

Example nine : float_of_int 9 = Ok (S754_finite false 5066549580791808 (-49)).
Proof. reflexivity. Qed.

(** A redistribution hands M111 100 tokens after it consumed 450. *)
Example redistribution_below_consumption :
  map (fun n => (node_id n, _token_allocation n, _tokens_consumed n))
      (_collect_all_leaves pair_in_use)
  = [("M111", 500, 450); ("M112", 500, 0)]
  /\ map (fun n => (node_id n, _token_allocation n, _tokens_consumed n))
         (_collect_all_leaves pair_redistributed)
     = [("M111", 100, 450); ("M112", 900, 0)].
Proof. vm_compute. auto. Qed.

(** C4, as stated, fails: [set_allocation] to 3000 on a leaf that has
    consumed 4000 of 5000 leaves it with more consumed than allocated. *)
Lemma set_allocation_breaks_account : ~ set_allocation_keeps_account.
Proof.
  intros H. specialize (H worn_leaf 3000).
  unfold within_allocation in H. vm_compute in H.
  apply H; [discriminate | reflexivity].
Qed.

(** C4, amended.  A [consume_tokens] of more than remains returns [False]
    and changes nothing; [consume_tokens] of any amount and [process] of a
    leaf keep [consumed <= allocated]; [reset_tokens] gives it back when the
    allocation is not negative; [set_allocation(t)] overwrites the
    allocation without looking at the consumed count and keeps
    [consumed <= allocated] exactly when [consumed <= t]. *)
Theorem token_account (n : BSTNode) (amount tokens : Z) :
  (tokens_remaining n < amount -> consume_tokens n amount = (n, false))
  /\ (within_allocation n -> within_allocation (consume_tokens n amount).1)
  /\ (0 <= _token_allocation n -> within_allocation (reset_tokens n))
  /\ (within_allocation (set_allocation n tokens) <-> _tokens_consumed n <= tokens)
  /\ (within_allocation n ->
      forall (C : Collaborators) (L : LeafSpec C) (self : LeafNode) (w : World C)
             (input_data : dict),
        node self = n ->
        within_allocation (node (leaf_process C L self w input_data).1.1))
  /\ (within_allocation n ->
      forall (C : Collaborators) (self : LeafNode) (w : World C) (input_data : dict),
        node self = n ->
        within_allocation (node (M221_process C self w input_data).1.1)).
Proof.
  split; [apply consume_tokens_rejects|].
  split; [apply consume_tokens_within|].
  split; [intros H; exact H|].
  split; [reflexivity|].
  split.
  - intros Hn C L self w input_data Hself.
    destruct (leaf_process_cases C L self w input_data)
      as [_ [(-> & _)|(a & run & w0 & w1 & result & extra & _ & _ & _ & ->)]];
      rewrite Hself; [exact Hn | apply consume_tokens_within, Hn].
  - intros Hn C self w input_data Hself.
    destruct (M221_process C self w input_data) as [[self' w'] [r|e]] eqn:E.
    + pose proof (M221_process_cases C self w input_data r) as Hc.
      rewrite E in Hc. simpl in Hc. simpl.
      destruct (Hc eq_refl)
        as [_ [(Hs & _)|(method & args & w0 & result & _ & _ & Hs)]];
        rewrite Hs, Hself; [exact Hn | apply consume_tokens_within, Hn].
    + revert E. unfold M221_process.
      pose proof (entered_node C "M221" self w) as Hnode.
      destruct (if _connected self then (self, w)
                else connect_leaf C "M221" self w) as [self0 w0].
      simpl in Hnode.
      destruct (dict_get input_data "method" (VStr "GET"));
        try (intros [= <- _ _]; simpl; rewrite Hnode, Hself; exact Hn).
      match goal with
      | |- context [match ?x with Some _ => _ | None => _ end] =>
          destruct x as [[name args]|]
      end; [|discriminate].
      destruct (call C "M221" name args w0) as [w1 [result|e']];
        [|discriminate].
      destruct (consume_tokens _ _). discriminate.
Qed.

Lemma token_account_witness :
  consume_tokens worn_leaf 1001 = (worn_leaf, false)
  /\ within_allocation (consume_tokens worn_leaf 1000).1
  /\ within_allocation (reset_tokens worn_leaf)
  /\ within_allocation (set_allocation worn_leaf 4000)
  /\ within_allocation
       (node (leaf_process silent (M111 silent) (mkLeafNode worn_leaf true) tt
                [("action", VStr "read")]).1.1).
Proof.
  destruct (token_account worn_leaf 1001 4000) as (H1 & _ & H3 & H4 & H5 & _).
  destruct (token_account worn_leaf 1000 4000) as (_ & H2 & _).
  assert (Hw : within_allocation worn_leaf) by (vm_compute; discriminate).
  split; [apply H1; vm_compute; reflexivity|].
  split; [apply H2, Hw|].
  split; [apply H3; vm_compute; discriminate|].
  split; [apply H4; vm_compute; discriminate|].
  apply (H5 Hw silent (M111 silent) (mkLeafNode worn_leaf true) tt
            [("action", VStr "read")] eq_refl).
Defined.

(** * Requests at the nodes *)

Lemma prefix_occurs (s t : string) : String.prefix s t = true -> occurs_in s t = true.
Proof. intros H. destruct t; cbn [occurs_in]; rewrite H; reflexivity. Qed.

Lemma prefix_refl (s : string) : String.prefix s s = true.
Proof.
  induction s as [|c s IH]; simpl; [reflexivity|].
  destruct (ascii_dec c c) as [_|Hne]; [exact IH | contradiction].
Qed.

Lemma occurs_in_append (p s : string) : occurs_in s (p ++ s) = true.
Proof.
  induction p as [|c p IH].
  - apply prefix_occurs, prefix_refl.
  - change (String c p ++ s) with (String c (p ++ s)).
    cbn [occurs_in]. rewrite IH. apply orb_true_r.
Qed.

Example bogus_is_unknown_to_the_leaves (C : Collaborators) :
  Forall (fun L => branches C L "bogus" = None) (action_leaves C).
Proof. repeat constructor. Qed.

Example bogus_is_unknown_to_the_internal_nodes :
  Forall (fun I => existsb (String.eqb "bogus") (recognized I) = false) internal_nodes
  /\ ~ In "bogus" root_actions.
Proof. split; [repeat constructor | simpl; intuition discriminate]. Qed.

Section NodeProcess.

Context (C : Collaborators) (H : Handlers).

Lemma dict_get_found (d : dict) (k : string) (v dflt : pyval) :
  dict_lookup d k = Some v -> dict_get d k dflt = v.
Proof. unfold dict_get. intros ->. reflexivity. Qed.

Lemma leaf_unknown_action (L : LeafSpec C) (self : LeafNode) (w : World C)
    (input_data : dict) (a : string) :
  dict_lookup input_data "action" = Some (VStr a) ->
  branches C L a = None ->
  leaf_process C L self w input_data
  = (if _connected self then (self, w) else connect_leaf C (leaf_id C L) self w,
     mkNodeResult false VNone (Some ("Unknown action: " ++ a))
                  (base_cost C L) (leaf_id C L)).
Proof.
  intros Ha Hb. unfold leaf_process.
  rewrite (dict_get_found _ _ _ _ Ha), Hb.
  destruct (if _connected self then (self, w)
            else connect_leaf C (leaf_id C L) self w). reflexivity.
Qed.

Lemma internal_unknown_action (I : InternalSpec) (s : Subtrees H)
    (input_data : dict) (a : string) :
  dict_lookup input_data "action" = Some (VStr a) ->
  existsb (String.eqb a) (recognized I) = false ->
  internal_process C H I s input_data
  = (s, mkNodeResult false VNone (Some ("Unknown action: " ++ a))
                     (internal_base_cost I) (internal_id I)).
Proof.
  intros Ha Hb. unfold internal_process.
  rewrite (dict_get_found _ _ _ _ Ha), Hb. reflexivity.
Qed.

Lemma not_in_existsb (a : string) (l : list string) :
  ~ In a l -> existsb (String.eqb a) l = false.
Proof.
  induction l as [|x l IH]; simpl; [reflexivity|].
  intros Hn. destruct (String.eqb_spec a x) as [->|_]; [tauto|].
  apply IH. tauto.
Qed.

Lemma root_unknown_action (self : Root H) (input_data : dict) (a : string) :
  dict_lookup input_data "action" = Some (VStr a) ->
  ~ In a root_actions ->
  root_process C H self input_data
  = (self, mkNodeResult false VNone (Some ("Unknown action: " ++ a)) 30 "M000").
Proof.
  intros Ha Hn. unfold root_process.
  rewrite (dict_get_found _ _ _ _ Ha).
  unfold root_actions in Hn. simpl in Hn.
  destruct (String.eqb_spec a "full_workflow") as [->|_]; [tauto|].
  destruct (String.eqb_spec a "route_request") as [->|_]; [tauto|].
  rewrite not_in_existsb; [reflexivity|]. simpl. tauto.
Qed.

(** [process] of M221 never reads the action. *)
Lemma M221_ignores_action (self : LeafNode) (w : World C) (d1 d2 : dict) :
  same_but_action d1 d2 ->
  M221_process C self w d1 = M221_process C self w d2.
Proof.
  intros Hsame. unfold M221_process, M221_request, dict_get.
  rewrite !(Hsame "method"), !(Hsame "url"), !(Hsame "data"), !(Hsame "headers")
    by discriminate.
  reflexivity.
Qed.

End NodeProcess.

Lemma M221_request_unknown (method : string) (input_data : dict) :
  ~ In method ["GET"; "POST"; "PUT"; "DELETE"] ->
  M221_request method input_data = None.
Proof.
  intros Hn. simpl in Hn. unfold M221_request.
  destruct (String.eqb_spec method "GET") as [E|_]; [symmetry in E; tauto|].
  destruct (String.eqb_spec method "POST") as [E|_]; [symmetry in E; tauto|].
  destruct (String.eqb_spec method "PUT") as [E|_]; [symmetry in E; tauto|].
  destruct (String.eqb_spec method "DELETE") as [E|_]; [symmetry in E; tauto|].
  reflexivity.
Qed.

(** A method of ASCII letters is compared in upper case, whatever the case
    mapping outside ASCII. *)
Example M221_methods (C : Collaborators) :
  upper C "post" = "POST" /\ upper C "Delete" = "DELETE"
  /\ upper C "patch-1" = "PATCH-1"
  /\ forall (self : LeafNode) (w : World C),
       (M221_process C self w [("method", VStr "patch")]).2
       = Ok (mkNodeResult false VNone (Some "Unknown method: PATCH") 25 "M221").
Proof.
  repeat split. intros self w. unfold M221_process.
  destruct (if _connected self then (self, w)
            else connect_leaf C "M221" self w) as [self0 w0].
  reflexivity.
Qed.

(** C6, as stated, fails at M221: it answers [{"action": "bogus"}] with
    the failure of a GET of the empty URL, "Endpoint not found". *)
Lemma M221_does_not_name_the_action : ~ unknown_action_fails_at_M221.
Proof.
  intros Hc.
  destruct (Hc endpoint_not_found (fresh_leaf "M221" 12000) tt bogus "bogus" eq_refl)
    as (r & msg & Hr & _ & Hmsg & Hin).
  vm_compute in Hr. injection Hr as <-.
  simpl in Hmsg. injection Hmsg as <-.
  vm_compute in Hin. discriminate.
Qed.

Example M221_answers_bogus :
  (M221_process endpoint_not_found (fresh_leaf "M221" 12000) tt bogus).2
  = Ok (mkNodeResult false VNone (Some "Endpoint not found") 25 "M221").
Proof. reflexivity. Qed.

(** C6, amended.  At the root, at the six internal nodes below it and at
    the seven leaves that dispatch on the action, a request whose action is
    a string the node does not recognize is answered, without an exception,
    by a Result with [success = false], the error "Unknown action: " followed
    by the action, and the base cost of the node as [tokens_used]; nothing
    but the connection of a leaf changes.  M221 dispatches on the method of
    the request: its answer does not depend on the action, and a method it
    does not know is answered with "Unknown method: " and the method in
    upper case. *)
Theorem unknown_action_fails (C : Collaborators) (H : Handlers)
    (input_data : dict) (a : string) :
  dict_lookup input_data "action" = Some (VStr a) ->
  occurs_in a ("Unknown action: " ++ a) = true
  /\ (forall (L : LeafSpec C) (self : LeafNode) (w : World C),
        In L (action_leaves C) ->
        branches C L a = None ->
        leaf_process C L self w input_data
        = (if _connected self then (self, w)
           else connect_leaf C (leaf_id C L) self w,
           mkNodeResult false VNone (Some ("Unknown action: " ++ a))
                        (base_cost C L) (leaf_id C L)))
  /\ (forall (I : InternalSpec) (s : Subtrees H),
        In I internal_nodes ->
        existsb (String.eqb a) (recognized I) = false ->
        internal_process C H I s input_data
        = (s, mkNodeResult false VNone (Some ("Unknown action: " ++ a))
                           (internal_base_cost I) (internal_id I)))
  /\ (forall (self : Root H),
        ~ In a root_actions ->
        root_process C H self input_data
        = (self, mkNodeResult false VNone (Some ("Unknown action: " ++ a))
                              30 "M000"))
  /\ (forall (self : LeafNode) (w : World C) (other : dict),
        same_but_action input_data other ->
        M221_process C self w input_data = M221_process C self w other)
  /\ (forall (self : LeafNode) (w : World C) (m : string),
        dict_lookup input_data "method" = Some (VStr m) ->
        ~ In (upper C m) ["GET"; "POST"; "PUT"; "DELETE"] ->
        (M221_process C self w input_data).2
        = Ok (mkNodeResult false VNone (Some ("Unknown method: " ++ upper C m))
                           25 "M221")).
Proof.
  intros Ha.
  split; [apply occurs_in_append|].
  split; [intros L self w _ Hb; apply leaf_unknown_action; assumption|].
  split; [intros I s _ Hb; apply internal_unknown_action; assumption|].
  split; [intros self Hn; apply root_unknown_action; assumption|].
  split; [intros self w other Hs; apply M221_ignores_action; assumption|].
  intros self w m Hm Hn. unfold M221_process.
  destruct (if _connected self then (self, w)
            else connect_leaf C "M221" self w) as [self0 w0].
  rewrite (dict_get_found _ _ _ _ Hm). simpl in Hn.
  rewrite (M221_request_unknown (upper C m) input_data) by tauto.
  reflexivity.
Qed.

Lemma unknown_action_fails_witness :
  leaf_process silent (M111 silent) (fresh_leaf "M111" 5000) tt bogus
  = (mkLeafNode (leaf "M111" 5000) true, tt,
     mkNodeResult false VNone (Some "Unknown action: bogus") 10 "M111")
  /\ root_process silent counting (mkRoot counting 0%nat []) bogus
     = (mkRoot counting 0%nat [],
        mkNodeResult false VNone (Some "Unknown action: bogus") 30 "M000").
Proof.
  destruct (unknown_action_fails silent counting bogus "bogus" eq_refl)
    as (_ & Hleaf & _ & Hroot & _).
  split.
  - apply (Hleaf (M111 silent) (fresh_leaf "M111" 5000) tt);
      [simpl; auto | reflexivity].
  - apply (Hroot (mkRoot counting 0%nat [])). simpl. intuition discriminate.
Defined.

(** ** Routing at the root *)

Example prefix_examples :
  String.prefix "M1" "M111" = true /\ String.prefix "M1" "M222" = false
  /\ String.prefix "M2" "M222" = true /\ String.prefix "M1" "M" = false.
Proof. repeat split; reflexivity. Qed.

(** C10, as stated, fails: a request for the target "X900" is forwarded
    to no subtree and answered with "Unknown target: X900". *)
Lemma routing_is_not_two_way : ~ routing_is_two_way.
Proof.
  intros Hc.
  specialize (Hc silent counting fresh_root
                [("action", VStr "route_request"); ("target", VStr "X900")]
                "X900" eq_refl).
  vm_compute in Hc. discriminate.
Qed.

(** C10, amended.  A [route_request] whose target is a string that begins
    with "M1" is forwarded to the left subtree, one whose target begins with
    "M2" to the right subtree, and the child's result is returned with the
    root's 30 tokens added; any other target is forwarded to neither and
    answered with a failure "Unknown target: " followed by the target. *)
Theorem routing_split (C : Collaborators) (H : Handlers) (self : Root H)
    (input_data : dict) (t : string) :
  dict_lookup input_data "target" = Some (VStr t) ->
  let request := dict_get input_data "request" (VDict []) in
  (String.prefix "M1" t = true ->
   route_request C H self input_data = forwarded_to C H M100 self request)
  /\ (String.prefix "M1" t = false -> String.prefix "M2" t = true ->
      route_request C H self input_data = forwarded_to C H M200 self request)
  /\ (String.prefix "M1" t = false -> String.prefix "M2" t = false ->
      route_request C H self input_data
      = (self, Ok (mkNodeResult false VNone (Some ("Unknown target: " ++ t))
                                30 "M000")))
  /\ (dict_lookup input_data "action" = Some (VStr "route_request") ->
      root_process C H self input_data
      = match route_request C H self input_data with
        | (after, Ok result) => (after, result)
        | (after, Raise e) => (after, caught C "M000" 30 e)
        end).
Proof.
  intros Ht request.
  assert (Hfwd : forall I,
    match child_process C H I (subtrees H self) request with
    | (s, Raise e) => (mkRoot H s (_workflow_history H self), Raise e)
    | (s, Ok result) =>
        (mkRoot H s (_workflow_history H self),
         Ok (mkNodeResult (success result) (data result) (error result)
                          (30 + tokens_used result) "M000"))
    end = forwarded_to C H I self request).
  { intros I. unfold forwarded_to.
    destruct (child_process C H I (subtrees H self) request) as [s [r|e]];
      reflexivity. }
  unfold route_request. rewrite (dict_get_found _ _ _ _ Ht). fold request.
  split; [intros ->; apply Hfwd|].
  split; [intros -> ->; apply Hfwd|].
  split; [intros -> ->; reflexivity|].
  intros Ha. unfold root_process. rewrite (dict_get_found _ _ _ _ Ha).
  simpl. unfold route_request. rewrite (dict_get_found _ _ _ _ Ht).
  reflexivity.
Qed.

Lemma routing_split_witness :
  route_request silent counting fresh_root
    [("action", VStr "route_request"); ("target", VStr "M222")]
  = forwarded_to silent counting M200 fresh_root (VDict [])
  /\ route_request silent counting fresh_root
       [("action", VStr "route_request"); ("target", VStr "X900")]
     = (fresh_root,
        Ok (mkNodeResult false VNone (Some "Unknown target: X900") 30 "M000")).
Proof.
  split.
  - apply (routing_split silent counting fresh_root
             [("action", VStr "route_request"); ("target", VStr "M222")] "M222");
      reflexivity.
  - apply (routing_split silent counting fresh_root
             [("action", VStr "route_request"); ("target", VStr "X900")] "X900");
      reflexivity.
Defined.

(** ** The workflow history *)

Example format_04d_examples :
  format_04d 1 = "0001" /\ format_04d 42 = "0042" /\ format_04d 9999 = "9999"
  /\ format_04d 12345 = "12345".
Proof. repeat split; reflexivity. Qed.

Section WorkflowHistory.

Context (C : Collaborators) (H : Handlers).

(** A run of the tenant report that returns appends one record, numbered
    one past the length of the history; one that raises appends none. *)
Lemma tenant_report_history (self : Root H) (workflow_data : pyval) :
  match _execute_tenant_report_workflow C H self workflow_data with
  | (after, Ok result) =>
      exists stamp,
        _workflow_history H after
        = (_workflow_history H self
           ++ [mkWorkflowRecord
                 ("WF-" ++ format_04d (N.of_nat (length (_workflow_history H self)) + 1))
                 "tenant_report" stamp (success result) (tokens_used result)])%list
  | (after, Raise _) => _workflow_history H after = _workflow_history H self
  end.
Proof.
  unfold _execute_tenant_report_workflow.
  destruct (internal_process C H M100 _ _) as [s1 config_result].
  match goal with
  | |- context [match ?m with Ok _ => _ | Raise _ => _ end] =>
      destruct m as [tenant_data|e]; [|reflexivity]
  end.
  destruct (py_get tenant_data "id" (VInt 1)) as [tenant_id|e]; [|reflexivity].
  destruct (internal_process C H M200 s1 _) as [s2 tool_result].
  match goal with
  | |- context [match ?m with Ok _ => _ | Raise _ => _ end] =>
      destruct m as [stored|e]; [|reflexivity]
  end.
  destruct (internal_process C H M200 s2 _) as [s3 report_result].
  simpl. eexists. reflexivity.
Qed.

Lemma data_sync_history (self : Root H) :
  exists after result,
    _execute_data_sync_workflow C H self = (after, Ok result)
    /\ _workflow_history H after = _workflow_history H self.
Proof.
  unfold _execute_data_sync_workflow.
  destruct (internal_process C H M100 _ _) as [s r].
  eexists _, _. split; reflexivity.
Qed.

Lemma full_pipeline_history (self : Root H) (workflow_data : pyval) :
  _workflow_history H (_execute_full_pipeline C H self workflow_data).1
  = _workflow_history H self
  /\ forall d, workflow_data = VDict d ->
       exists result,
         (_execute_full_pipeline C H self workflow_data).2 = Ok result.
Proof.
  unfold _execute_full_pipeline.
  destruct (internal_process C H M100 _ _) as [s1 config_result].
  split.
  - destruct (py_get workflow_data "tenant_id" (VInt 1)) as [tenant_id|e];
      [|reflexivity].
    destruct (internal_process C H M200 s1 _) as [s2 process_result].
    destruct (internal_process C H M200 s2 _) as [s3 pdf_result].
    reflexivity.
  - intros d ->. simpl.
    destruct (internal_process C H M200 s1 _) as [s2 process_result].
    destruct (internal_process C H M200 s2 _) as [s3 pdf_result].
    eexists. reflexivity.
Qed.

(** No request at the root removes or rewrites a record: the history
    afterwards is the history before, with at most one record added. *)
Lemma history_is_append_only (self : Root H) (input_data : dict) :
  exists added,
    _workflow_history H (root_process C H self input_data).1
    = (_workflow_history H self ++ added)%list
    /\ (length added <= 1)%nat.
Proof.
  assert (Hsame : forall r : Root H * NodeResult,
            _workflow_history H r.1 = _workflow_history H self ->
            exists added,
              _workflow_history H r.1 = (_workflow_history H self ++ added)%list
              /\ (length added <= 1)%nat).
  { intros r Hr. exists []. rewrite app_nil_r. split; [exact Hr | simpl; lia]. }
  unfold root_process.
  destruct (dict_get input_data "action" (VStr "status"));
    try (apply Hsame; reflexivity).
  destruct (String.eqb s "full_workflow").
  - unfold full_workflow.
    repeat match goal with
    | |- context [if ?b then _ else _] => destruct b
    end.
    + pose proof (tenant_report_history self
                    (dict_get input_data "data" (VDict []))) as Ht.
      destruct (_execute_tenant_report_workflow C H self _) as [after [r|e]].
      * destruct Ht as [stamp Ht]. simpl. rewrite Ht.
        eexists. split; [reflexivity | simpl; lia].
      * apply Hsame. exact Ht.
    + destruct (data_sync_history self) as (after & r & -> & Hh).
      apply Hsame. exact Hh.
    + pose proof (full_pipeline_history self
                    (dict_get input_data "data" (VDict []))) as [Hp _].
      destruct (_execute_full_pipeline C H self _) as [after [r|e]];
        apply Hsame; exact Hp.
    + apply Hsame. reflexivity.
  - destruct (String.eqb s "route_request").
    + unfold route_request.
      destruct (dict_get input_data "target" (VStr "M100"));
        try (apply Hsame; reflexivity).
      repeat match goal with
      | |- context [if ?b then _ else _] => destruct b
      end;
        try (apply Hsame; reflexivity);
        destruct (child_process C H _ _ _) as [s1 [r|e]];
        apply Hsame; reflexivity.
    + destruct (existsb _ other_root_actions); [|apply Hsame; reflexivity].
      destruct (root_action H s input_data _ _) as [s1 r].
      apply Hsame. reflexivity.
Qed.

End WorkflowHistory.

(** C8, as stated, fails: a completed run of the full pipeline leaves the
    workflow history as it was. *)
Lemma full_pipeline_is_not_recorded : ~ every_workflow_is_recorded.
Proof.
  intros Hc.
  pose (input := [("action", VStr "full_workflow");
                  ("workflow_type", VStr "full_pipeline")] : dict).
  destruct (full_workflow silent counting fresh_root input)
    as [after [result|e]] eqn:E; [|vm_compute in E; discriminate].
  specialize (Hc silent counting fresh_root input "full_pipeline" after result).
  assert (Hlen : length (_workflow_history counting after)
                 = S (length (_workflow_history counting fresh_root))).
  { apply Hc; [simpl; auto | reflexivity | exact E]. }
  vm_compute in E. injection E as <- _. discriminate.
Qed.

(** C8, on the code.  Whatever the subtrees answer: a tenant report that
    returns appends one record, with the id "WF-" and the position in the
    history as four digits; the data synchronization and the full pipeline
    return and append nothing; and no request at the root removes a record.
    Run from an empty history, two tenant reports leave the ids WF-0001 and
    WF-0002, and a full pipeline and a data synchronization after them leave
    the history at two records. *)
Theorem workflow_history_records (C : Collaborators) (H : Handlers) (self : Root H)
    (workflow_data : pyval) (input_data : dict) :
  (forall after result,
      _execute_tenant_report_workflow C H self workflow_data = (after, Ok result) ->
      exists stamp,
        _workflow_history H after
        = (_workflow_history H self
           ++ [mkWorkflowRecord
                 ("WF-" ++ format_04d (N.of_nat (length (_workflow_history H self)) + 1))
                 "tenant_report" stamp (success result) (tokens_used result)])%list)
  /\ (exists after result,
        _execute_data_sync_workflow C H self = (after, Ok result)
        /\ _workflow_history H after = _workflow_history H self)
  /\ (_workflow_history H (_execute_full_pipeline C H self workflow_data).1
      = _workflow_history H self
      /\ forall d, workflow_data = VDict d ->
           exists result,
             (_execute_full_pipeline C H self workflow_data).2 = Ok result)
  /\ (exists added,
        _workflow_history H (root_process C H self input_data).1
        = (_workflow_history H self ++ added)%list
        /\ (length added <= 1)%nat)
  /\ map wf_id (_workflow_history counting
                  (run_workflow (run_workflow fresh_root "tenant_report")
                                "tenant_report"))
     = ["WF-0001"; "WF-0002"]
  /\ map wf_id (_workflow_history counting
                  (run_workflow
                     (run_workflow
                        (run_workflow (run_workflow fresh_root "tenant_report")
                                      "tenant_report")
                        "full_pipeline")
                     "data_sync"))
     = ["WF-0001"; "WF-0002"].
Proof.
  split.
  { intros after result E.
    pose proof (tenant_report_history C H self workflow_data) as Ht.
    rewrite E in Ht. exact Ht. }
  split; [apply data_sync_history|].
  split; [apply full_pipeline_history|].
  split; [apply history_is_append_only|].
  split; vm_compute; reflexivity.
Qed.

Lemma workflow_history_records_witness :
  exists stamp,
    _workflow_history counting
      (_execute_tenant_report_workflow silent counting fresh_root (VDict [])).1
    = [mkWorkflowRecord "WF-0001" "tenant_report" stamp true 50].
Proof.
  destruct (workflow_history_records silent counting fresh_root (VDict []) bogus)
    as (Ht & _).
  destruct (Ht (_execute_tenant_report_workflow silent counting fresh_root (VDict [])).1
               (mkNodeResult true
                  (VDict [("workflow_id", VStr "WF-0001"); ("steps_completed", VInt 4);
                          ("config", VDict []); ("processing", VDict []);
                          ("report", VDict [])])
                  None 50 "M000"))
    as [stamp Hs]; [vm_compute; reflexivity|].
  exists stamp. exact Hs.
Defined.

(** * Beyond the claims *)

Lemma write_shares_app (s1 s2 : list (string * Z)) (m : gmap string AllocationRecord) :
  write_shares (s1 ++ s2) m = write_shares s2 (write_shares s1 m).
Proof. unfold write_shares. apply fold_left_app. Qed.

Lemma shares_ext (s1 s2 : TokenBalancer) (node : BSTNode) :
  (forall id, weight_of s1 id = weight_of s2 id) ->
  forall B, shares s1 node B = shares s2 node B.
Proof.
  intros Hw. induction node as [c l r a t IHl IHr] using BSTNode_tree_ind.
  intros B. simpl.
  destruct (NodeLevel_eqb (level c) LEAF); [reflexivity|].
  rewrite !(weight_under_ext s1 s2) by exact Hw.
  destruct (weight_under s2 l) as [lw|e]; [|reflexivity].
  destruct (weight_under s2 r) as [rw|e]; [|reflexivity]. simpl.
  destruct (split_budget B lw rw) as [[lb rb]|e]; [|reflexivity]. simpl.
  destruct l as [x|], r as [y|]; simpl in *; rewrite ?IHl, ?IHr; reflexivity.
Qed.

Lemma shares_ids (self : TokenBalancer) (node : BSTNode) :
  forall B ss, shares self node B = Ok ss -> map fst ss = leaf_ids node.
Proof.
  induction node as [c l r a t IHl IHr] using BSTNode_tree_ind.
  intros B ss. simpl.
  destruct (NodeLevel_eqb (level c) LEAF) eqn:Hlevel.
  - intros [= <-]. rewrite leaf_ids_leaf by exact Hlevel. reflexivity.
  - rewrite leaf_ids_internal by exact Hlevel.
    destruct (weight_under self l) as [lw|e]; [|discriminate].
    destruct (weight_under self r) as [rw|e]; [|discriminate]. simpl.
    destruct (split_budget B lw rw) as [[lb rb]|e]; [|discriminate]. simpl.
    assert (Hl : forall ls, match l with Some x => shares self x lb | None => Ok [] end
                            = Ok ls -> map fst ls = map node_id (leaves_of l)).
    { intros ls. destruct l as [x|]; simpl in *; [apply IHl | intros [= <-]; reflexivity]. }
    assert (Hr : forall rs, match r with Some x => shares self x rb | None => Ok [] end
                            = Ok rs -> map fst rs = map node_id (leaves_of r)).
    { intros rs. destruct r as [y|]; simpl in *; [apply IHr | intros [= <-]; reflexivity]. }
    destruct (match l with Some x => _ | None => _ end) as [ls|e]; [|discriminate].
    destruct (match r with Some x => _ | None => _ end) as [rs|e]; [|discriminate].
    simpl. intros [= <-]. rewrite map_app, (Hl ls eq_refl), (Hr rs eq_refl).
    reflexivity.
Qed.

(** The pass and the function agree: same exception or same records. *)
Lemma _distribute_node_shares (node : BSTNode) :
  forall self B,
    _cache_valid self = false ->
    (_distribute_node self node B).2 = (let! _ := shares self node B in Ok B)
    /\ (forall ss, shares self node B = Ok ss ->
          leaf_allocations (_distribute_node self node B).1.1
          = write_shares ss (leaf_allocations self)).
Proof.
  induction node as [c l r a t IHl IHr] using BSTNode_tree_ind.
  intros self B Hc.
  destruct (NodeLevel_eqb (level c) LEAF) eqn:Hlevel.
  - rewrite _distribute_node_leaf by exact Hlevel. simpl. rewrite Hlevel. simpl.
    split; [reflexivity|]. intros ss [= <-]. reflexivity.
  - rewrite _distribute_node_internal by exact Hlevel. simpl shares. rewrite Hlevel.
    destruct (_calculate_weight_recomputes self l Hc) as [E1 H1].
    pose proof (fun id => weight_of_calculate_weight self l id) as W1.
    pose proof (_calculate_weight_allocations self l) as [A1 _].
    destruct (_calculate_weight self l) as [s1 left_r]. simpl in E1, H1, W1, A1.
    subst left_r. destruct (weight_under self l) as [lw|e];
      [|simpl; split; [reflexivity | discriminate]].
    destruct (_calculate_weight_recomputes s1 r H1) as [E2 H2].
    pose proof (fun id => weight_of_calculate_weight s1 r id) as W2.
    pose proof (_calculate_weight_allocations s1 r) as [A2 _].
    destruct (_calculate_weight s1 r) as [s2 right_r]. simpl in E2, H2, W2, A2.
    subst right_r. rewrite (weight_under_ext s1 self r W1).
    destruct (weight_under self r) as [rw|e];
      [|simpl; split; [reflexivity | discriminate]].
    assert (W12 : forall id, weight_of s2 id = weight_of self id)
      by (intros id; rewrite W2; apply W1).
    simpl obind.
    destruct (split_budget B lw rw) as [[lb rb]|e];
      [|simpl; split; [reflexivity | discriminate]].
    simpl obind. simpl fst. simpl snd.
    assert (R3 : (_distribute s2 l lb).2
                 = (let! _ := match l with Some x => shares self x lb | None => Ok [] end
                    in Ok 0)
                 \/ exists v ls, (_distribute s2 l lb).2 = Ok v
                      /\ match l with Some x => shares self x lb | None => Ok [] end = Ok ls).
    { destruct l as [x|]; simpl in IHl |- *.
      - destruct (IHl s2 lb H2) as [IH _].
        rewrite (shares_ext s2 self x W12) in IH.
        destruct (_distribute_node s2 x lb) as [[? ?] ?]. simpl in *.
        destruct (shares self x lb) as [ls|e]; simpl in *.
        + right. eauto.
        + left. exact IH.
      - left. reflexivity. }
    assert (L3 : _cache_valid (_distribute s2 l lb).1.1 = false
                 /\ (forall id, weight_of (_distribute s2 l lb).1.1 id = weight_of self id)
                 /\ forall ls, match l with Some x => shares self x lb | None => Ok [] end
                               = Ok ls ->
                      leaf_allocations (_distribute s2 l lb).1.1
                      = write_shares ls (leaf_allocations self)).
    { destruct l as [x|]; simpl in IHl |- *.
      - destruct (IHl s2 lb H2) as [_ IH].
        rewrite (shares_ext s2 self x W12) in IH.
        pose proof (_distribute_node_cache x s2 lb H2) as Hcache.
        pose proof (fun id => weight_of_distribute_node x s2 lb id) as Hw.
        destruct (_distribute_node s2 x lb) as [[? ?] ?]. simpl in *.
        split; [exact Hcache|]. split; [intros id; rewrite Hw; apply W12|].
        intros ls Hls. rewrite (IH ls Hls). congruence.
      - split; [exact H2|]. split; [exact W12|].
        intros ls [= <-]. simpl. congruence. }
    destruct (_distribute s2 l lb) as [[s3 l'] o3]. simpl in R3, L3.
    destruct L3 as (H3 & W3 & A3).
    destruct (match l with Some x => shares self x lb | None => Ok [] end) as [ls|e].
    2:{ destruct R3 as [-> | (v & ls & _ & Hls)]; [|discriminate].
        simpl. split; [reflexivity | discriminate]. }
    assert (O3 : exists v, o3 = Ok v).
    { destruct R3 as [-> | (v & ls' & -> & _)]; simpl; eauto. }
    destruct O3 as [v3 ->]. simpl obind.
    specialize (A3 ls eq_refl).
    assert (R4 : (_distribute s3 r rb).2
                 = (let! _ := match r with Some x => shares self x rb | None => Ok [] end
                    in Ok 0)
                 \/ exists v rs, (_distribute s3 r rb).2 = Ok v
                      /\ match r with Some x => shares self x rb | None => Ok [] end = Ok rs).
    { destruct r as [y|]; simpl in IHr |- *.
      - destruct (IHr s3 rb H3) as [IH _].
        rewrite (shares_ext s3 self y W3) in IH.
        destruct (_distribute_node s3 y rb) as [[? ?] ?]. simpl in *.
        destruct (shares self y rb) as [rs|e]; simpl in *.
        + right. eauto.
        + left. exact IH.
      - left. reflexivity. }
    assert (L4 : forall rs, match r with Some x => shares self x rb | None => Ok [] end
                            = Ok rs ->
                   leaf_allocations (_distribute s3 r rb).1.1
                   = write_shares rs (leaf_allocations s3)).
    { destruct r as [y|]; simpl in IHr |- *.
      - destruct (IHr s3 rb H3) as [_ IH].
        rewrite (shares_ext s3 self y W3) in IH.
        destruct (_distribute_node s3 y rb) as [[? ?] ?]. simpl in *. exact IH.
      - intros rs [= <-]. reflexivity. }
    destruct (_distribute s3 r rb) as [[s4 r'] o4]. simpl in R4, L4.
    destruct (match r with Some x => shares self x rb | None => Ok [] end) as [rs|e].
    2:{ destruct R4 as [-> | (v & rs & _ & Hrs)]; [|discriminate].
        simpl. split; [reflexivity | discriminate]. }
    assert (O4 : exists v, o4 = Ok v).
    { destruct R4 as [-> | (v & rs' & -> & _)]; simpl; eauto. }
    destruct O4 as [v4 ->]. simpl.
    split; [reflexivity|]. intros ss [= <-].
    rewrite write_shares_app, (L4 rs eq_refl), A3. reflexivity.
Qed.

Lemma allocated_write_shares (ss : list (string * Z)) :
  forall m, allocated <$> write_shares ss m = assign_shares ss (allocated <$> m).
Proof.
  induction ss as [|s ss IH]; intros m; [reflexivity|].
  unfold write_shares, assign_shares in *. simpl.
  rewrite IH, fmap_insert. reflexivity.
Qed.

(** An id among the shares reads its last share; any other id is left alone. *)
Lemma assign_shares_lookup (ss : list (string * Z)) (id : string) :
  forall d, assign_shares ss d !! id
            = if in_dec string_dec id (map fst ss) then assign_shares ss ∅ !! id
              else d !! id.
Proof.
  induction ss as [|s ss IH]; intros d.
  - simpl. reflexivity.
  - unfold assign_shares in *. simpl fold_left.
    rewrite (IH (<[s.1 := s.2]> d)), (IH (<[s.1 := s.2]> ∅)).
    destruct (in_dec string_dec id (map fst ss)) as [Hin|Hout].
    + destruct (in_dec string_dec id (map fst (s :: ss))) as [_|Hn]; [reflexivity|].
      exfalso. apply Hn. right. exact Hin.
    + destruct (decide (s.1 = id)) as [Heq|Hne].
      * destruct (in_dec string_dec id (map fst (s :: ss))) as [_|Hn].
        -- subst id. rewrite !lookup_insert_eq. reflexivity.
        -- exfalso. apply Hn. left. exact Heq.
      * destruct (in_dec string_dec id (map fst (s :: ss))) as [[H|H]|_]; try contradiction.
        apply lookup_insert_ne. exact Hne.
Qed.

Lemma assign_shares_idempotent (ss : list (string * Z)) (d : gmap string Z) :
  assign_shares ss (assign_shares ss d) = assign_shares ss d.
Proof.
  apply map_eq. intros id.
  rewrite (assign_shares_lookup ss id (assign_shares ss d)), (assign_shares_lookup ss id d).
  destruct (in_dec _ _ _); reflexivity.
Qed.

Lemma assign_shares_is_Some (ss : list (string * Z)) (id : string) :
  is_Some (assign_shares ss ∅ !! id) <-> In id (map fst ss).
Proof.
  induction ss as [|s ss IH] using rev_ind.
  - simpl. rewrite lookup_empty. split; [intros [? [=]] | intros []].
  - unfold assign_shares in *. rewrite fold_left_app, map_app, in_app_iff. simpl.
    destruct (decide (s.1 = id)) as [<-|Hne].
    + rewrite lookup_insert_eq. split; [auto | eauto].
    + rewrite lookup_insert_ne by exact Hne. rewrite IH. tauto.
Qed.

Lemma same_nodes_refl (a : BSTNode) : same_nodes a a.
Proof.
  induction a as [c l r a t IHl IHr] using BSTNode_tree_ind. simpl.
  split; [reflexivity|]. destruct l, r; simpl in *; auto.
Qed.

Lemma _distribute_node_same_nodes (node : BSTNode) :
  forall self B, same_nodes node (_distribute_node self node B).1.2.
Proof.
  induction node as [c l r a t IHl IHr] using BSTNode_tree_ind.
  intros self B.
  destruct (NodeLevel_eqb (level c) LEAF) eqn:Hlevel.
  - rewrite _distribute_node_leaf by exact Hlevel.
    apply (same_nodes_refl (mkBSTNode c l r a t)).
  - rewrite _distribute_node_internal by exact Hlevel.
    pose proof (same_nodes_refl (mkBSTNode c l r a t)) as Hrefl.
    assert (Rl : match l with Some x => same_nodes x x | None => True end)
      by (destruct l; [apply same_nodes_refl | exact I]).
    assert (Rr : match r with Some x => same_nodes x x | None => True end)
      by (destruct r; [apply same_nodes_refl | exact I]).
    destruct (_calculate_weight self l) as [s1 [lw|e]]; [|exact Hrefl].
    destruct (_calculate_weight s1 r) as [s2 [rw|e]]; [|exact Hrefl].
    destruct (split_budget B lw rw) as [[lb rb]|e]; [|exact Hrefl].
    assert (Sl : forall s b, match l, (_distribute s l b).1.2 with
                             | Some x, Some x' => same_nodes x x'
                             | None, None => True
                             | _, _ => False
                             end).
    { intros s b. destruct l as [x|]; simpl in IHl |- *; [|exact I].
      specialize (IHl s b). destruct (_distribute_node s x b) as [[? ?] ?]. exact IHl. }
    assert (Sr : forall s b, match r, (_distribute s r b).1.2 with
                             | Some x, Some x' => same_nodes x x'
                             | None, None => True
                             | _, _ => False
                             end).
    { intros s b. destruct r as [x|]; simpl in IHr |- *; [|exact I].
      specialize (IHr s b). destruct (_distribute_node s x b) as [[? ?] ?]. exact IHr. }
    specialize (Sl s2 lb).
    destruct (_distribute s2 l lb) as [[s3 l'] [v|e]]; simpl in Sl |- *.
    2:{ split; [reflexivity|]. split; [exact Sl|]. destruct r; [apply same_nodes_refl | exact I]. }
    specialize (Sr s3 rb).
    destruct (_distribute s3 r rb) as [[s4 r'] [v'|e]]; simpl in Sr |- *;
      (split; [reflexivity|]; split; [exact Sl | exact Sr]).
Qed.

Lemma same_nodes_subtree_weight (self : TokenBalancer) (a : BSTNode) :
  forall b, same_nodes a b -> subtree_weight self a = subtree_weight self b.
Proof.
  induction a as [c l r a t IHl IHr] using BSTNode_tree_ind.
  intros [c' l' r' a' t'] (<- & Hl & Hr). simpl.
  destruct (NodeLevel_eqb (level c) LEAF); [reflexivity|].
  assert (El : match l with Some x => subtree_weight self x | None => Ok f0 end
               = match l' with Some x => subtree_weight self x | None => Ok f0 end).
  { destruct l as [x|], l' as [x'|]; simpl in *; try contradiction; auto. }
  assert (Er : match r with Some x => subtree_weight self x | None => Ok f0 end
               = match r' with Some x => subtree_weight self x | None => Ok f0 end).
  { destruct r as [x|], r' as [x'|]; simpl in *; try contradiction; auto. }
  rewrite El, Er. reflexivity.
Qed.

Lemma same_nodes_shares (self : TokenBalancer) (a : BSTNode) :
  forall b B, same_nodes a b -> shares self a B = shares self b B.
Proof.
  induction a as [c l r a t IHl IHr] using BSTNode_tree_ind.
  intros [c' l' r' a' t'] B (<- & Hl & Hr). simpl.
  destruct (NodeLevel_eqb (level c) LEAF); [reflexivity|].
  assert (Wl : weight_under self l = weight_under self l').
  { destruct l as [x|], l' as [x'|]; simpl in *; try contradiction;
      [apply same_nodes_subtree_weight; exact Hl | reflexivity]. }
  assert (Wr : weight_under self r = weight_under self r').
  { destruct r as [x|], r' as [x'|]; simpl in *; try contradiction;
      [apply same_nodes_subtree_weight; exact Hr | reflexivity]. }
  rewrite Wl, Wr.
  destruct (weight_under self l') as [lw|e]; [|reflexivity].
  destruct (weight_under self r') as [rw|e]; [|reflexivity]. simpl.
  destruct (split_budget B lw rw) as [[lb rb]|e]; [|reflexivity]. simpl.
  assert (El : match l with Some x => shares self x lb | None => Ok [] end
               = match l' with Some x => shares self x lb | None => Ok [] end).
  { destruct l as [x|], l' as [x'|]; simpl in *; try contradiction; auto. }
  assert (Er : match r with Some x => shares self x rb | None => Ok [] end
               = match r' with Some x => shares self x rb | None => Ok [] end).
  { destruct r as [x|], r' as [x'|]; simpl in *; try contradiction; auto. }
  rewrite El, Er. reflexivity.
Qed.

(** What [balance_tokens] returns, as a function of the weights. *)
Lemma balance_tokens_by_shares (self : TokenBalancer) (root : BSTNode) :
  (balance_tokens self (Some root)).2
  = (let! ss := shares self root (total_budget self) in
     Ok (assign_shares ss (allocation_map self))).
Proof.
  unfold balance_tokens, _distribute. simpl total_budget.
  destruct (_distribute_node_shares root (_invalidate_cache self) (total_budget self)
              eq_refl) as [Ho Ha].
  rewrite (shares_ext (_invalidate_cache self) self root (fun _ => eq_refl)) in Ho, Ha.
  destruct (_distribute_node (_invalidate_cache self) root (total_budget self))
    as [[s' t'] o]. simpl in *. subst o.
  destruct (shares self root (total_budget self)) as [ss|e]; [|reflexivity].
  simpl. unfold allocation_map. rewrite (Ha ss eq_refl), allocated_write_shares.
  reflexivity.
Qed.

(** X1. [balance_tokens] forgets the history: two balancers with the same
    total budget and the same weight factors, whatever their allocation
    records and recorded consumption, fail with the same exception or
    return dictionaries that agree on every leaf of the tree. *)
Theorem balance_tokens_forgets_history (s1 s2 : TokenBalancer) (root : BSTNode) :
  total_budget s1 = total_budget s2 ->
  (forall id, weight_of s1 id = weight_of s2 id) ->
  match (balance_tokens s1 (Some root)).2, (balance_tokens s2 (Some root)).2 with
  | Ok a1, Ok a2 => forall id, In id (leaf_ids root) -> a1 !! id = a2 !! id
  | Raise e1, Raise e2 => e1 = e2
  | _, _ => False
  end.
Proof.
  intros Hb Hw. rewrite !balance_tokens_by_shares, Hb.
  rewrite (shares_ext s1 s2 root Hw).
  destruct (shares s2 root (total_budget s2)) as [ss|e] eqn:Hss; simpl; [|reflexivity].
  intros id Hid. rewrite <- (shares_ids _ _ _ _ Hss) in Hid.
  rewrite (assign_shares_lookup ss id (allocation_map s1)),
          (assign_shares_lookup ss id (allocation_map s2)).
  destruct (in_dec string_dec id (map fst ss)); [reflexivity | contradiction].
Qed.

Lemma balance_tokens_forgets_history_witness :
  match (balance_tokens (new_balancer 1000) (Some handler_pair)).2,
        (balance_tokens busy_and_idle (Some handler_pair)).2 with
  | Ok a1, Ok a2 => forall id, In id (leaf_ids handler_pair) -> a1 !! id = a2 !! id
  | Raise e1, Raise e2 => e1 = e2
  | _, _ => False
  end.
Proof.
  apply (balance_tokens_forgets_history (new_balancer 1000) busy_and_idle handler_pair).
  - vm_compute. reflexivity.
  - intros id. unfold busy_and_idle, balance_tokens, _distribute.
    transitivity (weight_of (_invalidate_cache (new_balancer 1000)) id);
      [reflexivity|].
    rewrite <- (weight_of_distribute_node handler_pair
                  (_invalidate_cache (new_balancer 1000))
                  (total_budget (_invalidate_cache (new_balancer 1000))) id).
    destruct (_distribute_node _ handler_pair _) as [[s t] o]. simpl.
    unfold record_consumption. destruct (leaf_allocations s !! "M111"); reflexivity.
Defined.

(** X2. Balancing again changes nothing: after a [balance_tokens] that
    returns, a second [balance_tokens] on the same tree returns the same
    dictionary. *)
Theorem balance_tokens_twice (self : TokenBalancer) (root : BSTNode) :
  match balance_tokens self (Some root) with
  | (after, tree, Ok allocations) =>
      (balance_tokens after tree).2 = Ok allocations
  | (_, _, Raise _) => True
  end.
Proof.
  pose proof (balance_tokens_by_shares self root) as Hfirst.
  unfold balance_tokens in *. unfold _distribute in *. simpl total_budget in *.
  pose proof (_distribute_node_same_nodes root (_invalidate_cache self)
                (total_budget self)) as Hsame.
  pose proof (_distribute_node_total_budget root (_invalidate_cache self)
                (total_budget self)) as Hbudget.
  pose proof (fun id => weight_of_distribute_node root (_invalidate_cache self)
                          (total_budget self) id) as Hw.
  destruct (_distribute_node (_invalidate_cache self) root (total_budget self))
    as [[s' t'] [v|e]]; simpl in *; [|exact I].
  pose proof (balance_tokens_by_shares s' t') as Hsecond.
  unfold balance_tokens, _distribute in Hsecond. simpl total_budget in Hsecond.
  rewrite Hsecond, Hbudget.
  rewrite <- (same_nodes_shares s' root t' (total_budget self) Hsame).
  rewrite (shares_ext s' self root Hw).
  destruct (shares self root (total_budget self)) as [ss|e]; [|discriminate].
  simpl in *. injection Hfirst as ->.
  rewrite assign_shares_idempotent. reflexivity.
Qed.

(** X3. [rebalance_full] starts from nothing: it returns what
    [balance_tokens] returns on a balancer without allocation records; the
    keys of the returned dictionary are exactly the ids of the tree's
    leaves, and on a tree of two-child internal nodes with distinct leaf
    ids the values sum to the total budget.  It returns whenever the
    weights are tame and the budget leaves five bits of a double's range
    for each level of the tree. *)
Theorem rebalance_full_allocations (self : TokenBalancer) (root : BSTNode) :
  (rebalance_full self (Some root)).2
  = (balance_tokens (set_leaf_allocations self ∅) (Some root)).2
  /\ (forall allocations,
        (rebalance_full self (Some root)).2 = Ok allocations ->
        (forall id, is_Some (allocations !! id) <-> In id (leaf_ids root))
        /\ (two_children root -> NoDup (leaf_ids root) ->
            sum_list (map (entry allocations) (leaf_ids root)) = total_budget self))
  /\ (weights_tame self root = true ->
      Z.abs (total_budget self) < 2 ^ (960 - 5 * height root) ->
      is_ok (rebalance_full self (Some root)).2 = true).
Proof.
  assert (Hsame : (rebalance_full self (Some root)).2
                  = (balance_tokens (set_leaf_allocations self ∅) (Some root)).2).
  { unfold rebalance_full, balance_tokens. simpl _recalculate_all_weights.
    rewrite _recalculate_all_weights_node_no_records by reflexivity.
    reflexivity. }
  split; [exact Hsame|]. split.
  - intros allocations. rewrite Hsame.
    pose proof (balance_tokens_by_shares (set_leaf_allocations self ∅) root) as Hs.
    intros Hret. split.
    + rewrite Hret in Hs. simpl total_budget in Hs.
      destruct (shares (set_leaf_allocations self ∅) root (total_budget self))
        as [ss|e] eqn:Hss; [|discriminate].
      simpl in Hs. injection Hs as ->.
      intros id. unfold allocation_map. simpl leaf_allocations. rewrite fmap_empty.
      rewrite assign_shares_is_Some, (shares_ids _ _ _ _ Hss). reflexivity.
    + intros Hshape Hnodup. revert Hret.
      unfold balance_tokens, _distribute. simpl total_budget.
      destruct (_distribute_node (_invalidate_cache (set_leaf_allocations self ∅)) root
                  (total_budget self)) as [[s' t'] [v|e]] eqn:D; simpl; [|discriminate].
      intros [= <-].
      rewrite (map_ext _ _ (entry_allocation_map s')).
      apply (_distribute_node_allocated _ _ _ _ _ _ Hshape Hnodup D).
  - intros Htame HB. rewrite Hsame.
    unfold balance_tokens, _distribute. simpl total_budget.
    assert (Hok : is_ok (_distribute_node
                           (_invalidate_cache (set_leaf_allocations self ∅)) root
                           (total_budget self)).2 = true).
    { apply _distribute_node_within; [reflexivity | | exact HB].
      rewrite <- Htame. apply weights_tame_ext. reflexivity. }
    destruct (_distribute_node (_invalidate_cache (set_leaf_allocations self ∅)) root
                (total_budget self)) as [[s' t'] [v|e]]; [reflexivity | discriminate].
Qed.

(** X4. [balance_tokens] keeps stale records: the returned dictionary has
    a key for every leaf of the tree and for every id that had a record
    before, and an id outside the tree keeps the allocation it had. *)
Theorem balance_tokens_keeps_other_records (self : TokenBalancer) (root : BSTNode)
    (allocations : gmap string Z) :
  (balance_tokens self (Some root)).2 = Ok allocations ->
  (forall id, is_Some (allocations !! id)
              <-> In id (leaf_ids root) \/ is_Some (leaf_allocations self !! id))
  /\ (forall id, ~ In id (leaf_ids root) ->
        allocations !! id = allocated <$> leaf_allocations self !! id).
Proof.
  rewrite balance_tokens_by_shares.
  destruct (shares self root (total_budget self)) as [ss|e] eqn:Hss; [|discriminate].
  simpl. intros [= <-].
  pose proof (shares_ids _ _ _ _ Hss) as Hids.
  split; intros id.
  - rewrite (assign_shares_lookup ss id (allocation_map self)), <- Hids.
    destruct (in_dec string_dec id (map fst ss)) as [Hin|Hout].
    + rewrite assign_shares_is_Some. tauto.
    + unfold allocation_map. rewrite lookup_fmap, fmap_is_Some. tauto.
  - intros Hout. rewrite <- Hids in Hout.
    rewrite (assign_shares_lookup ss id (allocation_map self)).
    destruct (in_dec string_dec id (map fst ss)) as [Hin|_]; [contradiction|].
    unfold allocation_map. apply lookup_fmap.
Qed.

Lemma balance_tokens_keeps_other_records_witness :
  (forall id, is_Some ((allocation_map (balance_tokens initial_balancer
                                          (Some handler_pair)).1.1) !! id)
              <-> In id (leaf_ids handler_pair)
                  \/ is_Some (leaf_allocations initial_balancer !! id))
  /\ (forall id, ~ In id (leaf_ids handler_pair) ->
        allocation_map (balance_tokens initial_balancer (Some handler_pair)).1.1 !! id
        = allocated <$> leaf_allocations initial_balancer !! id).
Proof.
  apply (balance_tokens_keeps_other_records initial_balancer handler_pair).
  vm_compute. reflexivity.
Defined.

Lemma _collect_all_leaves_leaf c l r a t :
  NodeLevel_eqb (level c) LEAF = true ->
  _collect_all_leaves (mkBSTNode c l r a t) = [mkBSTNode c l r a t].
Proof. intros H. simpl. rewrite H. reflexivity. Qed.

Lemma _collect_all_leaves_internal c l r a t :
  NodeLevel_eqb (level c) LEAF = false ->
  _collect_all_leaves (mkBSTNode c l r a t) = (leaves_of l ++ leaves_of r)%list.
Proof. intros H. simpl. rewrite H. reflexivity. Qed.

Lemma _distribute_node_accounts (node : BSTNode) :
  forall self B s' n' v,
    NoDup (leaf_ids node) ->
    _distribute_node self node B = (s', n', Ok v) ->
    Forall2 (fun o n => In (node_id o) (leaf_ids node) /\ account_matches_record s' o n)
            (_collect_all_leaves node) (_collect_all_leaves n').
Proof.
  induction node as [c l r a t IHl IHr] using BSTNode_tree_ind.
  intros self B s' n' v Hnodup.
  destruct (NodeLevel_eqb (level c) LEAF) eqn:Hlevel.
  - rewrite _distribute_node_leaf by exact Hlevel. intros [= <- <- <-].
    rewrite !_collect_all_leaves_leaf, leaf_ids_leaf by exact Hlevel.
    constructor; [|constructor].
    split; [left; reflexivity|].
    unfold account_matches_record, node_id. simpl.
    rewrite lookup_insert_eq. auto.
  - rewrite _distribute_node_internal by exact Hlevel.
    rewrite leaf_ids_internal in * by exact Hlevel.
    apply NoDup_app in Hnodup as (Nx & Hdisj & Ny).
    destruct (_calculate_weight self l) as [s1 [lw|e]]; [|discriminate].
    destruct (_calculate_weight s1 r) as [s2 [rw|e]]; [|discriminate].
    destruct (split_budget B lw rw) as [[lb rb]|e]; [|discriminate].
    assert (Al : forall s3 l' v3, _distribute s2 l lb = (s3, l', Ok v3) ->
              Forall2 (fun o n => In (node_id o) (map node_id (leaves_of l))
                                  /\ account_matches_record s3 o n)
                      (leaves_of l) (leaves_of l')).
    { intros s3 l' v3. destruct l as [x|]; simpl in IHl, Nx |- *.
      - destruct (_distribute_node s2 x lb) as [[s x'] o] eqn:D.
        intros [= <- <- ->]. apply (IHl _ _ _ _ _ Nx D).
      - intros [= <- <- <-]. constructor. }
    assert (Ar : forall s3 s4 r' v4, _distribute s3 r rb = (s4, r', Ok v4) ->
              Forall2 (fun o n => In (node_id o) (map node_id (leaves_of r))
                                  /\ account_matches_record s4 o n)
                      (leaves_of r) (leaves_of r')).
    { intros s3 s4 r' v4. destruct r as [y|]; simpl in IHr, Ny |- *.
      - destruct (_distribute_node s3 y rb) as [[s y'] o] eqn:D.
        intros [= <- <- ->]. apply (IHr _ _ _ _ _ Ny D).
      - intros [= <- <- <-]. constructor. }
    assert (Fr : forall s3 id, ~ In id (map node_id (leaves_of r)) ->
              leaf_allocations (_distribute s3 r rb).1.1 !! id
              = leaf_allocations s3 !! id).
    { intros s3 id Hid. apply _distribute_frame_opt; [|exact Hid].
      destruct r as [y|]; simpl; [apply _distribute_node_frame | exact I]. }
    destruct (_distribute s2 l lb) as [[s3 l'] [v3|e]] eqn:Dl; [|discriminate].
    specialize (Al s3 l' v3 eq_refl).
    specialize (Ar s3). specialize (Fr s3).
    destruct (_distribute s3 r rb) as [[s4 r'] [v4|e]] eqn:Dr; [|discriminate].
    specialize (Ar s4 r' v4 eq_refl). simpl in Fr.
    intros [= <- <- <-].
    rewrite !_collect_all_leaves_internal by exact Hlevel.
    apply Forall2_app.
    + eapply Forall2_impl; [exact Al|].
      intros o n [Hin (H1 & H2 & H3)]. split; [apply in_or_app; left; exact Hin|].
      split; [exact H1|]. split; [exact H2|].
      rewrite Fr; [exact H3|].
      intros Hr. apply (Hdisj (node_id o)); apply list_elem_of_In; assumption.
    + eapply Forall2_impl; [exact Ar|].
      intros o n [Hin Hacc]. split; [apply in_or_app; right; exact Hin | exact Hacc].
Qed.

(** X5. The balancer and the leaves agree after a distribution: on a tree
    with distinct leaf ids, a distribution that returns leaves each leaf
    holding the allocation the balancer has on record for it; the record
    counts no consumption, and the leaf's own consumption counter is what
    it was before. *)
Theorem distribution_sets_leaf_accounts (self : TokenBalancer) (node : BSTNode) (B : Z) :
  NoDup (leaf_ids node) ->
  match _distribute_node self node B with
  | (after, node', Ok _) =>
      Forall2 (account_matches_record after)
              (_collect_all_leaves node) (_collect_all_leaves node')
  | (_, _, Raise _) => True
  end.
Proof.
  intros Hnodup.
  destruct (_distribute_node self node B) as [[s' n'] [v|e]] eqn:D; [|exact I].
  pose proof (_distribute_node_accounts node self B s' n' v Hnodup D) as H.
  eapply Forall2_impl; [exact H|]. intros o n [_ Hacc]. exact Hacc.
Qed.

Lemma distribution_sets_leaf_accounts_witness :
  match _distribute_node (new_balancer 100000) documented_tree 100000 with
  | (after, node', Ok _) =>
      Forall2 (account_matches_record after)
              (_collect_all_leaves documented_tree) (_collect_all_leaves node')
  | (_, _, Raise _) => True
  end.
Proof.
  apply (distribution_sets_leaf_accounts (new_balancer 100000) documented_tree 100000).
  apply (bool_decide_unpack _). vm_compute. exact I.
Defined.

(** X6. [record_consumption] adds up and checks nothing: an id without a
    record leaves the balancer as it was; an id with a record has
    [tokens_used] added to [consumed], whatever the allocation, so that
    two recordings are one recording of the sum; no allocation changes. *)
Theorem record_consumption_accumulates (self : TokenBalancer) (id : string) (a b : Z) :
  (leaf_allocations self !! id = None -> record_consumption self id a = self)
  /\ (forall r, leaf_allocations self !! id = Some r ->
        leaf_allocations (record_consumption self id a) !! id
        = Some (mkAllocationRecord (rec_node_id r) (allocated r) (consumed r + a)
                                   (timestamp r)))
  /\ (forall id', id' <> id ->
        leaf_allocations (record_consumption self id a) !! id'
        = leaf_allocations self !! id')
  /\ record_consumption (record_consumption self id a) id b
     = record_consumption self id (a + b)
  /\ (forall id', get_allocation (record_consumption self id a) id'
                  = get_allocation self id')
  /\ allocation_map (record_consumption self id a) = allocation_map self.
Proof.
  assert (Hget : forall id', get_allocation (record_consumption self id a) id'
                             = get_allocation self id').
  { intros id'. unfold record_consumption, get_allocation.
    destruct (leaf_allocations self !! id) as [r|] eqn:Hr; [|reflexivity].
    simpl. destruct (decide (id = id')) as [<-|Hne].
    - rewrite lookup_insert_eq, Hr. reflexivity.
    - rewrite lookup_insert_ne by exact Hne. reflexivity. }
  split; [|split; [|split; [|split; [|split; [exact Hget|]]]]].
  - intros H. unfold record_consumption. rewrite H. reflexivity.
  - intros r H. unfold record_consumption. rewrite H. simpl.
    apply lookup_insert_eq.
  - intros id' Hne. unfold record_consumption.
    destruct (leaf_allocations self !! id); [|reflexivity].
    simpl. apply lookup_insert_ne. congruence.
  - unfold record_consumption.
    destruct (leaf_allocations self !! id) as [r|] eqn:Hr.
    + simpl. rewrite lookup_insert_eq. unfold set_leaf_allocations. simpl.
      rewrite insert_insert_eq. do 3 f_equal. lia.
    + rewrite Hr. reflexivity.
  - apply map_eq. intros id'. unfold allocation_map. rewrite !lookup_fmap.
    pose proof (Hget id') as H. unfold get_allocation in H.
    unfold record_consumption in *.
    destruct (leaf_allocations self !! id) as [r|] eqn:Hr; [|reflexivity].
    simpl in *. destruct (decide (id = id')) as [<-|Hne].
    + rewrite lookup_insert_eq, Hr. reflexivity.
    + rewrite lookup_insert_ne by exact Hne. reflexivity.
Qed.

Lemma update_weight_node_weights (self : TokenBalancer) (id : string)
    (kwargs : list weight_kwarg) :
  node_weights (update_weight self id kwargs)
  = <[id := fold_left setattr_weight kwargs (weight_of self id)]> (node_weights self).
Proof.
  unfold update_weight, _get_node_weight, weight_of.
  destruct (node_weights self !! id) eqn:H; simpl; [reflexivity|].
  rewrite insert_insert_eq. reflexivity.
Qed.

Lemma update_weight_rest (self : TokenBalancer) (id : string)
    (kwargs : list weight_kwarg) :
  total_budget (update_weight self id kwargs) = total_budget self
  /\ leaf_allocations (update_weight self id kwargs) = leaf_allocations self
  /\ _weight_cache (update_weight self id kwargs) = ∅
  /\ _cache_valid (update_weight self id kwargs) = false.
Proof.
  unfold update_weight, _get_node_weight.
  destruct (node_weights self !! id); simpl; auto.
Qed.

Lemma TokenBalancer_eq (a b : TokenBalancer) :
  total_budget a = total_budget b ->
  leaf_allocations a = leaf_allocations b ->
  node_weights a = node_weights b ->
  _weight_cache a = _weight_cache b ->
  _cache_valid a = _cache_valid b ->
  a = b.
Proof. destruct a, b. simpl. intros -> -> -> -> ->. reflexivity. Qed.

(** X7. [update_weight] composes: the factors named are set on the node's
    weight (created with the defaults when missing), a later keyword
    overriding an earlier one, so that two updates of one node are one
    update with the keywords in sequence; updates of two different nodes
    commute; no other node's weight, no allocation record and not the
    total budget change, and the weight cache is emptied. *)
Theorem update_weight_composes (self : TokenBalancer) (id : string)
    (k1 k2 : list weight_kwarg) :
  weight_of (update_weight self id k1) id
  = fold_left setattr_weight k1 (weight_of self id)
  /\ update_weight (update_weight self id k1) id k2 = update_weight self id (k1 ++ k2)
  /\ (forall id', id' <> id ->
        weight_of (update_weight self id k1) id' = weight_of self id'
        /\ update_weight (update_weight self id k1) id' k2
           = update_weight (update_weight self id' k2) id k1)
  /\ leaf_allocations (update_weight self id k1) = leaf_allocations self
  /\ total_budget (update_weight self id k1) = total_budget self
  /\ _weight_cache (update_weight self id k1) = ∅
  /\ _cache_valid (update_weight self id k1) = false.
Proof.
  destruct (update_weight_rest self id k1) as (Hb & Ha & Hc & Hv).
  assert (Hsame : weight_of (update_weight self id k1) id
                  = fold_left setattr_weight k1 (weight_of self id)).
  { unfold weight_of at 1. rewrite update_weight_node_weights, lookup_insert_eq.
    reflexivity. }
  assert (Hother : forall id', id' <> id ->
            weight_of (update_weight self id k1) id' = weight_of self id').
  { intros id' Hne. unfold weight_of at 1.
    rewrite update_weight_node_weights, lookup_insert_ne by congruence.
    reflexivity. }
  split; [exact Hsame|]. split; [|split; [|auto]].
  - destruct (update_weight_rest (update_weight self id k1) id k2) as (Hb2 & Ha2 & Hc2 & Hv2).
    destruct (update_weight_rest self id (k1 ++ k2)) as (Hb3 & Ha3 & Hc3 & Hv3).
    apply TokenBalancer_eq; try congruence.
    rewrite !update_weight_node_weights, Hsame, insert_insert_eq, fold_left_app.
    reflexivity.
  - intros id' Hne. split; [apply Hother; exact Hne|].
    destruct (update_weight_rest (update_weight self id k1) id' k2) as (Hb2 & Ha2 & Hc2 & Hv2).
    destruct (update_weight_rest self id' k2) as (Hb3 & Ha3 & Hc3 & Hv3).
    destruct (update_weight_rest (update_weight self id' k2) id k1) as (Hb4 & Ha4 & Hc4 & Hv4).
    apply TokenBalancer_eq; try congruence.
    rewrite !update_weight_node_weights, (Hother id' Hne).
    assert (Hback : weight_of (update_weight self id' k2) id = weight_of self id).
    { unfold weight_of at 1.
      rewrite update_weight_node_weights, lookup_insert_ne by congruence.
      reflexivity. }
    rewrite Hback. apply insert_insert_ne. congruence.
Qed.

(** X8. Consumption in steps: when a leaf accepts [a] and then [b], it
    would have accepted [a + b] at once, with the same account afterwards;
    when it accepts [a + b] and [b] is not negative, it accepts [a] and
    then [b].  A request is accepted exactly when it does not exceed what
    remains, a negative request included, and what remains goes down by
    the accepted amount; a rejected request changes nothing; after
    [reset_tokens] the whole allocation remains. *)
Theorem consume_tokens_in_steps (n : BSTNode) (a b : Z) :
  ((consume_tokens n a).2 = true <-> a <= tokens_remaining n)
  /\ tokens_remaining (consume_tokens n a).1
     = (if (consume_tokens n a).2 then tokens_remaining n - a else tokens_remaining n)
  /\ ((consume_tokens n a).2 = false -> (consume_tokens n a).1 = n)
  /\ ((consume_tokens n a).2 = true ->
      (consume_tokens (consume_tokens n a).1 b).2 = true ->
      consume_tokens n (a + b) = consume_tokens (consume_tokens n a).1 b)
  /\ (0 <= b -> (consume_tokens n (a + b)).2 = true ->
      (consume_tokens n a).2 = true
      /\ consume_tokens (consume_tokens n a).1 b = consume_tokens n (a + b))
  /\ tokens_remaining (reset_tokens n) = _token_allocation n.
Proof.
  destruct n as [c l r al t].
  unfold consume_tokens, tokens_remaining, reset_tokens. simpl.
  repeat split.
  - destruct (Z.ltb_spec (al - t) a); simpl; [discriminate | lia].
  - destruct (Z.ltb_spec (al - t) a); simpl; [lia | reflexivity].
  - destruct (Z.ltb_spec (al - t) a); simpl; lia.
  - destruct (Z.ltb_spec (al - t) a); simpl; [reflexivity | discriminate].
  - destruct (Z.ltb_spec (al - t) a); simpl; [discriminate|]. intros _.
    destruct (Z.ltb_spec (al - (t + a)) b); simpl; [discriminate|]. intros _.
    destruct (Z.ltb_spec (al - t) (a + b)); [lia|]. do 2 f_equal. lia.
  - destruct (Z.ltb_spec (al - t) (a + b)); simpl in *; [discriminate|].
    destruct (Z.ltb_spec (al - t) a); simpl; [lia | reflexivity].
  - destruct (Z.ltb_spec (al - t) (a + b)); simpl in *; [discriminate|].
    destruct (Z.ltb_spec (al - t) a); simpl; [lia|].
    destruct (Z.ltb_spec (al - (t + a)) b); simpl; [lia|]. do 2 f_equal. lia.
  - lia.
Qed.

Lemma _clear_subtree_allocations_node_deletes (node : BSTNode) :
  forall (m : gmap string AllocationRecord) (id : string),
    In id (leaf_level_ids node) ->
    _clear_subtree_allocations_node m node !! id = None.
Proof.
  induction node as [c l r a t IHl IHr] using BSTNode_tree_ind.
  intros m id Hid. simpl in *. rewrite !in_app_iff in Hid.
  set (m0 := if NodeLevel_eqb (level c) LEAF then delete (cfg_node_id c) m else m).
  set (m1 := match l with Some x => _clear_subtree_allocations_node m0 x | None => m0 end).
  destruct (in_dec string_dec id
              (match r with Some x => leaf_level_ids x | None => [] end)) as [Hr|Hr].
  { destruct r as [y|]; [|contradiction]. apply IHr. exact Hr. }
  assert (Hm1 : m1 !! id = None).
  { destruct (in_dec string_dec id
                (match l with Some x => leaf_level_ids x | None => [] end)) as [Hl|Hl].
    - unfold m1. destruct l as [y|]; [|contradiction]. apply IHl. exact Hl.
    - assert (Hm0 : m0 !! id = None).
      { unfold m0. destruct (NodeLevel_eqb (level c) LEAF).
        - destruct Hid as [[<-|[]]|[?|?]]; try contradiction.
          apply lookup_delete_eq.
        - destruct Hid as [[]|[?|?]]; contradiction. }
      unfold m1. destruct l as [y|]; [|exact Hm0].
      rewrite _clear_subtree_allocations_node_frame by exact Hl. exact Hm0. }
  destruct r as [y|]; [|exact Hm1].
  rewrite _clear_subtree_allocations_node_frame by exact Hr. exact Hm1.
Qed.

Lemma allocated_to_none (self : TokenBalancer) (ids : list string) :
  (forall id, In id ids -> leaf_allocations self !! id = None) ->
  allocated_to self ids = 0.
Proof.
  unfold allocated_to. induction ids as [|i ids IH]; intros H; [reflexivity|].
  simpl. unfold get_allocation at 1. rewrite (H i (or_introl eq_refl)).
  rewrite IH; [reflexivity|]. intros id Hid. apply H. right. exact Hid.
Qed.

(** X9. Clearing a subtree: after [_clear_subtree_allocations] the
    subtree's budget reads 0 and no leaf-level node of the subtree has a
    record; clearing again changes nothing; the budget of any tree whose
    leaves are not leaf-level nodes of the cleared subtree reads as
    before. *)
Theorem cleared_subtree_budget (self : TokenBalancer) (subtree other : BSTNode) :
  let cleared := _clear_subtree_allocations self (Some subtree) in
  _get_subtree_budget cleared (Some subtree) = 0
  /\ (forall id, In id (leaf_level_ids subtree) -> get_allocation cleared id = 0)
  /\ _clear_subtree_allocations cleared (Some subtree) = cleared
  /\ ((forall id, In id (leaf_ids other) -> ~ In id (leaf_level_ids subtree)) ->
      _get_subtree_budget cleared (Some other) = _get_subtree_budget self (Some other)).
Proof.
  intros cleared. unfold cleared. simpl.
  split; [|split; [|split]].
  - rewrite _get_subtree_budget_node_sum. apply allocated_to_none.
    intros id Hid. simpl. apply _clear_subtree_allocations_node_deletes.
    apply leaf_ids_leaf_level. exact Hid.
  - intros id Hid. unfold get_allocation. simpl.
    rewrite _clear_subtree_allocations_node_deletes by exact Hid. reflexivity.
  - unfold set_leaf_allocations. simpl. f_equal.
    apply map_eq. intros id.
    destruct (in_dec string_dec id (leaf_level_ids subtree)) as [Hin|Hout].
    + rewrite !_clear_subtree_allocations_node_deletes by exact Hin. reflexivity.
    + rewrite _clear_subtree_allocations_node_frame by exact Hout. reflexivity.
  - intros Hdisj. rewrite !_get_subtree_budget_node_sum.
    apply allocated_to_ext. intros id Hid. simpl.
    apply _clear_subtree_allocations_node_frame. apply Hdisj. exact Hid.
Qed.

(** ** Correct rounding *)

Lemma divide_div_pow2 (m a b : Z) :
  0 <= a -> 0 <= b -> (2 ^ (a + b) | m) -> (2 ^ b | m / 2 ^ a).
Proof.
  intros Ha Hb [c Hc]. exists c.
  rewrite Hc, Z.pow_add_r by lia.
  replace (c * (2 ^ a * 2 ^ b)) with (c * 2 ^ b * 2 ^ a) by ring.
  apply Z.div_mul. pose proof (pow2_pos a Ha). lia.
Qed.

Lemma divide_pow2_le (m a b : Z) : 0 <= a <= b -> (2 ^ b | m) -> (2 ^ a | m).
Proof.
  intros Hab [c Hc]. exists (c * 2 ^ (b - a)).
  rewrite Hc, <- Z.mul_assoc, <- Z.pow_add_r by lia. do 2 f_equal. lia.
Qed.

(** A shift of an exact record by bits that are all zero stays exact. *)
Lemma shr_1_exact (mrs : shr_record) :
  shr_r mrs = false -> shr_s mrs = false -> 0 <= shr_m mrs -> (2 | shr_m mrs) ->
  shr_r (shr_1 mrs) = false /\ shr_s (shr_1 mrs) = false.
Proof.
  destruct mrs as [m r s]. simpl. intros -> -> Hm [c Hc].
  destruct m as [|p|p]; [auto | | lia].
  destruct p as [p|p|]; simpl; auto; lia.
Qed.

Lemma iter_pos_shr_1_exact (p : positive) :
  forall mrs,
    shr_r mrs = false -> shr_s mrs = false -> 0 <= shr_m mrs ->
    (2 ^ Zpos p | shr_m mrs) ->
    shr_r (SpecFloat.iter_pos shr_1 p mrs) = false
    /\ shr_s (SpecFloat.iter_pos shr_1 p mrs) = false.
Proof.
  induction p as [p IH|p IH|]; intros mrs Hr Hs Hm Hdiv; simpl SpecFloat.iter_pos.
  - rewrite Pos2Z.inj_xI in Hdiv.
    assert (H2 : (2 | shr_m mrs)).
    { apply (divide_pow2_le _ 1 (2 * Zpos p + 1)); [lia | exact Hdiv]. }
    destruct (shr_1_exact mrs Hr Hs Hm H2) as [Hr1 Hs1].
    assert (Hm1 : 0 <= shr_m (shr_1 mrs)).
    { rewrite shr_1_m by exact Hm. apply div_nonneg; lia. }
    assert (Hd1 : (2 ^ (Zpos p + Zpos p) | shr_m (shr_1 mrs))).
    { rewrite shr_1_m by exact Hm.
      change (shr_m mrs / 2) with (shr_m mrs / 2 ^ 1).
      apply divide_div_pow2; [lia | lia |].
      replace (1 + (Zpos p + Zpos p)) with (2 * Zpos p + 1) by lia. exact Hdiv. }
    destruct (IH (shr_1 mrs) Hr1 Hs1 Hm1) as [Hr2 Hs2].
    { apply (divide_pow2_le _ _ (Zpos p + Zpos p)); [lia | exact Hd1]. }
    apply IH; [exact Hr2 | exact Hs2 | |].
    + rewrite iter_pos_shr_1_m by exact Hm1. apply div_nonneg; [exact Hm1|].
      apply pow2_pos. lia.
    + rewrite iter_pos_shr_1_m by exact Hm1.
      apply divide_div_pow2; [lia | lia | exact Hd1].
  - rewrite Pos2Z.inj_xO in Hdiv.
    assert (Hd1 : (2 ^ (Zpos p + Zpos p) | shr_m mrs)).
    { replace (Zpos p + Zpos p) with (2 * Zpos p) by lia. exact Hdiv. }
    destruct (IH mrs Hr Hs Hm) as [Hr2 Hs2].
    { apply (divide_pow2_le _ _ (Zpos p + Zpos p)); [lia | exact Hd1]. }
    apply IH; [exact Hr2 | exact Hs2 | |].
    + rewrite iter_pos_shr_1_m by exact Hm. apply div_nonneg; [exact Hm|].
      apply pow2_pos. lia.
    + rewrite iter_pos_shr_1_m by exact Hm.
      apply divide_div_pow2; [lia | lia | exact Hd1].
  - apply shr_1_exact; assumption.
Qed.

Lemma loc_of_shr_record_exact (mrs : shr_record) :
  shr_r mrs = false -> shr_s mrs = false -> loc_of_shr_record mrs = loc_Exact.
Proof. destruct mrs as [m r s]. simpl. intros -> ->. reflexivity. Qed.

(** The location after the first shift is exact when nothing is lost. *)
Lemma shr_fexp_exact (m e : Z) :
  0 <= m ->
  (2 ^ (Z.max e (fexp64 (Zdigits2 m + e)) - e) | m) ->
  loc_of_shr_record (fst (shr_fexp prec emax m e loc_Exact)) = loc_Exact.
Proof.
  intros Hm Hdiv. unfold shr_fexp, shr. rewrite fexp_eq.
  destruct (fexp64 (Zdigits2 m + e) - e) as [|n|n] eqn:Hn; simpl; try reflexivity.
  apply loc_of_shr_record_exact;
    apply iter_pos_shr_1_exact; simpl; try reflexivity; try exact Hm;
    (replace (Zpos n) with (Z.max e (fexp64 (Zdigits2 m + e)) - e) by lia; exact Hdiv).
Qed.

Lemma round_nearest_even_exact (m : Z) : round_nearest_even m loc_Exact = m.
Proof. reflexivity. Qed.

(** What [binary_round_aux] returns: with [E] the exponent after the first
    shift and [m1] the truncated mantissa, the result is [m1] or [m1 + 1]
    at exponent [E] ([m1] when nothing was lost), renormalized when the
    carry reaches 2^53, a zero when the mantissa is 0 and an infinity when
    the exponent exceeds the range. *)
Lemma binary_round_aux_shape (s : bool) (m e : Z) (l : location) :
  0 <= m ->
  let E := Z.max e (fexp64 (Zdigits2 m + e)) in
  let m1 := m / 2 ^ (E - e) in
  exists m2,
    m1 <= m2 <= m1 + 1
    /\ m2 <= 2 ^ 53
    /\ (l = loc_Exact -> (2 ^ (E - e) | m) -> m2 = m1)
    /\ ((m2 = 0 /\ binary_round_aux prec emax s m e l = S754_zero s)
        \/ (0 < m2 < 2 ^ 53
            /\ binary_round_aux prec emax s m e l
               = if E <=? 971 then S754_finite s (Z.to_pos m2) E else S754_infinity s)
        \/ (m2 = 2 ^ 53
            /\ binary_round_aux prec emax s m e l
               = if E + 1 <=? 971 then S754_finite s (Z.to_pos (2 ^ 52)) (E + 1)
                 else S754_infinity s)).
Proof.
  intros Hm E m1.
  pose proof (shr_fexp_spec m e l Hm) as [He1 Hm1].
  pose proof (fun H => shr_fexp_exact m e Hm H) as Hexact.
  unfold binary_round_aux.
  destruct (shr_fexp prec emax m e l) as [mrs1 e1] eqn:Hshr. simpl in He1, Hm1.
  fold E in He1, Hm1, Hexact. fold m1 in Hm1. subst e1.
  pose proof (Zdigits2_nonneg m) as Hd0.
  pose proof (Zdigits2_upper m Hm) as Hup.
  set (d := Zdigits2 m) in *.
  assert (HE : e <= E /\ d + e - 53 <= E /\ -1074 <= E) by (unfold E, fexp64; lia).
  assert (Hm1nn : 0 <= m1).
  { unfold m1. apply div_nonneg; [exact Hm | apply pow2_pos; lia]. }
  assert (Hm153 : m1 < 2 ^ 53).
  { unfold m1. replace 53 with (53 + (E - e) - (E - e)) by lia.
    apply div_pow2_lt; [lia | lia |].
    eapply Z.lt_le_trans; [exact Hup | apply pow2_le; lia]. }
  pose proof (round_nearest_even_range (shr_m mrs1) (loc_of_shr_record mrs1)) as Hm2.
  set (m2 := round_nearest_even (shr_m mrs1) (loc_of_shr_record mrs1)) in *.
  rewrite Hm1 in Hm2.
  exists m2. split; [exact Hm2|]. split; [lia|]. split.
  { intros -> Hdiv. specialize (Hexact Hdiv). rewrite Hshr in Hexact.
    simpl in Hexact. unfold m2. rewrite Hexact. simpl. exact Hm1. }
  assert (Hm2nn : 0 <= m2) by lia.
  pose proof (shr_fexp_spec m2 E loc_Exact Hm2nn) as [He2 Hm3].
  destruct (shr_fexp prec emax m2 E loc_Exact) as [mrs2 e2]. simpl in He2, Hm3.
  subst e2. set (d2 := Zdigits2 m2) in *.
  set (E2 := Z.max E (fexp64 (d2 + E))) in *.
  assert (H5354 : 2 ^ 53 < 2 ^ 54) by (vm_compute; reflexivity).
  assert (H5253 : 0 < 2 ^ 52 < 2 ^ 53) by (vm_compute; split; reflexivity).
  destruct (Z.eq_dec m2 0) as [Hz|Hnz].
  - left. split; [exact Hz|]. rewrite Hm3, Hz. rewrite Z.div_0_l; [reflexivity|].
    pose proof (pow2_pos (E2 - E) ltac:(unfold E2; lia)). lia.
  - right. destruct (Z.eq_dec m2 (2 ^ 53)) as [H53|Hlt].
    + right. split; [exact H53|].
      assert (Hd2 : d2 = 54).
      { unfold d2. rewrite H53. vm_compute. reflexivity. }
      assert (HE2 : E2 = E + 1) by (unfold E2, fexp64; lia).
      rewrite Hm3, HE2, H53. replace (E + 1 - E) with 1 by lia.
      change (2 ^ 53 / 2 ^ 1) with (Zpos (Z.to_pos (2 ^ 52))).
      fold prec emax. change (emax - prec) with 971. reflexivity.
    + left. split; [lia|].
      assert (Hd2 : d2 <= 53).
      { unfold d2. apply Zdigits2_le; lia. }
      assert (HE2 : E2 = E) by (unfold E2, fexp64; lia).
      rewrite Hm3, HE2, Z.sub_diag, Z.div_1_r.
      destruct m2 as [|p|p]; [lia | | lia].
      fold prec emax. change (emax - prec) with 971. simpl Z.to_pos. reflexivity.
Qed.

Lemma bounded_spec (m : positive) (e : Z) :
  bounded prec emax m e = true
  <-> fexp64 (Zpos (digits2_pos m) + e) = e /\ e <= 971.
Proof.
  unfold bounded, canonical_mantissa. rewrite fexp_eq, andb_true_iff.
  change (emax - prec) with 971. rewrite Z.eqb_eq, Z.leb_le. reflexivity.
Qed.

Lemma fexp64_mono (a b : Z) : a <= b -> fexp64 a <= fexp64 b.
Proof. unfold fexp64. lia. Qed.

(** A mantissa at an exponent, scaled to the exponent [k]. *)
Lemma scaled_bounds (p : positive) (e k : Z) :
  k <= e ->
  2 ^ (Zpos (digits2_pos p) + e - 1 - k) <= Zpos p * 2 ^ (e - k)
  < 2 ^ (Zpos (digits2_pos p) + e - k).
Proof.
  intros Hk. pose proof (digits2_pos_bounds p) as [Hlo Hhi].
  set (d := Zpos (digits2_pos p)) in *.
  assert (Hd : 1 <= d) by (unfold d; lia).
  pose proof (pow2_pos (e - k) ltac:(lia)) as Hp.
  replace (d + e - 1 - k) with (d - 1 + (e - k)) by lia.
  replace (d + e - k) with (d + (e - k)) by lia.
  rewrite !Z.pow_add_r by lia. split.
  - apply Z.mul_le_mono_nonneg_r; lia.
  - apply Z.mul_lt_mono_pos_r; lia.
Qed.

Lemma pow2_lt_inv (a b : Z) : 0 <= b -> 2 ^ a < 2 ^ b -> a < b.
Proof.
  intros Hb H. destruct (Z_lt_le_dec a b) as [|Hle]; [assumption|].
  pose proof (pow2_le b a Hle). lia.
Qed.

Lemma rescale (m a b : Z) : 0 <= a -> 0 <= b -> m * 2 ^ (a + b) = m * 2 ^ a * 2 ^ b.
Proof. intros. rewrite Z.pow_add_r by lia. ring. Qed.

Lemma mul_pow2_le_inv (a b k : Z) : 0 <= k -> a * 2 ^ k <= b * 2 ^ k -> a <= b.
Proof. intros Hk H. pose proof (pow2_pos k Hk). nia. Qed.

Lemma mul_pow2_lt_inv (a b k : Z) : 0 <= k -> a * 2 ^ k < b * 2 ^ k -> a < b.
Proof. intros Hk H. pose proof (pow2_pos k Hk). nia. Qed.

(** The truncated mantissa of the first shift brackets the input. *)
Lemma truncation_brackets (m a : Z) :
  0 <= m -> 0 <= a ->
  m / 2 ^ a * 2 ^ a <= m < (m / 2 ^ a + 1) * 2 ^ a.
Proof.
  intros Hm Ha. pose proof (pow2_pos a Ha) as Hp.
  pose proof (Z.div_mod m (2 ^ a) ltac:(lia)) as Hdm.
  pose proof (Z.mod_pos_bound m (2 ^ a) Hp). nia.
Qed.

(** Once the exponent is above the smallest one, the truncated mantissa
    has all its 53 digits. *)
Lemma truncation_full (m e : Z) :
  0 < m ->
  let d := Zdigits2 m in
  let E := Z.max e (fexp64 (d + e)) in
  e < E -> -1074 < E ->
  E = d + e - 53 /\ 2 ^ 52 <= m / 2 ^ (E - e).
Proof.
  intros Hm d E HeE HE.
  assert (HEv : E = d + e - 53) by (unfold E, fexp64 in *; lia).
  split; [exact HEv|].
  pose proof (Zdigits2_lower m Hm) as Hlow. fold d in Hlow.
  replace 52 with (d - 1 - (E - e)) by lia.
  apply div_pow2_ge; [lia | lia | exact Hlow].
Qed.

(** Rounding up stays below every representable number above the input:
    a representable [y] that is above the input [m * 2^e] (or equal to
    it, the input being exact) is not below the rounded result, which is
    finite. *)
Lemma binary_round_aux_le (s : bool) (m e : Z) (l : location)
    (my : positive) (ey k : Z) :
  0 <= m ->
  bounded prec emax my ey = true ->
  k <= e -> k <= ey ->
  e <= fexp64 (Zdigits2 m + e) ->
  (m * 2 ^ (e - k) < Zpos my * 2 ^ (ey - k)
   \/ (l = loc_Exact /\ m * 2 ^ (e - k) = Zpos my * 2 ^ (ey - k))) ->
  match binary_round_aux prec emax s m e l with
  | S754_zero s' => s' = s
  | S754_finite s' p e' =>
      s' = s /\ k <= e' /\ Zpos p * 2 ^ (e' - k) <= Zpos my * 2 ^ (ey - k)
  | _ => False
  end.
Proof.
  intros Hm Hcan Hke Hkey HP Hle.
  apply bounded_spec in Hcan as [Hey Hey971].
  destruct (binary_round_aux_shape s m e l Hm) as (m2 & Hm2 & Hm253 & Hex & Hres).
  cbv zeta in Hm2, Hex, Hres.
  set (d := Zdigits2 m) in *.
  assert (HE : Z.max e (fexp64 (d + e)) = fexp64 (d + e)) by lia.
  rewrite HE in *. set (E := fexp64 (d + e)) in *.
  set (m1 := m / 2 ^ (E - e)) in *.
  set (dy := Zpos (digits2_pos my)) in *.
  set (Y := Zpos my * 2 ^ (ey - k)) in *.
  pose proof (scaled_bounds my ey k Hkey) as HY. fold dy Y in HY.
  assert (Hdy : 1 <= dy <= 53) by (unfold dy, fexp64 in *; lia).
  assert (HEmin : -1074 <= E) by (unfold E, fexp64; lia).
  assert (Heymin : -1074 <= ey) by (unfold fexp64 in Hey; lia).
  pose proof (truncation_brackets m (E - e) Hm ltac:(lia)) as Hbr. fold m1 in Hbr.
  pose proof (pow2_pos (e - k) ltac:(lia)) as Hpek.
  assert (Hm1V : m1 * 2 ^ (E - k) <= m * 2 ^ (e - k)).
  { replace (E - k) with (E - e + (e - k)) by lia. rewrite rescale by lia.
    apply Z.mul_le_mono_nonneg_r; lia. }
  assert (Hfull : -1074 < E -> 0 < m /\ 2 ^ 52 <= m1).
  { intros HEg.
    assert (Hd1 : 1 <= d).
    { destruct (Z.eq_dec d 0) as [Hd0|]; [|pose proof (Zdigits2_nonneg m); lia].
      unfold E, fexp64 in *. lia. }
    assert (Hmpos : 0 < m).
    { destruct m; [unfold d in Hd1; simpl in Hd1; lia | lia | lia]. }
    split; [exact Hmpos|].
    destruct (Z.eq_dec e E) as [HeE|HeE].
    - unfold m1. rewrite <- HeE, Z.sub_diag, Z.div_1_r.
      pose proof (Zdigits2_lower m Hmpos) as Hlow. fold d in Hlow.
      assert (d = 53) by (unfold E, fexp64 in *; lia).
      rewrite H in Hlow. exact Hlow.
    - pose proof (truncation_full m e Hmpos) as Ht. cbv zeta in Ht.
      fold d in Ht. fold E in Ht. rewrite HE in Ht. apply Ht; lia. }
  assert (HW : m2 * 2 ^ (E - k) <= Y).
  { destruct (Z.eq_dec m2 m1) as [->|Hup]; [lia|].
    assert (Hm2v : m2 = m1 + 1) by lia.
    assert (Hlt : m * 2 ^ (e - k) < Y).
    { destruct Hle as [Hlt|[-> Heq]]; [exact Hlt|]. exfalso. apply Hup, Hex; [reflexivity|].
      assert (Hmpos : 0 < m) by (unfold Y in *; nia).
      destruct m as [|pm|pm]; try lia.
      pose proof (scaled_bounds pm e k Hke) as HV.
      change (Zpos (digits2_pos pm)) with d in HV. fold Y in Heq. rewrite Heq in HV.
      assert (Hmag : dy + ey = d + e).
      { assert (dy + ey - 1 - k < d + e - k).
        { apply pow2_lt_inv; [unfold d; simpl; lia | lia]. }
        assert (d + e - 1 - k < dy + ey - k).
        { apply pow2_lt_inv; [lia | lia]. }
        lia. }
      assert (HeyE : ey = E) by (unfold E; rewrite <- Hmag; lia).
      exists (Zpos my). unfold Y in Heq. rewrite HeyE in Heq.
      replace (E - k) with (E - e + (e - k)) in Heq by lia.
      rewrite rescale in Heq by lia. nia. }
    destruct (Z_le_gt_dec E ey) as [HEy|HEy].
    - unfold Y in *. replace (ey - k) with (ey - E + (E - k)) in * by lia.
      rewrite rescale in * by lia.
      apply Z.mul_le_mono_nonneg_r; [apply Z.lt_le_incl, pow2_pos; lia|].
      assert (m1 < Zpos my * 2 ^ (ey - E)).
      { apply (mul_pow2_lt_inv _ _ (E - k)); lia. }
      lia.
    - exfalso. destruct (Hfull ltac:(lia)) as [Hmpos H52].
      assert (HEv : E = d + e - 53) by (unfold E, fexp64 in *; lia).
      assert (2 ^ (d + e - 1 - k) <= m1 * 2 ^ (E - k)).
      { replace (d + e - 1 - k) with (52 + (E - k)) by lia.
        rewrite Z.pow_add_r by lia.
        apply Z.mul_le_mono_nonneg_r; [apply Z.lt_le_incl, pow2_pos; lia | exact H52]. }
      assert (d + e - 1 - k < dy + ey - k).
      { apply pow2_lt_inv; [lia | lia]. }
      assert (E <= ey).
      { rewrite <- Hey. unfold E. apply fexp64_mono. lia. }
      lia. }
  assert (HYtop : Y < 2 ^ (1024 - k)).
  { eapply Z.lt_le_trans; [apply HY | apply pow2_le; lia]. }
  assert (Hno_overflow : 0 < m2 -> (if m2 =? 2 ^ 53 then E + 1 else E) <= 971).
  { intros Hm2pos.
    destruct (Z_le_gt_dec (if m2 =? 2 ^ 53 then E + 1 else E) 971) as [|Hgt];
      [assumption | exfalso].
    assert (2 ^ (1024 - k) <= m2 * 2 ^ (E - k)); [|lia].
    destruct (Z.eqb_spec m2 (2 ^ 53)) as [H53|H53].
    - rewrite H53, <- Z.pow_add_r by lia. apply pow2_le. lia.
    - destruct (Hfull ltac:(lia)) as [_ H52].
      replace (1024 - k) with (52 + (972 - k)) by lia.
      rewrite Z.pow_add_r by lia.
      assert (2 ^ (972 - k) <= 2 ^ (E - k)) by (apply pow2_le; lia).
      pose proof (pow2_pos (972 - k) ltac:(lia)).
      assert (2 ^ 52 <= m2) by lia.
      apply Z.mul_le_mono_nonneg; lia. }
  destruct Hres as [[Hz ->]|[[Hr ->]|[H53 ->]]].
  - reflexivity.
  - specialize (Hno_overflow ltac:(lia)).
    destruct (Z.eqb_spec m2 (2 ^ 53)) as [|_]; [lia|].
    destruct (Z.leb_spec E 971); [|lia].
    split; [reflexivity|]. split; [lia|].
    rewrite Z2Pos.id by lia. exact HW.
  - specialize (Hno_overflow ltac:(rewrite H53; vm_compute; reflexivity)).
    rewrite H53, Z.eqb_refl in Hno_overflow.
    destruct (Z.leb_spec (E + 1) 971); [|lia].
    split; [reflexivity|]. split; [lia|].
    rewrite H53 in HW. change (Zpos (Z.to_pos (2 ^ 52))) with (2 ^ 52).
    replace (E + 1 - k) with (1 + (E - k)) by lia.
    rewrite Z.pow_add_r, Z.mul_assoc by lia.
    change (2 ^ 52 * 2 ^ 1) with (2 ^ 53). exact HW.
Qed.

(** Rounding down stays above every representable number below the
    input: a representable [y] that is not above the input [m * 2^e] is
    not above the rounded result, unless that is an infinity. *)
Lemma binary_round_aux_ge (s : bool) (m e : Z) (l : location)
    (my : positive) (ey k : Z) :
  0 <= m ->
  bounded prec emax my ey = true ->
  k <= e -> k <= ey ->
  Zpos my * 2 ^ (ey - k) <= m * 2 ^ (e - k) ->
  match binary_round_aux prec emax s m e l with
  | S754_finite s' p e' =>
      s' = s /\ k <= e' /\ Zpos my * 2 ^ (ey - k) <= Zpos p * 2 ^ (e' - k)
  | S754_infinity s' => s' = s
  | _ => False
  end.
Proof.
  intros Hm Hcan Hke Hkey Hle.
  apply bounded_spec in Hcan as [Hey Hey971].
  destruct (binary_round_aux_shape s m e l Hm) as (m2 & Hm2 & Hm253 & Hex & Hres).
  cbv zeta in Hm2, Hex, Hres.
  set (d := Zdigits2 m) in *.
  set (E := Z.max e (fexp64 (d + e))) in *.
  set (m1 := m / 2 ^ (E - e)) in *.
  set (dy := Zpos (digits2_pos my)) in *.
  set (Y := Zpos my * 2 ^ (ey - k)) in *.
  pose proof (scaled_bounds my ey k Hkey) as HY. fold dy Y in HY.
  assert (HEe : e <= E /\ -1074 <= E) by (unfold E, fexp64; lia).
  assert (Heymin : -1074 <= ey) by (unfold fexp64 in Hey; lia).
  pose proof (truncation_brackets m (E - e) Hm ltac:(lia)) as Hbr. fold m1 in Hbr.
  pose proof (pow2_pos (e - k) ltac:(lia)) as Hpek.
  pose proof (pow2_pos (ey - k) ltac:(lia)) as Hpeyk.
  assert (HYpos : 0 < Y) by (unfold Y; lia).
  assert (Hmpos : 0 < m) by nia.
  assert (HVlt : m * 2 ^ (e - k) < (m1 + 1) * 2 ^ (E - k)).
  { replace (E - k) with (E - e + (e - k)) by lia. rewrite rescale by lia.
    apply Z.mul_lt_mono_pos_r; lia. }
  assert (HW : Y <= m1 * 2 ^ (E - k)).
  { destruct (Z_le_gt_dec E ey) as [HEy|HEy].
    - unfold Y in *. replace (ey - k) with (ey - E + (E - k)) in * by lia.
      rewrite rescale in * by lia.
      apply Z.mul_le_mono_nonneg_r; [apply Z.lt_le_incl, pow2_pos; lia|].
      assert (Zpos my * 2 ^ (ey - E) < m1 + 1).
      { apply (mul_pow2_lt_inv _ _ (E - k)); lia. }
      lia.
    - destruct (Z.eq_dec e E) as [HeE|HeE].
      + unfold m1. rewrite <- HeE, Z.sub_diag, Z.div_1_r. exact Hle.
      + pose proof (truncation_full m e Hmpos) as Ht. cbv zeta in Ht.
        fold d in Ht. fold E in Ht. destruct Ht as [HEv H52]; [lia | lia |].
        fold m1 in H52.
        assert (Hmag : dy + ey < d + e).
        { destruct (Z_lt_le_dec (dy + ey) (d + e)) as [|Hge]; [assumption|].
          pose proof (fexp64_mono _ _ Hge). unfold E in *. lia. }
        assert (2 ^ (dy + ey - k) <= 2 ^ (d + e - 1 - k)) by (apply pow2_le; lia).
        assert (2 ^ (d + e - 1 - k) <= m1 * 2 ^ (E - k)).
        { replace (d + e - 1 - k) with (52 + (E - k)) by lia.
          rewrite Z.pow_add_r by lia.
          apply Z.mul_le_mono_nonneg_r; [apply Z.lt_le_incl, pow2_pos; lia | exact H52]. }
        lia. }
  pose proof (pow2_pos (E - k) ltac:(lia)) as HpEk.
  assert (Hm1pos : 0 < m1) by nia.
  assert (HW2 : Y <= m2 * 2 ^ (E - k)).
  { eapply Z.le_trans; [exact HW|]. apply Z.mul_le_mono_nonneg_r; lia. }
  destruct Hres as [[Hz _]|[[Hr ->]|[H53 ->]]].
  - lia.
  - destruct (Z.leb_spec E 971); [|reflexivity].
    split; [reflexivity|]. split; [lia|].
    rewrite Z2Pos.id by lia. exact HW2.
  - destruct (Z.leb_spec (E + 1) 971); [|reflexivity].
    split; [reflexivity|]. split; [lia|].
    rewrite H53 in HW2. change (Zpos (Z.to_pos (2 ^ 52))) with (2 ^ 52).
    replace (E + 1 - k) with (1 + (E - k)) by lia.
    rewrite Z.pow_add_r, Z.mul_assoc by lia.
    change (2 ^ 52 * 2 ^ 1) with (2 ^ 53). exact HW2.
Qed.

(** The rounded result is a float of the format. *)
Lemma binary_round_aux_valid (s : bool) (m e : Z) (l : location) :
  0 <= m ->
  e <= fexp64 (Zdigits2 m + e) ->
  valid_binary prec emax (binary_round_aux prec emax s m e l) = true.
Proof.
  intros Hm HP.
  destruct (binary_round_aux_shape s m e l Hm) as (m2 & Hm2 & Hm253 & Hex & Hres).
  cbv zeta in Hm2, Hex, Hres.
  set (d := Zdigits2 m) in *.
  assert (HE : Z.max e (fexp64 (d + e)) = fexp64 (d + e)) by lia.
  rewrite HE in *. set (E := fexp64 (d + e)) in *.
  set (m1 := m / 2 ^ (E - e)) in *.
  assert (HEmin : -1074 <= E) by (unfold E, fexp64; lia).
  destruct Hres as [[Hz ->]|[[Hr ->]|[H53 ->]]]; [reflexivity | |].
  - destruct (Z.leb_spec E 971); [|reflexivity].
    cbn [valid_binary]. apply bounded_spec. split; [|assumption].
    destruct m2 as [|p2|p2]; try lia. simpl Z.to_pos.
    assert (Hd2 : Zpos (digits2_pos p2) <= 53).
    { change (Zpos (digits2_pos p2)) with (Zdigits2 (Zpos p2)). apply Zdigits2_le; lia. }
    destruct (Z.eq_dec E (-1074)) as [HEv|HEv]; [unfold fexp64; lia|].
    assert (Hd1 : 1 <= d).
    { destruct (Z.eq_dec d 0) as [Hd0|]; [|pose proof (Zdigits2_nonneg m); lia].
      unfold E, fexp64 in *. lia. }
    assert (Hmpos : 0 < m).
    { destruct m; [unfold d in Hd1; simpl in Hd1; lia | lia | lia]. }
    assert (H52 : 2 ^ 52 <= m1).
    { destruct (Z.eq_dec e E) as [HeE|HeE].
      - unfold m1. rewrite <- HeE, Z.sub_diag, Z.div_1_r.
        pose proof (Zdigits2_lower m Hmpos) as Hlow. fold d in Hlow.
        assert (d = 53) by (unfold E, fexp64 in *; lia).
        rewrite H0 in Hlow. exact Hlow.
      - pose proof (truncation_full m e Hmpos) as Ht. cbv zeta in Ht.
        fold d in Ht. fold E in Ht. rewrite HE in Ht. apply Ht; lia. }
    assert (Hd253 : 53 <= Zpos (digits2_pos p2)).
    { change (Zpos (digits2_pos p2)) with (Zdigits2 (Zpos p2)).
      apply Zdigits2_ge; [lia|]. change (53 - 1) with 52. lia. }
    unfold fexp64. lia.
  - destruct (Z.leb_spec (E + 1) 971); [|reflexivity].
    cbn [valid_binary]. apply bounded_spec. split; [|assumption].
    change (Zpos (digits2_pos (Z.to_pos (2 ^ 52)))) with 53.
    unfold fexp64. lia.
Qed.

(** A number has one representation in the format. *)
Lemma bounded_unique (m1 m2 : positive) (e1 e2 k : Z) :
  bounded prec emax m1 e1 = true ->
  bounded prec emax m2 e2 = true ->
  k <= e1 -> k <= e2 ->
  Zpos m1 * 2 ^ (e1 - k) = Zpos m2 * 2 ^ (e2 - k) ->
  m1 = m2 /\ e1 = e2.
Proof.
  intros H1 H2 Hk1 Hk2 Heq.
  apply bounded_spec in H1 as [Hc1 _]. apply bounded_spec in H2 as [Hc2 _].
  pose proof (scaled_bounds m1 e1 k Hk1) as B1.
  pose proof (scaled_bounds m2 e2 k Hk2) as B2.
  rewrite Heq in B1.
  set (d1 := Zpos (digits2_pos m1)) in *. set (d2 := Zpos (digits2_pos m2)) in *.
  assert (Hd1 : 1 <= d1) by (unfold d1; lia).
  assert (Hd2 : 1 <= d2) by (unfold d2; lia).
  assert (Hmag : d1 + e1 = d2 + e2).
  { assert (d1 + e1 - 1 - k < d2 + e2 - k) by (apply pow2_lt_inv; lia).
    assert (d2 + e2 - 1 - k < d1 + e1 - k) by (apply pow2_lt_inv; lia).
    lia. }
  assert (He : e1 = e2) by (rewrite <- Hc1, <- Hc2, Hmag; reflexivity).
  split; [|exact He]. subst e2.
  pose proof (pow2_pos (e1 - k) ltac:(lia)). nia.
Qed.

Lemma fle_at (x y : float) (k : Z) :
  k <= exponent x -> k <= exponent y ->
  fle x y <-> mantissa x * 2 ^ (exponent x - k) <= mantissa y * 2 ^ (exponent y - k).
Proof.
  intros Hx Hy. unfold fle.
  set (k0 := Z.min (exponent x) (exponent y)).
  assert (Hk : k <= k0) by (unfold k0; lia).
  replace (exponent x - k) with (exponent x - k0 + (k0 - k)) by lia.
  replace (exponent y - k) with (exponent y - k0 + (k0 - k)) by lia.
  rewrite !rescale by (unfold k0; lia).
  pose proof (pow2_pos (k0 - k) ltac:(lia)). split; intros H0; nia.
Qed.

Lemma sound_tame (x : float) : sound x = true -> tame x = true.
Proof.
  destruct x as [s|s| |s m e]; simpl; try discriminate; auto.
  destruct s; [discriminate|]. intros H. apply bounded_spec in H as [H _].
  apply Z.leb_le. unfold fexp64 in H. lia.
Qed.

(** Rounding an exact input that the format represents returns that
    representation. *)
Lemma binary_round_aux_exact (s : bool) (m e : Z) (my : positive) (ey k : Z) :
  0 <= m ->
  e <= fexp64 (Zdigits2 m + e) ->
  bounded prec emax my ey = true ->
  k <= e -> k <= ey ->
  m * 2 ^ (e - k) = Zpos my * 2 ^ (ey - k) ->
  binary_round_aux prec emax s m e loc_Exact = S754_finite s my ey.
Proof.
  intros Hm HP Hcan Hke Hkey Heq.
  pose proof (binary_round_aux_le s m e loc_Exact my ey k Hm Hcan Hke Hkey HP
                (or_intror (conj eq_refl Heq))) as Hle.
  pose proof (binary_round_aux_ge s m e loc_Exact my ey k Hm Hcan Hke Hkey
                ltac:(lia)) as Hge.
  pose proof (binary_round_aux_valid s m e loc_Exact Hm HP) as Hv.
  destruct (binary_round_aux prec emax s m e loc_Exact) as [s'|s'| |s' p e'];
    try contradiction.
  destruct Hle as (-> & Hk' & Hle). destruct Hge as (_ & _ & Hge). simpl in Hv.
  destruct (bounded_unique p my e' ey k Hv Hcan Hk' Hkey ltac:(lia)) as [-> ->].
  reflexivity.
Qed.

(** *** Multiplication *)

Lemma digits2_pos_mul_lower (a b : positive) :
  Zpos (digits2_pos a) + Zpos (digits2_pos b) - 1 <= Zpos (digits2_pos (a * b)).
Proof.
  change (Zpos (digits2_pos (a * b))) with (Zdigits2 (Zpos (a * b))).
  apply Zdigits2_ge; [lia|].
  pose proof (digits2_pos_bounds a) as [Ha _].
  pose proof (digits2_pos_bounds b) as [Hb _].
  set (da := Zpos (digits2_pos a)) in *. set (db := Zpos (digits2_pos b)) in *.
  assert (1 <= da) by (unfold da; lia). assert (1 <= db) by (unfold db; lia).
  replace (da + db - 1 - 1) with (da - 1 + (db - 1)) by lia.
  rewrite Z.pow_add_r, Pos2Z.inj_mul by lia.
  pose proof (pow2_pos (da - 1) ltac:(lia)). pose proof (pow2_pos (db - 1) ltac:(lia)).
  apply Z.mul_le_mono_nonneg; lia.
Qed.

(** The product of two floats of the format is rounded from a mantissa
    that is long enough. *)
Lemma product_long_enough (mx my : positive) (ex ey : Z) :
  bounded prec emax mx ex = true -> bounded prec emax my ey = true ->
  ex + ey <= fexp64 (Zdigits2 (Zpos (mx * my)) + (ex + ey)).
Proof.
  intros Hx Hy. apply bounded_spec in Hx as [Hx _]. apply bounded_spec in Hy as [Hy _].
  pose proof (digits2_pos_mul_lower mx my) as Hd.
  change (Zdigits2 (Zpos (mx * my))) with (Zpos (digits2_pos (mx * my))).
  set (dx := Zpos (digits2_pos mx)) in *. set (dy := Zpos (digits2_pos my)) in *.
  assert (1 <= dx) by (unfold dx; lia). assert (1 <= dy) by (unfold dy; lia).
  unfold fexp64 in *. lia.
Qed.

(** A factor that is at most 1 does not enlarge. *)
Lemma fmul_le (b r : float) :
  sound b = true -> sound r = true -> fle r f1 ->
  sound (fmul b r) = true /\ fle (fmul b r) b.
Proof.
  destruct b as [sb|sb| |sb mb eb]; try discriminate;
    destruct r as [sr|sr| |sr mr er]; try discriminate.
  - intros _ _ _. split; [reflexivity|]. unfold fle. simpl. lia.
  - destruct sr; [discriminate|]. intros _ _ _. split; [reflexivity|].
    unfold fle. simpl. lia.
  - destruct sb; [discriminate|]. intros Hb _ _. split; [reflexivity|].
    unfold fle. simpl. pose proof (pow2_pos (eb - Z.min 0 eb) ltac:(lia)). lia.
  - destruct sb; [discriminate|]. destruct sr; [discriminate|].
    simpl sound. intros Hb Hr Hle1.
    pose proof (product_long_enough mb mr eb er Hb Hr) as HP.
    assert (Her : -1074 <= er /\ -1074 <= eb).
    { apply bounded_spec in Hb as [Hb _]. apply bounded_spec in Hr as [Hr _].
      unfold fexp64 in *. lia. }
    set (k := Z.min (eb + er) (Z.min eb (-52 + eb))).
    apply (fle_at _ _ (Z.min er (-52))) in Hle1; [|simpl; lia | simpl; lia].
    change (Zpos mr * 2 ^ (er - Z.min er (-52))
            <= 2 ^ 52 * 2 ^ (-52 - Z.min er (-52))) in Hle1.
    assert (Hr1 : Zpos mr * 2 ^ (er - Z.min er (-52)) <= 2 ^ (- Z.min er (-52))).
    { rewrite <- Z.pow_add_r in Hle1 by lia.
      replace (52 + (-52 - Z.min er (-52))) with (- Z.min er (-52)) in Hle1 by lia.
      exact Hle1. }
    assert (Hprod : Zpos (mb * mr) * 2 ^ (eb + er - k) <= Zpos mb * 2 ^ (eb - k)).
    { rewrite Pos2Z.inj_mul.
      set (j := Z.min er (-52)) in *.
      assert (Hkj : k <= eb + j) by (unfold k, j; lia).
      replace (eb + er - k) with ((er - j) + (eb + j - k)) by lia.
      replace (eb - k) with ((- j) + (eb + j - k)) by lia.
      rewrite !Z.pow_add_r by (unfold j; lia).
      pose proof (pow2_pos (eb + j - k) ltac:(lia)).
      pose proof (pow2_pos (er - j) ltac:(unfold j; lia)).
      nia. }
    unfold fmul, SFmul. simpl xorb.
    assert (Hd : Zpos (mb * mr) * 2 ^ (eb + er - k) < Zpos mb * 2 ^ (eb - k)
                 \/ (loc_Exact = loc_Exact
                     /\ Zpos (mb * mr) * 2 ^ (eb + er - k) = Zpos mb * 2 ^ (eb - k))).
    { destruct (Z.eq_dec (Zpos (mb * mr) * 2 ^ (eb + er - k))
                         (Zpos mb * 2 ^ (eb - k))); [right; auto | left; lia]. }
    pose proof (binary_round_aux_le false (Zpos (mb * mr)) (eb + er) loc_Exact mb eb k
                  ltac:(lia) Hb ltac:(unfold k; lia) ltac:(unfold k; lia) HP Hd) as Hle.
    pose proof (binary_round_aux_valid false (Zpos (mb * mr)) (eb + er) loc_Exact
                  ltac:(lia) HP) as Hv.
    destruct (binary_round_aux prec emax false (Zpos (mb * mr)) (eb + er) loc_Exact)
      as [s'|s'| |s' p e']; try contradiction.
    + split; [reflexivity|]. unfold fle. simpl.
      pose proof (pow2_pos (eb - Z.min 0 eb) ltac:(lia)). lia.
    + destruct Hle as (-> & Hk & Hle).
      split; [exact Hv|].
      apply (fle_at _ _ k); [simpl; lia | simpl; unfold k; lia | exact Hle].
Qed.

(** A product that the format represents is returned as such. *)
Lemma fmul_exact (mx my mz : positive) (ex ey ez k : Z) :
  bounded prec emax mx ex = true -> bounded prec emax my ey = true ->
  bounded prec emax mz ez = true ->
  k <= ex + ey -> k <= ez ->
  Zpos mx * Zpos my * 2 ^ (ex + ey - k) = Zpos mz * 2 ^ (ez - k) ->
  fmul (S754_finite false mx ex) (S754_finite false my ey) = S754_finite false mz ez.
Proof.
  intros Hx Hy Hz Hk1 Hk2 Heq. unfold fmul, SFmul. simpl xorb.
  apply (binary_round_aux_exact false _ _ mz ez k);
    [lia | apply product_long_enough; assumption | exact Hz | exact Hk1 | exact Hk2 |].
  rewrite Pos2Z.inj_mul. exact Heq.
Qed.

(** Comparisons of scaled mantissas do not depend on the scale. *)
Lemma scaled_le_at (a b e1 e2 k1 k2 : Z) :
  k1 <= e1 -> k1 <= e2 -> k2 <= e1 -> k2 <= e2 ->
  a * 2 ^ (e1 - k1) <= b * 2 ^ (e2 - k1) ->
  a * 2 ^ (e1 - k2) <= b * 2 ^ (e2 - k2).
Proof.
  intros H1 H2 H3 H4 H.
  set (k := Z.min k1 k2).
  assert (Hk : a * 2 ^ (e1 - k) <= b * 2 ^ (e2 - k)).
  { replace (e1 - k) with (e1 - k1 + (k1 - k)) by lia.
    replace (e2 - k) with (e2 - k1 + (k1 - k)) by lia.
    rewrite !rescale by (unfold k; lia).
    apply Z.mul_le_mono_nonneg_r; [apply Z.lt_le_incl, pow2_pos; unfold k; lia | exact H]. }
  replace (e1 - k) with (e1 - k2 + (k2 - k)) in Hk by lia.
  replace (e2 - k) with (e2 - k2 + (k2 - k)) in Hk by lia.
  rewrite !rescale in Hk by (unfold k; lia).
  apply (mul_pow2_le_inv _ _ (k2 - k)); [unfold k; lia | exact Hk].
Qed.

Lemma scaled_eq_at (a b e1 e2 k1 k2 : Z) :
  k1 <= e1 -> k1 <= e2 -> k2 <= e1 -> k2 <= e2 ->
  a * 2 ^ (e1 - k1) = b * 2 ^ (e2 - k1) ->
  a * 2 ^ (e1 - k2) = b * 2 ^ (e2 - k2).
Proof.
  intros H1 H2 H3 H4 H. apply Z.le_antisymm.
  - apply (scaled_le_at a b e1 e2 k1 k2); lia.
  - apply (scaled_le_at b a e2 e1 k1 k2); lia.
Qed.

Lemma new_location_exact (n : Z) : new_location n 0 = loc_Exact.
Proof. unfold new_location. destruct (Z.even n); reflexivity. Qed.

(** The quotient the division rounds: the integer quotient of the scaled
    mantissas, long enough for the format, exact when the remainder is 0. *)
Lemma SFdiv_core_binary_quotient (mx mt : positive) (ex et : Z) :
  let M := Zpos (digits2_pos mx) + ex - (Zpos (digits2_pos mt) + et) in
  let e' := Z.min (fexp64 M) (ex - et) in
  let s := ex - et - e' in
  let q := Zpos mx * 2 ^ s / Zpos mt in
  let r := (Zpos mx * 2 ^ s) mod Zpos mt in
  SFdiv_core_binary prec emax (Zpos mx) ex (Zpos mt) et
  = (q, e', new_location (Zpos mt) r)
  /\ 0 <= s /\ 0 <= q
  /\ e' <= fexp64 (Zdigits2 q + e').
Proof.
  intros M e' s q r. unfold SFdiv_core_binary.
  change (Zdigits2 (Zpos mx)) with (Zpos (digits2_pos mx)).
  change (Zdigits2 (Zpos mt)) with (Zpos (digits2_pos mt)).
  rewrite fexp_eq. fold M. fold e'. fold s.
  assert (Hs : 0 <= s) by (unfold s, e'; lia).
  assert (Hm' : match s with
                | Zpos _ => Z.shiftl (Zpos mx) s
                | Z0 => Zpos mx
                | Zneg _ => 0
                end = Zpos mx * 2 ^ s).
  { destruct s as [|p|p] eqn:Es; [simpl; lia | | lia].
    rewrite Z.shiftl_mul_pow2 by lia. reflexivity. }
  rewrite Hm'.
  pose proof (pow2_pos s Hs) as Hps.
  assert (Hq0 : 0 <= q) by (unfold q; apply div_nonneg; lia).
  split.
  { unfold q, r, Z.div, Z.modulo.
    destruct (Z.div_eucl (Zpos mx * 2 ^ s) (Zpos mt)) as [q0 r0]. reflexivity. }
  split; [exact Hs|]. split; [exact Hq0|].
  destruct (Z_le_gt_dec e' (-1074)) as [Hlow|Hhigh]; [unfold fexp64; lia|].
  assert (HM : fexp64 M = M - 53) by (unfold e', fexp64 in *; lia).
  pose proof (digits2_pos_bounds mx) as [Hxlo _].
  pose proof (digits2_pos_bounds mt) as [_ Hthi].
  set (dx := Zpos (digits2_pos mx)) in *. set (dt := Zpos (digits2_pos mt)) in *.
  assert (Hdx : 1 <= dx) by (unfold dx; lia).
  assert (Hdt : 1 <= dt) by (unfold dt; lia).
  assert (He'M : e' <= M - 53) by (rewrite <- HM; unfold e'; lia).
  assert (Es : s = ex - et - e') by reflexivity.
  assert (EM : M = dx + ex - (dt + et)) by reflexivity.
  assert (Hsd : 53 <= dx + s - dt) by lia.
  assert (Hq : 2 ^ (dx - 1 + s - dt) <= q).
  { unfold q. apply Z.div_le_lower_bound; [lia|].
    set (a := dx - 1 + s - dt).
    assert (Ha : 0 <= a) by (unfold a; lia).
    pose proof (pow2_pos a Ha) as Hpa.
    assert (H1 : Zpos mt * 2 ^ a <= 2 ^ dt * 2 ^ a) by (apply Z.mul_le_mono_nonneg_r; lia).
    assert (H2 : 2 ^ dt * 2 ^ a = 2 ^ (dx - 1) * 2 ^ s).
    { rewrite <- !Z.pow_add_r by lia. f_equal. unfold a. lia. }
    assert (H3 : 2 ^ (dx - 1) * 2 ^ s <= Zpos mx * 2 ^ s)
      by (apply Z.mul_le_mono_nonneg_r; lia).
    lia. }
  assert (Hdq : dx + s - dt <= Zdigits2 q).
  { apply Zdigits2_ge.
    - pose proof (pow2_pos (dx - 1 + s - dt) ltac:(lia)). lia.
    - replace (dx + s - dt - 1) with (dx - 1 + s - dt) by lia. exact Hq. }
  assert (M <= Zdigits2 q + e') by lia.
  pose proof (fexp64_mono _ _ H). unfold e' in *. lia.
Qed.

(** The quotient of a number by one that is not smaller is at most 1. *)
Lemma fdiv_le_one (mx mt : positive) (ex et : Z) :
  fle (S754_finite false mx ex) (S754_finite false mt et) ->
  sound (fdiv (S754_finite false mx ex) (S754_finite false mt et)) = true
  /\ fle (fdiv (S754_finite false mx ex) (S754_finite false mt et)) f1.
Proof.
  intros Hle. unfold fdiv, SFdiv.
  destruct (SFdiv_core_binary_quotient mx mt ex et) as (Hcore & Hs & Hq & HP).
  cbv zeta in Hcore, Hs, Hq, HP. rewrite Hcore. clear Hcore. simpl xorb.
  set (dx := Zpos (digits2_pos mx)) in *. set (dt := Zpos (digits2_pos mt)) in *.
  set (M := dx + ex - (dt + et)) in *.
  set (e' := Z.min (fexp64 M) (ex - et)) in *.
  set (s := ex - et - e') in *.
  set (q := Zpos mx * 2 ^ s / Zpos mt) in *.
  set (r := (Zpos mx * 2 ^ s) mod Zpos mt) in *.
  unfold fle in Hle. cbn [mantissa exponent] in Hle.
  set (k0 := Z.min ex et) in *.
  assert (HM : M <= 0).
  { pose proof (scaled_bounds mx ex k0 ltac:(unfold k0; lia)) as Bx.
    pose proof (scaled_bounds mt et k0 ltac:(unfold k0; lia)) as Bt.
    fold dx in Bx. fold dt in Bt.
    assert (dx + ex - 1 - k0 < dt + et - k0).
    { apply pow2_lt_inv; [unfold dt, k0; lia | lia]. }
    unfold M. lia. }
  assert (He' : e' <= -53) by (unfold e', fexp64; lia).
  assert (Hint : Zpos mx * 2 ^ s <= Zpos mt * 2 ^ (- e')).
  { pose proof (scaled_le_at (Zpos mx) (Zpos mt) ex et k0 (et + e')
                  ltac:(unfold k0; lia) ltac:(unfold k0; lia)
                  ltac:(unfold s in Hs; lia) ltac:(lia) Hle) as H.
    replace (ex - (et + e')) with s in H by (unfold s; lia).
    replace (et - (et + e')) with (- e') in H by lia. exact H. }
  pose proof (Z.div_mod (Zpos mx * 2 ^ s) (Zpos mt) ltac:(lia)) as Hdm.
  pose proof (Z.mod_pos_bound (Zpos mx * 2 ^ s) (Zpos mt) ltac:(lia)) as Hr.
  fold q r in Hdm, Hr.
  pose proof (pow2_pos (- e') ltac:(lia)) as Hpe.
  assert (Hq1 : q <= 2 ^ (- e')) by nia.
  assert (Hd : q * 2 ^ (e' - e') < Zpos 4503599627370496 * 2 ^ (-52 - e')
               \/ (new_location (Zpos mt) r = loc_Exact
                   /\ q * 2 ^ (e' - e') = Zpos 4503599627370496 * 2 ^ (-52 - e'))).
  { change (Zpos 4503599627370496) with (2 ^ 52).
    rewrite <- Z.pow_add_r by lia. replace (52 + (-52 - e')) with (- e') by lia.
    rewrite Z.sub_diag, Z.mul_1_r.
    destruct (Z.eq_dec q (2 ^ (- e'))) as [Heq|Hne]; [right | left; lia].
    split; [|exact Heq].
    assert (r = 0) by nia. rewrite H. apply new_location_exact. }
  pose proof (binary_round_aux_le false q e' (new_location (Zpos mt) r)
                4503599627370496 (-52) e' Hq eq_refl ltac:(lia) ltac:(lia) HP Hd) as Hres.
  pose proof (binary_round_aux_valid false q e' (new_location (Zpos mt) r) Hq HP) as Hv.
  destruct (binary_round_aux prec emax false q e' (new_location (Zpos mt) r))
    as [s'|s'| |s' p e2]; try contradiction.
  - split; [reflexivity|]. unfold fle. simpl. lia.
  - destruct Hres as (-> & Hk & Hres). split; [exact Hv|].
    apply (fle_at _ _ e'); [simpl; lia | simpl; lia | exact Hres].
Qed.

(** A quotient that the format represents is returned as such. *)
Lemma fdiv_exact (sx st : bool) (mx mt my : positive) (ex et ey k : Z) :
  bounded prec emax my ey = true ->
  k <= ex -> k <= et + ey ->
  Zpos mx * 2 ^ (ex - k) = Zpos mt * Zpos my * 2 ^ (et + ey - k) ->
  fdiv (S754_finite sx mx ex) (S754_finite st mt et) = S754_finite (xorb sx st) my ey.
Proof.
  intros Hy Hk1 Hk2 Heq. unfold fdiv, SFdiv.
  destruct (SFdiv_core_binary_quotient mx mt ex et) as (Hcore & Hs & Hq & HP).
  cbv zeta in Hcore, Hs, Hq, HP. rewrite Hcore. clear Hcore.
  set (dx := Zpos (digits2_pos mx)) in *. set (dt := Zpos (digits2_pos mt)) in *.
  set (M := dx + ex - (dt + et)) in *.
  set (e' := Z.min (fexp64 M) (ex - et)) in *.
  set (s := ex - et - e') in *.
  set (q := Zpos mx * 2 ^ s / Zpos mt) in *.
  set (r := (Zpos mx * 2 ^ s) mod Zpos mt) in *.
  pose proof Hy as Hy'. apply bounded_spec in Hy' as [Hcy _].
  set (dy := Zpos (digits2_pos my)) in *.
  assert (Hmag : M <= dy + ey).
  { pose proof (scaled_bounds mx ex k Hk1) as Bx. fold dx in Bx.
    pose proof (digits2_pos_bounds mt) as [_ Bt]. fold dt in Bt.
    pose proof (digits2_pos_bounds my) as [_ By]. fold dy in By.
    assert (Zpos mt * Zpos my * 2 ^ (et + ey - k) < 2 ^ (dt + dy + (et + ey - k))).
    { rewrite !Z.pow_add_r by (unfold dt, dy; lia).
      pose proof (pow2_pos (et + ey - k) ltac:(lia)).
      apply Z.mul_lt_mono_pos_r; [lia|].
      apply Z.mul_lt_mono_nonneg; lia. }
    assert (dx + ex - 1 - k < dt + dy + (et + ey - k)).
    { apply pow2_lt_inv; [unfold dt, dy; lia | lia]. }
    unfold M. lia. }
  assert (Hey : e' <= ey).
  { pose proof (fexp64_mono _ _ Hmag). unfold e'. lia. }
  pose proof (scaled_eq_at (Zpos mx) (Zpos mt * Zpos my) ex (et + ey) k (et + e')
                Hk1 Hk2 ltac:(unfold s in Hs; lia) ltac:(lia) Heq) as Hint.
  replace (ex - (et + e')) with s in Hint by (unfold s; lia).
  replace (et + ey - (et + e')) with (ey - e') in Hint by lia.
  assert (Hqv : q = Zpos my * 2 ^ (ey - e')).
  { unfold q. rewrite Hint.
    replace (Zpos mt * Zpos my * 2 ^ (ey - e')) with (Zpos my * 2 ^ (ey - e') * Zpos mt)
      by ring.
    apply Z.div_mul. lia. }
  assert (Hrv : r = 0).
  { unfold r. rewrite Hint.
    replace (Zpos mt * Zpos my * 2 ^ (ey - e')) with (Zpos my * 2 ^ (ey - e') * Zpos mt)
      by ring.
    apply Z.mod_mul. lia. }
  rewrite Hrv, new_location_exact.
  apply (binary_round_aux_exact _ q e' my ey e'); try assumption; try lia.
  rewrite Z.sub_diag, Z.mul_1_r. exact Hqv.
Qed.

(** *** Rounding a mantissa of any length *)

(** [binary_round] aligns its input and rounds the same number. *)
Lemma binary_round_aligned (s : bool) (m : positive) (e : Z) :
  exists (mz : positive) (ez : Z),
    binary_round prec emax s m e = binary_round_aux prec emax s (Zpos mz) ez loc_Exact
    /\ ez = Z.min e (fexp64 (Zpos (digits2_pos m) + e))
    /\ Zpos mz = Zpos m * 2 ^ (e - ez)
    /\ ez <= fexp64 (Zdigits2 (Zpos mz) + ez).
Proof.
  unfold binary_round.
  pose proof (shl_align_spec m e (fexp prec emax (Zpos (digits2_pos m) + e))) as Ha.
  destruct (shl_align m e _) as [mz ez]. destruct Ha as (Hez & Hmz & Hdz).
  rewrite fexp_eq in Hez. exists mz, ez.
  split; [reflexivity|]. split; [exact Hez|]. split; [exact Hmz|].
  change (Zdigits2 (Zpos mz)) with (Zpos (digits2_pos mz)). rewrite Hdz. lia.
Qed.

Lemma binary_round_ge (s : bool) (m : positive) (e : Z) (my : positive) (ey k : Z) :
  bounded prec emax my ey = true ->
  k <= e -> k <= ey -> k <= -1074 ->
  Zpos my * 2 ^ (ey - k) <= Zpos m * 2 ^ (e - k) ->
  match binary_round prec emax s m e with
  | S754_finite s' p e' =>
      s' = s /\ bounded prec emax p e' = true
      /\ k <= e' /\ Zpos my * 2 ^ (ey - k) <= Zpos p * 2 ^ (e' - k)
  | S754_infinity s' => s' = s
  | _ => False
  end.
Proof.
  intros Hy Hke Hkey Hkmin Hle.
  destruct (binary_round_aligned s m e) as (mz & ez & -> & Hez & Hmz & HP).
  assert (Hkez : k <= ez) by (unfold fexp64 in Hez; lia).
  assert (Hval : Zpos mz * 2 ^ (ez - k) = Zpos m * 2 ^ (e - k)).
  { rewrite Hmz. replace (e - k) with (e - ez + (ez - k)) by lia.
    rewrite rescale by lia. reflexivity. }
  pose proof (binary_round_aux_ge s (Zpos mz) ez loc_Exact my ey k ltac:(lia) Hy
                Hkez Hkey ltac:(lia)) as Hge.
  pose proof (binary_round_aux_valid s (Zpos mz) ez loc_Exact ltac:(lia) HP) as Hv.
  destruct (binary_round_aux prec emax s (Zpos mz) ez loc_Exact) as [s'|s'| |s' p e'];
    try contradiction; [exact Hge|].
  destruct Hge as (-> & Hk & Hge). auto.
Qed.

Lemma binary_round_exact (s : bool) (m : positive) (e : Z) (my : positive) (ey k : Z) :
  bounded prec emax my ey = true ->
  k <= e -> k <= ey -> k <= -1074 ->
  Zpos m * 2 ^ (e - k) = Zpos my * 2 ^ (ey - k) ->
  binary_round prec emax s m e = S754_finite s my ey.
Proof.
  intros Hy Hke Hkey Hkmin Heq.
  destruct (binary_round_aligned s m e) as (mz & ez & -> & Hez & Hmz & HP).
  assert (Hkez : k <= ez) by (unfold fexp64 in Hez; lia).
  apply (binary_round_aux_exact s (Zpos mz) ez my ey k); try assumption; [lia|].
  rewrite Hmz. replace (e - k) with (e - ez + (ez - k)) in Heq by lia.
  rewrite rescale in Heq by lia. exact Heq.
Qed.

(** *** Addition *)

(** The sum of two floats that are not negative is not below either. *)
Lemma fadd_ge (x y : float) :
  sound x = true -> sound y = true ->
  match fadd x y with
  | S754_infinity s => s = false
  | r => sound r = true /\ fle x r /\ fle y r
  end.
Proof.
  destruct x as [sx|sx| |sx mx ex]; try discriminate;
    destruct y as [sy|sy| |sy my ey]; try discriminate.
  - intros _ _. destruct sx, sy; simpl; unfold fle; simpl; auto with zarith.
  - destruct sy; [discriminate|]. simpl. intros _ Hy. split; [exact Hy|].
    unfold fle. simpl. split; [|lia].
    pose proof (pow2_pos (ey - Z.min 0 ey) ltac:(lia)). lia.
  - destruct sx; [discriminate|]. simpl. intros Hx _. split; [exact Hx|].
    unfold fle. simpl. split; [lia|].
    pose proof (pow2_pos (ex - Z.min 0 ex) ltac:(lia)). lia.
  - destruct sx; [discriminate|]. destruct sy; [discriminate|].
    simpl sound. intros Hx Hy. unfold fadd, SFadd.
    pose proof (shl_align_spec mx ex (Z.min ex ey)) as Ax.
    pose proof (shl_align_spec my ey (Z.min ex ey)) as Ay.
    destruct (shl_align mx ex (Z.min ex ey)) as [mx' ex'].
    destruct (shl_align my ey (Z.min ex ey)) as [my' ey'].
    destruct Ax as (Ex & Vx & _). destruct Ay as (Ey & Vy & _).
    cbv zeta. simpl fst. simpl cond_Zopp.
    change (Zpos mx' + Zpos my') with (Zpos (mx' + my')).
    change (binary_normalize prec emax (Zpos (mx' + my')) (Z.min ex ey) false)
      with (binary_round prec emax false (mx' + my') (Z.min ex ey)).
    set (ez := Z.min ex ey) in *.
    assert (Hexmin : -1074 <= ex /\ -1074 <= ey).
    { apply bounded_spec in Hx as [Hx _]. apply bounded_spec in Hy as [Hy _].
      unfold fexp64 in *. lia. }
    set (k := Z.min ez (-1074)).
    assert (Hsum : Zpos (mx' + my') * 2 ^ (ez - k)
                   = Zpos mx * 2 ^ (ex - k) + Zpos my * 2 ^ (ey - k)).
    { rewrite Pos2Z.inj_add, Vx, Vy, Z.mul_add_distr_r.
      replace ex' with ez in * by lia. replace ey' with ez in * by lia.
      replace (ex - k) with (ex - ez + (ez - k)) by (unfold ez; lia).
      replace (ey - k) with (ey - ez + (ez - k)) by (unfold ez; lia).
      rewrite !rescale by (unfold k, ez; lia). reflexivity. }
    pose proof (pow2_pos (ex - k) ltac:(unfold k, ez; lia)) as Hpx.
    pose proof (pow2_pos (ey - k) ltac:(unfold k, ez; lia)) as Hpy.
    pose proof (binary_round_ge false (mx' + my') ez mx ex k Hx
                  ltac:(unfold k; lia) ltac:(unfold k, ez; lia) ltac:(unfold k; lia)
                  ltac:(lia)) as Gx.
    pose proof (binary_round_ge false (mx' + my') ez my ey k Hy
                  ltac:(unfold k; lia) ltac:(unfold k, ez; lia) ltac:(unfold k; lia)
                  ltac:(lia)) as Gy.
    destruct (binary_round prec emax false (mx' + my') ez) as [s'|s'| |s' p e'];
      try contradiction; [exact Gx|].
    destruct Gx as (-> & Hv & Hk & Gx). destruct Gy as (_ & _ & _ & Gy).
    split; [exact Hv|]. split.
    + apply (fle_at _ _ k); [simpl; unfold k, ez; lia | simpl; lia | exact Gx].
    + apply (fle_at _ _ k); [simpl; unfold k, ez; lia | simpl; lia | exact Gy].
Qed.

(** A sum that the format represents is returned as such. *)
Lemma fadd_exact (mx my mz : positive) (ex ey ez k : Z) :
  bounded prec emax mz ez = true ->
  k <= ex -> k <= ey -> k <= ez -> k <= -1074 ->
  Zpos mx * 2 ^ (ex - k) + Zpos my * 2 ^ (ey - k) = Zpos mz * 2 ^ (ez - k) ->
  fadd (S754_finite false mx ex) (S754_finite false my ey) = S754_finite false mz ez.
Proof.
  intros Hz Hkx Hky Hkz Hkmin Heq. unfold fadd, SFadd.
  pose proof (shl_align_spec mx ex (Z.min ex ey)) as Ax.
  pose proof (shl_align_spec my ey (Z.min ex ey)) as Ay.
  destruct (shl_align mx ex (Z.min ex ey)) as [mx' ex'].
  destruct (shl_align my ey (Z.min ex ey)) as [my' ey'].
  destruct Ax as (Ex & Vx & _). destruct Ay as (Ey & Vy & _).
  cbv zeta. simpl fst. simpl cond_Zopp.
  change (Zpos mx' + Zpos my') with (Zpos (mx' + my')).
  change (binary_normalize prec emax (Zpos (mx' + my')) (Z.min ex ey) false)
    with (binary_round prec emax false (mx' + my') (Z.min ex ey)).
  set (e0 := Z.min ex ey) in *.
  apply (binary_round_exact false _ _ mz ez k); try assumption; [unfold e0; lia|].
  rewrite <- Heq, Pos2Z.inj_add, Vx, Vy, Z.mul_add_distr_r.
  replace ex' with e0 in * by lia. replace ey' with e0 in * by lia.
  replace (ex - k) with (ex - e0 + (e0 - k)) by (unfold e0; lia).
  replace (ey - k) with (ey - e0 + (e0 - k)) by (unfold e0; lia).
  rewrite !rescale by (unfold e0; lia). reflexivity.
Qed.

(** *** Conversions *)

(** [float(n)] is exact below 2^53. *)
Lemma float_of_int_small (B : Z) :
  0 <= B < 2 ^ 53 ->
  exists b, float_of_int B = Ok b
            /\ sound b = true
            /\ exponent b <= 0
            /\ mantissa b = B * 2 ^ (- exponent b).
Proof.
  intros HB. unfold float_of_int.
  destruct B as [|p|p]; [| | lia].
  - exists (S754_zero false). repeat split; try reflexivity.
  - assert (Hd : Zpos (digits2_pos p) <= 53).
    { change (Zpos (digits2_pos p)) with (Zdigits2 (Zpos p)). apply Zdigits2_le; lia. }
    set (d := Zpos (digits2_pos p)) in *.
    assert (Hd1 : 1 <= d) by (unfold d; lia).
    pose proof (shl_align_spec p 0 (d - 53)) as Ha.
    destruct (shl_align p 0 (d - 53)) as [my ey]. destruct Ha as (Hey & Hmy & Hdy).
    fold d in Hdy.
    assert (Hey' : ey = d - 53) by lia.
    assert (Hcan : bounded prec emax my ey = true).
    { apply bounded_spec. rewrite Hdy. unfold fexp64. lia. }
    assert (Hr : binary_normalize prec emax (Zpos p) 0 false = S754_finite false my ey).
    { simpl binary_normalize.
      apply (binary_round_exact false p 0 my ey (-1074)); try assumption; try lia.
      rewrite Hmy. replace (0 - -1074) with (0 - ey + (ey - -1074)) by lia.
      rewrite rescale by lia. reflexivity. }
    rewrite Hr. exists (S754_finite false my ey).
    split; [reflexivity|]. split; [exact Hcan|]. simpl. split; [lia|].
    rewrite Hmy. replace (0 - ey) with (- ey) by lia. reflexivity.
Qed.

(** [int(x)] truncates the value. *)
Lemma int_of_float_value (p : positive) (e k : Z) :
  k <= e -> k <= 0 ->
  int_of_float (S754_finite false p e) = Ok (Zpos p * 2 ^ (e - k) / 2 ^ (- k)).
Proof.
  intros Hke Hk0. unfold int_of_float. f_equal.
  pose proof (pow2_pos (- k) ltac:(lia)) as Hpk.
  destruct e as [|q|q].
  - rewrite Z.shiftl_0_r. replace (0 - k) with (- k) by lia.
    rewrite Z.div_mul by lia. reflexivity.
  - rewrite Z.shiftl_mul_pow2 by lia.
    replace (Zpos q - k) with (Zpos q + - k) by lia.
    rewrite Z.pow_add_r, Z.mul_assoc, Z.div_mul by lia. reflexivity.
  - rewrite Z.shiftr_div_pow2 by lia.
    replace (- k) with (Zpos q + (Zneg q - k)) at 1 by lia.
    rewrite Z.pow_add_r by lia.
    pose proof (pow2_pos (Zpos q) ltac:(lia)).
    pose proof (pow2_pos (Zneg q - k) ltac:(lia)).
    rewrite Z.div_mul_cancel_r by lia. reflexivity.
Qed.

(** [int] of a float that is not above [float(B)] is between 0 and [B]. *)
Lemma int_of_float_within (r b : float) (B : Z) :
  sound r = true -> fle r b ->
  0 <= B -> exponent b <= 0 -> mantissa b = B * 2 ^ (- exponent b) ->
  exists z, int_of_float r = Ok z /\ 0 <= z <= B.
Proof.
  intros Hr Hle HB Heb Hmb.
  destruct r as [s|s| |s p e]; try discriminate.
  - exists 0. split; [reflexivity | lia].
  - destruct s; [discriminate|].
    set (k := Z.min e (exponent b)).
    rewrite (int_of_float_value p e k) by (unfold k; lia).
    eexists. split; [reflexivity|].
    assert (Hle' : Zpos p * 2 ^ (e - k) <= mantissa b * 2 ^ (exponent b - k)).
    { apply (proj1 (fle_at (S754_finite false p e) b k
                      ltac:(simpl; unfold k; lia) ltac:(unfold k; lia)) Hle). }
    clear Hle. rename Hle' into Hle.
    rewrite Hmb in Hle.
    rewrite <- Z.mul_assoc, <- Z.pow_add_r in Hle by (unfold k; lia).
    replace (- exponent b + (exponent b - k)) with (- k) in Hle by lia.
    pose proof (pow2_pos (- k) ltac:(unfold k; lia)) as Hpk.
    pose proof (pow2_pos (e - k) ltac:(unfold k; lia)) as Hpe.
    split.
    + apply div_nonneg; lia.
    + apply Z.div_le_upper_bound; lia.
Qed.

Lemma feqb_positive (m : positive) (e : Z) : feqb (S754_finite false m e) f0 = false.
Proof. reflexivity. Qed.

Lemma fle_refl (x : float) : fle x x.
Proof. unfold fle. lia. Qed.

(** *** The split on weights that are not negative *)

(** The ratio of the split is a float between 0 and 1. *)
Lemma split_ratio_sound (lw rw : float) :
  sound lw = true -> sound rw = true ->
  let t := if feqb (fadd lw rw) f0 then f1 else fadd lw rw in
  is_zero t = false
  /\ sound (fdiv lw t) = true /\ fle (fdiv lw t) f1.
Proof.
  intros Hl Hr t. split; [apply split_budget_divisor|].
  pose proof (fadd_ge lw rw Hl Hr) as Hadd. unfold t. clear t.
  destruct lw as [sl|sl| |sl ml el]; try discriminate.
  - (* the left weight is a zero *)
    assert (Hz : forall u, u <> S754_nan -> is_zero u = false ->
                   fdiv (S754_zero sl) u = S754_zero (xorb sl (match u with
                     | S754_finite s _ _ | S754_infinity s => s | _ => false end))).
    { intros [s|s| |s m e]; try discriminate; try contradiction; reflexivity. }
    destruct rw as [sr|sr| |sr mr er]; try discriminate.
    + destruct sl, sr; simpl; unfold fle; simpl; auto with zarith.
    + destruct sr; [discriminate|]. simpl. unfold fle. simpl. auto with zarith.
  - destruct sl; [discriminate|].
    destruct (fadd (S754_finite false ml el) rw) as [s|s| |s mt et] eqn:Ht.
    + (* a sum that is a zero: not with a positive left weight *)
      destruct Hadd as (_ & Hle & _). unfold fle in Hle. simpl in Hle.
      pose proof (pow2_pos (el - Z.min el 0) ltac:(lia)). lia.
    + subst s. simpl. unfold fle. simpl. auto with zarith.
    + destruct Hadd as [Hs _]. discriminate.
    + destruct Hadd as (Hs & Hle & _). simpl in Hs. destruct s; [discriminate|].
      rewrite feqb_positive. apply fdiv_le_one. exact Hle.
Qed.

(** With weights that are not negative and a budget below 2^53 that is
    not negative, the split returns and both shares lie between 0 and the
    budget. *)
Lemma split_budget_within (B : Z) (lw rw : float) :
  sound lw = true -> sound rw = true -> 0 <= B < 2 ^ 53 ->
  exists lb, split_budget B lw rw = Ok (lb, B - lb) /\ 0 <= lb <= B.
Proof.
  intros Hl Hr HB. unfold split_budget.
  destruct (split_ratio_sound lw rw Hl Hr) as (Hnz & Hs & Hle1).
  set (t := if feqb (fadd lw rw) f0 then f1 else fadd lw rw) in *.
  unfold truediv. rewrite Hnz. simpl obind.
  destruct (float_of_int_small B HB) as (b & Hb & Hbs & Hbe & Hbm).
  rewrite Hb. simpl obind.
  destruct (fmul_le b (fdiv lw t) Hbs Hs Hle1) as [Hps Hple].
  destruct (int_of_float_within _ b B Hps Hple ltac:(lia) Hbe Hbm) as (z & Hz & Hzb).
  rewrite Hz. simpl. exists z. split; [reflexivity | exact Hzb].
Qed.

Lemma shares_within (node : BSTNode) :
  forall self B,
    weights_sound self node = true -> 0 <= B < 2 ^ 53 ->
    exists ss, shares self node B = Ok ss /\ Forall (fun s => 0 <= s.2 <= B) ss.
Proof.
  induction node as [c l r a t IHl IHr] using BSTNode_tree_ind.
  intros self B Hs HB. simpl in Hs |- *.
  destruct (NodeLevel_eqb (level c) LEAF) eqn:Hlevel.
  - eexists. split; [reflexivity|]. constructor; [simpl; lia | constructor].
  - apply andb_prop in Hs as [Hs Hsr]. apply andb_prop in Hs as [Hs Hsl].
    apply andb_prop in Hs as [Hlw Hrw]. unfold sound_under in Hlw, Hrw.
    destruct (weight_under self l) as [lw|e]; [|discriminate].
    destruct (weight_under self r) as [rw|e]; [|discriminate]. simpl obind.
    destruct (split_budget_within B lw rw Hlw Hrw HB) as (lb & -> & Hlb).
    simpl obind. simpl fst. simpl snd.
    assert (Sl : exists ls, match l with Some x => shares self x lb | None => Ok [] end
                            = Ok ls /\ Forall (fun s => 0 <= s.2 <= B) ls).
    { destruct l as [x|]; simpl in IHl.
      - destruct (IHl self lb Hsl ltac:(lia)) as (ls & -> & Hf).
        exists ls. split; [reflexivity|].
        eapply Forall_impl; [exact Hf|]. simpl. intros s Hsb. lia.
      - exists []. split; [reflexivity | constructor]. }
    assert (Sr : exists rs, match r with Some x => shares self x (B - lb) | None => Ok [] end
                            = Ok rs /\ Forall (fun s => 0 <= s.2 <= B) rs).
    { destruct r as [y|]; simpl in IHr.
      - destruct (IHr self (B - lb) Hsr ltac:(lia)) as (rs & -> & Hf).
        exists rs. split; [reflexivity|].
        eapply Forall_impl; [exact Hf|]. simpl. intros s Hsb. lia.
      - exists []. split; [reflexivity | constructor]. }
    destruct Sl as (ls & -> & Fl). destruct Sr as (rs & -> & Fr). simpl.
    eexists. split; [reflexivity|]. apply Forall_app. split; assumption.
Qed.

Lemma assign_shares_Forall (P : Z -> Prop) (ss : list (string * Z)) :
  Forall (fun s => P s.2) ss ->
  forall id a, assign_shares ss ∅ !! id = Some a -> P a.
Proof.
  induction ss as [|s ss IH] using rev_ind; intros HF id a.
  - simpl. rewrite lookup_empty. discriminate.
  - apply Forall_app in HF as [HF Hs]. inversion Hs as [|? ? Hp _]; subst.
    unfold assign_shares in *. rewrite fold_left_app. simpl.
    destruct (decide (s.1 = id)) as [<-|Hne].
    + rewrite lookup_insert_eq. intros [= <-]. exact Hp.
    + rewrite lookup_insert_ne by exact Hne. apply IH. exact HF.
Qed.

(** A budget below 2^53 that is not 0 is a float with all 53 digits. *)
Lemma float_of_int_normal (B : Z) (mb : positive) (eb : Z) :
  0 <= B < 2 ^ 53 ->
  float_of_int B = Ok (S754_finite false mb eb) ->
  bounded prec emax mb eb = true
  /\ -52 <= eb <= 0
  /\ Zpos mb = B * 2 ^ (- eb)
  /\ Zpos (digits2_pos mb) = 53.
Proof.
  intros HB Hb.
  destruct (float_of_int_small B HB) as (b & Hb' & Hs & He & Hm).
  rewrite Hb in Hb'. injection Hb' as <-. simpl in Hs, He, Hm.
  pose proof Hs as Hs'. apply bounded_spec in Hs' as [Hc _].
  pose proof (digits2_pos_bounds mb) as [Hlo Hhi].
  set (d := Zpos (digits2_pos mb)) in *.
  assert (Hd : 1 <= d <= 53) by (unfold d, fexp64 in *; lia).
  assert (HB1 : 1 <= B).
  { destruct (Z.eq_dec B 0) as [->|]; [|lia]. simpl in Hm. lia. }
  pose proof (pow2_pos (- eb) ltac:(lia)) as Hp.
  assert (Hlt : 2 ^ (- eb) < 2 ^ 53).
  { assert (2 ^ d <= 2 ^ 53) by (apply pow2_le; lia). nia. }
  apply pow2_lt_inv in Hlt; [|lia].
  split; [exact Hs|]. split; [lia|]. split; [exact Hm|].
  unfold fexp64 in Hc. lia.
Qed.

Lemma int_of_float_exact (B : Z) (b : float) :
  0 <= B < 2 ^ 53 -> float_of_int B = Ok b -> int_of_float b = Ok B.
Proof.
  intros HB Hb.
  destruct (float_of_int_small B HB) as (b' & Hb' & Hs & He & Hm).
  rewrite Hb in Hb'. injection Hb' as <-.
  destruct b as [s|s| |s mb eb]; try discriminate.
  - simpl in Hm. simpl. f_equal. lia.
  - destruct s; [discriminate|]. simpl in He, Hm.
    rewrite (int_of_float_value mb eb eb) by lia.
    rewrite Z.sub_diag, Z.mul_1_r, Hm. f_equal.
    apply Z.div_mul. pose proof (pow2_pos (- eb) ltac:(lia)). lia.
Qed.

(** X10. Allocations stay within the budget: when every weight the pass
    reads is a zero or a positive finite float and the total budget is not
    negative and below 2^53, [balance_tokens] returns, and every leaf of
    the tree is allocated at least 0 and at most the total budget. *)
Theorem balance_tokens_within (self : TokenBalancer) (root : BSTNode) :
  weights_sound self root = true ->
  0 <= total_budget self < 2 ^ 53 ->
  exists allocations,
    (balance_tokens self (Some root)).2 = Ok allocations
    /\ forall id, In id (leaf_ids root) ->
         exists a, allocations !! id = Some a /\ 0 <= a <= total_budget self.
Proof.
  intros Hs HB. rewrite balance_tokens_by_shares.
  destruct (shares_within root self (total_budget self) Hs HB) as (ss & Hss & HF).
  rewrite Hss. simpl. eexists. split; [reflexivity|].
  intros id Hid. rewrite <- (shares_ids _ _ _ _ Hss) in Hid.
  rewrite (assign_shares_lookup ss id (allocation_map self)).
  destruct (in_dec string_dec id (map fst ss)) as [_|Hn]; [|contradiction].
  destruct (proj2 (assign_shares_is_Some ss id) Hid) as [a Ha].
  exists a. split; [exact Ha|].
  apply (assign_shares_Forall (fun a => 0 <= a <= total_budget self) ss HF id a Ha).
Qed.

Lemma balance_tokens_within_witness :
  exists allocations,
    (balance_tokens (new_balancer 100000) (Some documented_tree)).2 = Ok allocations
    /\ forall id, In id (leaf_ids documented_tree) ->
         exists a, allocations !! id = Some a /\ 0 <= a <= 100000.
Proof.
  apply (balance_tokens_within (new_balancer 100000) documented_tree).
  - vm_compute. reflexivity.
  - simpl. split; [lia | vm_compute; reflexivity].
Defined.

(** X11. A child that weighs nothing receives nothing.  When the left
    weight is a zero, the right weight is no NaN and the budget fits a
    float, the left child receives 0 and the right child the whole budget;
    when the right weight is a zero (as it is for a missing child), the
    left weight is positive and finite and the budget is not negative and
    below 2^53, the left child receives the whole budget and the right
    child 0. *)
Theorem weightless_child_gets_nothing (B : Z) (lw rw : float) :
  (is_zero lw = true -> rw <> S754_nan -> is_ok (float_of_int B) = true ->
   split_budget B lw rw = Ok (0, B))
  /\ (is_zero rw = true -> sound lw = true -> is_zero lw = false ->
      0 <= B < 2 ^ 53 ->
      split_budget B lw rw = Ok (B, 0)).
Proof.
  split.
  - intros Hl Hr HB. unfold split_budget, truediv.
    rewrite split_budget_divisor. simpl obind.
    destruct (float_of_int B) as [b|] eqn:Hb; [|discriminate]. simpl obind.
    apply float_of_int_finite in Hb.
    destruct lw as [sl| | |]; try discriminate.
    assert (Hq : is_zero (fdiv (S754_zero sl)
                            (if feqb (fadd (S754_zero sl) rw) f0 then f1
                             else fadd (S754_zero sl) rw)) = true).
    { destruct rw as [sr|sr| |sr mr er]; try contradiction.
      - destruct sl, sr; reflexivity.
      - destruct sr; reflexivity.
      - destruct sr; reflexivity. }
    destruct (fdiv (S754_zero sl) _) as [sq| | |]; try discriminate.
    pose proof (fmul_zero_r b sq Hb) as Hz.
    destruct (fmul b (S754_zero sq)); try discriminate.
    simpl. f_equal. f_equal. lia.
  - intros Hr Hl Hnz HB. unfold split_budget, truediv.
    rewrite split_budget_divisor. simpl obind.
    destruct rw as [sr| | |]; try discriminate.
    destruct lw as [sl|sl| |sl ml el]; try discriminate.
    destruct sl; [discriminate|]. simpl in Hl.
    change (fadd (S754_finite false ml el) (S754_zero sr))
      with (S754_finite false ml el).
    rewrite feqb_positive.
    assert (Hratio : fdiv (S754_finite false ml el) (S754_finite false ml el) = f1).
    { apply (fdiv_exact false false ml ml 4503599627370496 el el (-52) (el - 52));
        [reflexivity | lia | lia |].
      replace (el - (el - 52)) with 52 by lia.
      replace (el + -52 - (el - 52)) with 0 by lia.
      change (Zpos 4503599627370496) with (2 ^ 52). simpl (2 ^ 0). lia. }
    rewrite Hratio.
    destruct (float_of_int B) as [b|] eqn:Hb.
    2:{ destruct (float_of_int_small B HB) as (b' & Hb' & _). congruence. }
    simpl obind.
    assert (Hprod : fmul b f1 = b).
    { destruct (float_of_int_small B HB) as (b' & Hb' & Hs & _).
      rewrite Hb in Hb'. injection Hb' as <-.
      destruct b as [s|s| |s mb eb]; try discriminate.
      - destruct s; reflexivity.
      - destruct s; [discriminate|]. simpl in Hs.
        apply (fmul_exact mb 4503599627370496 mb eb (-52) eb (eb - 52));
          [exact Hs | reflexivity | exact Hs | lia | lia |].
        replace (eb + -52 - (eb - 52)) with 0 by lia.
        replace (eb - (eb - 52)) with 52 by lia.
        change (Zpos 4503599627370496) with (2 ^ 52). simpl (2 ^ 0). lia. }
    rewrite Hprod, (int_of_float_exact B b HB Hb). simpl. f_equal. f_equal. lia.
Qed.

Lemma weightless_child_gets_nothing_witness :
  split_budget 100 f0 f1 = Ok (0, 100) /\ split_budget 100 f1 f0 = Ok (100, 0).
Proof.
  split.
  - apply (proj1 (weightless_child_gets_nothing 100 f0 f1));
      [reflexivity | discriminate | reflexivity].
  - apply (proj2 (weightless_child_gets_nothing 100 f1 f0));
      [reflexivity | reflexivity | reflexivity |].
    split; [lia | vm_compute; reflexivity].
Defined.

(** Twice a float of the format, where that does not overflow. *)
Lemma fadd_self (m : positive) (e : Z) :
  bounded prec emax m e = true -> e < 971 ->
  exists mz ez,
    fadd (S754_finite false m e) (S754_finite false m e) = S754_finite false mz ez
    /\ e <= ez /\ Zpos mz * 2 ^ (ez - e) = 2 * Zpos m.
Proof.
  intros Hb He. pose proof Hb as Hb'. apply bounded_spec in Hb' as [Hc _].
  set (d := Zpos (digits2_pos m)) in *.
  assert (Hd : 1 <= d <= 53) by (unfold d, fexp64 in *; lia).
  assert (Hemin : -1074 <= e) by (unfold fexp64 in Hc; lia).
  pose proof (pow2_pos (e - -1074) ltac:(lia)) as Hp.
  destruct (Z.eq_dec d 53) as [H53|H53].
  - exists m, (e + 1). split; [|split; [lia|]].
    + apply (fadd_exact m m m e e (e + 1) (-1074)); try lia.
      * apply bounded_spec. fold d. unfold fexp64. lia.
      * replace (e + 1 - -1074) with (1 + (e - -1074)) by lia.
        rewrite Z.pow_add_r by lia. change (2 ^ 1) with 2. lia.
    + replace (e + 1 - e) with 1 by lia. change (2 ^ 1) with 2. lia.
  - exists (m~0)%positive, e. split; [|split; [lia|]].
    + apply (fadd_exact m m (m~0) e e e (-1074)); try lia.
      apply bounded_spec. simpl digits2_pos. rewrite Pos2Z.inj_succ. fold d.
      unfold fexp64 in *. lia.
    + rewrite Z.sub_diag. lia.
Qed.

(** X12. Equal weights halve the budget: when the two children have the
    same weight, positive and finite and small enough to be doubled, and
    the budget is not negative and below 2^53, the left child receives
    [B // 2] and the right child the rest. *)
Theorem equal_weights_halve (B : Z) (w : float) :
  sound w = true -> is_zero w = false -> exponent w < 971 ->
  0 <= B < 2 ^ 53 ->
  split_budget B w w = Ok (B / 2, B - B / 2).
Proof.
  intros Hs Hnz He HB.
  destruct w as [s|s| |s m e]; try discriminate.
  destruct s; [discriminate|]. simpl in Hs, He.
  destruct (fadd_self m e Hs He) as (mz & ez & Hadd & Hez & Hval).
  unfold split_budget, truediv. rewrite Hadd, feqb_positive.
  change (is_zero (S754_finite false mz ez)) with false. cbv iota. cbn [obind].
  assert (Hratio : fdiv (S754_finite false m e) (S754_finite false mz ez) = f0_5).
  { apply (fdiv_exact false false m mz 4503599627370496 e ez (-53) (e - 53));
      [reflexivity | lia | lia |].
    replace (e - (e - 53)) with 53 by lia.
    replace (ez + -53 - (e - 53)) with (ez - e) by lia.
    change (Zpos 4503599627370496) with (2 ^ 52).
    change (2 ^ 53) with (2 * 2 ^ 52). nia. }
  rewrite Hratio.
  destruct (float_of_int B) as [b|] eqn:Hb.
  2:{ destruct (float_of_int_small B HB) as (b' & Hb' & _). congruence. }
  cbn [obind].
  destruct b as [sb|sb| |sb mb eb].
  - (* the budget is 0 *)
    assert (B = 0).
    { destruct (float_of_int_small B HB) as (b' & Hb' & _ & _ & Hm).
      rewrite Hb in Hb'. injection Hb' as <-. simpl in Hm.
      pose proof (pow2_pos (- 0) ltac:(lia)). nia. }
    subst B. destruct sb; reflexivity.
  - apply float_of_int_finite in Hb. discriminate.
  - apply float_of_int_finite in Hb. discriminate.
  - assert (sb = false).
    { pose proof (float_of_int_sign B _ ltac:(lia) Hb) as Hsg. exact Hsg. }
    subst sb.
    destruct (float_of_int_normal B mb eb HB Hb) as (Hbb & Heb & Hmb & Hdb).
    assert (Hprod : fmul (S754_finite false mb eb) f0_5 = S754_finite false mb (eb - 1)).
    { apply (fmul_exact mb 4503599627370496 mb eb (-53) (eb - 1) (eb - 53));
        [exact Hbb | reflexivity | | lia | lia |].
      - apply bounded_spec. rewrite Hdb. unfold fexp64. lia.
      - replace (eb + -53 - (eb - 53)) with 0 by lia.
        replace (eb - 1 - (eb - 53)) with 52 by lia.
        change (Zpos 4503599627370496) with (2 ^ 52). simpl (2 ^ 0). lia. }
    rewrite Hprod, (int_of_float_value mb (eb - 1) (eb - 1)) by lia.
    cbn [obind]. rewrite Z.sub_diag, Z.mul_1_r, Hmb.
    replace (- (eb - 1)) with (1 + - eb) by lia.
    rewrite Z.pow_add_r by lia. change (2 ^ 1) with 2.
    pose proof (pow2_pos (- eb) ltac:(lia)).
    rewrite Z.div_mul_cancel_r by lia. reflexivity.
Qed.

Lemma equal_weights_halve_witness : split_budget 7 f1 f1 = Ok (3, 4).
Proof.
  change (split_budget 7 f1 f1 = Ok (7 / 2, 7 - 7 / 2)).
  apply (equal_weights_halve 7 f1 eq_refl eq_refl);
    [simpl; lia | split; [lia | vm_compute; reflexivity]].
Defined.

(** X13. Utilization: a record without allocation has utilization 0.0, so
    the division by zero never happens; a consumption between 0 and the
    allocation gives a float between 0 and 1, and a record consumed in
    full gives 1.0. *)
Theorem utilization_within (r : AllocationRecord) :
  (allocated r = 0 -> utilization r = Ok f0)
  /\ utilization r <> Raise ZeroDivisionError
  /\ (0 <= consumed r <= allocated r ->
      exists u, utilization r = Ok u /\ sound u = true /\ fle u f1)
  /\ (0 < allocated r -> consumed r = allocated r -> utilization r = Ok f1).
Proof.
  unfold utilization, int_truediv.
  split; [|split; [|split]].
  - intros ->. reflexivity.
  - destruct (Z.eqb_spec (allocated r) 0); [discriminate|].
    destruct (fdiv _ _); discriminate.
  - intros Hc. destruct (Z.eqb_spec (allocated r) 0) as [|Hnz].
    + exists f0. split; [reflexivity|]. split; [reflexivity|]. unfold fle. simpl. lia.
    + destruct (allocated r) as [|a|a]; try lia.
      destruct (consumed r) as [|c|c]; try lia.
      * exists (S754_zero false). split; [reflexivity|]. split; [reflexivity|].
        unfold fle. simpl. lia.
      * simpl exact.
        destruct (fdiv_le_one c a 0 0) as [Hs Hle].
        { unfold fle. cbn [mantissa exponent].
          rewrite Z.min_id, Z.sub_diag, Z.pow_0_r. lia. }
        destruct (fdiv (S754_finite false c 0) (S754_finite false a 0))
          as [s|s| |s m e]; try discriminate; eexists; (split; [reflexivity|]); auto.
  - intros Ha Hc. rewrite Hc.
    destruct (Z.eqb_spec (allocated r) 0); [lia|].
    destruct (allocated r) as [|a|a]; try lia. simpl exact.
    rewrite (fdiv_exact false false a a 4503599627370496 0 0 (-52) (-52));
      [reflexivity | reflexivity | lia | lia |].
    replace (0 + -52 - -52) with 0 by lia.
    change (Zpos 4503599627370496) with (2 ^ 52). simpl (2 ^ 0).
    change (2 ^ (0 - -52)) with (2 ^ 52). lia.
Qed.

Lemma utilization_within_witness :
  exists u, utilization (mkAllocationRecord "M111" 500 450 f0) = Ok u
            /\ sound u = true /\ fle u f1.
Proof.
  apply (proj1 (proj2 (proj2 (utilization_within
           (mkAllocationRecord "M111" 500 450 f0))))).
  simpl. lia.
Defined.

Lemma key_eqb_sym (a b : pyval) : key_eqb a b = key_eqb b a.
Proof.
  destruct a as [|[]|?|?|?|?], b as [|[]|?|?|?|?]; unfold key_eqb, as_int;
    first [reflexivity | apply Z.eqb_sym | apply String.eqb_sym].
Qed.

Lemma key_eqb_trans (a b c : pyval) :
  key_eqb a b = true -> key_eqb b c = true -> key_eqb a c = true.
Proof.
  destruct a as [|[]|?|?|?|?], b as [|[]|?|?|?|?], c as [|[]|?|?|?|?];
    unfold key_eqb, as_int; try discriminate; try reflexivity;
    rewrite ?Z.eqb_eq, ?String.eqb_eq; try congruence; try lia.
Qed.

Lemma key_eqb_refl (a : pyval) : hashable a = true -> key_eqb a a = true.
Proof.
  destruct a as [|[]|?|?|?|?]; unfold key_eqb, as_int, hashable; intros H;
    first [discriminate | reflexivity | apply Z.eqb_refl | apply String.eqb_refl].
Qed.

Lemma storage_get_set_same (st : yaml_storage) (p d : pyval) :
  hashable p = true -> storage_get (storage_set st p d) p = Some d.
Proof.
  intros Hp. induction st as [|[k v] st IH]; simpl.
  - rewrite key_eqb_refl by exact Hp. reflexivity.
  - destruct (key_eqb p k) eqn:Hk; simpl; rewrite Hk; [reflexivity | exact IH].
Qed.

Lemma storage_get_set_other (st : yaml_storage) (p q d : pyval) :
  key_eqb q p = false -> storage_get (storage_set st p d) q = storage_get st q.
Proof.
  intros Hne. induction st as [|[k v] st IH]; simpl.
  - rewrite Hne. reflexivity.
  - destruct (key_eqb p k) eqn:Hk; simpl.
    + destruct (key_eqb q k) eqn:Hq; [|reflexivity].
      rewrite key_eqb_sym in Hk.
      rewrite (key_eqb_trans q k p Hq Hk) in Hne. discriminate.
    + destruct (key_eqb q k); [reflexivity | exact IH].
Qed.

(** X14. The mock YAML interface is a dictionary of what was written:
    after a write at a hashable path, a read at that path returns the data
    written and [exists] holds; a read or [exists] at a different path is
    as before the write; a read at a path never written returns the
    default configuration, with success. *)
Theorem yaml_write_then_read (C : Collaborators) (st : yaml_storage) (p q d : pyval) :
  hashable p = true ->
  (yaml_write C st p d).2
  = Ok (mkInterfaceResult true (VDict [("path", p); ("written", VBool true)]) None
                          (str_len C d))
  /\ yaml_read C (yaml_write C st p d).1 p
     = Ok (mkInterfaceResult true d None (str_len C d))
  /\ yaml_exists (yaml_write C st p d).1 p = Ok true
  /\ (key_eqb q p = false ->
      yaml_read C (yaml_write C st p d).1 q = yaml_read C st q
      /\ yaml_exists (yaml_write C st p d).1 q = yaml_exists st q)
  /\ (hashable q = true -> yaml_exists st q = Ok false ->
      yaml_read C st q
      = Ok (mkInterfaceResult true default_config None (str_len C default_config))).
Proof.
  intros Hp. unfold yaml_write, yaml_read, yaml_exists. rewrite Hp. simpl.
  rewrite storage_get_set_same by exact Hp.
  split; [reflexivity|]. split; [reflexivity|]. split; [reflexivity|]. split.
  - intros Hq. rewrite storage_get_set_other by exact Hq. split; reflexivity.
  - intros Hq. rewrite Hq. destruct (storage_get st q); [discriminate | reflexivity].
Qed.

Lemma yaml_write_then_read_witness :
  yaml_read silent (yaml_write silent [] (VStr "output.yaml")
                      (VDict [("key", VStr "value")])).1 (VStr "output.yaml")
  = Ok (mkInterfaceResult true (VDict [("key", VStr "value")]) None
          (str_len silent (VDict [("key", VStr "value")]))).
Proof.
  apply (yaml_write_then_read silent [] (VStr "output.yaml") VNone
           (VDict [("key", VStr "value")]) eq_refl).
Defined.

Section M111Mock.

Context (C : Collaborators).

Lemma charged_write (w : World (mock_yaml C)) (p d : pyval) :
  hashable p = true ->
  charged (mock_yaml C) "M111" "write" [p; d] (per_bytes 50) w
  = ((w.1, storage_set w.2 p d),
     Ok (mkInterfaceResult true (VDict [("path", p); ("written", VBool true)]) None
                           (str_len C d), str_len C d / 50)).
Proof.
  intros Hp. unfold charged.
  change (call (mock_yaml C) "M111" "write" [p; d] w)
    with (let '(st, r) := yaml_write C w.2 p d in ((w.1, st), r)).
  unfold yaml_write. rewrite Hp. reflexivity.
Qed.

Lemma charged_write_unhashable (w : World (mock_yaml C)) (p d : pyval) :
  hashable p = false ->
  charged (mock_yaml C) "M111" "write" [p; d] (per_bytes 50) w = (w, Raise TypeError).
Proof.
  intros Hp. unfold charged.
  change (call (mock_yaml C) "M111" "write" [p; d] w)
    with (let '(st, r) := yaml_write C w.2 p d in ((w.1, st), r)).
  unfold yaml_write. rewrite Hp. destruct w; reflexivity.
Qed.

Lemma M111_write (self : LeafNode) (w : World (mock_yaml C)) (p d : pyval) :
  hashable p = true ->
  let entered :=
    if _connected self then (self, w)
    else (mkLeafNode (node self) true, (w.1, [])) in
  let out := leaf_process (mock_yaml C) (M111 (mock_yaml C)) self w
               [("action", VStr "write"); ("path", p); ("data", d)] in
  _connected out.1.1 = true
  /\ out.1.2 = (entered.2.1, storage_set entered.2.2 p d)
  /\ success out.2 = true.
Proof.
  intros Hp entered out. unfold out, leaf_process. clear out.
  assert (He : (if _connected self then (self, w)
                else connect_leaf (mock_yaml C) (leaf_id (mock_yaml C) (M111 (mock_yaml C)))
                       self w) = entered).
  { unfold entered. destruct (_connected self); reflexivity. }
  rewrite He. clear He.
  assert (Hc : _connected entered.1 = true).
  { unfold entered. destruct (_connected self) eqn:E; [exact E | reflexivity]. }
  destruct entered as [self0 w0]. simpl in Hc |- *.
  change (dict_get [("action", VStr "write"); ("path", p); ("data", d)] "path" _) with p.
  change (dict_get [("action", VStr "write"); ("path", p); ("data", d)] "data" _) with d.
  rewrite charged_write by exact Hp.
  destruct (consume_tokens (node self0) _) as [n b]. simpl. auto.
Qed.

Lemma M111_read (self : LeafNode) (w : World (mock_yaml C)) (p : pyval) :
  hashable p = true ->
  _connected self = true ->
  let out := leaf_process (mock_yaml C) (M111 (mock_yaml C)) self w
               [("action", VStr "read"); ("path", p)] in
  out.1.2 = w
  /\ success out.2 = true
  /\ data out.2 = default default_config (storage_get w.2 p).
Proof.
  intros Hp Hc out. unfold out, leaf_process. clear out. rewrite Hc. simpl.
  change (dict_get [("action", VStr "read"); ("path", p)] "path" _) with p.
  unfold yaml_read. rewrite Hp.
  destruct (storage_get w.2 p); cbn [obind default];
    destruct (consume_tokens (node self) _) as [n b]; simpl; auto.
Qed.

Lemma M111_read_fresh (self : LeafNode) (w : World (mock_yaml C)) (p : pyval) :
  hashable p = true ->
  _connected self = false ->
  let out := leaf_process (mock_yaml C) (M111 (mock_yaml C)) self w
               [("action", VStr "read"); ("path", p)] in
  success out.2 = true /\ data out.2 = default_config.
Proof.
  intros Hp Hc out. unfold out, leaf_process. clear out. rewrite Hc.
  unfold connect_leaf. simpl.
  change (dict_get [("action", VStr "read"); ("path", p)] "path" _) with p.
  unfold yaml_read. rewrite Hp. cbn [storage_get obind].
  destruct (consume_tokens (node _) _) as [n b]. simpl. auto.
Qed.

End M111Mock.

(** X15. Saving and loading a configuration: [save_config] at a hashable
    path succeeds, and a [load_config] at that path afterwards returns the
    configuration saved, whatever the node's token account; another path
    loads what it did before the save if the node was connected, and the
    default configuration if the save made the connection; and after
    [disconnect] the node has forgotten what was saved, since it connects
    to a new interface. *)
Theorem save_config_then_load_config (C : Collaborators) (self : LeafNode)
    (w : World (mock_yaml C)) (config p q : pyval) :
  hashable p = true ->
  let saved := save_config C self w config p in
  saved.2 = true
  /\ (load_config C saved.1.1 saved.1.2 p).2 = config
  /\ (hashable q = true -> key_eqb q p = false ->
      (load_config C saved.1.1 saved.1.2 q).2
      = if _connected self then (load_config C self w q).2 else default_config)
  /\ (load_config C (disconnect_leaf saved.1.1) saved.1.2 p).2 = default_config.
Proof.
  intros Hp saved. unfold saved, save_config. clear saved.
  pose proof (M111_write C self w p config Hp) as Hw. cbv zeta in Hw.
  destruct (leaf_process (mock_yaml C) (M111 (mock_yaml C)) self w
              [("action", VStr "write"); ("path", p); ("data", config)])
    as [[s1 w1] r1]. simpl in Hw. destruct Hw as (Hc1 & Hw1 & Hs1). simpl.
  split; [exact Hs1|]. split; [|split].
  - unfold load_config.
    pose proof (M111_read C s1 w1 p Hp Hc1) as Hr. cbv zeta in Hr.
    destruct (leaf_process (mock_yaml C) (M111 (mock_yaml C)) s1 w1
                [("action", VStr "read"); ("path", p)]) as [[s2 w2] r2].
    simpl in Hr |- *. destruct Hr as (_ & -> & ->).
    rewrite Hw1. simpl. rewrite storage_get_set_same by exact Hp. reflexivity.
  - intros Hq Hne. unfold load_config.
    pose proof (M111_read C s1 w1 q Hq Hc1) as Hr. cbv zeta in Hr.
    destruct (leaf_process (mock_yaml C) (M111 (mock_yaml C)) s1 w1
                [("action", VStr "read"); ("path", q)]) as [[s2 w2] r2].
    simpl in Hr |- *. destruct Hr as (_ & -> & ->).
    rewrite Hw1. destruct (_connected self) eqn:Hc.
    + cbn [fst snd]. rewrite storage_get_set_other by exact Hne.
      pose proof (M111_read C self w q Hq Hc) as Hr. cbv zeta in Hr.
      destruct (leaf_process (mock_yaml C) (M111 (mock_yaml C)) self w
                  [("action", VStr "read"); ("path", q)]) as [[s3 w3] r3].
      simpl in Hr |- *. destruct Hr as (_ & -> & ->). reflexivity.
    + cbn [fst snd storage_set storage_get]. rewrite Hne. reflexivity.
  - unfold load_config.
    pose proof (M111_read_fresh C (disconnect_leaf s1) w1 p Hp eq_refl) as Hr.
    cbv zeta in Hr.
    destruct (leaf_process (mock_yaml C) (M111 (mock_yaml C)) (disconnect_leaf s1) w1
                [("action", VStr "read"); ("path", p)]) as [[s2 w2] r2].
    simpl in Hr |- *. destruct Hr as (-> & ->). reflexivity.
Qed.

Lemma save_config_then_load_config_witness :
  (load_config silent
     (save_config silent (fresh_leaf "M111" 5000) (tt, [])
        (VDict [("key", VStr "value")]) (VStr "output.yaml")).1.1
     (save_config silent (fresh_leaf "M111" 5000) (tt, [])
        (VDict [("key", VStr "value")]) (VStr "output.yaml")).1.2
     (VStr "output.yaml")).2
  = VDict [("key", VStr "value")].
Proof.
  apply (save_config_then_load_config silent (fresh_leaf "M111" 5000) (tt, [])
           (VDict [("key", VStr "value")]) (VStr "output.yaml") VNone eq_refl).
Defined.

(** X16. A path that cannot be a dictionary key (a list or a dictionary):
    the interface raises, [process] catches it, and so [save_config]
    returns [False] and [load_config] returns the empty dictionary; the
    node is charged nothing, and the storage of a connected node is
    unchanged. *)
Theorem unhashable_path_fails (C : Collaborators) (self : LeafNode)
    (w : World (mock_yaml C)) (config p : pyval) :
  hashable p = false ->
  let saved := save_config C self w config p in
  let loaded := load_config C self w p in
  saved.2 = false
  /\ node saved.1.1 = node self
  /\ (_connected self = true -> saved.1.2 = w)
  /\ loaded.2 = VDict []
  /\ node loaded.1.1 = node self
  /\ (_connected self = true -> loaded.1.2 = w).
Proof.
  intros Hp saved loaded. unfold saved, loaded, save_config, load_config, leaf_process.
  clear saved loaded.
  destruct (_connected self) eqn:Hc; unfold connect_leaf; simpl;
    change (dict_get [("action", VStr "write"); ("path", p); ("data", config)] "path" _)
      with p;
    change (dict_get [("action", VStr "write"); ("path", p); ("data", config)] "data" _)
      with config;
    change (dict_get [("action", VStr "read"); ("path", p)] "path" _) with p;
    rewrite charged_write_unhashable by exact Hp;
    unfold yaml_read; rewrite Hp; simpl;
    repeat split; intros; try reflexivity; try discriminate.
Qed.

Lemma unhashable_path_fails_witness :
  (save_config silent (fresh_leaf "M111" 5000) (tt, [])
     (VDict [("key", VStr "value")]) (VList [VStr "a"; VStr "b"])).2 = false.
Proof.
  apply (unhashable_path_fails silent (fresh_leaf "M111" 5000) (tt, [])
           (VDict [("key", VStr "value")]) (VList [VStr "a"; VStr "b"]) eq_refl).
Defined.

Lemma split_dot_nonempty (s : string) : split_dot s <> [].
Proof.
  destruct s as [|c s]; simpl; [discriminate|].
  destruct (Ascii.eqb c "."); [discriminate|].
  destruct (split_dot s); discriminate.
Qed.

Lemma split_dot_free (s : string) : dot_free s = true -> split_dot s = [s].
Proof.
  induction s as [|c s IH]; simpl; [reflexivity|].
  intros H. apply andb_prop in H as [Hc Hs].
  apply negb_true_iff in Hc. rewrite Hc, (IH Hs). reflexivity.
Qed.

Lemma split_dot_app (a b : string) :
  dot_free a = true -> split_dot (a ++ String "." b) = a :: split_dot b.
Proof.
  induction a as [|c a IH]; simpl; [reflexivity|].
  intros H. apply andb_prop in H as [Hc Ha].
  apply negb_true_iff in Hc. rewrite Hc, (IH Ha). reflexivity.
Qed.

Lemma split_dot_dotted (ids : list string) :
  ids <> [] -> forallb dot_free ids = true -> split_dot (dotted ids) = ids.
Proof.
  induction ids as [|a ids IH]; [congruence|].
  intros _ H. simpl in H. apply andb_prop in H as [Ha Hids].
  destruct ids as [|b ids].
  - simpl. apply split_dot_free, Ha.
  - change (dotted (a :: b :: ids)) with (a ++ String "." (dotted (b :: ids))).
    rewrite split_dot_app by exact Ha. f_equal. apply IH; [discriminate | exact Hids].
Qed.

Lemma last_cons {A : Type} (ms : list A) (m n : A) :
  List.last (m :: ms) n = List.last ms m.
Proof.
  revert m n. induction ms as [|x ms IH]; intros m n; [reflexivity|].
  change (List.last (m :: x :: ms) n) with (List.last (x :: ms) n).
  rewrite (IH x n), (IH x m). reflexivity.
Qed.

Lemma _get_node_by_parts_chain (self_id : string) (ns : list BSTNode) (n : BSTNode) :
  is_chain n ns ->
  ~ In self_id (map node_id ns) ->
  _get_node_by_parts self_id n (map node_id ns) = Some (List.last ns n).
Proof.
  revert n. induction ns as [|m ms IH]; intros n Hch Hid; [reflexivity|].
  destruct Hch as [Hstep Hch].
  assert (Hm : String.eqb (node_id m) self_id = false).
  { apply String.eqb_neq. intros E. apply Hid. left. exact E. }
  assert (Hrest : _get_node_by_parts self_id m (map node_id ms) = Some (List.last (m :: ms) n)).
  { rewrite (IH m Hch) by (intros Hin; apply Hid; right; exact Hin).
    f_equal. symmetry. apply last_cons. }
  cbn [map _get_node_by_parts]. rewrite Hm.
  destruct Hstep as [Hl | [Hr Hdiff]].
  - rewrite Hl, String.eqb_refl. exact Hrest.
  - rewrite Hr, String.eqb_refl.
    destruct (left n) as [l|] eqn:El; [|exact Hrest].
    destruct (String.eqb (node_id l) (node_id m)) eqn:E; [|exact Hrest].
    apply String.eqb_eq in E. exfalso. exact (Hdiff l eq_refl E).
Qed.

(** X17. The path of a node finds it: along any chain of children below
    the root (each the left child, or the right child of a node whose left
    child has another id), with ids that contain no dot and differ from
    the root's, [_get_node_by_path] of the ids joined by dots returns the
    chain's last node, with or without the root's id in front; the root's
    id alone returns the root. *)
Theorem path_finds_node (self : BSTNode) (ns : list BSTNode) :
  is_chain self ns ->
  forallb dot_free (node_id self :: map node_id ns) = true ->
  ~ In (node_id self) (map node_id ns) ->
  _get_node_by_path self (dotted (node_id self :: map node_id ns)) = Some (List.last ns self)
  /\ (ns <> [] ->
      _get_node_by_path self (dotted (map node_id ns)) = Some (List.last ns self)).
Proof.
  intros Hch Hfree Hid. unfold _get_node_by_path. split.
  - rewrite split_dot_dotted by (try discriminate; exact Hfree).
    cbn [_get_node_by_parts]. rewrite String.eqb_refl.
    apply _get_node_by_parts_chain; assumption.
  - intros Hne. simpl in Hfree. apply andb_prop in Hfree as [_ Hfree].
    rewrite split_dot_dotted; [|destruct ns; [congruence | discriminate] | exact Hfree].
    apply _get_node_by_parts_chain; assumption.
Qed.

Lemma path_finds_node_witness :
  _get_node_by_path documented_tree "M100.M120.M122" = Some (leaf "M122" 10000).
Proof.
  pose (m120 := inner "M120" LEVEL_2 20000 (leaf "M121" 8000) (leaf "M122" 10000)).
  pose (m100 := inner "M100" LEVEL_1 35000
                  (inner "M110" LEVEL_2 10000 (leaf "M111" 5000) (leaf "M112" 3000))
                  m120).
  refine (proj2 (path_finds_node documented_tree [m100; m120; leaf "M122" 10000]
                   _ eq_refl _) _).
  - simpl. repeat split.
    + left. reflexivity.
    + right. split; [reflexivity|]. intros l [= <-]. discriminate.
    + right. split; [reflexivity|]. intros l [= <-]. discriminate.
  - simpl. intros [H|[H|[H|[]]]]; discriminate.
  - discriminate.
Defined.

Lemma _get_node_by_parts_sound (self_id : string) (parts : list string) (n m : BSTNode) :
  _get_node_by_parts self_id n parts = Some m ->
  exists ns, is_chain n ns /\ List.last ns n = m
             /\ map node_id ns
                = List.filter (fun part => negb (String.eqb part self_id)) parts.
Proof.
  revert n. induction parts as [|part parts IH]; intros n H.
  - injection H as <-. exists []. repeat split.
  - cbn [_get_node_by_parts] in H. cbn [List.filter].
    destruct (String.eqb part self_id) eqn:Es; [exact (IH n H)|]. cbn [negb].
    assert (Hstep : forall c, child_by_id n c -> node_id c = part ->
              _get_node_by_parts self_id c parts = Some m ->
              exists ns, is_chain n ns /\ List.last ns n = m
                /\ map node_id ns
                   = part :: List.filter (fun p => negb (String.eqb p self_id)) parts).
    { intros c Hc Hid Hrec. destruct (IH c Hrec) as (ns & Hch & Hlast & Hids).
      exists (c :: ns). split; [split; assumption|]. split.
      - rewrite <- Hlast. apply last_cons.
      - simpl. rewrite Hid, Hids. reflexivity. }
    destruct (left n) as [l|] eqn:El.
    + destruct (String.eqb (node_id l) part) eqn:E.
      * apply String.eqb_eq in E. apply (Hstep l); [left; exact El | exact E | exact H].
      * destruct (right n) as [r|] eqn:Er; [|discriminate].
        destruct (String.eqb (node_id r) part) eqn:E'; [|discriminate].
        apply String.eqb_eq in E'. apply (Hstep r); [|exact E' | exact H].
        right. split; [exact Er|]. intros l' Hl'. rewrite El in Hl'.
        injection Hl' as <-. rewrite E'. apply String.eqb_neq. exact E.
    + destruct (right n) as [r|] eqn:Er; [|discriminate].
      destruct (String.eqb (node_id r) part) eqn:E'; [|discriminate].
      apply String.eqb_eq in E'. apply (Hstep r); [|exact E' | exact H].
      right. split; [exact Er|]. intros l' Hl'. rewrite El in Hl'. discriminate.
Qed.

(** X18. What [_get_node_by_path] returns is a node of the tree, at the
    end of a chain of children whose ids are the parts of the path other
    than the root's id, in their order; and the empty path returns [None]
    where neither the root nor a child of it has the empty id. *)
Theorem found_node_is_at_path (self : BSTNode) (path : string) :
  (forall m, _get_node_by_path self path = Some m ->
     exists ns, is_chain self ns /\ List.last ns self = m
       /\ map node_id ns
          = List.filter (fun part => negb (String.eqb part (node_id self))) (split_dot path))
  /\ (node_id self <> EmptyString ->
      (forall c, left self = Some c \/ right self = Some c -> node_id c <> EmptyString) ->
      _get_node_by_path self EmptyString = None).
Proof.
  split.
  - intros m. apply _get_node_by_parts_sound.
  - intros Hself Hkids. unfold _get_node_by_path. cbn [split_dot _get_node_by_parts].
    destruct (String.eqb_spec EmptyString (node_id self)) as [E|_]; [congruence|].
    assert (Hr : match right self with
                 | Some r => if String.eqb (node_id r) EmptyString then Some r else None
                 | None => None
                 end = None).
    { destruct (right self) as [r|] eqn:Er; [|reflexivity].
      destruct (String.eqb_spec (node_id r) EmptyString) as [E|_]; [|reflexivity].
      exfalso. exact (Hkids r (or_intror eq_refl) E). }
    rewrite Hr. destruct (left self) as [l|] eqn:El; [|reflexivity].
    destruct (String.eqb_spec (node_id l) EmptyString) as [E|_]; [|reflexivity].
    exfalso. exact (Hkids l (or_introl eq_refl) E).
Qed.

(** *** Products between two doubles *)

Lemma fle_trans (x y z : float) : fle x y -> fle y z -> fle x z.
Proof.
  intros Hxy Hyz.
  set (k := Z.min (exponent x) (Z.min (exponent y) (exponent z))).
  apply (fle_at x y k) in Hxy; [|unfold k; lia | unfold k; lia].
  apply (fle_at y z k) in Hyz; [|unfold k; lia | unfold k; lia].
  apply (fle_at x z k); [unfold k; lia | unfold k; lia | lia].
Qed.

(** A product is rounded to no more than a double above it. *)
Lemma fmul_upper (mx my mz : positive) (ex ey ez k : Z) :
  bounded prec emax mx ex = true -> bounded prec emax my ey = true ->
  bounded prec emax mz ez = true ->
  k <= ex + ey -> k <= ez ->
  Zpos mx * Zpos my * 2 ^ (ex + ey - k) <= Zpos mz * 2 ^ (ez - k) ->
  sound (fmul (S754_finite false mx ex) (S754_finite false my ey)) = true
  /\ fle (fmul (S754_finite false mx ex) (S754_finite false my ey))
         (S754_finite false mz ez).
Proof.
  intros Hx Hy Hz Hk1 Hk2 Hprod.
  pose proof (product_long_enough mx my ex ey Hx Hy) as HP.
  rewrite <- Pos2Z.inj_mul in Hprod.
  unfold fmul, SFmul. simpl xorb.
  assert (Hd : Zpos (mx * my) * 2 ^ (ex + ey - k) < Zpos mz * 2 ^ (ez - k)
               \/ (loc_Exact = loc_Exact
                   /\ Zpos (mx * my) * 2 ^ (ex + ey - k) = Zpos mz * 2 ^ (ez - k))).
  { destruct (Z.eq_dec (Zpos (mx * my) * 2 ^ (ex + ey - k))
                       (Zpos mz * 2 ^ (ez - k))); [right; auto | left; lia]. }
  pose proof (binary_round_aux_le false (Zpos (mx * my)) (ex + ey) loc_Exact mz ez k
                ltac:(lia) Hz Hk1 Hk2 HP Hd) as Hle.
  pose proof (binary_round_aux_valid false (Zpos (mx * my)) (ex + ey) loc_Exact
                ltac:(lia) HP) as Hv.
  destruct (binary_round_aux prec emax false (Zpos (mx * my)) (ex + ey) loc_Exact)
    as [s'|s'| |s' p e']; try contradiction.
  - split; [reflexivity|]. unfold fle. cbn [mantissa exponent].
    pose proof (pow2_pos (ez - Z.min 0 ez) ltac:(lia)). lia.
  - destruct Hle as (-> & Hk & Hle).
    split; [exact Hv|].
    apply (fle_at _ _ k); [simpl; lia | simpl; lia | exact Hle].
Qed.

(** A product is rounded to no less than a double below it. *)
Lemma fmul_lower (mx my mz : positive) (ex ey ez k : Z) :
  bounded prec emax mz ez = true ->
  k <= ex + ey -> k <= ez ->
  Zpos mz * 2 ^ (ez - k) <= Zpos mx * Zpos my * 2 ^ (ex + ey - k) ->
  sound (fmul (S754_finite false mx ex) (S754_finite false my ey)) = true ->
  fle (S754_finite false mz ez)
      (fmul (S754_finite false mx ex) (S754_finite false my ey)).
Proof.
  intros Hz Hk1 Hk2 Hprod.
  rewrite <- Pos2Z.inj_mul in Hprod.
  unfold fmul, SFmul. simpl xorb.
  pose proof (binary_round_aux_ge false (Zpos (mx * my)) (ex + ey) loc_Exact mz ez k
                ltac:(lia) Hz Hk1 Hk2 Hprod) as Hge.
  destruct (binary_round_aux prec emax false (Zpos (mx * my)) (ex + ey) loc_Exact)
    as [s'|s'| |s' p e']; try contradiction; try discriminate.
  intros _. destruct Hge as (-> & Hk & Hge).
  apply (fle_at _ _ k); [simpl; lia | simpl; lia | exact Hge].
Qed.

(** [int] of a double is monotone. *)
Lemma int_of_float_mono (x y : float) :
  sound x = true -> sound y = true -> fle x y ->
  exists a b, int_of_float x = Ok a /\ int_of_float y = Ok b /\ 0 <= a <= b.
Proof.
  intros Hx Hy Hle.
  destruct x as [sx|sx| |sx px ex]; try discriminate;
    destruct y as [sy|sy| |sy py ey]; try discriminate.
  - exists 0, 0. repeat split; lia.
  - destruct sy; [discriminate|].
    rewrite (int_of_float_value py ey (Z.min ey 0)) by lia.
    eexists 0, _. split; [reflexivity|]. split; [reflexivity|].
    split; [lia|]. apply div_nonneg; [|apply pow2_pos; lia].
    pose proof (pow2_pos (ey - Z.min ey 0) ltac:(lia)). lia.
  - destruct sx; [discriminate|]. exfalso. unfold fle in Hle.
    cbn [mantissa exponent] in Hle.
    pose proof (pow2_pos (ex - Z.min ex 0) ltac:(lia)). lia.
  - destruct sx; [discriminate|]. destruct sy; [discriminate|].
    set (k := Z.min (Z.min ex ey) 0).
    rewrite (int_of_float_value px ex k), (int_of_float_value py ey k)
      by (unfold k; lia).
    eexists _, _. split; [reflexivity|]. split; [reflexivity|].
    apply (fle_at _ _ k) in Hle; [|simpl; unfold k; lia | simpl; unfold k; lia].
    cbn [mantissa exponent] in Hle.
    pose proof (pow2_pos (- k) ltac:(unfold k; lia)).
    pose proof (pow2_pos (ex - k) ltac:(unfold k; lia)).
    split; [apply div_nonneg; lia|].
    apply Z.div_le_mono; lia.
Qed.

(** A tenth of a positive integer below 2^53 is, as [int], no more than
    nine tenths of it, and that no more than the integer. *)
Lemma tenth_to_nine_tenths (a : Z) :
  0 < a < 2 ^ 53 ->
  exists x lo hi,
    float_of_int a = Ok x
    /\ int_of_float (fmul x f0_1) = Ok lo
    /\ int_of_float (fmul x f0_9) = Ok hi
    /\ 0 <= lo <= hi /\ hi <= a.
Proof.
  intros Ha.
  destruct (float_of_int_small a ltac:(lia)) as (x & Hx & Hsx & Hex & Hmx).
  destruct x as [sx|sx| |sx mx ex]; try discriminate.
  { exfalso. cbn [mantissa exponent] in Hmx. simpl in Hmx. lia. }
  destruct sx; [discriminate|].
  destruct (float_of_int_normal a mx ex ltac:(lia) Hx) as (Hb & Hrange & Hm & Hd).
  assert (Hhalf : bounded prec emax mx (ex - 1) = true).
  { apply bounded_spec. rewrite Hd. unfold fexp64. lia. }
  assert (H01 : bounded prec emax 7205759403792794 (-56) = true) by reflexivity.
  assert (H09 : bounded prec emax 8106479329266893 (-53) = true) by reflexivity.
  pose proof (pow2_pos (ex - 1 - (ex - 56)) ltac:(lia)) as Hp1.
  destruct (fmul_upper mx 7205759403792794 mx ex (-56) (ex - 1) (ex - 56)
              Hb H01 Hhalf ltac:(lia) ltac:(lia)) as [Hs1 Hle1].
  { replace (ex + -56 - (ex - 56)) with 0 by lia.
    replace (ex - 1 - (ex - 56)) with 55 by lia.
    change (2 ^ 0) with 1. change (2 ^ 55) with 36028797018963968. lia. }
  destruct (fmul_le (S754_finite false mx ex) f0_9 Hb eq_refl) as [Hs9 Hle9].
  { unfold fle, f0_9, f1. cbn [mantissa exponent]. vm_compute. discriminate. }
  assert (Hge9 : fle (S754_finite false mx (ex - 1))
                     (fmul (S754_finite false mx ex) f0_9)).
  { apply (fmul_lower mx 8106479329266893 mx ex (-53) (ex - 1) (ex - 53) Hhalf
             ltac:(lia) ltac:(lia)); [|exact Hs9].
    replace (ex + -53 - (ex - 53)) with 0 by lia.
    replace (ex - 1 - (ex - 53)) with 52 by lia.
    change (2 ^ 0) with 1. change (2 ^ 52) with 4503599627370496. lia. }
  destruct (int_of_float_mono _ _ Hs1 Hs9 (fle_trans _ _ _ Hle1 Hge9))
    as (lo & hi & Hlo & Hhi & Hlohi).
  destruct (int_of_float_within _ (S754_finite false mx ex) a Hs9 Hle9
              ltac:(lia) Hex Hmx) as (hi' & Hhi' & Hhia).
  rewrite Hhi in Hhi'. injection Hhi' as <-.
  exists (S754_finite false mx ex), lo, hi. repeat split; try assumption; lia.
Qed.

(** X19. The simulated load stays within the allocation: with a generator
    that draws from the range it is given, [simulate_load] on a leaf whose
    allocation is positive and below 2^53 returns a consumption between 0
    and the allocation and adds it to the consumed tokens of the leaf's
    record; on an id without a record it returns 0 and changes neither
    the balancer nor the generator. *)
Theorem simulate_load_within {Rng : Type} (pick : Z -> Z -> Rng -> Rng * Z)
    (self : TokenBalancer) (node_id : string) (g : Rng) :
  (forall a b g, a <= b -> a <= (pick a b g).2 <= b) ->
  (leaf_allocations self !! node_id = None ->
   simulate_load pick self node_id g = (self, g, Ok 0))
  /\ (forall r, leaf_allocations self !! node_id = Some r ->
        0 < allocated r < 2 ^ 53 ->
        exists c g',
          simulate_load pick self node_id g
          = (record_consumption self node_id c, g', Ok c)
          /\ 0 <= c <= allocated r
          /\ leaf_allocations (record_consumption self node_id c) !! node_id
             = Some (mkAllocationRecord (rec_node_id r) (allocated r)
                                        (consumed r + c) (timestamp r))).
Proof.
  intros Hpick. split.
  - intros Hnone. unfold simulate_load, get_allocation. rewrite Hnone. reflexivity.
  - intros r Hr Ha.
    destruct (tenth_to_nine_tenths (allocated r) Ha)
      as (x & lo & hi & Hx & Hlo & Hhi & Hlohi & Hhia).
    unfold simulate_load, get_allocation. rewrite Hr.
    destruct (Z.eqb_spec (allocated r) 0) as [E|_]; [lia|].
    rewrite Hx. cbn [obind]. rewrite Hlo. cbn [obind]. rewrite Hhi. cbn [obind].
    unfold randint. destruct (Z.ltb_spec hi lo) as [E|_]; [lia|].
    specialize (Hpick lo hi g ltac:(lia)).
    destruct (pick lo hi g) as [g' c]. cbn [snd] in Hpick.
    exists c, g'. split; [reflexivity|]. split; [lia|].
    unfold record_consumption. rewrite Hr. simpl. apply lookup_insert_eq.
Qed.

Lemma simulate_load_within_witness :
  exists c g',
    simulate_load (fun a _ (g : unit) => (g, a)) busy_and_idle "M111" tt
    = (record_consumption busy_and_idle "M111" c, g', Ok c)
    /\ 0 <= c <= 500.
Proof.
  assert (Hr : leaf_allocations busy_and_idle !! "M111"
               = Some (mkAllocationRecord "M111" 500 450 f0)) by reflexivity.
  destruct (proj2 (simulate_load_within (fun a _ (g : unit) => (g, a))
                     busy_and_idle "M111" tt
                     ltac:(intros a b g' Hab; simpl; lia))
              _ Hr ltac:(simpl; lia)) as (c & g' & Hrun & Hc & _).
  exists c, g'. split; [exact Hrun | exact Hc].
Defined.

(** ** The ids of the workflow history *)

Lemma pretty_N_go_length (x : N) :
  forall s, (String.length s <= String.length (pretty_N_go x s))%nat.
Proof.
  induction (N.lt_wf_0 x) as [x _ IH]. intros s.
  destruct (N.eq_dec x 0%N) as [->|Hx]; [rewrite pretty_N_go_0; lia|].
  rewrite pretty_N_go_step by lia.
  etransitivity; [|apply IH; apply N.div_lt; lia]. simpl. lia.
Qed.

Lemma pretty_N_long (n : N) :
  (10000 <= n)%N -> (5 <= String.length (pretty n))%nat.
Proof.
  intros Hn. unfold pretty, pretty_N.
  destruct (decide (n = 0%N)) as [->|_]; [lia|].
  assert (H1 : (0 < n / 10)%N) by (apply N.div_str_pos; lia).
  assert (H2 : (0 < (n / 10) / 10)%N)
    by (rewrite N.Div0.div_div; apply N.div_str_pos; lia).
  assert (H3 : (0 < ((n / 10) / 10) / 10)%N)
    by (rewrite !N.Div0.div_div; apply N.div_str_pos; lia).
  assert (H4 : (0 < (((n / 10) / 10) / 10) / 10)%N)
    by (rewrite !N.Div0.div_div; apply N.div_str_pos; lia).
  rewrite (pretty_N_go_step n) by lia.
  rewrite (pretty_N_go_step _ _ H1), (pretty_N_go_step _ _ H2),
          (pretty_N_go_step _ _ H3), (pretty_N_go_step _ _ H4).
  etransitivity; [|apply pretty_N_go_length]. simpl. lia.
Qed.

Lemma digit_inj (a b : N) : (a < 10)%N -> (b < 10)%N -> digit a = digit b -> a = b.
Proof.
  intros Ha Hb E. unfold digit in E. injection E as E.
  apply (f_equal N_of_ascii) in E.
  rewrite !N_ascii_embedding in E by lia. lia.
Qed.

Lemma decimal (a : N) :
  (a = 1000 * (a / 1000) + 100 * ((a / 100) mod 10) + 10 * ((a / 10) mod 10)
       + a mod 10)%N.
Proof.
  pose proof (N.div_mod a 10 ltac:(discriminate)) as H1.
  pose proof (N.div_mod (a / 10) 10 ltac:(discriminate)) as H2.
  pose proof (N.div_mod (a / 100) 10 ltac:(discriminate)) as H3.
  rewrite N.Div0.div_div in H2. change (10 * 10)%N with 100%N in H2.
  rewrite N.Div0.div_div in H3. change (100 * 10)%N with 1000%N in H3.
  revert H1 H2 H3.
  generalize (a / 10)%N (a / 100)%N (a / 1000)%N (a mod 10)%N.
  intros q1 q2 q3 r1. generalize (q1 mod 10)%N (q2 mod 10)%N. lia.
Qed.

Lemma format_04d_short (n : N) :
  (n < 10000)%N -> String.length (format_04d n) = 4%nat.
Proof.
  intros Hn. unfold format_04d.
  destruct (N.ltb_spec n 10000) as [_|]; [reflexivity | lia].
Qed.

(** [f"{n:04d}"] tells the numbers apart. *)
Lemma format_04d_inj (a b : N) : format_04d a = format_04d b -> a = b.
Proof.
  intros E.
  destruct (N.ltb_spec a 10000) as [Ha|Ha], (N.ltb_spec b 10000) as [Hb|Hb].
  - unfold format_04d in E.
    destruct (N.ltb_spec a 10000) as [_|]; [|lia].
    destruct (N.ltb_spec b 10000) as [_|]; [|lia].
    unfold digit in E. simpl in E.
    injection E as E1 E2 E3 E4.
    apply (f_equal N_of_ascii) in E1, E2, E3, E4.
    assert (Hd : forall q, (q < 10)%N -> N_of_ascii (ascii_of_N (48 + q)) = (48 + q)%N).
    { intros q Hq. apply N_ascii_embedding. lia. }
    rewrite !Hd in E1, E2, E3, E4
      by first [apply N.mod_lt; discriminate
               | apply N.Div0.div_lt_upper_bound; lia].
    rewrite (decimal a), (decimal b).
    apply N.add_cancel_l in E1, E2, E3, E4. rewrite E1, E2, E3, E4. reflexivity.
  - pose proof (format_04d_short a Ha) as La. rewrite E in La.
    unfold format_04d in La. destruct (N.ltb_spec b 10000) as [|_]; [lia|].
    pose proof (pretty_N_long b Hb). lia.
  - pose proof (format_04d_short b Hb) as Lb. rewrite <- E in Lb.
    unfold format_04d in Lb. destruct (N.ltb_spec a 10000) as [|_]; [lia|].
    pose proof (pretty_N_long a Ha). lia.
  - unfold format_04d in E.
    destruct (N.ltb_spec a 10000) as [|_]; [lia|].
    destruct (N.ltb_spec b 10000) as [|_]; [lia|].
    apply pretty_N_inj in E. exact E.
Qed.

Lemma id_at_inj (i j : nat) : id_at i = id_at j -> i = j.
Proof.
  unfold id_at. intros E. simpl in E. injection E as E.
  apply format_04d_inj in E. lia.
Qed.

Lemma numbered_NoDup (history : list WorkflowRecord) :
  numbered history -> NoDup (map wf_id history).
Proof.
  unfold numbered. intros ->.
  apply NoDup_fmap_2; [|apply NoDup_seq].
  intros i j. apply id_at_inj.
Qed.

Lemma numbered_snoc (history : list WorkflowRecord) (r : WorkflowRecord) :
  numbered history -> wf_id r = id_at (length history) ->
  numbered (history ++ [r]).
Proof.
  unfold numbered. intros Hn Hr.
  rewrite map_app, length_app, seq_app, map_app, Hn. simpl. rewrite Hr. reflexivity.
Qed.

Section Numbering.

Context (C : Collaborators) (H : Handlers).

(** A request at the root leaves the history as it was, or adds one record
    with the id of its position. *)
Lemma root_process_history (self : Root H) (input_data : dict) :
  let after := (root_process C H self input_data).1 in
  _workflow_history H after = _workflow_history H self
  \/ exists r, _workflow_history H after = (_workflow_history H self ++ [r])%list
               /\ wf_id r = id_at (length (_workflow_history H self)).
Proof.
  cbv zeta. unfold root_process.
  destruct (dict_get input_data "action" (VStr "status"));
    try (left; reflexivity).
  destruct (String.eqb s "full_workflow").
  - unfold full_workflow.
    repeat match goal with
    | |- context [if ?b then _ else _] => destruct b
    end.
    + pose proof (tenant_report_history C H self
                    (dict_get input_data "data" (VDict []))) as Ht.
      destruct (_execute_tenant_report_workflow C H self _) as [after [r|e]].
      * destruct Ht as [stamp Ht]. right. eexists. split; [exact Ht | reflexivity].
      * left. exact Ht.
    + destruct (data_sync_history C H self) as (after & r & -> & Hh).
      left. exact Hh.
    + pose proof (full_pipeline_history C H self
                    (dict_get input_data "data" (VDict []))) as [Hp _].
      destruct (_execute_full_pipeline C H self _) as [after [r|e]];
        left; exact Hp.
    + left. reflexivity.
  - destruct (String.eqb s "route_request").
    + unfold route_request.
      destruct (dict_get input_data "target" (VStr "M100"));
        try (left; reflexivity).
      repeat match goal with
      | |- context [if ?b then _ else _] => destruct b
      end;
        try (left; reflexivity);
        destruct (child_process C H _ _ _) as [s1 [r|e]];
        left; reflexivity.
    + destruct (existsb _ other_root_actions); [|left; reflexivity].
      destruct (root_action H s input_data _ _) as [s1 r].
      left. reflexivity.
Qed.

End Numbering.

(** X20. The ids of the workflow history stay distinct: where every record
    has the id of its position ("WF-" and the position, counted from one,
    in four digits or more), as in the empty history of a new root, any
    sequence of requests at the root leaves a history that begins with the
    records it had, is numbered in the same way, and in which no two
    records share an id. *)
Theorem workflow_ids_distinct (C : Collaborators) (H : Handlers) (self : Root H)
    (requests : list dict) :
  numbered (_workflow_history H self) ->
  let after := process_all C H self requests in
  numbered (_workflow_history H after)
  /\ NoDup (map wf_id (_workflow_history H after))
  /\ exists added,
       _workflow_history H after = (_workflow_history H self ++ added)%list
       /\ (length added <= length requests)%nat.
Proof.
  intros Hn. cbv zeta.
  assert (Hinv : numbered (_workflow_history H (process_all C H self requests))
                 /\ exists added,
                      _workflow_history H (process_all C H self requests)
                      = (_workflow_history H self ++ added)%list
                      /\ (length added <= length requests)%nat).
  { revert self Hn. induction requests as [|input_data requests IH]; intros self Hn.
    - split; [exact Hn|]. exists []. rewrite app_nil_r. split; [reflexivity | simpl; lia].
    - change (process_all C H self (input_data :: requests))
        with (process_all C H (root_process C H self input_data).1 requests).
      destruct (root_process_history C H self input_data) as [Hsame | (r & Hadd & Hid)].
      + destruct (IH (root_process C H self input_data).1) as (Hn' & added & Ha & Hl).
        { rewrite Hsame. exact Hn. }
        split; [exact Hn'|]. exists added. rewrite Ha, Hsame.
        split; [reflexivity | simpl; lia].
      + destruct (IH (root_process C H self input_data).1) as (Hn' & added & Ha & Hl).
        { rewrite Hadd. apply numbered_snoc; assumption. }
        split; [exact Hn'|]. exists (r :: added). rewrite Ha, Hadd, <- app_assoc.
        split; [reflexivity | simpl; lia]. }
  destruct Hinv as [Hn' Happ]. split; [exact Hn'|].
  split; [apply numbered_NoDup; exact Hn' | exact Happ].
Qed.

Lemma workflow_ids_distinct_witness :
  NoDup (map wf_id
           (_workflow_history counting
              (process_all silent counting fresh_root
                 [[("action", VStr "full_workflow")];
                  [("action", VStr "status")];
                  [("action", VStr "full_workflow");
                   ("workflow_type", VStr "tenant_report")]]))).
Proof.
  apply (workflow_ids_distinct silent counting fresh_root
           [[("action", VStr "full_workflow")];
            [("action", VStr "status")];
            [("action", VStr "full_workflow");
             ("workflow_type", VStr "tenant_report")]] eq_refl).
Defined.
